(** * Cross-stack configuration validation: a shallow embedding

    The development follows six source files of the repository:

    - [cf-templates/utilities/cross-stack-manager.py]
      (module [Manager]: the registry, its snapshot and its restore, the
      import parameters and the dependency graph; module
      [CrossStackManager]: the check against deployed stacks);
    - [cf-templates/utilities/validate-config.py]
      (module [ConfigValidator]: the graph validator and its entry point);
    - [cf-templates/utilities/validate-dependencies.py]
      (module [DependencyValidator]: the pairwise cycle check and the
      naming check; module [StackValidator]: the checks against deployed
      stacks);
    - [cf-templates/utilities/validation/validation-orchestrator.py]
      (module [Orchestrator]: the three passes, their summary and the exit
      code);
    - [cf-templates/utilities/validation/parameter-validator.py]
      (module [ParameterValidator]: the loop over provided and required
      parameters);
    - [cf-templates/utilities/validation/well-architected-validator.py]
      (module [WellArchitectedValidator]: the compliance pass).

    The validator reads configurations that come out of [json.load], so
    its functions are embedded over a type of Python values with the
    exceptions the interpreter raises on ill-shaped data. *)

From Stdlib Require Import List String Ascii ZArith Bool Arith Lia Permutation.
Import ListNotations.
Open Scope string_scope.
Open Scope list_scope.

Set Implicit Arguments.
Set Warnings "-register-all".

(* ================================================================== *)
(** * Python values and the operations the sources apply to them *)
(* ================================================================== *)

Module Py.

(** What [json.load] can return.  JSON numbers are kept as integers:
    floating point is left out.  A [VDict] lists its entries in insertion
    order, as a Python dict does; a Python dict has no repeated key, so a
    [VDict] with a repeated key denotes no Python object. *)
Inductive value : Type :=
| VNone
| VBool (b : bool)
| VInt (n : Z)
| VStr (s : string)
| VList (l : list value)
| VDict (d : list (string * value)).

(** The exceptions that operations on such values raise, and
    [Exception text] for any other exception, of whatever class, that a
    collaborator lets escape. *)
Inductive exn : Type :=
| TypeError
| KeyError
| IndexError
| AttributeError
| Exception (text : string).

(** What a primitive operation does: it returns or it throws. *)
Inductive result (A : Type) : Type :=
| Return (a : A)
| Throw (e : exn).

Arguments Return {A} a.
Arguments Throw {A} e.

Definition rbind {A B} (m : result A) (k : A -> result B) : result B :=
  match m with
  | Return a => k a
  | Throw e => Throw e
  end.

(** The result of running a piece of Python: a value, an exception, or
    [Unmodelled] where the embedding gives no answer (a recursion that
    ran out of fuel, a dataclass field filled with a value of another
    type than its annotation). *)
Inductive outcome (A : Type) : Type :=
| Ok (a : A)
| Raise (e : exn)
| Unmodelled.

Arguments Ok {A} a.
Arguments Raise {A} e.
Arguments Unmodelled {A}.

Definition of_result {A} (r : result A) : outcome A :=
  match r with
  | Return a => Ok a
  | Throw e => Raise e
  end.

Coercion of_result : result >-> outcome.

Definition obind {A B} (m : outcome A) (k : A -> outcome B) : outcome B :=
  match m with
  | Ok a => k a
  | Raise e => Raise e
  | Unmodelled => Unmodelled
  end.

(** An insertion-ordered dictionary with string keys. *)
Definition dict (V : Type) : Type := list (string * V).

Fixpoint lookup {V} (k : string) (d : dict V) : option V :=
  match d with
  | [] => None
  | (k', v) :: d' => if String.eqb k k' then Some v else lookup k d'
  end.

Definition keys {V} (d : dict V) : list string := map fst d.

Definition has_key {V} (k : string) (d : dict V) : bool :=
  match lookup k d with Some _ => true | None => false end.

(** [d[k] = v]: an existing key keeps its position, a new one goes last. *)
Fixpoint dict_set {V} (k : string) (v : V) (d : dict V) : dict V :=
  match d with
  | [] => [(k, v)]
  | (k', v') :: d' =>
      if String.eqb k k' then (k, v) :: d' else (k', v') :: dict_set k v d'
  end.

(** [bool(v)]. *)
Definition truthy (v : value) : bool :=
  match v with
  | VNone => false
  | VBool b => b
  | VInt n => negb (Z.eqb n 0)
  | VStr s => negb (String.eqb s "")
  | VList l => match l with [] => false | _ => true end
  | VDict d => match d with [] => false | _ => true end
  end.

Definition hashable (v : value) : bool :=
  match v with
  | VList _ | VDict _ => false
  | _ => true
  end.

Definition is_list (v : value) : bool :=
  match v with VList _ => true | _ => false end.

Definition is_dict (v : value) : bool :=
  match v with VDict _ => true | _ => false end.

(** [a == b].  Booleans compare as the integers 0 and 1, lists element by
    element, dicts entry by entry whatever the order. *)
Fixpoint py_eq (a b : value) {struct a} : bool :=
  match a, b with
  | VNone, VNone => true
  | VBool x, VBool y => Bool.eqb x y
  | VInt x, VInt y => Z.eqb x y
  | VBool x, VInt y => Z.eqb (Z.b2z x) y
  | VInt x, VBool y => Z.eqb x (Z.b2z y)
  | VStr x, VStr y => String.eqb x y
  | VList x, VList y =>
      (fix go (x y : list value) {struct x} : bool :=
         match x, y with
         | [], [] => true
         | u :: x', w :: y' => py_eq u w && go x' y'
         | _, _ => false
         end) x y
  | VDict x, VDict y =>
      Nat.eqb (List.length x) (List.length y) &&
      (fix all (x : list (string * value)) {struct x} : bool :=
         match x with
         | [] => true
         | (k, u) :: x' =>
             match lookup k y with
             | Some w => py_eq u w
             | None => false
             end && all x'
         end) x
  | _, _ => false
  end.

(** [needle in hay] on strings. *)
Fixpoint substring_of (needle hay : string) : bool :=
  String.prefix needle hay ||
  match hay with
  | EmptyString => false
  | String _ hay' => substring_of needle hay'
  end.

Fixpoint chars (s : string) : list value :=
  match s with
  | EmptyString => []
  | String c s' => VStr (String c EmptyString) :: chars s'
  end.

(** [x in container]. *)
Definition py_in (x container : value) : result bool :=
  match container with
  | VDict d =>
      if hashable x
      then Return (match x with VStr k => has_key k d | _ => false end)
      else Throw TypeError
  | VList l => Return (existsb (py_eq x) l)
  | VStr s =>
      match x with
      | VStr p => Return (substring_of p s)
      | _ => Throw TypeError
      end
  | _ => Throw TypeError
  end.

(** [v.get(k, default)]; [v.get(k)] is [py_get v k VNone]. *)
Definition py_get (v : value) (k : string) (default : value) : result value :=
  match v with
  | VDict d => Return (match lookup k d with Some w => w | None => default end)
  | _ => Throw AttributeError
  end.

(** [v[k]] for a string [k]. *)
Definition py_getitem (v : value) (k : string) : result value :=
  match v with
  | VDict d => match lookup k d with Some w => Return w | None => Throw KeyError end
  | _ => Throw TypeError
  end.

(** [l[n]] on a sequence: a negative [n] counts from the end. *)
Definition seq_index {A} (l : list A) (n : Z) : result A :=
  let len := Z.of_nat (List.length l) in
  let i := if Z.ltb n 0 then Z.add n len else n in
  if Z.leb 0 i && Z.ltb i len
  then match nth_error l (Z.to_nat i) with
       | Some a => Return a
       | None => Throw IndexError
       end
  else Throw IndexError.

(** [v[x]] for any [x]. *)
Definition py_index (v x : value) : result value :=
  match v with
  | VDict d =>
      if hashable x
      then match x with
           | VStr k => py_getitem v k
           | _ => Throw KeyError
           end
      else Throw TypeError
  | VList l =>
      match x with
      | VInt n => seq_index l n
      | VBool b => seq_index l (Z.b2z b)
      | _ => Throw TypeError
      end
  | VStr s =>
      match x with
      | VInt n => seq_index (chars s) n
      | VBool b => seq_index (chars s) (Z.b2z b)
      | _ => Throw TypeError
      end
  | _ => Throw TypeError
  end.

(** [v.items()], [v.keys()], [v.values()]. *)
Definition py_items (v : value) : result (list (string * value)) :=
  match v with
  | VDict d => Return d
  | _ => Throw AttributeError
  end.

Definition py_keys (v : value) : result (list string) :=
  rbind (py_items v) (fun d => Return (keys d)).

Definition py_values (v : value) : result (list value) :=
  rbind (py_items v) (fun d => Return (map snd d)).

(** What [for x in v] runs through. *)
Definition py_iter (v : value) : result (list value) :=
  match v with
  | VList l => Return l
  | VStr s => Return (chars s)
  | VDict d => Return (map VStr (keys d))
  | _ => Throw TypeError
  end.

(** A Python [set], kept as the list of its members in insertion order.
    Membership hashes its argument first. *)
Definition pyset : Type := list value.

Definition set_mem (x : value) (s : pyset) : result bool :=
  if hashable x then Return (existsb (py_eq x) s) else Throw TypeError.

Definition set_add (x : value) (s : pyset) : result pyset :=
  rbind (set_mem x s) (fun b => Return (if b then s else s ++ [x])).

End Py.

Import Py.

(* ================================================================== *)
(** * cross-stack-manager.py: the registry *)
(* ================================================================== *)

Module Manager.

(** [@dataclass StackOutput]; [conditions: Optional[List[str]] = None]. *)
Record StackOutput : Type := mkOutput {
  name : string;
  description : string;
  value : string;
  export_name : string;
  conditions : option (list string)
}.

(** [@dataclass StackDependency]; [optional_outputs: List[str] = None]. *)
Record StackDependency : Type := mkDependency {
  stack_name : string;
  required_outputs : list string;
  optional_outputs : option (list string)
}.

(** The two dictionaries of a [CrossStackManager]; the AWS client it also
    holds plays no part in what follows. *)
Record registry : Type := mkRegistry {
  stack_outputs : dict (list StackOutput);
  dependencies : dict (list StackDependency)
}.

Definition empty : registry := mkRegistry [] [].

Definition register_stack_outputs
    (stack : string) (outputs : list StackOutput) (m : registry) : registry :=
  mkRegistry (dict_set stack outputs (stack_outputs m)) (dependencies m).

Definition register_dependency
    (stack : string) (dependency : StackDependency) (m : registry) : registry :=
  let deps :=
    if has_key stack (dependencies m)
    then dependencies m
    else dict_set stack [] (dependencies m) in
  let old := match lookup stack deps with Some l => l | None => [] end in
  mkRegistry (stack_outputs m) (dict_set stack (old ++ [dependency]) deps).

Definition str_list (l : list string) : Py.value := VList (map VStr l).

(** An [Optional[List[str]]] attribute as a Python value. *)
Definition opt_list (o : option (list string)) : Py.value :=
  match o with
  | None => VNone
  | Some l => str_list l
  end.

(** [a or b]. *)
Definition py_or (a b : Py.value) : Py.value := if truthy a then a else b.

Definition output_entry (output : StackOutput) : Py.value :=
  VDict [ ("name", VStr (name output));
          ("description", VStr (description output));
          ("value", VStr (value output));
          ("export_name", VStr (export_name output));
          ("conditions", opt_list (conditions output)) ].

Definition dependency_entry (dep : StackDependency) : Py.value :=
  VDict [ ("stack_name", VStr (stack_name dep));
          ("required_outputs", str_list (required_outputs dep));
          ("optional_outputs", py_or (opt_list (optional_outputs dep)) (VList [])) ].

(** [export_configuration]: the [config] dictionary handed to [json.dump].
    Writing it to a file and reading it back with [json.load] is taken to
    return the same value. *)
Definition export_configuration (m : registry) : Py.value :=
  VDict
    [ ("stack_outputs",
        VDict (map (fun '(stack, outputs) => (stack, VList (map output_entry outputs)))
                   (stack_outputs m)));
      ("dependencies",
        VDict (map (fun '(stack, deps) => (stack, VList (map dependency_entry deps)))
                   (dependencies m))) ].

(** Reading back an attribute at its annotated type. *)
Definition as_str (v : Py.value) : outcome string :=
  match v with
  | VStr s => Ok s
  | _ => Unmodelled
  end.

Fixpoint as_str_list_items (l : list Py.value) : outcome (list string) :=
  match l with
  | [] => Ok []
  | v :: l' =>
      obind (as_str v) (fun s =>
      obind (as_str_list_items l') (fun r => Ok (s :: r)))
  end.

Definition as_str_list (v : Py.value) : outcome (list string) :=
  match v with
  | VList l => as_str_list_items l
  | _ => Unmodelled
  end.

Definition as_opt_str_list (v : Py.value) : outcome (option (list string)) :=
  match v with
  | VNone => Ok None
  | _ => obind (as_str_list v) (fun l => Ok (Some l))
  end.

(** One [StackOutput(...)] construction of [import_configuration]. *)
Definition read_output (output_data : Py.value) : outcome StackOutput :=
  obind (py_getitem output_data "name") (fun n =>
  obind (py_getitem output_data "description") (fun d =>
  obind (py_getitem output_data "value") (fun v =>
  obind (py_getitem output_data "export_name") (fun e =>
  obind (py_get output_data "conditions" VNone) (fun c =>
  obind (as_str n) (fun n =>
  obind (as_str d) (fun d =>
  obind (as_str v) (fun v =>
  obind (as_str e) (fun e =>
  obind (as_opt_str_list c) (fun c =>
  Ok (mkOutput n d v e c))))))))))).

Fixpoint read_outputs (l : list Py.value) : outcome (list StackOutput) :=
  match l with
  | [] => Ok []
  | output_data :: l' =>
      obind (read_output output_data) (fun o =>
      obind (read_outputs l') (fun r => Ok (o :: r)))
  end.

(** One [StackDependency(...)] construction of [import_configuration]. *)
Definition read_dependency (dep_data : Py.value) : outcome StackDependency :=
  obind (py_getitem dep_data "stack_name") (fun s =>
  obind (py_getitem dep_data "required_outputs") (fun r =>
  obind (py_get dep_data "optional_outputs" VNone) (fun o =>
  obind (as_str s) (fun s =>
  obind (as_str_list r) (fun r =>
  obind (as_opt_str_list o) (fun o =>
  Ok (mkDependency s r o))))))).

(** The first loop of [import_configuration]. *)
Fixpoint import_outputs (items : list (string * Py.value)) (m : registry)
  : outcome registry :=
  match items with
  | [] => Ok m
  | (stack, outputs_data) :: items' =>
      obind (py_iter outputs_data) (fun l =>
      obind (read_outputs l) (fun outputs =>
      import_outputs items' (register_stack_outputs stack outputs m)))
  end.

(** The inner loop over one stack's [deps_data]. *)
Fixpoint import_stack_dependencies (stack : string) (l : list Py.value) (m : registry)
  : outcome registry :=
  match l with
  | [] => Ok m
  | dep_data :: l' =>
      obind (read_dependency dep_data) (fun dependency =>
      import_stack_dependencies stack l' (register_dependency stack dependency m))
  end.

(** The second loop of [import_configuration]. *)
Fixpoint import_dependencies (items : list (string * Py.value)) (m : registry)
  : outcome registry :=
  match items with
  | [] => Ok m
  | (stack, deps_data) :: items' =>
      obind (py_iter deps_data) (fun l =>
      obind (import_stack_dependencies stack l m) (fun m' =>
      import_dependencies items' m'))
  end.

(** [import_configuration], from the value [json.load] returned. *)
Definition import_configuration (config : Py.value) (m : registry) : outcome registry :=
  obind (py_get config "stack_outputs" (VDict [])) (fun so =>
  obind (py_items so) (fun so_items =>
  obind (import_outputs so_items m) (fun m1 =>
  obind (py_get config "dependencies" (VDict [])) (fun ds =>
  obind (py_items ds) (fun ds_items =>
  import_dependencies ds_items m1))))).

(** Registries that the two registration calls can build: no stack is
    listed twice, and a stack listed with dependencies has at least one. *)
Definition registry_ok (m : registry) : Prop :=
  NoDup (keys (stack_outputs m)) /\
  NoDup (keys (dependencies m)) /\
  Forall (fun kv => snd kv <> []) (dependencies m).

(** [sep.join(l)]. *)
Fixpoint join (sep : string) (l : list string) : string :=
  match l with
  | [] => ""
  | [x] => x
  | x :: rest => (x ++ sep ++ join sep rest)%string
  end.

(** One entry of [import_params]. *)
Definition import_parameter
    (project_name environment output_name : string) (dependency : StackDependency)
  : Py.value :=
  VDict [ ("Type", VStr "String");
          ("Description",
            VStr ("Import " ++ output_name ++ " from " ++ stack_name dependency)%string);
          ("Default",
            VDict [("Fn::ImportValue",
                     VStr (project_name ++ "-" ++ environment ++ "-" ++ output_name)%string)]) ].

(** [generate_import_parameters]: the dictionary [import_params]. *)
Definition generate_import_parameters
    (stack : string) (project_name environment : string) (m : registry)
  : dict Py.value :=
  match lookup stack (dependencies m) with
  | None => []
  | Some deps =>
      fold_left
        (fun import_params dependency =>
           fold_left
             (fun import_params output_name =>
                dict_set ("Import" ++ output_name)%string
                  (import_parameter project_name environment output_name dependency)
                  import_params)
             (required_outputs dependency) import_params)
        deps []
  end.

(** The dictionaries that [generate_dependency_graph] puts under
    ['nodes'] and ['edges']. *)
Record GraphNode : Type := mkNode {
  node_id : string;
  node_label : string;
  node_type : string
}.

Record GraphEdge : Type := mkEdge {
  edge_from : string;
  edge_to : string;
  edge_label : string
}.

Record DependencyGraph : Type := mkGraph {
  graph_nodes : list GraphNode;
  graph_edges : list GraphEdge
}.

(** [all_stacks.add(x)] on a set of names kept in insertion order. *)
Definition add_stack (all_stacks : list string) (x : string) : list string :=
  if existsb (String.eqb x) all_stacks then all_stacks else all_stacks ++ [x].

Section GraphOrder.

(** The order in which Python iterates over the set [all_stacks]. *)
Variable stack_order : list string -> list string.

(** [generate_dependency_graph]. *)
Definition generate_dependency_graph (m : registry) : DependencyGraph :=
  let all_stacks := fold_left add_stack (keys (dependencies m)) [] in
  let all_stacks :=
    fold_left
      (fun all_stacks kv =>
         fold_left (fun all_stacks dep => add_stack all_stacks (stack_name dep))
           (snd kv) all_stacks)
      (dependencies m) all_stacks in
  let nodes := map (fun stack => mkNode stack stack "stack") (stack_order all_stacks) in
  let edges :=
    flat_map
      (fun kv =>
         map (fun dep =>
                mkEdge (stack_name dep) (fst kv)
                  ("exports: " ++ join ", " (required_outputs dep))%string)
             (snd kv))
      (dependencies m) in
  mkGraph nodes edges.

End GraphOrder.

End Manager.

(* ================================================================== *)
(** * validate-config.py: the configuration validator *)
(* ================================================================== *)

Module ConfigValidator.

(** The messages that the validator appends to [self.errors] and
    [self.warnings].  Each constructor stands for one f-string of the
    source and carries the values that the f-string interpolates, in the
    order of the text. *)
Inductive message : Type :=
| MissingSection (section : string)
| OutputsNotList (stack_name : string)
| OutputNotDict (stack_name : string) (i : nat)
| OutputMissingField (stack_name : string) (i : nat) (field : string)
| NamingConvention (stack_name : string) (output_name export_name : Py.value)
| DependenciesNotList (stack_name : string)
| DependencyNotDict (stack_name : string) (i : nat)
| DependencyMissingField (stack_name : string) (i : nat) (field : string)
| RequiredOutputsNotList (stack_name : string) (i : nat)
| OptionalOutputsNotList (stack_name : string) (i : nat)
| NoOutputDefinitions (dep_stack_name : Py.value)
| RequiredOutputMissing (stack_name : string) (required_output dep_stack_name : Py.value)
| OptionalOutputMissing (stack_name : string) (optional_output dep_stack_name : Py.value)
| DuplicateExportName (export_name : Py.value) (stack_name owner : string)
| CircularDependency (cycle : list string).

(** The two attributes of a [ConfigValidator]. *)
Record validator : Type := mkValidator {
  errors : list message;
  warnings : list message
}.

Definition fresh : validator := mkValidator [] [].

(** A method of the validator: it may read and extend the two lists, and
    it returns or raises. *)
Definition M (A : Type) : Type := validator -> outcome (A * validator).

Definition ret {A} (a : A) : M A := fun self => Ok (a, self).

Definition bind {A B} (m : M A) (k : A -> M B) : M B :=
  fun self =>
    match m self with
    | Ok (a, self') => k a self'
    | Raise e => Raise e
    | Unmodelled => Unmodelled
    end.

Definition lift {A} (o : outcome A) : M A :=
  fun self =>
    match o with
    | Ok a => Ok (a, self)
    | Raise e => Raise e
    | Unmodelled => Unmodelled
    end.

Definition add_error (msg : message) : M unit :=
  fun self => Ok (tt, mkValidator (errors self ++ [msg]) (warnings self)).

Definition add_warning (msg : message) : M unit :=
  fun self => Ok (tt, mkValidator (errors self) (warnings self ++ [msg])).

Declare Scope validator_scope.
Delimit Scope validator_scope with val.
Declare Scope outcome_scope.
Delimit Scope outcome_scope with out.

Notation "x <- c1 ;; c2" := (bind c1 (fun x => c2))
  (at level 61, c1 at next level, right associativity) : validator_scope.
Notation "c1 ;; c2" := (bind c1 (fun _ => c2))
  (at level 61, right associativity) : validator_scope.
Notation "x <- c1 ;; c2" := (obind c1 (fun x => c2))
  (at level 61, c1 at next level, right associativity) : outcome_scope.

(** A [for] loop whose body may update a local variable of the method
    (the flag [valid], a set under construction). *)
Fixpoint for_each {A S} (l : list A) (body : A -> S -> M S) (s : S) : M S :=
  match l with
  | [] => ret s
  | a :: l' => bind (body a s) (for_each l' body)
  end.

Fixpoint ofor_each {A S} (l : list A) (body : A -> S -> outcome S) (s : S) : outcome S :=
  match l with
  | [] => Ok s
  | a :: l' => obind (body a s) (ofor_each l' body)
  end.

(** [enumerate(l)]. *)
Definition enumerate {A} (l : list A) : list (nat * A) :=
  combine (seq 0 (List.length l)) l.

Local Open Scope validator_scope.

(** [validate_structure]. *)
Fixpoint validate_structure_sections (sections : list string) (config : Py.value)
  : M bool :=
  match sections with
  | [] => ret true
  | section :: rest =>
      present <- lift (py_in (VStr section) config) ;;
      if negb present
      then add_error (MissingSection section) ;; ret false
      else validate_structure_sections rest config
  end.

Definition validate_structure (config : Py.value) : M bool :=
  validate_structure_sections ["stack_outputs"; "dependencies"] config.

(** The naming-convention test of [validate_stack_outputs]:
    [not ('{ProjectName}' in export_name and '{Environment}' in export_name)]. *)
Definition breaks_convention (export_name : Py.value) : outcome bool :=
  obind (py_in (VStr "{ProjectName}") export_name) (fun p =>
  if p
  then obind (py_in (VStr "{Environment}") export_name) (fun e => Ok (negb e))
  else Ok true).

(** The body of the loop over [enumerate(outputs)]. *)
Definition validate_output (stack_name : string) (entry : nat * Py.value) (valid : bool)
  : M bool :=
  let '(i, output) := entry in
  if negb (is_dict output)
  then add_error (OutputNotDict stack_name i) ;; ret false
  else
    valid <- for_each ["name"; "description"; "value"; "export_name"]
               (fun field valid =>
                  present <- lift (py_in (VStr field) output) ;;
                  if negb present
                  then add_error (OutputMissingField stack_name i field) ;; ret false
                  else ret valid)
               valid ;;
    export_name <- lift (py_get output "export_name" (VStr "")) ;;
    (if truthy export_name
     then
       broken <- lift (breaks_convention export_name) ;;
       if broken
       then
         output_name <- lift (py_get output "name" (VStr "unknown")) ;;
         add_warning (NamingConvention stack_name output_name export_name)
       else ret tt
     else ret tt) ;;
    ret valid.

(** [validate_stack_outputs]. *)
Definition validate_stack_outputs (stack_outputs : Py.value) : M bool :=
  items <- lift (py_items stack_outputs) ;;
  for_each items
    (fun '(stack_name, outputs) valid =>
       match outputs with
       | VList l => for_each (enumerate l) (validate_output stack_name) valid
       | _ => add_error (OutputsNotList stack_name) ;; ret false
       end)
    true.

(** The body of the loop over [enumerate(deps)]. *)
Definition validate_dependency (stack_name : string) (entry : nat * Py.value) (valid : bool)
  : M bool :=
  let '(i, dep) := entry in
  if negb (is_dict dep)
  then add_error (DependencyNotDict stack_name i) ;; ret false
  else
    valid <- for_each ["stack_name"; "required_outputs"]
               (fun field valid =>
                  present <- lift (py_in (VStr field) dep) ;;
                  if negb present
                  then add_error (DependencyMissingField stack_name i field) ;; ret false
                  else ret valid)
               valid ;;
    has_required <- lift (py_in (VStr "required_outputs") dep) ;;
    bad_required <-
      (if has_required
       then r <- lift (py_getitem dep "required_outputs") ;; ret (negb (is_list r))
       else ret false) ;;
    valid <-
      (if bad_required
       then add_error (RequiredOutputsNotList stack_name i) ;; ret false
       else ret valid) ;;
    has_optional <- lift (py_in (VStr "optional_outputs") dep) ;;
    bad_optional <-
      (if has_optional
       then
         o <- lift (py_getitem dep "optional_outputs") ;;
         ret (match o with VNone => false | _ => negb (is_list o) end)
       else ret false) ;;
    if bad_optional
    then add_error (OptionalOutputsNotList stack_name i) ;; ret false
    else ret valid.

(** [validate_dependencies]. *)
Definition validate_dependencies (dependencies : Py.value) : M bool :=
  items <- lift (py_items dependencies) ;;
  for_each items
    (fun '(stack_name, deps) valid =>
       match deps with
       | VList l => for_each (enumerate l) (validate_dependency stack_name) valid
       | _ => add_error (DependenciesNotList stack_name) ;; ret false
       end)
    true.

(** The loop [for dep in dependencies[start]] of the nested function
    [has_path], over the recursive call [again] that its body makes. *)
Fixpoint follow_dependencies
    (again : Py.value -> list (list Py.value) -> outcome (bool * list (list Py.value)))
    (l : list Py.value) (circular_deps : list (list Py.value))
  : outcome (bool * list (list Py.value)) :=
  match l with
  | [] => Ok (false, circular_deps)
  | dep :: l' =>
      (dep_stack <- py_get dep "stack_name" VNone ;;
       if truthy dep_stack
       then
         r <- again dep_stack circular_deps ;;
         if fst r then Ok (true, snd r) else follow_dependencies again l' (snd r)
       else follow_dependencies again l' circular_deps)%out
  end.

(** The nested function [has_path] of [detect_circular_dependencies].
    It closes over [dependencies] and over the list [circular_deps], which
    it extends when it finds its way back to [end]; the list is threaded
    through here.  [visited.copy()] is what the callee receives, so the
    caller's set is untouched by the call.  Python recurses as deep as the
    graph asks for (its recursion limit is left out); the embedding
    recurses on [fuel]. *)
Fixpoint has_path (fuel : nat) (dependencies start end_ : Py.value)
    (visited : pyset) (path : list Py.value) (circular_deps : list (list Py.value))
  : outcome (bool * list (list Py.value)) :=
  match fuel with
  | O => Unmodelled
  | S fuel' =>
      if py_eq start end_ && Nat.ltb 1 (List.length path)
      then Ok (true, circular_deps ++ [path ++ [end_]])
      else
        (seen <- set_mem start visited ;;
         if (seen : bool) then Ok (false, circular_deps)
         else
           visited' <- set_add start visited ;;
           known <- py_in start dependencies ;;
           if (known : bool)
           then
             deps <- py_index dependencies start ;;
             l <- py_iter deps ;;
             follow_dependencies
               (fun dep_stack circular_deps =>
                  has_path fuel' dependencies dep_stack end_ visited'
                    (path ++ [start]) circular_deps)
               l circular_deps
           else Ok (false, circular_deps))%out
  end.

(** The loops that fill [all_stacks]. *)
Definition add_targets (deps : Py.value) (all_stacks : pyset) : outcome pyset :=
  (l <- py_iter deps ;;
   ofor_each l
     (fun dep all_stacks =>
        dep_stack <- py_get dep "stack_name" VNone ;;
        if truthy dep_stack then set_add dep_stack all_stacks else Ok all_stacks)
     all_stacks)%out.

Definition all_stacks_of (dependencies : Py.value) : outcome pyset :=
  (ks <- py_keys dependencies ;;
   all_stacks <- ofor_each (map VStr ks) set_add [] ;;
   vs <- py_values dependencies ;;
   ofor_each vs add_targets all_stacks)%out.

Section Iteration.

(** Python leaves the order in which a [set] is iterated unspecified.
    [set_order] stands for it: the list of members in insertion order goes
    in, the order of iteration comes out. *)
Variable set_order : pyset -> pyset.

(** [detect_circular_dependencies]. *)
Definition detect_circular_dependencies (dependencies : Py.value)
  : outcome (list (list Py.value)) :=
  (all_stacks <- all_stacks_of dependencies ;;
   ofor_each (set_order all_stacks)
     (fun stack circular_deps =>
        known <- py_in stack dependencies ;;
        if (known : bool)
        then
          r <- has_path (S (List.length all_stacks)) dependencies stack stack [] []
                 circular_deps ;;
          Ok (snd r)
        else Ok circular_deps)
     [])%out.

(** The set comprehension [{output['name'] for output in outputs}]. *)
Definition defined_names (outputs : list Py.value) : outcome pyset :=
  ofor_each outputs
    (fun output names => (n <- py_getitem output "name" ;; set_add n names)%out)
    [].

(** The body of the loop over one stack's [deps] in
    [validate_output_dependency_consistency]. *)
Definition check_dependency (stack_outputs : Py.value) (stack_name : string)
    (dep : Py.value) (valid : bool) : M bool :=
  dep_stack_name <- lift (py_get dep "stack_name" VNone) ;;
  required_outputs <- lift (py_get dep "required_outputs" (VList [])) ;;
  optional_outputs <- lift (py_get dep "optional_outputs" (VList [])) ;;
  registered <- lift (py_in dep_stack_name stack_outputs) ;;
  if negb registered
  then add_warning (NoOutputDefinitions dep_stack_name) ;; ret valid
  else
    outputs <- lift (py_index stack_outputs dep_stack_name) ;;
    outputs <- lift (py_iter outputs) ;;
    defined_outputs <- lift (defined_names outputs) ;;
    required <- lift (py_iter required_outputs) ;;
    valid <- for_each required
               (fun required_output valid =>
                  found <- lift (set_mem required_output defined_outputs) ;;
                  if negb found
                  then
                    add_error (RequiredOutputMissing stack_name required_output dep_stack_name) ;;
                    ret false
                  else ret valid)
               valid ;;
    optional <- lift (py_iter optional_outputs) ;;
    for_each optional
      (fun optional_output valid =>
         found <- lift (set_mem optional_output defined_outputs) ;;
         if negb found
         then
           add_warning (OptionalOutputMissing stack_name optional_output dep_stack_name) ;;
           ret valid
         else ret valid)
      valid.

(** [validate_output_dependency_consistency]. *)
Definition validate_output_dependency_consistency (config : Py.value) : M bool :=
  stack_outputs <- lift (py_get config "stack_outputs" (VDict [])) ;;
  dependencies <- lift (py_get config "dependencies" (VDict [])) ;;
  items <- lift (py_items dependencies) ;;
  for_each items
    (fun '(stack_name, deps) valid =>
       l <- lift (py_iter deps) ;;
       for_each l (check_dependency stack_outputs stack_name) valid)
    true.

(** The local dictionary [export_names]: its keys are whatever values the
    configuration gives as export names. *)
Fixpoint owner_of (export_name : Py.value) (export_names : list (Py.value * string))
  : option string :=
  match export_names with
  | [] => None
  | (k, stack) :: rest =>
      if py_eq export_name k then Some stack else owner_of export_name rest
  end.

(** The body of the inner loop of [validate_export_name_uniqueness]; the
    local variables [valid] and [export_names] are threaded through. *)
Definition check_export (stack_name : string) (output : Py.value)
    (st : bool * list (Py.value * string)) : M (bool * list (Py.value * string)) :=
  let '(valid, export_names) := st in
  export_name <- lift (py_get output "export_name" VNone) ;;
  if truthy export_name
  then
    if hashable export_name
    then
      match owner_of export_name export_names with
      | Some owner =>
          add_error (DuplicateExportName export_name stack_name owner) ;;
          ret (false, export_names)
      | None => ret (valid, export_names ++ [(export_name, stack_name)])
      end
    else lift (Throw TypeError)
  else ret st.

(** [validate_export_name_uniqueness]. *)
Definition validate_export_name_uniqueness (stack_outputs : Py.value) : M bool :=
  items <- lift (py_items stack_outputs) ;;
  st <- for_each items
          (fun '(stack_name, outputs) st =>
             l <- lift (py_iter outputs) ;;
             for_each l (check_export stack_name) st)
          (true, []) ;;
  ret (fst st).

(** [' -> '.join(cycle)] accepts strings only. *)
Fixpoint joinable (cycle : list Py.value) : outcome (list string) :=
  match cycle with
  | [] => Ok []
  | VStr s :: rest => (r <- joinable rest ;; Ok (s :: r))%out
  | _ :: _ => Raise TypeError
  end.

(** [validate_all]. *)
Definition validate_all (config : Py.value) : M bool :=
  structured <- validate_structure config ;;
  if negb structured then ret false
  else
    stack_outputs <- lift (py_get config "stack_outputs" (VDict [])) ;;
    v1 <- validate_stack_outputs stack_outputs ;;
    dependencies <- lift (py_get config "dependencies" (VDict [])) ;;
    v2 <- validate_dependencies dependencies ;;
    v3 <- validate_output_dependency_consistency config ;;
    stack_outputs <- lift (py_get config "stack_outputs" (VDict [])) ;;
    v4 <- validate_export_name_uniqueness stack_outputs ;;
    dependencies <- lift (py_get config "dependencies" (VDict [])) ;;
    circular_deps <- lift (detect_circular_dependencies dependencies) ;;
    for_each circular_deps
      (fun cycle _ =>
         names <- lift (joinable cycle) ;;
         add_error (CircularDependency names) ;;
         ret false)
      (v1 && v2 && v3 && v4).

(** [main], from the value that [load_config] returned: the exit code
    that it hands to [sys.exit].  The report that it prints and saves is
    left out. *)
Definition main (config : Py.value) : M nat :=
  if negb (truthy config) then ret 1
  else
    is_valid <- validate_all config ;;
    ret (if (is_valid : bool) then 0 else 1).

End Iteration.

End ConfigValidator.

(* ================================================================== *)
(** * validate-dependencies.py: the pairwise cycle check *)
(* ================================================================== *)

Module DependencyValidator.

Local Open Scope outcome_scope.
Import ConfigValidator.

(** The loop [for dep in dependencies[start]] of this file's [has_path],
    over the recursive call [again] that its body makes. *)
Fixpoint follow_dependencies (again : Py.value -> outcome bool) (l : list Py.value)
  : outcome bool :=
  match l with
  | [] => Ok false
  | dep :: l' =>
      target <- py_getitem dep "stack_name" ;;
      r <- again target ;;
      if (r : bool) then Ok true else follow_dependencies again l'
  end.

(** The nested function [has_path] of this file's
    [detect_circular_dependencies]: plain reachability, no path kept. *)
Fixpoint has_path (fuel : nat) (dependencies start end_ : Py.value) (visited : pyset)
  : outcome bool :=
  match fuel with
  | O => Unmodelled
  | S fuel' =>
      if py_eq start end_ then Ok true
      else
        seen <- set_mem start visited ;;
        if (seen : bool) then Ok false
        else
          visited' <- set_add start visited ;;
          known <- py_in start dependencies ;;
          if (known : bool)
          then
            deps <- py_index dependencies start ;;
            l <- py_iter deps ;;
            follow_dependencies
              (fun target => has_path fuel' dependencies target end_ visited') l
          else Ok false
  end.

Definition add_targets (deps : Py.value) (all_stacks : pyset) : outcome pyset :=
  l <- py_iter deps ;;
  ofor_each l
    (fun dep all_stacks =>
       target <- py_getitem dep "stack_name" ;;
       set_add target all_stacks)
    all_stacks.

Definition all_stacks_of (dependencies : Py.value) : outcome pyset :=
  ks <- py_keys dependencies ;;
  all_stacks <- ofor_each (map VStr ks) set_add [] ;;
  vs <- py_values dependencies ;;
  ofor_each vs add_targets all_stacks.

(** [cycle in circular_deps], on lists of lists. *)
Definition cycle_in (cycle : list Py.value) (circular_deps : list (list Py.value)) : bool :=
  existsb (fun c => py_eq (VList cycle) (VList c)) circular_deps.

Section Iteration.

Variable set_order : pyset -> pyset.

(** The body of the two nested loops over [all_stacks]. *)
Definition check_pair (fuel : nat) (dependencies stack_a stack_b : Py.value)
    (circular_deps : list (list Py.value)) : outcome (list (list Py.value)) :=
  if negb (py_eq stack_a stack_b)
  then
    forth <- has_path fuel dependencies stack_a stack_b [] ;;
    back <- (if (forth : bool) then has_path fuel dependencies stack_b stack_a []
             else Ok false) ;;
    if (back : bool)
    then
      let cycle := [stack_a; stack_b] in
      if negb (cycle_in cycle circular_deps) && negb (cycle_in (rev cycle) circular_deps)
      then Ok (circular_deps ++ [cycle])
      else Ok circular_deps
    else Ok circular_deps
  else Ok circular_deps.

(** [detect_circular_dependencies]. *)
Definition detect_circular_dependencies (config : Py.value)
  : outcome (list (list Py.value)) :=
  dependencies <- py_get config "dependencies" (VDict []) ;;
  all_stacks <- all_stacks_of dependencies ;;
  let fuel := S (List.length all_stacks) in
  ofor_each (set_order all_stacks)
    (fun stack_a circular_deps =>
       ofor_each (set_order all_stacks)
         (fun stack_b circular_deps =>
            check_pair fuel dependencies stack_a stack_b circular_deps)
         circular_deps)
    [].

End Iteration.

(** The strings that [validate_export_naming_consistency] collects, kept
    as the values its f-string interpolates. *)
Inductive issue : Type :=
| NamingIssue (stack_name : string) (output_name export_name : Py.value).

(** The body of the inner loop of [validate_export_naming_consistency]. *)
Definition check_naming (stack_name : string) (output : Py.value) (issues : list issue)
  : outcome (list issue) :=
  export_name <- py_get output "export_name" (VStr "") ;;
  if negb (truthy export_name) then Ok issues
  else
    broken <- breaks_convention export_name ;;
    if (broken : bool)
    then
      output_name <- py_getitem output "name" ;;
      Ok (issues ++ [NamingIssue stack_name output_name export_name])
    else Ok issues.

(** [validate_export_naming_consistency]. *)
Definition validate_export_naming_consistency (config : Py.value) : outcome (list issue) :=
  stack_outputs <- py_get config "stack_outputs" (VDict []) ;;
  items <- py_items stack_outputs ;;
  ofor_each items
    (fun '(stack_name, outputs) issues =>
       l <- py_iter outputs ;;
       ofor_each l (check_naming stack_name) issues)
    [].

End DependencyValidator.

(** The part of validate-dependencies.py that asks CloudFormation. *)
Module StackValidator.

Local Open Scope outcome_scope.
Import ConfigValidator.
Import DependencyValidator.

(** The strings that [validate_stack_dependencies] and
    [validate_all_stacks] put in a result, with the values that they
    interpolate. *)
Inductive finding : Type :=
| BadStatus (dep_stack_name stack_status : Py.value)
| MissingRequired (required_output dep_stack_name : Py.value)
| MissingOptional (optional_output dep_stack_name : Py.value)
| StackAbsent (dep_stack_name : Py.value)
| CheckFailed (dep_stack_name : Py.value) (text : string)
| Cycle (cycle : list string)
| Naming (i : issue).

(** What a call of the CloudFormation client does: it returns a
    response, it raises a [ClientError] whose [response] attribute and
    text are given, or it lets another exception escape. *)
Inductive described : Type :=
| Response (response : Py.value)
| ClientError (e_response : Py.value) (text : string)
| Failure (e : exn).

(** [@dataclass ValidationResult]. *)
Record ValidationResult : Type := mkResult {
  stack_name : Py.value;
  is_valid : bool;
  errors : list finding;
  warnings : list finding;
  missing_exports : list finding;
  circular_dependencies : list Py.value
}.

Section CloudFormation.

(** [self.cf_client.describe_stacks(StackName=...)]: the client is
    taken to answer in the same way each time it is asked about the same
    stack. *)
Variable describe_stacks : Py.value -> described.

(** The loop that fills [available_exports]; only its keys are used. *)
Definition exported_keys (stack_outputs : list Py.value) : outcome pyset :=
  ofor_each stack_outputs
    (fun output available_exports =>
       exported <- py_in (VStr "ExportName") output ;;
       if (exported : bool)
       then
         _ <- py_getitem output "ExportName" ;;
         key <- py_getitem output "OutputKey" ;;
         set_add key available_exports
       else Ok available_exports)
    [].

(** The part of the [try] block that follows a response. *)
Definition check_response (dep_stack_name required_outputs optional_outputs response : Py.value)
    (result : ValidationResult) : outcome ValidationResult :=
  stacks <- py_getitem response "Stacks" ;;
  stack <- py_index stacks (VInt 0) ;;
  stack_status <- py_getitem stack "StackStatus" ;;
  if negb (existsb (py_eq stack_status) [VStr "CREATE_COMPLETE"; VStr "UPDATE_COMPLETE"])
  then
    Ok (mkResult (stack_name result) false
          (errors result ++ [BadStatus dep_stack_name stack_status])
          (warnings result) (missing_exports result) (circular_dependencies result))
  else
    stack_outputs <- py_get stack "Outputs" (VList []) ;;
    l <- py_iter stack_outputs ;;
    available_exports <- exported_keys l ;;
    required <- py_iter required_outputs ;;
    result <-
      ofor_each required
        (fun required_output result =>
           found <- set_mem required_output available_exports ;;
           if negb found
           then
             Ok (mkResult (stack_name result) false (errors result) (warnings result)
                   (missing_exports result ++ [MissingRequired required_output dep_stack_name])
                   (circular_dependencies result))
           else Ok result)
        result ;;
    optional <- py_iter optional_outputs ;;
    ofor_each optional
      (fun optional_output result =>
         found <- set_mem optional_output available_exports ;;
         if negb found
         then
           Ok (mkResult (stack_name result) (is_valid result) (errors result)
                 (warnings result ++ [MissingOptional optional_output dep_stack_name])
                 (missing_exports result) (circular_dependencies result))
         else Ok result)
      result.

(** The handler [except self.cf_client.exceptions.ClientError as e]. *)
Definition on_client_error (dep_stack_name e_response : Py.value) (text : string)
    (result : ValidationResult) : outcome ValidationResult :=
  error <- py_getitem e_response "Error" ;;
  code <- py_getitem error "Code" ;;
  Ok (mkResult (stack_name result) false
        (errors result
         ++ [if py_eq code (VStr "ValidationError")
             then StackAbsent dep_stack_name
             else CheckFailed dep_stack_name text])
        (warnings result) (missing_exports result) (circular_dependencies result)).

(** The body of the loop over [dependencies]. *)
Definition check_stack_dependency (dep : Py.value) (result : ValidationResult)
  : outcome ValidationResult :=
  dep_stack_name <- py_getitem dep "stack_name" ;;
  required_outputs <- py_getitem dep "required_outputs" ;;
  optional_outputs <- py_get dep "optional_outputs" (VList []) ;;
  match describe_stacks dep_stack_name with
  | Response response =>
      check_response dep_stack_name required_outputs optional_outputs response result
  | ClientError e_response text => on_client_error dep_stack_name e_response text result
  | Failure e => Raise e
  end.

(** [validate_stack_dependencies]. *)
Definition validate_stack_dependencies (stack_name config : Py.value)
  : outcome ValidationResult :=
  let result := mkResult stack_name true [] [] [] [] in
  all_dependencies <- py_getitem config "dependencies" ;;
  known <- py_in stack_name all_dependencies ;;
  if negb known then Ok result
  else
    dependencies <- py_index all_dependencies stack_name ;;
    l <- py_iter dependencies ;;
    ofor_each l check_stack_dependency result.

Variable set_order : pyset -> pyset.

(** The loop over [circular_deps] for one stack. *)
Definition note_cycles (circular_deps : list (list Py.value)) (result : ValidationResult)
  : outcome ValidationResult :=
  ofor_each circular_deps
    (fun cycle result =>
       if existsb (py_eq (stack_name result)) cycle
       then
         names <- joinable cycle ;;
         Ok (mkResult (stack_name result) false
               (errors result ++ [Cycle names]) (warnings result)
               (missing_exports result) (circular_dependencies result ++ cycle))
       else Ok result)
    result.

(** [validate_all_stacks]: the values of the dictionary [results], in
    the order of its keys. *)
Definition validate_all_stacks (config : Py.value) : outcome (list ValidationResult) :=
  circular_deps <- detect_circular_dependencies set_order config ;;
  naming_issues <- validate_export_naming_consistency config ;;
  dependencies <- py_get config "dependencies" (VDict []) ;;
  all_stacks <- all_stacks_of dependencies ;;
  results <-
    ofor_each (set_order all_stacks)
      (fun stack_name results =>
         result <- validate_stack_dependencies stack_name config ;;
         result <- note_cycles circular_deps result ;;
         Ok (results ++ [result]))
      [] ;;
  Ok (map (fun result =>
             mkResult (stack_name result) (is_valid result) (errors result)
               (warnings result ++ map Naming naming_issues)
               (missing_exports result) (circular_dependencies result))
          results).

(** The exit code of [main] when every stack is validated:
    [1 if has_errors else 0]. *)
Definition exit_code (results : list ValidationResult) : nat :=
  if existsb (fun r => negb (is_valid r)) results then 1 else 0.

End CloudFormation.

End StackValidator.

(** [CrossStackManager.validate_dependencies] of cross-stack-manager.py,
    which asks CloudFormation as well. *)
Module CrossStackManager.

Local Open Scope outcome_scope.
Import ConfigValidator.
Import Manager.

(** The strings that [validate_dependencies] puts in its result. *)
Inductive notice : Type :=
| BadStatus (dep_stack_name : string) (stack_status : Py.value)
| MissingRequired (required_output dep_stack_name : string)
| MissingOptional (optional_output dep_stack_name : string)
| StackAbsent (dep_stack_name : string).

(** The dictionary [validation_result]. *)
Record validation_result : Type := mkValidation {
  valid : bool;
  errors : list notice;
  warnings : list notice;
  missing_outputs : list notice
}.

Section CloudFormation.

(** [self.cf_client.describe_stacks(StackName=...)]. *)
Variable describe_stacks : Py.value -> StackValidator.described.

(** The set comprehension [{output['OutputKey'] for output in stack_outputs}]. *)
Definition output_keys (stack_outputs : list Py.value) : outcome pyset :=
  ofor_each stack_outputs
    (fun output available_outputs =>
       key <- py_getitem output "OutputKey" ;;
       set_add key available_outputs)
    [].

(** The part of the [try] block that follows a response. *)
Definition check_response (dependency : StackDependency) (response : Py.value)
    (result : validation_result) : outcome validation_result :=
  stacks <- py_getitem response "Stacks" ;;
  stack <- py_index stacks (VInt 0) ;;
  stack_status <- py_getitem stack "StackStatus" ;;
  let result :=
    if negb (existsb (py_eq stack_status) [VStr "CREATE_COMPLETE"; VStr "UPDATE_COMPLETE"])
    then mkValidation false
           (errors result ++ [BadStatus (stack_name dependency) stack_status])
           (warnings result) (missing_outputs result)
    else result in
  stack_outputs <- py_get stack "Outputs" (VList []) ;;
  l <- py_iter stack_outputs ;;
  available_outputs <- output_keys l ;;
  result <-
    ofor_each (required_outputs dependency)
      (fun required_output result =>
         found <- set_mem (VStr required_output) available_outputs ;;
         if negb found
         then
           Ok (mkValidation false (errors result) (warnings result)
                 (missing_outputs result
                  ++ [MissingRequired required_output (stack_name dependency)]))
         else Ok result)
      result ;;
  match optional_outputs dependency with
  | Some (_ :: _ as optional) =>
      ofor_each optional
        (fun optional_output result =>
           found <- set_mem (VStr optional_output) available_outputs ;;
           if negb found
           then
             Ok (mkValidation (valid result) (errors result)
                   (warnings result
                    ++ [MissingOptional optional_output (stack_name dependency)])
                   (missing_outputs result))
           else Ok result)
        result
  | _ => Ok result
  end.

(** The handler [except self.cf_client.exceptions.ClientError as e]: an
    error other than ['ValidationError'] is raised again. *)
Definition on_client_error (dependency : StackDependency) (e_response : Py.value)
    (text : string) (result : validation_result) : outcome validation_result :=
  error <- py_getitem e_response "Error" ;;
  code <- py_getitem error "Code" ;;
  if py_eq code (VStr "ValidationError")
  then
    Ok (mkValidation false (errors result ++ [StackAbsent (stack_name dependency)])
          (warnings result) (missing_outputs result))
  else Raise (Exception text).

(** [validate_dependencies]. *)
Definition validate_dependencies (stack : string) (m : registry)
  : outcome validation_result :=
  let validation_result := mkValidation true [] [] [] in
  match lookup stack (dependencies m) with
  | None => Ok validation_result
  | Some deps =>
      ofor_each deps
        (fun dependency result =>
           match describe_stacks (VStr (stack_name dependency)) with
           | StackValidator.Response response => check_response dependency response result
           | StackValidator.ClientError e_response text =>
               on_client_error dependency e_response text result
           | StackValidator.Failure e => Raise e
           end)
        validation_result
  end.

End CloudFormation.

End CrossStackManager.

(* ================================================================== *)
(** * validation-orchestrator.py: three passes and one summary *)
(* ================================================================== *)

(** The two dataclasses that the orchestrator imports. *)
Module CloudFormationValidator.

Record ValidationIssue : Type := mkIssue {
  severity : string;
  category : string;
  message : string;
  location : option string;
  suggestion : option string
}.

End CloudFormationValidator.

Module ParameterValidator.

Record ParameterValidationResult : Type := mkParameterResult {
  parameter_name : string;
  is_valid : bool;
  errors : list string;
  warnings : list string;
  value : Py.value;
  expected_type : string
}.

Section Checks.

(** The three checks that [validate_parameters] runs on one parameter;
    their regular expressions and conversions are not modelled.  Each
    returns or lets an exception escape. *)
Variable validate_parameter_type :
  string -> Py.value -> Py.value -> result ParameterValidationResult.
Variable validate_parameter_constraints :
  string -> Py.value -> Py.value -> result (list string).
Variable validate_aws_resource_ids : string -> Py.value -> string -> result (list string).

(** The result for a parameter that the template does not define. *)
Definition undefined_parameter (param_name : string) (param_value : Py.value)
  : ParameterValidationResult :=
  mkParameterResult param_name false ["テンプレートに定義されていないパラメータです"] []
    param_value "Unknown".

(** The result for a parameter without default that was not given. *)
Definition missing_parameter (param_name expected_type : string)
  : ParameterValidationResult :=
  mkParameterResult param_name false ["必須パラメータが指定されていません"] []
    VNone expected_type.

(** The body of the loop over [parameters.items()]. *)
Definition check_parameter (template_params : Py.value) (entry : string * Py.value)
    (results : list ParameterValidationResult) : outcome (list ParameterValidationResult) :=
  let '(param_name, param_value) := entry in
  obind (py_in (VStr param_name) template_params) (fun known =>
  if negb known
  then Ok (results ++ [undefined_parameter param_name param_value])
  else
    obind (py_index template_params (VStr param_name)) (fun param_config =>
    obind (validate_parameter_type param_name param_value param_config) (fun result =>
    obind (validate_parameter_constraints param_name param_value param_config)
      (fun constraint_errors =>
    let errors1 := errors result ++ constraint_errors in
    obind (py_get param_config "Type" (VStr "String")) (fun param_type =>
    obind
      (match param_type with
       | VStr t =>
           if String.prefix "AWS::" t
           then
             obind (validate_aws_resource_ids param_name param_value t) (fun aws_errors =>
             Ok (errors1 ++ aws_errors))
           else Ok errors1
       | _ => Raise AttributeError
       end) (fun errors2 =>
    Ok (results
        ++ [mkParameterResult (parameter_name result)
              (match errors2 with [] => is_valid result | _ => false end)
              errors2 (warnings result) (value result) (expected_type result)]))))))).

(** The body of the loop over [template_params.items()]. *)
Definition check_required (parameters : Py.value) (entry : string * Py.value)
    (results : list ParameterValidationResult) : outcome (list ParameterValidationResult) :=
  let '(param_name, param_config) := entry in
  obind (py_in (VStr "Default") param_config) (fun has_default =>
  if (has_default : bool) then Ok results
  else
    obind (py_in (VStr param_name) parameters) (fun given =>
    if (given : bool) then Ok results
    else
      obind (py_get param_config "Type" (VStr "String")) (fun param_type =>
      obind (Manager.as_str param_type) (fun expected =>
      Ok (results ++ [missing_parameter param_name expected]))))).

(** [validate_parameters]. *)
Definition validate_parameters (template parameters : Py.value)
  : outcome (list ParameterValidationResult) :=
  obind (py_get template "Parameters" (VDict [])) (fun template_params =>
  obind (py_items parameters) (fun given =>
  obind (ConfigValidator.ofor_each given (check_parameter template_params) [])
    (fun results =>
  obind (py_items template_params) (fun declared =>
  ConfigValidator.ofor_each declared (check_required parameters) results)))).

End Checks.

End ParameterValidator.

Module Orchestrator.

Import CloudFormationValidator.

(** The strings ['PASS'], ['FAIL'], ['WARNING'], ['SKIPPED'], ['ERROR']. *)
Inductive Status : Type := PASS | FAIL | WARNING | SKIPPED | ERROR.

(** What a pass reports besides its counts: [issues] for the syntax
    pass, [results] and [config_errors] for the parameter pass,
    [messages] for the Well-Architected pass. *)
Inductive findings : Type :=
| Issues (issues : list ValidationIssue)
| Results (results : list ParameterValidator.ParameterValidationResult)
          (config_errors : list string)
| Messages (messages : list string).

(** The dictionary that a pass returns.  The parameter pass sets no
    ['info_count'] key, hence the option. *)
Record pass_result : Type := mkPass {
  status : Status;
  is_valid : bool;
  found : findings;
  error_count : nat;
  warning_count : nat;
  info_count : option nat
}.

(** [@dataclass ValidationSummary]. *)
Record ValidationSummary : Type := mkSummary {
  template_path : string;
  parameters_path : option string;
  timestamp : string;
  overall_status : Status;
  syntax_validation : pass_result;
  parameter_validation : pass_result;
  well_architected_validation : pass_result;
  total_issues : nat;
  errors : nat;
  warnings : nat;
  infos : nat
}.

(** [d.get('info_count', 0)]. *)
Definition get_info_count (r : pass_result) : nat :=
  match info_count r with Some n => n | None => 0 end.

(** [_create_validation_summary]. *)
Definition _create_validation_summary
    (template_path : string) (parameters_path : option string) (timestamp : string)
    (syntax_results parameter_results wa_results : pass_result) : ValidationSummary :=
  let all_valid :=
    is_valid syntax_results && is_valid parameter_results && is_valid wa_results in
  let has_warnings :=
    Nat.ltb 0 (warning_count syntax_results) ||
    Nat.ltb 0 (warning_count parameter_results) ||
    Nat.ltb 0 (warning_count wa_results) in
  let overall_status :=
    if all_valid then (if has_warnings then WARNING else PASS) else FAIL in
  let total_errors :=
    error_count syntax_results + error_count parameter_results + error_count wa_results in
  let total_warnings :=
    warning_count syntax_results + warning_count parameter_results
    + warning_count wa_results in
  let total_infos := get_info_count syntax_results + get_info_count wa_results in
  mkSummary template_path parameters_path timestamp overall_status
    syntax_results parameter_results wa_results
    (total_errors + total_warnings + total_infos)
    total_errors total_warnings total_infos.

(** [bool(path)] for an [Optional[str]]. *)
Definition given (path : option string) : bool :=
  match path with
  | Some p => negb (String.eqb p "")
  | None => false
  end.

Definition path_text (path : option string) : string :=
  match path with Some p => p | None => "" end.

Section Collaborators.

(** The validators behind the passes, and the clock.  Each call returns
    or lets an exception escape. *)
Variable load_parameters : string -> result Py.value.
Variable load_template : string -> result Py.value.
Variable validate_template :
  string -> Py.value -> result (bool * list ValidationIssue).
Variable validate_json_config_schema : Py.value -> string -> result (list string).
Variable validate_config_consistency : Py.value -> result (list string).
Variable validate_parameters :
  Py.value -> Py.value -> result (list ParameterValidator.ParameterValidationResult).
Variable validate_cloudformation_template : string -> result (bool * list string).
(** [str(e)]. *)
Variable str_of : exn -> string.
(** [datetime.datetime.now().isoformat()]. *)
Variable now : string.

Definition count_severity (s : string) (issues : list ValidationIssue) : nat :=
  List.length (filter (fun i => String.eqb (severity i) s) issues).

(** The [try] block of [_run_syntax_validation]. *)
Definition syntax_try (template_path : string) (parameters_path : option string)
  : result pass_result :=
  rbind
    (if given parameters_path
     then
       rbind (load_parameters (path_text parameters_path)) (fun parameter_values =>
       if truthy parameter_values
       then
         rbind (py_in (VStr "serviceConfigs") parameter_values) (fun nested =>
         if (nested : bool)
         then py_getitem parameter_values "serviceConfigs"
         else Return parameter_values)
       else Return parameter_values)
     else Return VNone)
    (fun parameter_values =>
  rbind (validate_template template_path parameter_values) (fun '(is_valid, issues) =>
  Return (mkPass (if (is_valid : bool) then PASS else FAIL) is_valid (Issues issues)
            (count_severity "error" issues)
            (count_severity "warning" issues)
            (Some (count_severity "info" issues))))).

(** [_run_syntax_validation]: the [try] block and its [except Exception]. *)
Definition _run_syntax_validation (template_path : string) (parameters_path : option string)
  : pass_result :=
  match syntax_try template_path parameters_path with
  | Return r => r
  | Throw e =>
      mkPass ERROR false
        (Issues [mkIssue "error" "system"
                   ("構文検証中にエラーが発生: " ++ str_of e)%string None None])
        1 0 (Some 0)
  end.

Definition parameter_error (text : string) : pass_result :=
  mkPass ERROR false (Results [] [text]) 1 0 None.

(** The [try] block of [_run_parameter_validation]. *)
Definition parameter_try (template_path : string) (parameters_path config_path : option string)
  : result pass_result :=
  rbind (load_template template_path) (fun template =>
  if negb (truthy template)
  then Return (parameter_error "テンプレートの読み込みに失敗")
  else
    rbind (load_parameters (path_text parameters_path)) (fun parameters =>
    if negb (truthy parameters)
    then Return (parameter_error "パラメータファイルの読み込みに失敗")
    else
      rbind (if given config_path
             then validate_json_config_schema parameters (path_text config_path)
             else Return []) (fun config_errors =>
      rbind (validate_config_consistency parameters) (fun consistency_errors =>
      let config_errors := config_errors ++ consistency_errors in
      rbind (py_get parameters "serviceConfigs" parameters) (fun param_values =>
      rbind (validate_parameters template param_values) (fun results =>
      let invalid :=
        filter (fun r => negb (ParameterValidator.is_valid r)) results in
      let has_errors :=
        match invalid with [] => false | _ => true end
        || match config_errors with [] => false | _ => true end in
      Return (mkPass (if has_errors then FAIL else PASS) (negb has_errors)
                (Results results config_errors)
                (List.length invalid + List.length config_errors)
                (list_sum (map (fun r => List.length (ParameterValidator.warnings r)) results))
                None))))))).

(** [_run_parameter_validation]. *)
Definition _run_parameter_validation
    (template_path : string) (parameters_path config_path : option string)
  : pass_result :=
  if negb (given parameters_path)
  then mkPass SKIPPED true (Results [] []) 0 0 None
  else
    match parameter_try template_path parameters_path config_path with
    | Return r => r
    | Throw e =>
        parameter_error ("パラメータ検証中にエラーが発生: " ++ str_of e)%string
    end.

Definition count_prefix (p : string) (messages : list string) : nat :=
  List.length (filter (String.prefix p) messages).

(** The [try] block of [_run_well_architected_validation]. *)
Definition well_architected_try (template_path : string) : result pass_result :=
  rbind (validate_cloudformation_template template_path) (fun '(is_valid, messages) =>
  Return (mkPass (if negb is_valid then FAIL else PASS) is_valid (Messages messages)
            (count_prefix "Error" messages)
            (count_prefix "Warning" messages)
            (Some (count_prefix "✓" messages)))).

(** [_run_well_architected_validation]. *)
Definition _run_well_architected_validation (template_path : string) : pass_result :=
  match well_architected_try template_path with
  | Return r => r
  | Throw e =>
      mkPass ERROR false
        (Messages [("Well-Architected検証中にエラーが発生: " ++ str_of e)%string])
        1 0 (Some 0)
  end.

(** [run_comprehensive_validation]; the progress lines it prints are
    left out. *)
Definition run_comprehensive_validation
    (template_path : string) (parameters_path config_path : option string)
  : ValidationSummary :=
  let timestamp := now in
  let syntax_results := _run_syntax_validation template_path parameters_path in
  let parameter_results :=
    _run_parameter_validation template_path parameters_path config_path in
  let wa_results := _run_well_architected_validation template_path in
  _create_validation_summary template_path parameters_path timestamp
    syntax_results parameter_results wa_results.

End Collaborators.

(** The exit code that [main] hands to [sys.exit]:
    [0 if summary.overall_status in ['PASS', 'WARNING'] else 1]. *)
Definition exit_code (summary : ValidationSummary) : nat :=
  match overall_status summary with
  | PASS | WARNING => 0
  | _ => 1
  end.

End Orchestrator.

(* ================================================================== *)
(** * well-architected-validator.py: the compliance pass *)
(* ================================================================== *)

Module WellArchitectedValidator.

(** A loop of a function that returns or throws, over its local
    variables. *)
Fixpoint rfor_each {A S} (l : list A) (body : A -> S -> result S) (s : S) : result S :=
  match l with
  | [] => Return s
  | a :: l' => rbind (body a s) (rfor_each l' body)
  end.

Section Validator.

(** [self.compliance_data], as [_load_compliance_data] left it: the
    content of the compliance file, or [{}] when it could not be read. *)
Variable compliance_data : Py.value.
(** [str(v)], as an f-string formats a value. *)
Variable py_str : Py.value -> string.
(** [str(e)]. *)
Variable str_of : exn -> string.
(** Opening the template and parsing it, as JSON or as YAML; the
    mappings of a YAML template are taken to have string keys, as those
    of JSON have. *)
Variable read_template : string -> result Py.value.

(** The body of the loop over a pillar's [practices]; [is_valid] and
    [messages] are the local variables. *)
Definition check_practice (pillar_name : string) (valid_practices practice : Py.value)
    (st : bool * list string) : result (bool * list string) :=
  let '(is_valid, messages) := st in
  rbind (py_in practice valid_practices) (fun known =>
  if negb known
  then
    Return (false,
            messages ++ [("Warning: Unknown best practice '" ++ py_str practice
                          ++ "' in pillar '" ++ pillar_name ++ "'")%string])
  else
    rbind (py_index valid_practices practice) (fun text =>
    Return (is_valid,
            messages ++ [("✓ " ++ py_str practice ++ ": " ++ py_str text)%string]))).

(** The body of the loop over [compliance.items()]. *)
Definition check_pillar (pillars : Py.value) (entry : string * Py.value)
    (st : bool * list string) : result (bool * list string) :=
  let '(pillar_name, practices) := entry in
  let '(is_valid, messages) := st in
  rbind (py_in (VStr pillar_name) pillars) (fun known =>
  if negb known
  then
    Return (is_valid,
            messages ++ [("Warning: Unknown pillar '" ++ pillar_name ++ "'")%string])
  else
    rbind (py_index pillars (VStr pillar_name)) (fun pillar_data =>
    rbind (py_get pillar_data "bestPractices" (VDict [])) (fun valid_practices =>
    rbind (py_iter practices) (fun l =>
    rfor_each l (check_practice pillar_name valid_practices) (is_valid, messages))))).

(** [validate_template_metadata]. *)
Definition validate_template_metadata (metadata : Py.value) : result (bool * list string) :=
  rbind (py_in (VStr "wellArchitectedCompliance") metadata) (fun present =>
  if negb present
  then Return (false, ["Warning: No Well-Architected compliance information found"])
  else
    rbind (py_getitem metadata "wellArchitectedCompliance") (fun compliance =>
    rbind (py_get compliance_data "wellArchitectedFramework" (VDict [])) (fun framework =>
    rbind (py_get framework "pillars" (VDict [])) (fun pillars =>
    rbind (py_items compliance) (fun items =>
    rfor_each items (check_pillar pillars) (true, [])))))).

(** The [try] block of [validate_cloudformation_template]. *)
Definition template_try (template_path : string) : result (bool * list string) :=
  rbind (read_template template_path) (fun template =>
  rbind (py_in (VStr "Metadata") template) (fun present =>
  if negb present
  then Return (false, ["Warning: Template does not contain Metadata section"])
  else
    rbind (py_getitem template "Metadata") (fun metadata =>
    validate_template_metadata metadata))).

(** [validate_cloudformation_template]: the [try] block and its
    [except Exception]. *)
Definition validate_cloudformation_template (template_path : string)
  : bool * list string :=
  match template_try template_path with
  | Return r => r
  | Throw e => (false, [("Error reading template: " ++ str_of e)%string])
  end.

End Validator.

End WellArchitectedValidator.

(* ================================================================== *)
(** * Vocabulary of the statements *)
(* ================================================================== *)

(** ** The orchestrator *)

Module OrchestratorFacts.

Import Orchestrator.

(** A pass that did not complete cleanly: status [FAIL] or [ERROR]. *)
Definition failed (r : pass_result) : bool :=
  match status r with
  | FAIL | ERROR => true
  | _ => false
  end.

Definition skipped (r : pass_result) : bool :=
  match status r with
  | SKIPPED => true
  | _ => false
  end.

(** What the three runners guarantee about the dictionaries they build:
    [is_valid] is false exactly for [FAIL] and [ERROR], and a [SKIPPED]
    pass counts nothing. *)
Definition coherent (r : pass_result) : Prop :=
  is_valid r = negb (failed r) /\
  (status r = SKIPPED -> error_count r = 0 /\ warning_count r = 0).

(** The counts of a pass as the totals see them when skipped passes are
    set aside. *)
Definition errors_if_ran (r : pass_result) : nat :=
  if skipped r then 0 else error_count r.

Definition warnings_if_ran (r : pass_result) : nat :=
  if skipped r then 0 else warning_count r.

(** How many diagnostics a pass carries. *)
Definition diagnostics (r : pass_result) : nat :=
  match found r with
  | Issues issues => List.length issues
  | Results results config_errors => List.length results + List.length config_errors
  | Messages messages => List.length messages
  end.

(** What [except Exception] makes of a [try] block: its value when it
    returned, and otherwise an [ERROR] result with one diagnostic and an
    error count of one. *)
Definition isolated (attempt : result pass_result) (r : pass_result) : Prop :=
  match attempt with
  | Return r' => r = r'
  | Throw _ =>
      status r = ERROR /\ is_valid r = false /\
      error_count r = 1 /\ warning_count r = 0 /\ diagnostics r = 1
  end.

End OrchestratorFacts.

(** ** The registry *)

Module ManagerFacts.

Import Manager.

(** A dependency as it comes back from a snapshot: an absent
    [optional_outputs] has become the empty list. *)
Definition restored (dep : StackDependency) : StackDependency :=
  mkDependency (stack_name dep) (required_outputs dep)
    (Some (match optional_outputs dep with Some l => l | None => [] end)).

Definition restored_all (ds : dict (list StackDependency)) : dict (list StackDependency) :=
  map (fun kv => (fst kv, map restored (snd kv))) ds.

(** The registry of the counterexample: one output, and one dependency
    whose [optional_outputs] was never set. *)
Definition never_set : registry :=
  register_dependency "ec2-stack" (mkDependency "vpc-stack" ["VPCId"] None)
    (register_stack_outputs "vpc-stack"
       [mkOutput "VPCId" "VPC ID" "!Ref VPC" "{ProjectName}-{Environment}-VPC-ID" None]
       empty).

End ManagerFacts.

(** ** The validator on a snapshot *)

Module ValidatorFacts.

Import Manager ConfigValidator.

(** [emits m a es ws]: from any state, the method [m] returns [a] after
    appending the errors [es] and the warnings [ws], in this order. *)
Definition emits {A} (m : M A) (a : A) (es ws : list message) : Prop :=
  forall self,
    m self = Ok (a, mkValidator (errors self ++ es) (warnings self ++ ws)).

Definition is_nil {A} (l : list A) : bool :=
  match l with [] => true | _ => false end.

(** The two sections of a snapshot. *)
Definition outputs_section (so : dict (list StackOutput)) : Py.value :=
  VDict (map (fun '(stack, outputs) => (stack, VList (map output_entry outputs))) so).

Definition dependencies_section (ds : dict (list StackDependency)) : Py.value :=
  VDict (map (fun '(stack, deps) => (stack, VList (map dependency_entry deps))) ds).

(** The naming convention: both placeholders occur in the export name. *)
Definition follows_convention (e : string) : bool :=
  substring_of "{ProjectName}" e && substring_of "{Environment}" e.

Definition naming_warning (stack : string) (o : StackOutput) : list message :=
  if negb (String.eqb (export_name o) "") && negb (follows_convention (export_name o))
  then [NamingConvention stack (VStr (name o)) (VStr (export_name o))]
  else [].

Definition naming_warnings (so : dict (list StackOutput)) : list message :=
  flat_map (fun kv => flat_map (naming_warning (fst kv)) (snd kv)) so.

(** The declared dependencies, each with the stack that declares it, in
    the order in which the validator visits them. *)
Definition edges (ds : dict (list StackDependency)) : list (string * StackDependency) :=
  flat_map (fun kv => map (pair (fst kv)) (snd kv)) ds.

(** The output names defined on a stack, when it has registered outputs. *)
Definition defined_on (so : dict (list StackOutput)) (stack : string) : option (list string) :=
  option_map (map name) (lookup stack so).

Definition optional_list (d : StackDependency) : list string :=
  match optional_outputs d with Some l => l | None => [] end.

Definition mem (x : string) (l : list string) : bool := existsb (String.eqb x) l.

(** The names of [wanted], with their repetitions, that [defined] lacks. *)
Definition missing (defined wanted : list string) : list string :=
  filter (fun x => negb (mem x defined)) wanted.

(** What the consistency check says about one edge. *)
Definition edge_errors (so : dict (list StackOutput)) (e : string * StackDependency)
  : list message :=
  match defined_on so (stack_name (snd e)) with
  | None => []
  | Some defined =>
      map (fun x => RequiredOutputMissing (fst e) (VStr x) (VStr (stack_name (snd e))))
          (missing defined (required_outputs (snd e)))
  end.

Definition edge_warnings (so : dict (list StackOutput)) (e : string * StackDependency)
  : list message :=
  match defined_on so (stack_name (snd e)) with
  | None => [NoOutputDefinitions (VStr (stack_name (snd e)))]
  | Some defined =>
      map (fun x => OptionalOutputMissing (fst e) (VStr x) (VStr (stack_name (snd e))))
          (missing defined (optional_list (snd e)))
  end.

(** The number of messages of a list that are about the output [x]:
    errors for a required output, warnings for an optional one. *)
Definition count_required (x : string) (ms : list message) : nat :=
  List.length
    (filter (fun m => match m with
                      | RequiredOutputMissing _ (VStr y) _ => String.eqb x y
                      | _ => false
                      end) ms).

Definition count_optional (x : string) (ms : list message) : nat :=
  List.length
    (filter (fun m => match m with
                      | OptionalOutputMissing _ (VStr y) _ => String.eqb x y
                      | _ => false
                      end) ms).

Definition occurrences (x : string) (l : list string) : nat :=
  List.length (filter (String.eqb x) l).

(** The scan of the uniqueness check: every output of every stack, as
    the pair of its stack and its export name. *)
Definition exports (so : dict (list StackOutput)) : list (string * string) :=
  flat_map (fun kv => map (fun o => (fst kv, export_name o)) (snd kv)) so.

(** The stack of the first pair carrying the export name [e]. *)
Fixpoint first_owner (e : string) (seen : list (string * string)) : option string :=
  match seen with
  | [] => None
  | (stack, e') :: rest => if String.eqb e e' then Some stack else first_owner e rest
  end.

(** The collisions of a scan, told from what was [seen] before each
    pair: a pair with a non-empty export name that was seen already is
    reported once, with the stack that carried the name first. *)
Fixpoint collisions (seen rest : list (string * string)) : list message :=
  match rest with
  | [] => []
  | (stack, e) :: rest' =>
      (if String.eqb e "" then []
       else match first_owner e seen with
            | Some owner => [DuplicateExportName (VStr e) stack owner]
            | None => []
            end)
      ++ collisions (seen ++ [(stack, e)]) rest'
  end.

Definition count_collisions (e : string) (ms : list message) : nat :=
  List.length
    (filter (fun m => match m with
                      | DuplicateExportName (VStr e') _ _ => String.eqb e e'
                      | _ => false
                      end) ms).

(** The dictionary [export_names] against the pairs scanned so far: it
    knows the first stack of every non-empty export name. *)
Definition records (export_names : list (Py.value * string)) (seen : list (string * string))
  : Prop :=
  forall e, e <> "" -> owner_of (VStr e) export_names = first_owner e seen.

(** The errors and the warnings of a whole run on the snapshot of a
    registry whose cycle reports are [cycles]. *)
Definition run_errors (m : registry) (cycles : list (list string)) : list message :=
  flat_map (edge_errors (stack_outputs m)) (edges (dependencies m))
  ++ collisions [] (exports (stack_outputs m))
  ++ map CircularDependency cycles.

Definition run_warnings (m : registry) : list message :=
  naming_warnings (stack_outputs m)
  ++ flat_map (edge_warnings (stack_outputs m)) (edges (dependencies m)).

End ValidatorFacts.

(** ** The dependency graph *)

Module GraphFacts.

Import Manager ValidatorFacts.

(** The graph of a registry: an edge from a stack to the target of each
    dependency it declares.  The validator follows an edge only when the
    target's name is not the empty string. *)
Definition edge (deps : dict (list StackDependency)) (s t : string) : Prop :=
  exists d, In (s, d) (edges deps) /\ stack_name d = t /\ t <> "".

(** [walk deps x l e]: a path from [x] to [e] along edges; [l] lists the
    stacks it leaves behind, [x] first, so its length is that of [l]. *)
Inductive walk (deps : dict (list StackDependency)) : string -> list string -> string -> Prop :=
| walk_here (x : string) : walk deps x [] x
| walk_step (x t e : string) (l : list string) :
    edge deps x t -> walk deps t l e -> walk deps x (x :: l) e.

(** A path of length at least one from [s] back to [s]. *)
Definition closed_walk (deps : dict (list StackDependency)) (s : string) : Prop :=
  exists t l, edge deps s t /\ walk deps t l s.

(** A path from [s] back to [s] through another stack. *)
Definition on_cycle (deps : dict (list StackDependency)) (s : string) : Prop :=
  exists t l, t <> s /\ edge deps s t /\ walk deps t l s.

(** The targets that the loops follow. *)
Definition targets (ds : list StackDependency) : list string :=
  filter (fun t => negb (String.eqb t "")) (map stack_name ds).

Definition successors (deps : dict (list StackDependency)) (s : string) : list string :=
  match lookup s deps with
  | Some ds => targets ds
  | None => []
  end.

(** [all_stacks.add(x)] on names. *)
Definition add_new (acc : list string) (x : string) : list string :=
  if mem x acc then acc else acc ++ [x].

(** The members of [all_stacks] in insertion order: the declaring stacks,
    then the targets not met before. *)
Definition nodes (deps : dict (list StackDependency)) : list string :=
  fold_left add_new (flat_map (fun kv => targets (snd kv)) deps)
    (fold_left add_new (keys deps) []).

(** The stacks of [universe] that a search has not visited. *)
Definition remaining (universe visited : list string) : nat :=
  List.length (filter (fun u => negb (mem u visited)) universe).

(** The first stack of a reported cycle. *)
Definition starts_at (s : string) (cycle : list Py.value) : Prop :=
  hd_error cycle = Some (VStr s).

Abbreviation strs := (map VStr).

(** The registries of the examples: a dependency without outputs. *)
Definition needs (target : string) : StackDependency := mkDependency target [] None.

Definition triangle : registry :=
  register_dependency "C" (needs "A")
    (register_dependency "B" (needs "C")
       (register_dependency "A" (needs "B") empty)).

Definition chain : registry :=
  register_dependency "B" (needs "C") (register_dependency "A" (needs "B") empty).

Definition self_dependent : registry :=
  register_dependency "A" (needs "A") empty.

End GraphFacts.

(** ** The pairwise check *)

Module PairFacts.

Import Manager ValidatorFacts GraphFacts.

(** The members of [all_stacks] in validate-dependencies.py: every
    target is added, the empty name too. *)
Definition all_nodes (deps : dict (list StackDependency)) : list string :=
  fold_left add_new (flat_map (fun kv => map stack_name (snd kv)) deps)
    (fold_left add_new (keys deps) []).

(** The report [[stack_a, stack_b]] of the pairwise check. *)
Definition pair_cycle (p : string * string) : list Py.value := [VStr (fst p); VStr (snd p)].

Definition same_pair (p q : string * string) : bool :=
  String.eqb (fst p) (fst q) && String.eqb (snd p) (snd q).

(** No pair twice, and no pair together with its reverse. *)
Definition unordered (pairs : list (string * string)) : Prop :=
  NoDup pairs /\ forall a b, In (a, b) pairs -> ~ In (b, a) pairs.

End PairFacts.

(** ** The registries and configurations of the examples *)

Module Examples.

Import Manager.

Definition output (n e : string) : StackOutput := mkOutput n (n ++ " of the stack")%string "!Ref Resource" e None.

(** [A] requires the output [X] of [B], which defines [Y] only. *)
Definition missing_required : registry :=
  register_dependency "A" (mkDependency "B" ["X"] None)
    (register_stack_outputs "B" [output "Y" "{ProjectName}-{Environment}-Y"] empty).

(** The same, with [X] optional. *)
Definition missing_optional : registry :=
  register_dependency "A" (mkDependency "B" [] (Some ["X"]))
    (register_stack_outputs "B" [output "Y" "{ProjectName}-{Environment}-Y"] empty).

(** The same, with [X] required twice. *)
Definition required_twice : registry :=
  register_dependency "A" (mkDependency "B" ["X"; "X"] None)
    (register_stack_outputs "B" [output "Y" "{ProjectName}-{Environment}-Y"] empty).

(** [A] requires [X] of [B], which is registered with no output. *)
Definition registered_empty : registry :=
  register_dependency "A" (mkDependency "B" ["X"] None)
    (register_stack_outputs "B" [] empty).

(** Two stacks, then three, with one export name. *)
Definition two_colliding : registry :=
  register_stack_outputs "stack-b" [output "VpcId" "proj-dev-VPC-ID"]
    (register_stack_outputs "stack-a" [output "VpcId" "proj-dev-VPC-ID"] empty).

Definition three_colliding : registry :=
  register_stack_outputs "stack-c" [output "VpcId" "proj-dev-VPC-ID"] two_colliding.

(** Two stacks whose outputs have the empty export name. *)
Definition two_unexported : registry :=
  register_stack_outputs "stack-b" [output "VpcId" ""]
    (register_stack_outputs "stack-a" [output "VpcId" ""] empty).

(** A configuration that [json.load] returns and no snapshot produces:
    the dependency's [optional_outputs] is [null]. *)
Definition null_optional_outputs : Py.value :=
  VDict
    [ ("stack_outputs",
        VDict [("vpc-stack",
                 VList [output_entry (output "VPCId" "{ProjectName}-{Environment}-VPC-ID")])]);
      ("dependencies",
        VDict [("ec2-stack",
                 VList [VDict [("stack_name", VStr "vpc-stack");
                               ("required_outputs", VList [VStr "VPCId"]);
                               ("optional_outputs", VNone)]])]) ].

(** The same with [required_outputs] a number. *)
Definition scalar_required_outputs : Py.value :=
  VDict
    [ ("stack_outputs",
        VDict [("vpc-stack",
                 VList [output_entry (output "VPCId" "{ProjectName}-{Environment}-VPC-ID")])]);
      ("dependencies",
        VDict [("ec2-stack",
                 VList [VDict [("stack_name", VStr "vpc-stack");
                               ("required_outputs", VInt 5)]])]) ].

End Examples.

Module DuplicateExamples.

Import Manager.

(** [A] requires the output [Y] of [B], which defines it. *)
Definition satisfied : registry :=
  register_dependency "A" (mkDependency "B" ["Y"] None)
    (register_stack_outputs "B"
       [Examples.output "Y" "{ProjectName}-{Environment}-Y"] empty).

(** A second output named [Y], with an export name of its own. *)
Definition renamed_copy : StackOutput :=
  Examples.output "Y" "{ProjectName}-{Environment}-Y-bis".

(** A second output named [Y], with the export name of the first. *)
Definition plain_copy : StackOutput :=
  Examples.output "Y" "{ProjectName}-{Environment}-Y".

End DuplicateExamples.

(** ** Registries built by registration *)

Module RegistrationFacts.

Import Manager.

Inductive built : registry -> Prop :=
| built_empty : built empty
| built_outputs (m : registry) (stack : string) (outputs : list StackOutput) :
    built m -> built (register_stack_outputs stack outputs m)
| built_dependency (m : registry) (stack : string) (dependency : StackDependency) :
    built m -> built (register_dependency stack dependency m).
End RegistrationFacts.

(** ** Import as a replay of registrations *)

Module ReplayFacts.

Import Manager ManagerFacts.

Definition replay_outputs (so : dict (list StackOutput)) (base : registry) : registry :=
  fold_left (fun r kv => register_stack_outputs (fst kv) (snd kv) r) so base.

Definition replay_dependencies (ds : dict (list StackDependency)) (base : registry)
  : registry :=
  fold_left
    (fun r kv =>
       fold_left (fun r d => register_dependency (fst kv) (restored d) r) (snd kv) r)
    ds base.

Definition twice (ds : dict (list StackDependency)) : dict (list StackDependency) :=
  map (fun kv => (fst kv, map restored (snd kv) ++ map restored (snd kv))) ds.
End ReplayFacts.

(** ** Import parameters *)

Module ParameterFacts.

Import Manager ValidatorFacts.

(** The dependency whose entry survives in [import_params] for the
    output [x]: the last one of the list that requires it. *)
Definition last_requiring (x : string) (deps : list StackDependency)
  : option StackDependency :=
  find (fun d => mem x (required_outputs d)) (rev deps).

(** The dependencies registered for a stack, none when it is unknown. *)
Definition dependencies_of (m : registry) (stack : string) : list StackDependency :=
  match lookup stack (dependencies m) with Some l => l | None => [] end.

End ParameterFacts.

(** ** Runs of the configuration validator *)

Module RunFacts.

Import ConfigValidator ValidatorFacts.

(** [extends self self' es ws]: the lists of [self'] are those of [self]
    followed by the errors [es] and the warnings [ws]. *)
Definition extends (self self' : validator) (es ws : list message) : Prop :=
  self' = mkValidator (errors self ++ es) (warnings self ++ ws).

(** [tracks flag m v]: whenever [m] returns, it has only appended to the
    two lists, and the flag of its result is [v] when it appended no
    error and [False] when it appended one. *)
Definition tracks {A} (flag : A -> bool) (m : M A) (v : bool) : Prop :=
  forall self a self',
    m self = Ok (a, self') ->
    exists es ws, extends self self' es ws /\ flag a = v && is_nil es.

(** [silent m]: whenever [m] returns, it has appended warnings only. *)
Definition silent {A} (m : M A) : Prop :=
  forall self a self',
    m self = Ok (a, self') -> exists ws, extends self self' [] ws.

(** [returns m]: [m] returns from every state. *)
Definition returns {A} (m : M A) : Prop :=
  forall self, exists a self', m self = Ok (a, self').

(** An output object whose [export_name] is a number other than zero or
    the Boolean [true]. *)
Definition scalar_export_name (output : Py.value) : bool :=
  match output with
  | VDict o =>
      match lookup "export_name" o with
      | Some (VInt n) => negb (Z.eqb n 0)
      | Some (VBool b) => b
      | _ => false
      end
  | _ => false
  end.

(** Some stack of the section lists such an output. *)
Definition has_scalar_export_name (stack_outputs : dict Py.value) : bool :=
  existsb (fun kv => match snd kv with
                     | VList l => existsb scalar_export_name l
                     | _ => false
                     end) stack_outputs.

(** The first of the sections ['stack_outputs'], ['dependencies'] that a
    configuration object lacks. *)
Definition first_missing_section (config : dict Py.value) : option string :=
  if negb (has_key "stack_outputs" config) then Some "stack_outputs"
  else if negb (has_key "dependencies" config) then Some "dependencies"
  else None.

End RunFacts.

(** ** The verdict on a registry *)

Module VerdictFacts.

Import Manager ValidatorFacts GraphFacts.

(** The export names under which outputs are exported: the non-empty
    ones, with their repetitions, in the order of the scan. *)
Definition exported_names (so : dict (list StackOutput)) : list string :=
  filter (fun e => negb (String.eqb e "")) (map snd (exports so)).

(** Every required output of every dependency on a stack with registered
    outputs is the name of one of these outputs. *)
Definition requirements_met (m : registry) : Prop :=
  forall A d outs x,
    In (A, d) (edges (dependencies m)) ->
    lookup (stack_name d) (stack_outputs m) = Some outs ->
    In x (required_outputs d) ->
    In x (map name outs).

(** No stack lies on a cycle through another stack. *)
Definition acyclic (deps : dict (list StackDependency)) : Prop :=
  forall s, ~ on_cycle deps s.

(** A report [s, ..., s]: a walk from [s] back to [s] through at least
    one other stack that visits no stack twice on its way. *)
Definition simple_cycle (deps : dict (list StackDependency)) (c : list string) : Prop :=
  exists s l,
    c = s :: l ++ [s] /\ l <> [] /\ NoDup (s :: l) /\ walk deps s (s :: l) s.

End VerdictFacts.

(** ** Reachability along all dependencies *)

Module ReachFacts.

Import Manager ValidatorFacts.

(** The graph that validate-dependencies.py searches: every declared
    dependency is an edge, whatever the name of its target. *)
Definition link (deps : dict (list StackDependency)) (s t : string) : Prop :=
  exists d, In (s, d) (edges deps) /\ stack_name d = t.

(** [route deps x l e]: a path from [x] to [e] along links; [l] lists
    the stacks it leaves behind, [x] first. *)
Inductive route (deps : dict (list StackDependency)) : string -> list string -> string -> Prop :=
| route_here (x : string) : route deps x [] x
| route_step (x t e : string) (l : list string) :
    link deps x t -> route deps t l e -> route deps x (x :: l) e.

Definition reaches (deps : dict (list StackDependency)) (x e : string) : Prop :=
  exists l, route deps x l e.

(** Two different stacks, each of which reaches the other. *)
Definition mutual (deps : dict (list StackDependency)) (a b : string) : Prop :=
  a <> b /\ reaches deps a b /\ reaches deps b a.

End ReachFacts.

(** ** Naming issues *)

Module NamingFacts.

Import ConfigValidator.

(** The warning of validate-config.py that says what an issue of
    validate-dependencies.py says. *)
Definition as_warning (i : DependencyValidator.issue) : message :=
  match i with
  | DependencyValidator.NamingIssue stack_name output_name export_name =>
      NamingConvention stack_name output_name export_name
  end.

End NamingFacts.

(** ** Passes that succeeded *)

Module ExitFacts.

Import Orchestrator.

(** A [try] block that returned a result saying [is_valid]. *)
Definition succeeded (attempt : result pass_result) : Prop :=
  exists r, attempt = Return r /\ is_valid r = true.

End ExitFacts.

(** ** Compliance messages *)

Module ComplianceFacts.

(** A message that the orchestrator counts once: it starts with exactly
    one of ["Error"], ["Warning"] and the tick. *)
Definition counted_once (m : string) : bool :=
  match String.prefix "Error" m, String.prefix "Warning" m, String.prefix "✓" m with
  | true, false, false | false, true, false | false, false, true => true
  | _, _, _ => false
  end.

(** The messages that come with a verdict of [False]. *)
Definition invalidating (m : string) : bool :=
  String.prefix "Error reading template: " m
  || String.eqb m "Warning: Template does not contain Metadata section"
  || String.eqb m "Warning: No Well-Architected compliance information found"
  || String.prefix "Warning: Unknown best practice '" m.

Definition unknown_pillar (pillar_name : string) : string :=
  ("Warning: Unknown pillar '" ++ pillar_name ++ "'")%string.

End ComplianceFacts.

(** ** Parameter results *)

Module ResultFacts.

Import ParameterValidator.

(** A result that has errors says that it is not valid. *)
Definition consistent (r : ParameterValidationResult) : Prop :=
  errors r <> [] -> is_valid r = false.

(** The ['Type'] of a parameter declaration, ['String'] when it gives
    none. *)
Definition declared_type (param_config : Py.value) : string :=
  match param_config with
  | VDict c => match lookup "Type" c with Some (VStr t) => t | _ => "String" end
  | _ => "String"
  end.

(** The declarations without default for which no value is given. *)
Definition required_missing (declared parameters : dict Py.value) : dict Py.value :=
  filter (fun kv =>
            match snd kv with
            | VDict c => negb (has_key "Default" c)
            | _ => false
            end && negb (has_key (fst kv) parameters))
         declared.

End ResultFacts.

(** ** Stack results *)

Module StackFacts.

Import StackValidator.

(** A result that says [is_valid] exactly when it lists no error and no
    missing export. *)
Definition sound (r : ValidationResult) : Prop :=
  is_valid r = true <-> errors r = [] /\ missing_exports r = [].

(** A client for which no stack exists. *)
Definition no_stack (_ : Py.value) : described :=
  ClientError (VDict [("Error", VDict [("Code", VStr "ValidationError")])])
    "Stack does not exist".

End StackFacts.

(** ** Further examples *)

Module MoreExamples.

Import Manager.

(** A configuration as [json.load] returns it, whose only dependency has
    no [required_outputs]. *)
Definition lacking_required : Py.value :=
  VDict
    [ ("stack_outputs", VDict []);
      ("dependencies", VDict [("app", VList [VDict [("stack_name", VStr "net")]])]) ].

(** Outputs whose [export_name] is a number. *)
Definition numbered_export : dict Py.value :=
  [ ("net", VList [VDict [("name", VStr "VpcId"); ("export_name", VInt 5)]]) ].

(** The snapshot of [Examples.two_colliding], as the dictionary it is. *)
Definition plain_exports : dict Py.value :=
  [ ("stack_outputs", ValidatorFacts.outputs_section (stack_outputs Examples.two_colliding));
    ("dependencies", VDict []) ].

(** An output without [name] whose export name breaks the convention. *)
Definition nameless : dict Py.value := [ ("export_name", VStr "plain") ].

(** A template whose metadata names one pillar. *)
Definition annotated_template : dict Py.value :=
  [ ("Metadata",
      VDict [("wellArchitectedCompliance", VDict [("security", VList [VStr "SEC01"])])]) ].

(** A template that declares one parameter without default. *)
Definition one_parameter : dict Py.value :=
  [ ("Parameters", VDict [("Env", VDict [("Type", VStr "String")])]) ].

(** A client for which every stack is deployed and exports [VPCId]. *)
Definition deployed (_ : Py.value) : StackValidator.described :=
  StackValidator.Response
    (VDict [("Stacks",
             VList [VDict [("StackStatus", VStr "CREATE_COMPLETE");
                           ("Outputs",
                            VList [VDict [("OutputKey", VStr "VPCId");
                                          ("ExportName", VStr "proj-dev-VPC-ID")]])]])]).

(** What [validate_all_stacks] returns for [GraphFacts.triangle] when no
    stack exists. *)
Definition triangle_results : list StackValidator.ValidationResult :=
  [ StackValidator.mkResult (VStr "A") false
      [StackValidator.StackAbsent (VStr "B");
       StackValidator.Cycle ["A"; "B"]; StackValidator.Cycle ["A"; "C"]]
      [] [] [VStr "A"; VStr "B"; VStr "A"; VStr "C"];
    StackValidator.mkResult (VStr "B") false
      [StackValidator.StackAbsent (VStr "C");
       StackValidator.Cycle ["A"; "B"]; StackValidator.Cycle ["B"; "C"]]
      [] [] [VStr "A"; VStr "B"; VStr "B"; VStr "C"];
    StackValidator.mkResult (VStr "C") false
      [StackValidator.StackAbsent (VStr "A");
       StackValidator.Cycle ["A"; "C"]; StackValidator.Cycle ["B"; "C"]]
      [] [] [VStr "A"; VStr "C"; VStr "B"; VStr "C"] ].

(** Two cycles through [A] and [B]: [A -> B -> A] and [A -> B -> C -> A],
    with [B] listing [A] before [C]. *)
Definition two_cycles : registry :=
  register_dependency "C" (GraphFacts.needs "A")
    (register_dependency "B" (GraphFacts.needs "C")
       (register_dependency "B" (GraphFacts.needs "A")
          (register_dependency "A" (GraphFacts.needs "B") empty))).

(** A client for which every stack is deployed, exports [VPCId], and has
    a second output without [OutputKey] and without [ExportName]. *)
Definition keyless (_ : Py.value) : StackValidator.described :=
  StackValidator.Response
    (VDict [("Stacks",
             VList [VDict [("StackStatus", VStr "CREATE_COMPLETE");
                           ("Outputs",
                            VList [VDict [("OutputKey", VStr "VPCId");
                                          ("ExportName", VStr "proj-dev-VPC-ID")];
                                   VDict [("Description", VStr "no key")]])]])]).

(** A client whose answer is not an object. *)
Definition no_object (_ : Py.value) : StackValidator.described :=
  StackValidator.Response VNone.

End MoreExamples.

(* ================================================================== *)
(** * The orchestrator *)
(* ================================================================== *)

Section Aggregation.

Import Orchestrator OrchestratorFacts.

Variables (tp : string) (pp : option string) (ts : string).

Lemma overall_status_cases (s p w : pass_result) :
  coherent s -> coherent p -> coherent w ->
  overall_status (_create_validation_summary tp pp ts s p w) =
    if failed s || failed p || failed w then FAIL
    else if Nat.ltb 0 (warning_count s + warning_count p + warning_count w)
         then WARNING else PASS.
Proof.
  intros [Hs _] [Hp _] [Hw _].
  unfold _create_validation_summary; simpl.
  rewrite Hs, Hp, Hw.
  destruct (failed s), (failed p), (failed w); simpl; try reflexivity.
  destruct (warning_count s), (warning_count p), (warning_count w); reflexivity.
Qed.

Lemma skipped_counts_nothing (r : pass_result) :
  coherent r ->
  errors_if_ran r = error_count r /\ warnings_if_ran r = warning_count r.
Proof.
  intros [_ H]. unfold errors_if_ran, warnings_if_ran, skipped.
  destruct (status r); auto.
  destruct H as [-> ->]; auto.
Qed.

(** C6.  The summary of three coherent pass results is [FAIL] exactly
    when some pass has status [FAIL] or [ERROR] (which is when some
    [is_valid] is false); otherwise it is [WARNING] exactly when the
    warning counts add up to more than zero, and [PASS] when they add up
    to zero.  The error and warning totals are the sums over the passes
    that were not skipped: a [SKIPPED] pass adds nothing to them, and it
    is never the pass that makes the summary [FAIL] or [WARNING]. *)
Theorem orchestrator_aggregation (s p w : pass_result) :
  coherent s -> coherent p -> coherent w ->
  let sm := _create_validation_summary tp pp ts s p w in
  let some_failed := failed s || failed p || failed w in
  (some_failed = negb (is_valid s && is_valid p && is_valid w)) /\
  (overall_status sm = FAIL <-> some_failed = true) /\
  (overall_status sm = WARNING <->
     some_failed = false /\ 0 < warning_count s + warning_count p + warning_count w) /\
  (overall_status sm = PASS <->
     some_failed = false /\ warning_count s + warning_count p + warning_count w = 0) /\
  errors sm = errors_if_ran s + errors_if_ran p + errors_if_ran w /\
  warnings sm = warnings_if_ran s + warnings_if_ran p + warnings_if_ran w /\
  warnings sm = warning_count s + warning_count p + warning_count w /\
  (forall r, In r [s; p; w] -> status r = SKIPPED ->
     failed r = false /\ errors_if_ran r = 0 /\ warnings_if_ran r = 0).
Proof.
  intros Hs Hp Hw sm some_failed.
  pose proof (overall_status_cases Hs Hp Hw) as Ho. fold sm some_failed in Ho.
  destruct (skipped_counts_nothing Hs) as [Es Ws].
  destruct (skipped_counts_nothing Hp) as [Ep Wp].
  destruct (skipped_counts_nothing Hw) as [Ew Ww].
  split.
  { destruct Hs as [-> _], Hp as [-> _], Hw as [-> _]. subst some_failed.
    destruct (failed s), (failed p), (failed w); reflexivity. }
  assert (Hskip : forall r, In r [s; p; w] -> status r = SKIPPED ->
            failed r = false /\ errors_if_ran r = 0 /\ warnings_if_ran r = 0).
  { intros r _ Hr. unfold failed, errors_if_ran, warnings_if_ran, skipped.
    rewrite Hr. auto. }
  assert (He : errors sm = errors_if_ran s + errors_if_ran p + errors_if_ran w)
    by (subst sm; simpl; lia).
  assert (Hw1 : warnings sm = warnings_if_ran s + warnings_if_ran p + warnings_if_ran w)
    by (subst sm; simpl; lia).
  assert (Hw2 : warnings sm = warning_count s + warning_count p + warning_count w)
    by (subst sm; simpl; lia).
  rewrite Ho.
  destruct some_failed.
  - split; [ tauto | ].
    split; [ split; [ discriminate | intros [? _]; discriminate ] | ].
    split; [ split; [ discriminate | intros [? _]; discriminate ] | ].
    auto.
  - destruct (Nat.ltb_spec 0 (warning_count s + warning_count p + warning_count w)).
    + split; [ split; discriminate | ].
      split; [ tauto | ].
      split; [ split; [ discriminate | intros [_ ?]; lia ] | ].
      auto.
    + split; [ split; discriminate | ].
      split; [ split; [ discriminate | intros [_ ?]; lia ] | ].
      split; [ split; [ intros _; split; [ reflexivity | lia ] | reflexivity ] | ].
      auto.
Qed.

End Aggregation.

(** C6, at the spec's first example: passes [PASS], [SKIPPED], [PASS]
    with warning counts 2, 0, 0 give [WARNING]. *)
Lemma orchestrator_aggregation_witness :
  Orchestrator.overall_status
    (Orchestrator._create_validation_summary "template.json" None "2024-01-01T00:00:00"
       (Orchestrator.mkPass Orchestrator.PASS true (Orchestrator.Issues []) 0 2 (Some 0))
       (Orchestrator.mkPass Orchestrator.SKIPPED true (Orchestrator.Results [] []) 0 0 None)
       (Orchestrator.mkPass Orchestrator.PASS true (Orchestrator.Messages []) 0 0 (Some 0)))
  = Orchestrator.WARNING.
Proof.
  apply (@orchestrator_aggregation "template.json" None "2024-01-01T00:00:00"
           (Orchestrator.mkPass Orchestrator.PASS true (Orchestrator.Issues []) 0 2 (Some 0))
           (Orchestrator.mkPass Orchestrator.SKIPPED true (Orchestrator.Results [] []) 0 0 None)
           (Orchestrator.mkPass Orchestrator.PASS true (Orchestrator.Messages []) 0 0 (Some 0))).
  - split; [ reflexivity | intros H; discriminate H ].
  - split; [ reflexivity | intros _; split; reflexivity ].
  - split; [ reflexivity | intros H; discriminate H ].
  - split; [ reflexivity | simpl; lia ].
Defined.

(** The spec's second example: [PASS], [FAIL], [PASS] give [FAIL]
    whatever the warning counts. *)
Example aggregation_fail (a b c e : nat) :
  Orchestrator.overall_status
    (Orchestrator._create_validation_summary "template.json" None "2024-01-01T00:00:00"
       (Orchestrator.mkPass Orchestrator.PASS true (Orchestrator.Issues []) 0 a (Some 0))
       (Orchestrator.mkPass Orchestrator.FAIL false (Orchestrator.Results [] []) e b None)
       (Orchestrator.mkPass Orchestrator.PASS true (Orchestrator.Messages []) 0 c (Some 0)))
  = Orchestrator.FAIL.
Proof. reflexivity. Qed.

(** The spec's third example: three [SKIPPED] passes give [PASS]. *)
Example aggregation_all_skipped :
  let skip := Orchestrator.mkPass Orchestrator.SKIPPED true (Orchestrator.Results [] []) 0 0 None in
  Orchestrator.overall_status
    (Orchestrator._create_validation_summary "template.json" None "2024-01-01T00:00:00"
       skip skip skip)
  = Orchestrator.PASS.
Proof. reflexivity. Qed.

Section OrchestratorProofs.

Import Orchestrator OrchestratorFacts.

Variable load_parameters : string -> result Py.value.
Variable load_template : string -> result Py.value.
Variable validate_template :
  string -> Py.value -> result (bool * list CloudFormationValidator.ValidationIssue).
Variable validate_json_config_schema : Py.value -> string -> result (list string).
Variable validate_config_consistency : Py.value -> result (list string).
Variable validate_parameters :
  Py.value -> Py.value -> result (list ParameterValidator.ParameterValidationResult).
Variable validate_cloudformation_template : string -> result (bool * list string).
Variable str_of : exn -> string.
Variable now : string.

Lemma syntax_result_coherent (tp : string) (pp : option string) :
  coherent (_run_syntax_validation load_parameters validate_template str_of tp pp).
Proof.
  unfold _run_syntax_validation, syntax_try, coherent, failed.
  destruct (rbind _ _) as [r | e] eqn:E; [ | simpl; split; [reflexivity | discriminate] ].
  destruct (if given pp then _ else _) as [pv | ]; simpl in E; [ | discriminate ].
  destruct (validate_template tp pv) as [[v issues] | ]; simpl in E; [ | discriminate ].
  injection E as <-.
  destruct v; simpl; split; (reflexivity || discriminate).
Qed.

Lemma parameter_result_coherent (tp : string) (pp cp : option string) :
  coherent (_run_parameter_validation load_parameters load_template
              validate_json_config_schema validate_config_consistency
              validate_parameters str_of tp pp cp).
Proof.
  unfold _run_parameter_validation, coherent, failed.
  destruct (negb (given pp)); [ simpl; auto | ].
  destruct (parameter_try _ _ _ _ _ _ _ _) as [r | e] eqn:E;
    [ | simpl; split; [reflexivity | discriminate] ].
  unfold parameter_try in E.
  destruct (load_template tp) as [t | ]; simpl in E; [ | discriminate ].
  destruct (negb (truthy t));
    [ injection E as <-; simpl; split; [reflexivity | discriminate] | ].
  destruct (load_parameters _) as [ps | ]; simpl in E; [ | discriminate ].
  destruct (negb (truthy ps));
    [ injection E as <-; simpl; split; [reflexivity | discriminate] | ].
  destruct (if given cp then _ else _) as [ce | ]; simpl in E; [ | discriminate ].
  destruct (validate_config_consistency ps) as [cs | ]; simpl in E; [ | discriminate ].
  destruct (py_get ps "serviceConfigs" ps) as [pvs | ]; simpl in E; [ | discriminate ].
  destruct (validate_parameters t pvs) as [rs | ]; simpl in E; [ | discriminate ].
  injection E as <-.
  destruct (_ || _); simpl; split; (reflexivity || discriminate).
Qed.

Lemma well_architected_result_coherent (tp : string) :
  coherent (_run_well_architected_validation validate_cloudformation_template str_of tp).
Proof.
  unfold _run_well_architected_validation, well_architected_try, coherent, failed.
  destruct (validate_cloudformation_template tp) as [[v ms] | e]; simpl;
    [ destruct v; simpl | ]; split; (reflexivity || discriminate).
Qed.

(** C9.  Whatever the collaborators do, [run_comprehensive_validation]
    returns a summary with its three slots filled, each by its own
    runner.  A pass whose [try] block lets an exception escape is
    reported with status [ERROR], an error count of one and exactly one
    diagnostic; the other passes are run all the same, and the summary of
    a run in which some pass threw is [FAIL].  The parameter pass runs
    only when a parameter file is given and is [SKIPPED] otherwise. *)
Theorem pass_isolation (tp : string) (pp cp : option string) :
  let run_syntax := _run_syntax_validation load_parameters validate_template str_of in
  let run_parameter :=
    _run_parameter_validation load_parameters load_template validate_json_config_schema
      validate_config_consistency validate_parameters str_of in
  let run_wa := _run_well_architected_validation validate_cloudformation_template str_of in
  let sm :=
    run_comprehensive_validation load_parameters load_template validate_template
      validate_json_config_schema validate_config_consistency validate_parameters
      validate_cloudformation_template str_of now tp pp cp in
  syntax_validation sm = run_syntax tp pp /\
  parameter_validation sm = run_parameter tp pp cp /\
  well_architected_validation sm = run_wa tp /\
  isolated (syntax_try load_parameters validate_template tp pp) (syntax_validation sm) /\
  (if given pp
   then isolated (parameter_try load_parameters load_template validate_json_config_schema
                    validate_config_consistency validate_parameters tp pp cp)
                 (parameter_validation sm)
   else status (parameter_validation sm) = SKIPPED) /\
  isolated (well_architected_try validate_cloudformation_template tp)
           (well_architected_validation sm) /\
  errors sm = error_count (syntax_validation sm) + error_count (parameter_validation sm)
              + error_count (well_architected_validation sm) /\
  (overall_status sm = FAIL <->
     failed (syntax_validation sm) || failed (parameter_validation sm)
     || failed (well_architected_validation sm) = true).
Proof.
  intros run_syntax run_parameter run_wa sm.
  split; [ reflexivity | ]. split; [ reflexivity | ]. split; [ reflexivity | ].
  split.
  { subst sm; simpl. unfold _run_syntax_validation.
    destruct (syntax_try _ _ _ _); simpl; auto. }
  split.
  { subst sm; simpl. unfold _run_parameter_validation.
    destruct (given pp); simpl; [ | reflexivity ].
    destruct (parameter_try _ _ _ _ _ _ _ _); simpl; auto. }
  split.
  { subst sm; simpl. unfold _run_well_architected_validation.
    destruct (well_architected_try _ _); simpl; auto. }
  split; [ reflexivity | ].
  subst sm. unfold run_comprehensive_validation.
  rewrite (overall_status_cases tp pp now
             (syntax_result_coherent tp pp)
             (parameter_result_coherent tp pp cp)
             (well_architected_result_coherent tp)).
  simpl.
  destruct (failed _ || failed _ || failed _).
  - tauto.
  - destruct (Nat.ltb _ _); split; discriminate.
Qed.

End OrchestratorProofs.

(** The worst case of C9: every collaborator throws, the report is
    complete all the same. *)
Example every_pass_errors :
  let boom (A : Type) : result A := Throw (Exception "boom") in
  let sm :=
    Orchestrator.run_comprehensive_validation
      (fun _ => boom _) (fun _ => boom _) (fun _ _ => boom _) (fun _ _ => boom _)
      (fun _ => boom _) (fun _ _ => boom _) (fun _ => boom _)
      (fun _ => "boom") "2024-01-01T00:00:00"
      "template.json" (Some "params.json") None in
  Orchestrator.status (Orchestrator.syntax_validation sm) = Orchestrator.ERROR /\
  Orchestrator.status (Orchestrator.parameter_validation sm) = Orchestrator.ERROR /\
  Orchestrator.status (Orchestrator.well_architected_validation sm) = Orchestrator.ERROR /\
  Orchestrator.errors sm = 3 /\
  Orchestrator.overall_status sm = Orchestrator.FAIL.
Proof. repeat split. Qed.

(* ================================================================== *)
(** * The registry: snapshot and restore *)
(* ================================================================== *)

Section DictFacts.

Context {V : Type}.

Lemma lookup_None_iff (k : string) (d : dict V) :
  lookup k d = None <-> ~ In k (keys d).
Proof.
  induction d as [ | [k' v] d IH ]; simpl.
  - tauto.
  - destruct (String.eqb_spec k k') as [-> | Hne].
    + split; [ discriminate | intros H; exfalso; apply H; auto ].
    + rewrite IH. split.
      * intros H [E | Hin]; [ congruence | auto ].
      * intros H Hin. apply H. auto.
Qed.

Lemma has_key_In (k : string) (d : dict V) :
  has_key k d = true <-> In k (keys d).
Proof.
  unfold has_key. destruct (lookup k d) eqn:E.
  - split; [ intros _ | reflexivity ].
    destruct (in_dec string_dec k (keys d)) as [Hin | Hnin]; [ exact Hin | ].
    apply lookup_None_iff in Hnin. congruence.
  - apply lookup_None_iff in E. split; [ discriminate | contradiction ].
Qed.

Lemma lookup_In (k : string) (v : V) (d : dict V) :
  lookup k d = Some v -> In (k, v) d.
Proof.
  induction d as [ | [k' v'] d IH ]; simpl; [ discriminate | ].
  destruct (String.eqb_spec k k') as [-> | Hne].
  - intros [= ->]. auto.
  - auto.
Qed.

Lemma In_lookup (k : string) (v : V) (d : dict V) :
  NoDup (keys d) -> In (k, v) d -> lookup k d = Some v.
Proof.
  induction d as [ | [k' v'] d IH ]; simpl; [ tauto | ].
  intros Hnd [E | Hin].
  - injection E as -> ->. rewrite String.eqb_refl. reflexivity.
  - inversion Hnd as [ | ? ? Hk Hnd' ]; subst.
    destruct (String.eqb_spec k k') as [-> | Hne].
    + exfalso. apply Hk. change k' with (fst (k', v)). apply in_map. exact Hin.
    + auto.
Qed.

Lemma dict_set_fresh (k : string) (v : V) (d : dict V) :
  ~ In k (keys d) -> dict_set k v d = d ++ [(k, v)].
Proof.
  induction d as [ | [k' v'] d IH ]; simpl; [ reflexivity | ].
  intros H. destruct (String.eqb_spec k k') as [-> | Hne].
  - exfalso. apply H. auto.
  - rewrite IH; [ reflexivity | tauto ].
Qed.

Lemma lookup_last (k : string) (v : V) (d : dict V) :
  ~ In k (keys d) -> lookup k (d ++ [(k, v)]) = Some v.
Proof.
  induction d as [ | [k' v'] d IH ]; simpl.
  - rewrite String.eqb_refl. reflexivity.
  - intros H. destruct (String.eqb_spec k k') as [-> | Hne].
    + exfalso. apply H. auto.
    + apply IH. tauto.
Qed.

Lemma dict_set_last (k : string) (v v' : V) (d : dict V) :
  ~ In k (keys d) -> dict_set k v' (d ++ [(k, v)]) = d ++ [(k, v')].
Proof.
  induction d as [ | [k0 v0] d IH ]; simpl.
  - rewrite String.eqb_refl. reflexivity.
  - intros H. destruct (String.eqb_spec k k0) as [-> | Hne].
    + exfalso. apply H. auto.
    + rewrite IH; [ reflexivity | tauto ].
Qed.

End DictFacts.

Section SnapshotRestore.

Import Manager ManagerFacts.

Lemma as_str_list_items_strs (l : list string) :
  as_str_list_items (map VStr l) = Ok l.
Proof.
  induction l as [ | s l IH ]; simpl; [ reflexivity | ].
  rewrite IH. reflexivity.
Qed.

Lemma as_opt_str_list_opt_list (o : option (list string)) :
  as_opt_str_list (opt_list o) = Ok o.
Proof.
  destruct o as [ l | ]; simpl; [ | reflexivity ].
  rewrite as_str_list_items_strs. reflexivity.
Qed.

Lemma read_output_entry (o : StackOutput) :
  read_output (output_entry o) = Ok o.
Proof.
  destruct o as [n d v e c]. unfold read_output, output_entry. simpl.
  rewrite as_opt_str_list_opt_list. reflexivity.
Qed.

Lemma read_outputs_entries (l : list StackOutput) :
  read_outputs (map output_entry l) = Ok l.
Proof.
  induction l as [ | o l IH ]; simpl; [ reflexivity | ].
  rewrite read_output_entry. simpl. rewrite IH. reflexivity.
Qed.

Lemma read_dependency_entry (d : StackDependency) :
  read_dependency (dependency_entry d) = Ok (restored d).
Proof.
  destruct d as [s r o]. unfold read_dependency, dependency_entry, restored. simpl.
  rewrite as_str_list_items_strs. simpl.
  destruct o as [ [ | x l ] | ]; simpl; try reflexivity.
  rewrite as_str_list_items_strs. reflexivity.
Qed.

Lemma import_outputs_exported (l : dict (list StackOutput)) (m : registry) :
  NoDup (keys l) ->
  (forall k, In k (keys l) -> ~ In k (keys (stack_outputs m))) ->
  import_outputs
    (map (fun '(stack, outputs) => (stack, VList (map output_entry outputs))) l) m
  = Ok (mkRegistry (stack_outputs m ++ l) (dependencies m)).
Proof.
  revert m. induction l as [ | [k outs] l IH ]; intros m Hnd Hfresh; simpl.
  - rewrite app_nil_r. destruct m; reflexivity.
  - rewrite read_outputs_entries. simpl.
    inversion Hnd as [ | ? ? Hk Hnd' ]; subst.
    rewrite IH; trivial.
    + unfold register_stack_outputs; simpl.
      rewrite dict_set_fresh by (apply Hfresh; simpl; auto).
      rewrite <- app_assoc. reflexivity.
    + intros k' Hin. unfold register_stack_outputs; simpl.
      rewrite dict_set_fresh by (apply Hfresh; simpl; auto).
      unfold keys. rewrite map_app, in_app_iff. simpl.
      intros [H | [H | []]].
      * apply (Hfresh k'); simpl; auto.
      * subst k'. contradiction.
Qed.

(** Dependencies registered one after the other under a stack that is
    last in the dictionary pile up in its list. *)
Lemma import_stack_dependencies_last
    (stack : string) (ds cur : list StackDependency)
    (so : dict (list StackOutput)) (d : dict (list StackDependency)) :
  ~ In stack (keys d) ->
  import_stack_dependencies stack (map dependency_entry ds)
    (mkRegistry so (d ++ [(stack, cur)]))
  = Ok (mkRegistry so (d ++ [(stack, cur ++ map restored ds)])).
Proof.
  intros Hk. revert cur. induction ds as [ | x ds IH ]; intros cur; simpl.
  - rewrite app_nil_r. reflexivity.
  - rewrite read_dependency_entry. simpl.
    unfold register_dependency; simpl.
    assert (Hhas : has_key stack (d ++ [(stack, cur)]) = true).
    { unfold has_key. rewrite lookup_last by exact Hk. reflexivity. }
    rewrite Hhas. rewrite (lookup_last stack cur d Hk).
    rewrite (dict_set_last stack cur _ d Hk).
    rewrite IH, <- app_assoc. reflexivity.
Qed.

Lemma import_stack_dependencies_fresh
    (stack : string) (x : StackDependency) (ds : list StackDependency)
    (so : dict (list StackOutput)) (d : dict (list StackDependency)) :
  ~ In stack (keys d) ->
  import_stack_dependencies stack (map dependency_entry (x :: ds)) (mkRegistry so d)
  = Ok (mkRegistry so (d ++ [(stack, map restored (x :: ds))])).
Proof.
  intros Hk. simpl. rewrite read_dependency_entry. simpl.
  unfold register_dependency; simpl.
  assert (Hhas : has_key stack d = false).
  { unfold has_key. apply lookup_None_iff in Hk. rewrite Hk. reflexivity. }
  rewrite Hhas. rewrite (dict_set_fresh stack [] d Hk).
  rewrite (lookup_last stack [] d Hk). rewrite (dict_set_last stack [] _ d Hk).
  apply import_stack_dependencies_last. exact Hk.
Qed.

Lemma import_dependencies_exported
    (l : dict (list StackDependency)) (so : dict (list StackOutput))
    (d : dict (list StackDependency)) :
  NoDup (keys l) ->
  Forall (fun kv => snd kv <> []) l ->
  (forall k, In k (keys l) -> ~ In k (keys d)) ->
  import_dependencies
    (map (fun '(stack, deps) => (stack, VList (map dependency_entry deps))) l)
    (mkRegistry so d)
  = Ok (mkRegistry so (d ++ restored_all l)).
Proof.
  revert d. induction l as [ | [k ds] l IH ]; intros d Hnd Hne Hfresh; simpl.
  - rewrite app_nil_r. reflexivity.
  - inversion Hnd as [ | ? ? Hk Hnd' ]; subst.
    inversion Hne as [ | ? ? Hds Hne' ]; subst. simpl in Hds.
    destruct ds as [ | x ds ]; [ congruence | ].
    rewrite import_stack_dependencies_fresh by (apply Hfresh; simpl; auto).
    simpl. rewrite IH; trivial.
    + rewrite <- app_assoc. reflexivity.
    + intros k' Hin. unfold keys. rewrite map_app, in_app_iff. simpl.
      intros [H | [H | []]].
      * apply (Hfresh k'); simpl; auto.
      * subst k'. contradiction.
Qed.

(** C7, as the code has it.  Restoring the snapshot of a registry into
    an empty manager succeeds; the output lists come back field for
    field, and so do the dependency lists but for one field: an
    [optional_outputs] that was never set comes back as the empty list.
    Where every dependency of the registry has its [optional_outputs]
    set, the registry comes back as it was. *)
Theorem snapshot_restore (m : registry) :
  registry_ok m ->
  exists m',
    import_configuration (export_configuration m) empty = Ok m' /\
    stack_outputs m' = stack_outputs m /\
    dependencies m' = restored_all (dependencies m) /\
    ((forall stack deps dep,
        In (stack, deps) (dependencies m) -> In dep deps -> optional_outputs dep <> None) ->
     m' = m).
Proof.
  intros (Hso & Hds & Hne).
  exists (mkRegistry (stack_outputs m) (restored_all (dependencies m))).
  split; [ | split; [ reflexivity | split; [ reflexivity | ] ] ].
  - unfold import_configuration, export_configuration. simpl.
    rewrite import_outputs_exported; simpl; auto.
    rewrite import_dependencies_exported; simpl; auto.
  - intros Hset. destruct m as [so ds]. simpl in *. f_equal.
    unfold restored_all. clear Hds Hne Hso.
    induction ds as [ | [k l] ds IH ]; simpl; [ reflexivity | ].
    f_equal.
    + f_equal.
      assert (Hl : forall dep, In dep l -> optional_outputs dep <> None)
        by (intros dep Hin; apply (Hset k l); simpl; auto).
      clear Hset IH. induction l as [ | dep l IHl ]; simpl; [ reflexivity | ].
      f_equal.
      * destruct dep as [s r [o | ]]; unfold restored; simpl; [ reflexivity | ].
        exfalso. apply (Hl (mkDependency s r None)); simpl; auto.
      * apply IHl. intros dep' Hin. apply Hl. simpl; auto.
    + apply IH. intros stack deps dep Hin. apply (Hset stack deps dep). simpl; auto.
Qed.

End SnapshotRestore.

Lemma never_set_ok : Manager.registry_ok ManagerFacts.never_set.
Proof.
  unfold Manager.registry_ok. simpl. repeat split.
  - repeat constructor; simpl; tauto.
  - repeat constructor; simpl; tauto.
  - repeat constructor; simpl; discriminate.
Qed.

(** C7 at the registry [never_set]. *)
Lemma snapshot_restore_witness :
  exists m',
    Manager.import_configuration (Manager.export_configuration ManagerFacts.never_set)
      Manager.empty = Ok m' /\
    Manager.stack_outputs m' = Manager.stack_outputs ManagerFacts.never_set /\
    Manager.dependencies m'
    = ManagerFacts.restored_all (Manager.dependencies ManagerFacts.never_set) /\
    ((forall stack deps dep,
        In (stack, deps) (Manager.dependencies ManagerFacts.never_set) ->
        In dep deps -> Manager.optional_outputs dep <> None) ->
     m' = ManagerFacts.never_set).
Proof.
  apply (snapshot_restore never_set_ok).
Defined.

(** C7 as stated fails at [never_set]: the registry is one that the
    registration calls build, its snapshot restores, and the restored
    dependency has [optional_outputs = Some []] where the original had
    [None]. *)
Lemma snapshot_restore_loses_absence :
  Manager.registry_ok ManagerFacts.never_set /\
  exists m',
    Manager.import_configuration (Manager.export_configuration ManagerFacts.never_set)
      Manager.empty = Ok m' /\
    Manager.dependencies m' <> Manager.dependencies ManagerFacts.never_set /\
    Manager.dependencies ManagerFacts.never_set
      = [("ec2-stack", [Manager.mkDependency "vpc-stack" ["VPCId"] None])] /\
    Manager.dependencies m'
      = [("ec2-stack", [Manager.mkDependency "vpc-stack" ["VPCId"] (Some [])])].
Proof.
  split; [ exact never_set_ok | ].
  eexists. split; [ reflexivity | ].
  split; [ discriminate | split; reflexivity ].
Qed.

(* ================================================================== *)
(** * The configuration validator on the snapshot of a registry *)
(* ================================================================== *)

Section Emission.

Import Manager ConfigValidator ValidatorFacts.

Lemma emits_ret {A} (a : A) : emits (ret a) a [] [].
Proof. intros [es ws]. unfold ret. simpl. rewrite !app_nil_r. reflexivity. Qed.

Lemma emits_bind {A B} (m : M A) (k : A -> M B) (a : A) (b : B)
    (e1 w1 e2 w2 : list message) :
  emits m a e1 w1 -> emits (k a) b e2 w2 ->
  emits (bind m k) b (e1 ++ e2) (w1 ++ w2).
Proof.
  intros H1 H2 self. unfold bind. rewrite H1, H2. simpl.
  rewrite <- !app_assoc. reflexivity.
Qed.

Lemma emits_lift {A} (o : outcome A) (a : A) : o = Ok a -> emits (lift o) a [] [].
Proof. intros -> [es ws]. unfold lift. simpl. rewrite !app_nil_r. reflexivity. Qed.

Lemma emits_add_error (msg : message) : emits (add_error msg) tt [msg] [].
Proof. intros [es ws]. unfold add_error. simpl. rewrite app_nil_r. reflexivity. Qed.

Lemma emits_add_warning (msg : message) : emits (add_warning msg) tt [] [msg].
Proof. intros [es ws]. unfold add_warning. simpl. rewrite app_nil_r. reflexivity. Qed.

Lemma emits_eq {A} (m : M A) (a a' : A) (es es' ws ws' : list message) :
  emits m a es ws -> a = a' -> es = es' -> ws = ws' -> emits m a' es' ws'.
Proof. intros H <- <- <-. exact H. Qed.

Lemma is_nil_app {A} (l1 l2 : list A) : is_nil (l1 ++ l2) = is_nil l1 && is_nil l2.
Proof. destruct l1; reflexivity. Qed.

(** A loop that clears the flag [valid] exactly when its body reports
    an error. *)
Lemma emits_for_each_flag {A B} (f : A -> B) (l : list A) (body : B -> bool -> M bool)
    (E W : A -> list message) :
  (forall a valid, In a l ->
     emits (body (f a) valid) (valid && is_nil (E a)) (E a) (W a)) ->
  forall valid,
    emits (for_each (map f l) body valid)
          (valid && is_nil (flat_map E l)) (flat_map E l) (flat_map W l).
Proof.
  induction l as [ | a l IH ]; intros Hbody valid; simpl.
  - eapply emits_eq; [ apply emits_ret | | | ]; auto using andb_true_r.
  - eapply emits_eq.
    + eapply emits_bind; [ apply Hbody; simpl; auto | ].
      apply IH. intros a' v Hin. apply Hbody. simpl; auto.
    + rewrite is_nil_app, andb_assoc. reflexivity.
    + reflexivity.
    + reflexivity.
Qed.

(** The same over [enumerate]. *)
Lemma emits_for_each_enumerate {A} (f : A -> Py.value) (l : list A)
    (body : nat * Py.value -> bool -> M bool) (E W : A -> list message) :
  (forall i a valid, In a l ->
     emits (body (i, f a) valid) (valid && is_nil (E a)) (E a) (W a)) ->
  forall valid,
    emits (for_each (enumerate (map f l)) body valid)
          (valid && is_nil (flat_map E l)) (flat_map E l) (flat_map W l).
Proof.
  unfold enumerate. rewrite length_map. generalize 0 as k.
  induction l as [ | a l IH ]; intros k Hbody valid; simpl.
  - eapply emits_eq; [ apply emits_ret | | | ]; auto using andb_true_r.
  - eapply emits_eq.
    + eapply emits_bind; [ apply Hbody; simpl; auto | ].
      apply IH. intros i a' v Hin. apply Hbody. simpl; auto.
    + rewrite is_nil_app, andb_assoc. reflexivity.
    + reflexivity.
    + reflexivity.
Qed.

Lemma flat_map_nil {A B} (l : list A) : flat_map (fun _ : A => @nil B) l = [].
Proof. induction l; simpl; auto. Qed.

(** ** [validate_structure], [validate_stack_outputs], [validate_dependencies] *)

Lemma validate_structure_exported (m : registry) :
  emits (validate_structure (export_configuration m)) true [] [].
Proof. intros [es ws]. cbn. rewrite !app_nil_r. reflexivity. Qed.

Lemma breaks_convention_str (e : string) :
  breaks_convention (VStr e) = Ok (negb (follows_convention e)).
Proof.
  unfold breaks_convention, follows_convention. simpl.
  destruct (substring_of "{ProjectName}" e); reflexivity.
Qed.

Lemma validate_output_exported (stack : string) (i : nat) (o : StackOutput) (valid : bool) :
  emits (validate_output stack (i, output_entry o) valid)
        (valid && is_nil (@nil message)) [] (naming_warning stack o).
Proof.
  intros [es ws]. destruct o as [n d v e c].
  unfold validate_output, naming_warning, bind, lift, ret, add_warning.
  cbn -[substring_of breaks_convention follows_convention truthy].
  rewrite breaks_convention_str.
  change (truthy (VStr e)) with (negb (String.eqb e "")).
  destruct (String.eqb e ""); cbn -[follows_convention];
    rewrite ?andb_true_r, ?app_nil_r; [ reflexivity | ].
  destruct (follows_convention e); cbn; rewrite ?app_nil_r; reflexivity.
Qed.

Lemma validate_stack_outputs_exported (so : dict (list StackOutput)) :
  emits (validate_stack_outputs (outputs_section so)) true [] (naming_warnings so).
Proof.
  unfold validate_stack_outputs, outputs_section.
  eapply emits_eq.
  - eapply emits_bind; [ apply emits_lift; reflexivity | ].
    apply (emits_for_each_flag
             (fun '(stack, outputs) => (stack, VList (map output_entry outputs)))
             so _ (fun _ => []) (fun kv => flat_map (naming_warning (fst kv)) (snd kv))).
    intros [stack outs] valid _. cbn [fst snd].
    eapply emits_eq.
    + apply (emits_for_each_enumerate output_entry outs (validate_output stack)
               (fun _ => []) (naming_warning stack)).
      intros i o v _. apply validate_output_exported.
    + rewrite flat_map_nil. reflexivity.
    + rewrite flat_map_nil. reflexivity.
    + reflexivity.
  - rewrite flat_map_nil. reflexivity.
  - rewrite flat_map_nil. reflexivity.
  - reflexivity.
Qed.

Lemma validate_dependency_exported
    (stack : string) (i : nat) (d : StackDependency) (valid : bool) :
  emits (validate_dependency stack (i, dependency_entry d) valid)
        (valid && is_nil (@nil message)) [] [].
Proof.
  intros [es ws]. destruct d as [t r o].
  unfold validate_dependency. cbn.
  destruct o as [ [ | x l ] | ]; cbn; rewrite ?andb_true_r, ?app_nil_r; reflexivity.
Qed.

Lemma validate_dependencies_exported (ds : dict (list StackDependency)) :
  emits (validate_dependencies (dependencies_section ds)) true [] [].
Proof.
  unfold validate_dependencies, dependencies_section.
  eapply emits_eq.
  - eapply emits_bind; [ apply emits_lift; reflexivity | ].
    apply (emits_for_each_flag
             (fun '(stack, deps) => (stack, VList (map dependency_entry deps)))
             ds _ (fun _ => []) (fun _ => [])).
    intros [stack deps] valid _.
    eapply emits_eq.
    + apply (emits_for_each_enumerate dependency_entry deps (validate_dependency stack)
               (fun _ => []) (fun _ => [])).
      intros i d v _. apply validate_dependency_exported.
    + rewrite flat_map_nil. reflexivity.
    + rewrite flat_map_nil. reflexivity.
    + rewrite flat_map_nil. reflexivity.
  - rewrite flat_map_nil. reflexivity.
  - rewrite flat_map_nil. reflexivity.
  - rewrite flat_map_nil. reflexivity.
Qed.

End Emission.
Section Consistency.

Import Manager ConfigValidator ValidatorFacts.

Lemma lookup_map {V W} (f : V -> W) (k : string) (d : dict V) :
  lookup k (map (fun kv => (fst kv, f (snd kv))) d) = option_map f (lookup k d).
Proof.
  induction d as [ | [k' v] d IH ]; simpl; [ reflexivity | ].
  destruct (String.eqb k k'); auto.
Qed.

Lemma lookup_outputs_section (k : string) (so : dict (list StackOutput)) :
  match outputs_section so with
  | VDict d => lookup k d
  | _ => None
  end = option_map (fun outs => VList (map output_entry outs)) (lookup k so).
Proof.
  unfold outputs_section.
  induction so as [ | [k' v] so IH ]; simpl; [ reflexivity | ].
  destruct (String.eqb k k'); auto.
Qed.

Lemma lookup_dependencies_section (k : string) (ds : dict (list StackDependency)) :
  match dependencies_section ds with
  | VDict d => lookup k d
  | _ => None
  end = option_map (fun deps => VList (map dependency_entry deps)) (lookup k ds).
Proof.
  unfold dependencies_section.
  induction ds as [ | [k' v] ds IH ]; simpl; [ reflexivity | ].
  destruct (String.eqb k k'); auto.
Qed.

Lemma set_add_str (n : string) (acc : pyset) :
  set_add (VStr n) acc
  = Return (if existsb (py_eq (VStr n)) acc then acc else acc ++ [VStr n]).
Proof. reflexivity. Qed.

Lemma defined_names_from (outs : list StackOutput) (acc : pyset) :
  exists s,
    ofor_each (map output_entry outs)
      (fun output names => obind (py_getitem output "name") (fun n => set_add n names))
      acc = Ok s /\
    forall x, existsb (py_eq (VStr x)) s
              = existsb (py_eq (VStr x)) acc || mem x (map name outs).
Proof.
  revert acc. induction outs as [ | o outs IH ]; intros acc.
  - exists acc. split; [ reflexivity | intros x; rewrite orb_false_r; reflexivity ].
  - cbn [map ofor_each].
    replace (obind (py_getitem (output_entry o) "name") (fun n => set_add n acc))
      with (Ok (if existsb (py_eq (VStr (name o))) acc
                then acc else acc ++ [VStr (name o)]))
      by (destruct o; reflexivity).
    cbn [obind].
    destruct (existsb (py_eq (VStr (name o))) acc) eqn:Hin.
    + destruct (IH acc) as (s & Hs & Hmem). exists s. split; [ exact Hs | ].
      intros x. rewrite Hmem. unfold mem. cbn [map existsb].
      destruct (String.eqb_spec x (name o)) as [-> | Hne]; cbn [orb]; [ | reflexivity ].
      rewrite Hin. reflexivity.
    + destruct (IH (acc ++ [VStr (name o)])) as (s & Hs & Hmem). exists s.
      split; [ exact Hs | ].
      intros x. rewrite Hmem, existsb_app. unfold mem. cbn [map existsb].
      rewrite orb_false_r, orb_assoc. reflexivity.
Qed.

Lemma defined_names_exported (outs : list StackOutput) :
  exists s,
    defined_names (map output_entry outs) = Ok s /\
    forall x, existsb (py_eq (VStr x)) s = mem x (map name outs).
Proof.
  destruct (defined_names_from outs []) as (s & Hs & Hmem).
  exists s. split; [ exact Hs | ]. intros x. rewrite Hmem. reflexivity.
Qed.

Lemma flat_map_missing {B} (g : string -> B) (defined wanted : list string) :
  flat_map (fun x => if mem x defined then [] else [g x]) wanted
  = map g (missing defined wanted).
Proof.
  unfold missing. induction wanted as [ | x l IH ]; simpl; [ reflexivity | ].
  destruct (mem x defined); simpl; rewrite IH; reflexivity.
Qed.

Lemma has_key_outputs_section (k : string) (so : dict (list StackOutput)) :
  py_in (VStr k) (outputs_section so) = Return (has_key k so).
Proof.
  unfold outputs_section, py_in, has_key. simpl. f_equal.
  induction so as [ | [k' v] so IH ]; simpl; [ reflexivity | ].
  destruct (String.eqb k k'); auto.
Qed.

Lemma index_outputs_section (k : string) (so : dict (list StackOutput)) :
  py_index (outputs_section so) (VStr k)
  = match lookup k so with
    | Some outs => Return (VList (map output_entry outs))
    | None => Throw KeyError
    end.
Proof.
  unfold outputs_section, py_index, py_getitem. simpl.
  induction so as [ | [k' v] so IH ]; simpl; [ reflexivity | ].
  destruct (String.eqb k k'); auto.
Qed.

Lemma required_loop_exported
    (A t : string) (s : pyset) (defined wanted : list string) (valid : bool) :
  (forall x, existsb (py_eq (VStr x)) s = mem x defined) ->
  emits
    (for_each (map VStr wanted)
       (fun required_output valid =>
          bind (lift (set_mem required_output s)) (fun found =>
          if negb found
          then bind (add_error (RequiredOutputMissing A required_output (VStr t)))
                    (fun _ => ret false)
          else ret valid))
       valid)
    (valid && is_nil (map (fun x => RequiredOutputMissing A (VStr x) (VStr t))
                          (missing defined wanted)))
    (map (fun x => RequiredOutputMissing A (VStr x) (VStr t)) (missing defined wanted))
    [].
Proof.
  intros Hs.
  eapply emits_eq.
  - apply (emits_for_each_flag VStr wanted _
             (fun x => if mem x defined then []
                       else [RequiredOutputMissing A (VStr x) (VStr t)])
             (fun _ => [])).
    intros x v _. intros [es ws]. unfold bind, lift, set_mem.
    cbn -[py_eq]. rewrite Hs.
    destruct (mem x defined); cbn; rewrite ?andb_true_r, ?andb_false_r, ?app_nil_r;
      reflexivity.
  - rewrite flat_map_missing. reflexivity.
  - apply flat_map_missing.
  - apply flat_map_nil.
Qed.

Lemma optional_loop_exported
    (A t : string) (s : pyset) (defined wanted : list string) (valid : bool) :
  (forall x, existsb (py_eq (VStr x)) s = mem x defined) ->
  emits
    (for_each (map VStr wanted)
       (fun optional_output valid =>
          bind (lift (set_mem optional_output s)) (fun found =>
          if negb found
          then bind (add_warning (OptionalOutputMissing A optional_output (VStr t)))
                    (fun _ => ret valid)
          else ret valid))
       valid)
    valid []
    (map (fun x => OptionalOutputMissing A (VStr x) (VStr t)) (missing defined wanted)).
Proof.
  intros Hs.
  eapply emits_eq.
  - apply (emits_for_each_flag VStr wanted _
             (fun _ => [])
             (fun x => if mem x defined then []
                       else [OptionalOutputMissing A (VStr x) (VStr t)])).
    intros x v _. intros [es ws]. unfold bind, lift, set_mem.
    cbn -[py_eq]. rewrite Hs.
    destruct (mem x defined); cbn; rewrite ?andb_true_r, ?app_nil_r; reflexivity.
  - rewrite flat_map_nil. apply andb_true_r.
  - apply flat_map_nil.
  - apply flat_map_missing.
Qed.

Lemma iter_optional (O : option (list string)) :
  py_iter (py_or (opt_list O) (VList []))
  = Return (map VStr (match O with Some l => l | None => [] end)).
Proof. destruct O as [ [ | x l ] | ]; reflexivity. Qed.

Lemma check_dependency_exported
    (so : dict (list StackOutput)) (A : string) (d : StackDependency) (valid : bool) :
  emits (check_dependency (outputs_section so) A (dependency_entry d) valid)
        (valid && is_nil (edge_errors so (A, d)))
        (edge_errors so (A, d)) (edge_warnings so (A, d)).
Proof.
  destruct d as [t R O].
  unfold edge_errors, edge_warnings, defined_on, optional_list.
  cbn [fst snd stack_name required_outputs optional_outputs].
  unfold check_dependency.
  destruct (lookup t so) as [ outs | ] eqn:Hl; cbn [option_map].
  - destruct (defined_names_exported outs) as (s & Hs & Hmem).
    eapply emits_eq.
    + eapply emits_bind; [ apply emits_lift; reflexivity | ].
      eapply emits_bind; [ apply emits_lift; reflexivity | ].
      eapply emits_bind; [ apply emits_lift; reflexivity | ].
      eapply emits_bind; [ apply emits_lift; cbn -[py_in outputs_section];
                           rewrite has_key_outputs_section; unfold has_key;
                           rewrite Hl; reflexivity | ].
      cbn [negb].
      eapply emits_bind; [ apply emits_lift; cbn -[py_index outputs_section];
                           rewrite index_outputs_section, Hl; reflexivity | ].
      eapply emits_bind; [ apply emits_lift; reflexivity | ].
      eapply emits_bind; [ apply emits_lift; exact Hs | ].
      eapply emits_bind; [ apply emits_lift; reflexivity | ].
      eapply emits_bind;
        [ apply (required_loop_exported A t s (map name outs) R valid Hmem) | ].
      eapply emits_bind; [ apply emits_lift; cbn -[py_iter py_or];
                           rewrite iter_optional; reflexivity | ].
      apply (optional_loop_exported A t s (map name outs) _ _ Hmem).
    + reflexivity.
    + simpl; rewrite ?app_nil_r; reflexivity.
    + simpl; rewrite ?app_nil_r; reflexivity.
  - eapply emits_eq.
    + eapply emits_bind; [ apply emits_lift; reflexivity | ].
      eapply emits_bind; [ apply emits_lift; reflexivity | ].
      eapply emits_bind; [ apply emits_lift; reflexivity | ].
      eapply emits_bind; [ apply emits_lift; cbn -[py_in outputs_section];
                           rewrite has_key_outputs_section; unfold has_key;
                           rewrite Hl; reflexivity | ].
      cbn [negb].
      eapply emits_bind; [ apply emits_add_warning | apply emits_ret ].
    + simpl. symmetry. apply andb_true_r.
    + reflexivity.
    + reflexivity.
Qed.

Lemma flat_map_over_map {X Y Z} (f : X -> Y) (g : Y -> list Z) (l : list X) :
  flat_map g (map f l) = flat_map (fun x => g (f x)) l.
Proof. induction l; simpl; [ reflexivity | f_equal; auto ]. Qed.

Lemma flat_map_nested {X Y Z} (f : X -> list Y) (g : Y -> list Z) (l : list X) :
  flat_map g (flat_map f l) = flat_map (fun x => flat_map g (f x)) l.
Proof.
  induction l; simpl; [ reflexivity | ].
  rewrite flat_map_app. f_equal. auto.
Qed.

Lemma consistency_exported (m : registry) :
  emits (validate_output_dependency_consistency (export_configuration m))
        (is_nil (flat_map (edge_errors (stack_outputs m)) (edges (dependencies m))))
        (flat_map (edge_errors (stack_outputs m)) (edges (dependencies m)))
        (flat_map (edge_warnings (stack_outputs m)) (edges (dependencies m))).
Proof.
  unfold validate_output_dependency_consistency.
  eapply emits_eq.
  - eapply emits_bind; [ apply emits_lift; reflexivity | ].
    eapply emits_bind; [ apply emits_lift; reflexivity | ].
    eapply emits_bind; [ apply emits_lift; reflexivity | ].
    apply (emits_for_each_flag
             (fun '(stack, deps) => (stack, VList (map dependency_entry deps)))
             (dependencies m) _
             (fun kv => flat_map (edge_errors (stack_outputs m)) (map (pair (fst kv)) (snd kv)))
             (fun kv => flat_map (edge_warnings (stack_outputs m)) (map (pair (fst kv)) (snd kv)))).
    intros [stack deps] valid _. cbn [fst snd].
    eapply emits_eq.
    + eapply emits_bind; [ apply emits_lift; reflexivity | ].
      apply (emits_for_each_flag dependency_entry deps _
               (fun d => edge_errors (stack_outputs m) (stack, d))
               (fun d => edge_warnings (stack_outputs m) (stack, d))).
      intros d v _. apply (check_dependency_exported (stack_outputs m) stack d v).
    + rewrite flat_map_over_map. reflexivity.
    + rewrite flat_map_over_map. reflexivity.
    + rewrite flat_map_over_map. reflexivity.
  - unfold edges. rewrite flat_map_nested. reflexivity.
  - unfold edges. rewrite flat_map_nested. reflexivity.
  - unfold edges. rewrite flat_map_nested. reflexivity.
Qed.

End Consistency.
Section Uniqueness.

Import Manager ConfigValidator ValidatorFacts.

Lemma first_owner_app (e : string) (s1 s2 : list (string * string)) :
  first_owner e (s1 ++ s2)
  = match first_owner e s1 with
    | Some o => Some o
    | None => first_owner e s2
    end.
Proof.
  induction s1 as [ | [s e'] s1 IH ]; simpl; [ reflexivity | ].
  destruct (String.eqb e e'); auto.
Qed.

Lemma owner_of_app (e : string) (n1 n2 : list (Py.value * string)) :
  owner_of (VStr e) (n1 ++ n2)
  = match owner_of (VStr e) n1 with
    | Some o => Some o
    | None => owner_of (VStr e) n2
    end.
Proof.
  induction n1 as [ | [k s] n1 IH ]; [ reflexivity | ].
  cbn [app owner_of]. destruct (py_eq (VStr e) k); auto.
Qed.

Lemma collisions_app (seen p1 p2 : list (string * string)) :
  collisions seen (p1 ++ p2) = collisions seen p1 ++ collisions (seen ++ p1) p2.
Proof.
  revert seen. induction p1 as [ | [s e] p1 IH ]; intros seen; simpl.
  - rewrite app_nil_r. reflexivity.
  - rewrite IH, <- !app_assoc. reflexivity.
Qed.

Lemma check_export_exported
    (stack : string) (o : StackOutput) (valid : bool)
    (export_names : list (Py.value * string)) (seen : list (string * string)) :
  records export_names seen ->
  exists export_names',
    records export_names' (seen ++ [(stack, export_name o)]) /\
    emits (check_export stack (output_entry o) (valid, export_names))
          (valid && is_nil (collisions seen [(stack, export_name o)]), export_names')
          (collisions seen [(stack, export_name o)]) [].
Proof.
  intros Hrec. destruct o as [n d v e c]. cbn [export_name collisions].
  destruct (String.eqb_spec e "") as [-> | Hne].
  - exists export_names. split.
    + intros e' He'. rewrite first_owner_app, <- (Hrec e' He'). simpl.
      destruct (String.eqb_spec e' ""); [ contradiction | ].
      destruct (owner_of (VStr e') export_names); reflexivity.
    + intros [es ws]. cbn. rewrite andb_true_r, !app_nil_r. reflexivity.
  - rewrite app_nil_r.
    assert (Htruthy : truthy (VStr e) = true).
    { simpl. destruct (String.eqb_spec e ""); [ contradiction | reflexivity ]. }
    destruct (first_owner e seen) as [ owner | ] eqn:Hown.
    + exists export_names. split.
      * intros e' He'. rewrite first_owner_app, <- (Hrec e' He'). simpl.
        destruct (String.eqb_spec e' e) as [-> | Hne'].
        -- rewrite (Hrec e Hne), Hown. reflexivity.
        -- destruct (owner_of (VStr e') export_names); reflexivity.
      * intros [es ws]. unfold check_export, bind, lift.
        cbn -[truthy owner_of]. rewrite Htruthy, (Hrec e Hne), Hown.
        cbn. rewrite andb_false_r, app_nil_r. reflexivity.
    + exists (export_names ++ [(VStr e, stack)]). split.
      * intros e' He'. rewrite first_owner_app, owner_of_app, <- (Hrec e' He').
        reflexivity.
      * intros [es ws]. unfold check_export, bind, lift.
        cbn -[truthy owner_of]. rewrite Htruthy, (Hrec e Hne), Hown.
        cbn. rewrite andb_true_r, !app_nil_r. reflexivity.
Qed.

Lemma check_exports_exported
    (stack : string) (outs : list StackOutput) (valid : bool)
    (export_names : list (Py.value * string)) (seen : list (string * string)) :
  records export_names seen ->
  let pairs := map (fun o => (stack, export_name o)) outs in
  exists export_names',
    records export_names' (seen ++ pairs) /\
    emits (for_each (map output_entry outs) (check_export stack) (valid, export_names))
          (valid && is_nil (collisions seen pairs), export_names')
          (collisions seen pairs) [].
Proof.
  revert valid export_names seen.
  induction outs as [ | o outs IH ]; intros valid export_names seen Hrec pairs.
  - exists export_names. split; [ rewrite app_nil_r; exact Hrec | ].
    subst pairs. simpl. rewrite andb_true_r. apply emits_ret.
  - destruct (check_export_exported stack o valid Hrec) as (n1 & Hrec1 & H1).
    destruct (IH (valid && is_nil (collisions seen [(stack, export_name o)])) n1 _ Hrec1)
      as (n2 & Hrec2 & H2).
    exists n2. split.
    + subst pairs. simpl. rewrite <- app_assoc in Hrec2. exact Hrec2.
    + subst pairs. cbn [map for_each].
      eapply emits_eq.
      * eapply emits_bind; [ exact H1 | exact H2 ].
      * change ((stack, export_name o) :: map (fun o0 => (stack, export_name o0)) outs)
          with ([(stack, export_name o)] ++ map (fun o0 => (stack, export_name o0)) outs).
        rewrite collisions_app, is_nil_app, andb_assoc. reflexivity.
      * change ((stack, export_name o) :: map (fun o0 => (stack, export_name o0)) outs)
          with ([(stack, export_name o)] ++ map (fun o0 => (stack, export_name o0)) outs).
        rewrite collisions_app. reflexivity.
      * reflexivity.
Qed.

Lemma uniqueness_loop_exported
    (so : dict (list StackOutput)) (valid : bool)
    (export_names : list (Py.value * string)) (seen : list (string * string)) :
  records export_names seen ->
  exists export_names',
    records export_names' (seen ++ exports so) /\
    emits (for_each
             (map (fun '(stack, outputs) => (stack, VList (map output_entry outputs))) so)
             (fun '(stack_name, outputs) st =>
                bind (lift (py_iter outputs)) (fun l =>
                for_each l (check_export stack_name) st))
             (valid, export_names))
          (valid && is_nil (collisions seen (exports so)), export_names')
          (collisions seen (exports so)) [].
Proof.
  revert valid export_names seen.
  induction so as [ | [stack outs] so IH ]; intros valid export_names seen Hrec.
  - exists export_names. split; [ rewrite app_nil_r; exact Hrec | ].
    simpl. rewrite andb_true_r. apply emits_ret.
  - destruct (check_exports_exported stack outs valid Hrec) as (n1 & Hrec1 & H1).
    destruct (IH (valid && is_nil (collisions seen
                                     (map (fun o => (stack, export_name o)) outs)))
                 n1 _ Hrec1) as (n2 & Hrec2 & H2).
    exists n2. unfold exports in *. cbn [flat_map fst snd]. split.
    + rewrite app_assoc. exact Hrec2.
    + cbn [map for_each]. eapply emits_eq.
      * eapply emits_bind; [ | exact H2 ].
        eapply emits_eq;
          [ eapply emits_bind; [ apply emits_lift; reflexivity | exact H1 ]
          | reflexivity | reflexivity | reflexivity ].
      * rewrite collisions_app, is_nil_app, andb_assoc. reflexivity.
      * rewrite collisions_app. reflexivity.
      * reflexivity.
Qed.

Lemma uniqueness_exported (so : dict (list StackOutput)) :
  emits (validate_export_name_uniqueness (outputs_section so))
        (is_nil (collisions [] (exports so))) (collisions [] (exports so)) [].
Proof.
  destruct (uniqueness_loop_exported so true (export_names := []) (seen := []))
    as (n & _ & H).
  { intros e _. reflexivity. }
  unfold validate_export_name_uniqueness, outputs_section.
  eapply emits_eq.
  - eapply emits_bind; [ apply emits_lift; reflexivity | ].
    eapply emits_bind; [ exact H | apply emits_ret ].
  - reflexivity.
  - simpl. rewrite app_nil_r. reflexivity.
  - reflexivity.
Qed.

End Uniqueness.

Section SetFacts.

Import Manager ValidatorFacts GraphFacts.

Lemma mem_In (x : string) (l : list string) : mem x l = true <-> In x l.
Proof.
  unfold mem. rewrite existsb_exists. split.
  - intros (y & Hin & Heq). apply String.eqb_eq in Heq. subst. exact Hin.
  - intros Hin. exists x. split; [ exact Hin | apply String.eqb_refl ].
Qed.

Lemma mem_false (x : string) (l : list string) : mem x l = false <-> ~ In x l.
Proof.
  rewrite <- mem_In. destruct (mem x l); split; congruence.
Qed.

Lemma existsb_strs (x : string) (l : list string) :
  existsb (py_eq (VStr x)) (strs l) = mem x l.
Proof.
  unfold mem. induction l as [ | y l IH ]; [ reflexivity | ].
  cbn [map existsb]. rewrite IH. reflexivity.
Qed.

Lemma set_mem_strs (x : string) (l : list string) :
  set_mem (VStr x) (strs l) = Return (mem x l).
Proof. unfold set_mem. cbn [hashable]. rewrite existsb_strs. reflexivity. Qed.

Lemma set_add_strs (x : string) (l : list string) :
  set_add (VStr x) (strs l) = Return (strs (add_new l x)).
Proof.
  unfold set_add. rewrite set_mem_strs. cbn [rbind]. unfold add_new.
  destruct (mem x l); [ reflexivity | ].
  rewrite map_app. reflexivity.
Qed.

Lemma add_all_strs (l acc : list string) :
  ConfigValidator.ofor_each (strs l) set_add (strs acc)
  = Ok (strs (fold_left add_new l acc)).
Proof.
  revert acc. induction l as [ | x l IH ]; intros acc; [ reflexivity | ].
  cbn [map ConfigValidator.ofor_each fold_left].
  rewrite set_add_strs. cbn [of_result obind]. apply IH.
Qed.

Lemma In_add_new (acc : list string) (x y : string) :
  In y (add_new acc x) <-> In y acc \/ y = x.
Proof.
  unfold add_new. destruct (mem x acc) eqn:E.
  - apply mem_In in E. split; [ auto | ]. intros [H | ->]; auto.
  - rewrite in_app_iff. simpl. intuition congruence.
Qed.

Lemma NoDup_add_new (acc : list string) (x : string) :
  NoDup acc -> NoDup (add_new acc x).
Proof.
  intros H. unfold add_new. destruct (mem x acc) eqn:E; [ exact H | ].
  apply mem_false in E.
  apply NoDup_app; [ exact H | repeat constructor; simpl; tauto | ].
  intros y Hy [<- | []]. contradiction.
Qed.

Lemma In_fold_add_new (l acc : list string) (y : string) :
  In y (fold_left add_new l acc) <-> In y acc \/ In y l.
Proof.
  revert acc. induction l as [ | x l IH ]; intros acc; simpl.
  - tauto.
  - rewrite IH, In_add_new. intuition congruence.
Qed.

Lemma NoDup_fold_add_new (l acc : list string) :
  NoDup acc -> NoDup (fold_left add_new l acc).
Proof.
  revert acc. induction l as [ | x l IH ]; intros acc H; simpl; [ exact H | ].
  apply IH, NoDup_add_new, H.
Qed.

Lemma NoDup_nodes (deps : dict (list StackDependency)) : NoDup (nodes deps).
Proof. unfold nodes. apply NoDup_fold_add_new, NoDup_fold_add_new. constructor. Qed.

Lemma In_nodes (deps : dict (list StackDependency)) (x : string) :
  In x (nodes deps) <->
  In x (keys deps) \/ In x (flat_map (fun kv => targets (snd kv)) deps).
Proof.
  unfold nodes. rewrite !In_fold_add_new. simpl. tauto.
Qed.

End SetFacts.
Section WalkFacts.

Import Manager ValidatorFacts GraphFacts.

Variable deps : dict (list StackDependency).

Lemma walk_suffix (t y e : string) (a b : list string) :
  walk deps t (a ++ y :: b) e -> walk deps y (y :: b) e.
Proof.
  revert t. induction a as [ | z a IH ]; intros t H; simpl in H.
  - inversion H; subst. econstructor; eassumption.
  - inversion H; subst. eapply IH. eassumption.
Qed.

(** A path can be cut at its first arrival. *)
Lemma walk_first_arrival (x e : string) (l : list string) :
  walk deps x l e -> exists l', walk deps x l' e /\ ~ In e l'.
Proof.
  induction 1 as [ x | x t e l Hedge Hwalk (l' & Hl' & Hnot) ].
  - exists []. split; [ constructor | simpl; tauto ].
  - destruct (string_dec x e) as [-> | Hne].
    + exists []. split; [ constructor | simpl; tauto ].
    + exists (x :: l'). split; [ econstructor; eassumption | ].
      simpl. intros [H | H]; [ congruence | contradiction ].
Qed.

(** A path can be freed of its loops. *)
Lemma walk_simple (x e : string) (l : list string) :
  walk deps x l e -> exists l', walk deps x l' e /\ NoDup l' /\ incl l' l.
Proof.
  induction 1 as [ x | x t e l Hedge Hwalk (l' & Hl' & Hnd & Hincl) ].
  - exists []. split; [ constructor | split; [ constructor | apply incl_refl ] ].
  - destruct (in_dec string_dec x l') as [Hin | Hnin].
    + destruct (in_split _ _ Hin) as (a & b & ->).
      exists (x :: b). split; [ eapply walk_suffix; eassumption | ]. split.
      * apply NoDup_app_remove_l in Hnd. exact Hnd.
      * intros y [<- | Hy]; [ simpl; auto | ].
        right. apply Hincl. rewrite in_app_iff. simpl. auto.
    + exists (x :: l'). split; [ econstructor; eassumption | ]. split.
      * constructor; assumption.
      * intros y [<- | Hy]; [ simpl; auto | right; auto ].
Qed.

Lemma walk_head (x e y : string) (l : list string) :
  walk deps x (y :: l) e -> y = x.
Proof. intros H. inversion H; reflexivity. Qed.

Hypothesis keys_unique : NoDup (keys deps).

Lemma In_edges (s : string) (d : StackDependency) :
  In (s, d) (edges deps) <-> exists ds, lookup s deps = Some ds /\ In d ds.
Proof.
  unfold edges. rewrite in_flat_map. split.
  - intros ([k ds] & Hin & Hd). simpl in Hd. apply in_map_iff in Hd.
    destruct Hd as (d' & [= <- <-] & Hd'). exists ds. split; [ | exact Hd' ].
    apply In_lookup; assumption.
  - intros (ds & Hl & Hd). exists (s, ds). split; [ apply lookup_In, Hl | ].
    simpl. apply in_map. exact Hd.
Qed.

Lemma edge_successors (s t : string) :
  edge deps s t <-> In t (successors deps s).
Proof.
  unfold edge, successors, targets. split.
  - intros (d & Hin & <- & Hne). apply In_edges in Hin. destruct Hin as (ds & -> & Hd).
    apply filter_In. split; [ apply in_map, Hd | ].
    destruct (String.eqb_spec (stack_name d) ""); [ contradiction | reflexivity ].
  - destruct (lookup s deps) as [ ds | ] eqn:Hl; [ | simpl; tauto ].
    intros Hin. apply filter_In in Hin. destruct Hin as (Hin & Hne).
    apply in_map_iff in Hin. destruct Hin as (d & <- & Hd).
    exists d. split; [ apply In_edges; eauto | ]. split; [ reflexivity | ].
    destruct (String.eqb_spec (stack_name d) ""); [ discriminate | assumption ].
Qed.

Lemma successors_nodes (s t : string) :
  In t (successors deps s) -> In t (nodes deps).
Proof.
  unfold successors. destruct (lookup s deps) as [ ds | ] eqn:Hl; [ | simpl; tauto ].
  intros Hin. apply In_nodes. right. apply in_flat_map.
  exists (s, ds). split; [ apply lookup_In, Hl | exact Hin ].
Qed.

Lemma key_nodes (s : string) : In s (keys deps) -> In s (nodes deps).
Proof. intros H. apply In_nodes. auto. Qed.

End WalkFacts.

Section Remaining.

Import ValidatorFacts GraphFacts.

Lemma remaining_le (universe visited : list string) :
  remaining universe visited <= List.length universe.
Proof. unfold remaining. apply filter_length_le. Qed.

Lemma mem_app_single (u x : string) (visited : list string) :
  mem u (visited ++ [x]) = mem u visited || String.eqb u x.
Proof. unfold mem. rewrite existsb_app. simpl. rewrite orb_false_r. reflexivity. Qed.

Lemma remaining_grow (universe visited : list string) (x : string) :
  remaining universe (visited ++ [x]) <= remaining universe visited.
Proof.
  unfold remaining. induction universe as [ | u universe IH ]; simpl; [ lia | ].
  rewrite mem_app_single.
  destruct (mem u visited), (String.eqb u x); simpl; lia.
Qed.

Lemma remaining_visit (universe visited : list string) (x : string) :
  In x universe -> ~ In x visited ->
  remaining universe (visited ++ [x]) < remaining universe visited.
Proof.
  intros Hin Hnew. apply mem_false in Hnew.
  induction universe as [ | u universe IH ]; [ contradiction | ].
  pose proof (remaining_grow universe visited x) as Hle.
  unfold remaining in *. simpl. rewrite mem_app_single.
  destruct Hin as [-> | Hin].
  - rewrite Hnew, String.eqb_refl. simpl. lia.
  - specialize (IH Hin).
    destruct (mem u visited), (String.eqb u x); simpl; lia.
Qed.

End Remaining.
Section SingleSourceSearch.

Import Manager ConfigValidator ValidatorFacts GraphFacts.

Lemma has_key_dependencies_section (k : string) (ds : dict (list StackDependency)) :
  py_in (VStr k) (dependencies_section ds) = Return (has_key k ds).
Proof.
  unfold dependencies_section, py_in, has_key. simpl. f_equal.
  induction ds as [ | [k' v] ds IH ]; simpl; [ reflexivity | ].
  destruct (String.eqb k k'); auto.
Qed.

Lemma index_dependencies_section (k : string) (ds : dict (list StackDependency)) :
  py_index (dependencies_section ds) (VStr k)
  = match lookup k ds with
    | Some l => Return (VList (map dependency_entry l))
    | None => Throw KeyError
    end.
Proof.
  unfold dependencies_section, py_index, py_getitem. simpl.
  induction ds as [ | [k' v] ds IH ]; simpl; [ reflexivity | ].
  destruct (String.eqb k k'); auto.
Qed.

(** The loop over a stack's dependencies, told from what the recursive
    call does on each target: [G] is what a successful call guarantees,
    [C] is what suffices for a call to succeed. *)
Lemma follow_dependencies_spec
    (again : Py.value -> list (list Py.value) -> outcome (bool * list (list Py.value)))
    (ds : list StackDependency)
    (G : string -> list (list Py.value) -> list (list Py.value) -> Prop)
    (C : string -> Prop) :
  (forall t circ, In t (targets ds) ->
     exists b c', again (VStr t) circ = Ok (b, c') /\
                  (b = false -> c' = circ) /\
                  (b = true -> G t circ c') /\
                  (C t -> b = true)) ->
  forall circ,
  exists b c', follow_dependencies again (map dependency_entry ds) circ = Ok (b, c') /\
               (b = false -> c' = circ) /\
               (b = true -> exists t, In t (targets ds) /\ G t circ c') /\
               ((exists t, In t (targets ds) /\ C t) -> b = true).
Proof.
  induction ds as [ | d ds IH ]; intros Hagain circ.
  - exists false, circ. simpl. repeat split; auto; try discriminate.
    intros (t & [] & _).
  - cbn [map follow_dependencies].
    replace (py_get (dependency_entry d) "stack_name" VNone)
      with (Return (VStr (stack_name d))) by (destruct d; reflexivity).
    cbn [of_result obind].
    change (truthy (VStr (stack_name d))) with (negb (String.eqb (stack_name d) "")).
    unfold targets in *. cbn [map filter] in *.
    destruct (String.eqb (stack_name d) "") eqn:Hempty; cbn [negb] in *.
    + apply IH. exact Hagain.
    + destruct (Hagain (stack_name d) circ (or_introl eq_refl))
        as (b & c' & Hrun & Hfalse & Htrue & Hcomplete).
      rewrite Hrun. cbn [obind fst snd].
      destruct b.
      * exists true, c'. repeat split; auto; try discriminate.
        intros _. exists (stack_name d). split; [ simpl; auto | auto ].
      * rewrite (Hfalse eq_refl).
        destruct (IH (fun t c Hin => Hagain t c (or_intror Hin)) circ)
          as (b & c'' & Hrun' & Hfalse' & Htrue' & Hcomplete').
        exists b, c''. split; [ exact Hrun' | ]. split; [ exact Hfalse' | ]. split.
        -- intros Hb. destruct (Htrue' Hb) as (t & Hin & Hg).
           exists t. split; [ simpl; auto | exact Hg ].
        -- intros (t & [<- | Hin] & Hc).
           ++ specialize (Hcomplete Hc). discriminate.
           ++ apply Hcomplete'. eauto.
Qed.

Variable deps : dict (list StackDependency).
Hypothesis keys_unique : NoDup (keys deps).
Variable e : string.

Let D := dependencies_section deps.
Let U := nodes deps.

(** One step of [has_path] on names. *)
Lemma has_path_unfold (fuel : nat) (x : string) (vis path : list string)
    (circ : list (list Py.value)) :
  has_path (S fuel) D (VStr x) (VStr e) (strs vis) (strs path) circ
  = if String.eqb x e && Nat.ltb 1 (List.length path)
    then Ok (true, circ ++ [strs (path ++ [e])])
    else if mem x vis then Ok (false, circ)
    else match lookup x deps with
         | Some ds =>
             follow_dependencies
               (fun t c => has_path fuel D t (VStr e) (strs (vis ++ [x]))
                             (strs (path ++ [x])) c)
               (map dependency_entry ds) circ
         | None => Ok (false, circ)
         end.
Proof.
  cbn [has_path]. change (py_eq (VStr x) (VStr e)) with (String.eqb x e).
  rewrite length_map.
  destruct (String.eqb x e && Nat.ltb 1 (List.length path)).
  - rewrite map_app. reflexivity.
  - rewrite set_mem_strs. cbn [of_result obind].
    destruct (mem x vis) eqn:Hvis; [ reflexivity | ].
    rewrite set_add_strs. cbn [of_result obind].
    unfold add_new. rewrite Hvis.
    subst D. rewrite has_key_dependencies_section. cbn [of_result obind].
    rewrite index_dependencies_section. unfold has_key.
    destruct (lookup x deps) as [ ds | ]; [ | reflexivity ].
    cbn [of_result obind py_iter].
    rewrite !map_app. reflexivity.
Qed.

(** What an inner call of [has_path] does, once the end of the search is
    among the visited stacks and the path is not empty. *)
Lemma has_path_inner (fuel : nat) :
  forall (x : string) (vis path : list string) (circ : list (list Py.value)),
    In x U -> remaining U vis < fuel -> In e vis -> 1 <= List.length path ->
    exists b c',
      has_path fuel D (VStr x) (VStr e) (strs vis) (strs path) circ = Ok (b, c') /\
      (b = false -> c' = circ) /\
      (b = true ->
         exists l, walk deps x l e /\ (forall v, In v l -> ~ In v vis) /\
                   (l = [] -> 1 < List.length path) /\
                   c' = circ ++ [strs (path ++ l ++ [e])]) /\
      (forall l, walk deps x l e -> NoDup l -> (forall v, In v l -> ~ In v vis) ->
                 (l = [] -> 1 < List.length path) -> b = true).
Proof.
  induction fuel as [ | fuel IH ]; intros x vis path circ HxU Hfuel He Hpath; [ lia | ].
  rewrite has_path_unfold.
  destruct (String.eqb x e && Nat.ltb 1 (List.length path)) eqn:Hback.
  { apply andb_true_iff in Hback. destruct Hback as (Hxe & Hlen).
    apply String.eqb_eq in Hxe. apply Nat.ltb_lt in Hlen. subst x.
    exists true, (circ ++ [strs (path ++ [e])]).
    split; [ reflexivity | ]. split; [ discriminate | ]. split; [ | reflexivity ].
    intros _. exists []. split; [ constructor | ]. split; [ intros v [] | ].
    split; [ intros _; exact Hlen | reflexivity ]. }
  assert (Hnot_back : forall l, walk deps x l e -> (l = [] -> 1 < List.length path) ->
                                exists l', l = x :: l').
  { intros l Hw Hl. inversion Hw; subst; [ | eauto ].
    specialize (Hl eq_refl). apply Nat.ltb_lt in Hl.
    rewrite String.eqb_refl, Hl in Hback. discriminate. }
  destruct (mem x vis) eqn:Hvis.
  { exists false, circ. split; [ reflexivity | ]. split; [ reflexivity | ].
    split; [ discriminate | ].
    intros l Hw _ Havoid Hl. destruct (Hnot_back l Hw Hl) as (l' & ->).
    apply mem_In in Hvis. exfalso. apply (Havoid x); simpl; auto. }
  apply mem_false in Hvis.
  destruct (lookup x deps) as [ ds | ] eqn:Hds.
  2:{ exists false, circ. split; [ reflexivity | ]. split; [ reflexivity | ].
      split; [ discriminate | ].
      intros l Hw _ _ Hl. destruct (Hnot_back l Hw Hl) as (l' & ->).
      inversion Hw; subst.
      match goal with H : edge _ _ _ |- _ => apply edge_successors in H; trivial;
        unfold successors in H; rewrite Hds in H; destruct H end. }
  assert (Hsucc : forall t, In t (targets ds) -> edge deps x t).
  { intros t Ht. apply edge_successors; trivial. unfold successors. rewrite Hds. exact Ht. }
  destruct (follow_dependencies_spec
              (fun t c => has_path fuel D t (VStr e) (strs (vis ++ [x]))
                            (strs (path ++ [x])) c)
              ds
              (fun t c c' =>
                 exists l, walk deps t l e /\ (forall v, In v l -> ~ In v (vis ++ [x])) /\
                           c' = c ++ [strs ((path ++ [x]) ++ l ++ [e])])
              (fun t => exists l, walk deps t l e /\ NoDup l /\
                                  (forall v, In v l -> ~ In v (vis ++ [x]))))
    with (circ := circ) as (b & c' & Hrun & Hfalse & Htrue & Hcomplete).
  { intros t c Ht.
    destruct (IH t (vis ++ [x]) (path ++ [x]) c) as (b & c' & Hrun & Hf & Ht' & Hc).
    - apply (successors_nodes deps x). unfold successors. rewrite Hds. exact Ht.
    - pose proof (remaining_visit U vis x HxU Hvis). lia.
    - rewrite in_app_iff. auto.
    - rewrite length_app. simpl. lia.
    - exists b, c'. split; [ exact Hrun | ]. split; [ exact Hf | ]. split.
      + intros Hb. destruct (Ht' Hb) as (l & Hw & Havoid & _ & Hc').
        exists l. auto.
      + intros (l & Hw & Hnd & Havoid). apply (Hc l Hw Hnd Havoid).
        intros _. rewrite length_app. simpl. lia. }
  exists b, c'. split; [ exact Hrun | ]. split; [ exact Hfalse | ]. split.
  - intros Hb. destruct (Htrue Hb) as (t & Ht & l & Hw & Havoid & Hc').
    exists (x :: l). split; [ econstructor; eauto | ]. split; [ | split ].
    + intros v [<- | Hv]; [ exact Hvis | ].
      intros Hin. apply (Havoid v Hv). rewrite in_app_iff. auto.
    + discriminate.
    + rewrite Hc'. rewrite <- !app_assoc. reflexivity.
  - intros l Hw Hnd Havoid Hl. destruct (Hnot_back l Hw Hl) as (l' & ->).
    apply Hcomplete. inversion Hw; subst.
    match goal with H : edge _ _ ?t |- _ => exists t; split;
      [ apply edge_successors in H; trivial; unfold successors in H;
        rewrite Hds in H; exact H | ] end.
    exists l'. split; [ assumption | ]. inversion Hnd; subst. split; [ assumption | ].
    intros v Hv. rewrite in_app_iff. intros [Hin | [<- | []]].
    + apply (Havoid v); simpl; auto.
    + contradiction.
Qed.

(** The call [has_path(stack, stack, set(), [])] that the detection makes
    for a stack: it succeeds exactly when the stack lies on a cycle through
    another stack, and then it reports one cycle, which starts at the
    stack. *)
Lemma has_path_top (circ : list (list Py.value)) :
  In e U ->
  exists b c',
    has_path (S (List.length U)) D (VStr e) (VStr e) [] [] circ = Ok (b, c') /\
    (b = false -> c' = circ) /\
    (b = true -> exists l, c' = circ ++ [strs (e :: l)]) /\
    (b = true <-> on_cycle deps e).
Proof.
  intros HeU.
  change (@nil Py.value) with (strs []) at 1 2.
  rewrite (has_path_unfold (List.length U) e [] [] circ).
  rewrite String.eqb_refl. cbn [andb List.length Nat.ltb Nat.leb mem existsb].
  destruct (lookup e deps) as [ ds | ] eqn:Hds.
  2:{ exists false, circ. split; [ reflexivity | ]. split; [ reflexivity | ].
      split; [ discriminate | ]. split; [ discriminate | ].
      intros (t & l & _ & Hedge & _). apply edge_successors in Hedge; trivial.
      unfold successors in Hedge. rewrite Hds in Hedge. destruct Hedge. }
  destruct (follow_dependencies_spec
              (fun t c => has_path (List.length U) D t (VStr e) (strs ([] ++ [e]))
                            (strs ([] ++ [e])) c)
              ds
              (fun t c c' =>
                 exists l, walk deps t l e /\ (forall v, In v l -> ~ In v [e]) /\
                           (l = [] -> 1 < 1) /\ c' = c ++ [strs ([e] ++ l ++ [e])])
              (fun t => exists l, walk deps t l e /\ NoDup l /\ l <> [] /\
                                  (forall v, In v l -> ~ In v [e])))
    with (circ := circ) as (b & c' & Hrun & Hfalse & Htrue & Hcomplete).
  { intros t c Ht.
    destruct (has_path_inner (fuel := List.length U) t [e] [e] c)
      as (b & c' & Hrun & Hf & Ht' & Hc).
    - apply (successors_nodes deps e). unfold successors. rewrite Hds. exact Ht.
    - pose proof (remaining_visit U [] e HeU (fun H => H)).
      pose proof (remaining_le U []). simpl in *. lia.
    - simpl; auto.
    - simpl; lia.
    - exists b, c'. split; [ exact Hrun | ]. split; [ exact Hf | ]. split.
      + exact Ht'.
      + intros (l & Hw & Hnd & Hne & Havoid). apply (Hc l Hw Hnd Havoid).
        intros ->. contradiction. }
  exists b, c'. split; [ exact Hrun | ]. split; [ exact Hfalse | ]. split; [ | split ].
  - intros Hb. destruct (Htrue Hb) as (t & _ & l & _ & _ & _ & ->).
    exists (l ++ [e]). reflexivity.
  - intros Hb. destruct (Htrue Hb) as (t & Ht & l & Hw & Havoid & Hl & _).
    exists t, l. split; [ | split ].
    + destruct l as [ | y l ]; [ specialize (Hl eq_refl); lia | ].
      pose proof (walk_head Hw) as ->. intros ->. apply (Havoid e); simpl; auto.
    + apply edge_successors; trivial. unfold successors. rewrite Hds. exact Ht.
    + exact Hw.
  - intros (t & l & Hne & Hedge & Hw). apply Hcomplete.
    exists t. split.
    { apply edge_successors in Hedge; trivial. unfold successors in Hedge.
      rewrite Hds in Hedge. exact Hedge. }
    destruct (walk_first_arrival Hw) as (l1 & Hw1 & Hnot).
    destruct (walk_simple Hw1) as (l2 & Hw2 & Hnd & Hincl).
    exists l2. split; [ exact Hw2 | ]. split; [ exact Hnd | ]. split.
    + intros ->. inversion Hw2; subst. contradiction.
    + intros v Hv [<- | []]. apply Hnot, Hincl, Hv.
Qed.

End SingleSourceSearch.
Section Detection.

Import Manager ConfigValidator ValidatorFacts GraphFacts.

Lemma add_targets_exported (l : list StackDependency) (acc : list string) :
  add_targets (VList (map dependency_entry l)) (strs acc)
  = Ok (strs (fold_left add_new (targets l) acc)).
Proof.
  unfold add_targets. cbn [py_iter of_result obind].
  revert acc. induction l as [ | d l IH ]; intros acc; [ reflexivity | ].
  cbn [map ofor_each].
  replace (py_get (dependency_entry d) "stack_name" VNone)
    with (Return (VStr (stack_name d))) by (destruct d; reflexivity).
  cbn [of_result obind].
  change (truthy (VStr (stack_name d))) with (negb (String.eqb (stack_name d) "")).
  unfold targets. cbn [map filter].
  destruct (String.eqb (stack_name d) ""); cbn [negb].
  - cbn [obind]. apply IH.
  - rewrite set_add_strs. cbn [of_result obind fold_left]. apply IH.
Qed.

Lemma all_stacks_exported (deps : dict (list StackDependency)) :
  all_stacks_of (dependencies_section deps) = Ok (strs (nodes deps)).
Proof.
  unfold all_stacks_of, nodes, dependencies_section.
  cbn [py_keys py_values py_items rbind of_result obind].
  assert (Hkeys : keys (map (fun '(stack, ds) => (stack, VList (map dependency_entry ds)))
                            deps) = keys deps).
  { unfold keys. rewrite map_map. apply map_ext. intros [k v]. reflexivity. }
  rewrite Hkeys. change (@nil Py.value) with (strs []).
  rewrite add_all_strs. cbn [obind]. clear Hkeys.
  generalize (fold_left add_new (keys deps) []) as acc.
  induction deps as [ | [k ds] deps IH ]; intros acc; [ reflexivity | ].
  cbn [map snd ofor_each flat_map].
  rewrite add_targets_exported. cbn [obind].
  rewrite fold_left_app. apply IH.
Qed.

Variable deps : dict (list StackDependency).
Hypothesis keys_unique : NoDup (keys deps).

(** The loop over [all_stacks], for any list of stacks of the graph. *)
Lemma probe_all (order : list string) (reported : list (list string)) :
  incl order (nodes deps) ->
  exists cycles : list (list string),
    ofor_each (strs order)
      (fun stack circular_deps =>
         obind (py_in stack (dependencies_section deps)) (fun known =>
         if (known : bool)
         then obind (has_path (S (List.length (nodes deps)))
                       (dependencies_section deps) stack stack [] [] circular_deps)
                    (fun r => Ok (snd r))
         else Ok circular_deps))
      (map strs reported)
    = Ok (map strs (reported ++ cycles)) /\
    (forall s, In s (map (hd "") cycles) <-> In s order /\ on_cycle deps s) /\
    (forall c, In c cycles -> c <> []) /\
    (NoDup order -> NoDup (map (hd "") cycles)).
Proof.
  revert reported. induction order as [ | s order IH ]; intros reported Hincl.
  - exists []. rewrite app_nil_r. split; [ reflexivity | ].
    split; [ simpl; tauto | ]. split; [ intros c [] | constructor ].
  - cbn [map ofor_each].
    rewrite has_key_dependencies_section. cbn [of_result obind].
    assert (Hrest : incl order (nodes deps)) by (intros x Hx; apply Hincl; simpl; auto).
    destruct (has_key s deps) eqn:Hkey.
    + destruct (@has_path_top deps keys_unique s (map strs reported))
        as (b & c' & Hrun & Hfalse & Htrue & Hiff).
      { apply Hincl. simpl; auto. }
      rewrite Hrun. cbn [obind snd].
      destruct b.
      * destruct (Htrue eq_refl) as (l & ->).
        assert (Hon : on_cycle deps s) by (apply Hiff; reflexivity).
        change (map strs reported ++ [strs (s :: l)])
          with (map strs reported ++ map strs [s :: l]).
        rewrite <- map_app.
        destruct (IH (reported ++ [s :: l]) Hrest) as (cycles & Hloop & Hheads & Hne & Hnd).
        exists ((s :: l) :: cycles). rewrite <- app_assoc in Hloop.
        split; [ exact Hloop | ]. split; [ | split ].
        -- intros x. cbn [map hd In]. rewrite Hheads. split.
           ++ intros [<- | (Hx & Hc)]; auto.
           ++ intros ([<- | Hx] & Hc); auto.
        -- intros c [<- | Hc]; [ discriminate | auto ].
        -- intros Hnodup. inversion Hnodup; subst. cbn [map hd]. constructor; auto.
           rewrite Hheads. tauto.
      * rewrite (Hfalse eq_refl).
        assert (Hoff : ~ on_cycle deps s) by (rewrite <- Hiff; discriminate).
        destruct (IH reported Hrest) as (cycles & Hloop & Hheads & Hne & Hnd).
        exists cycles. split; [ exact Hloop | ]. split; [ | split ].
        -- intros x. rewrite Hheads. cbn [In]. split; [ tauto | ].
           intros ([<- | Hx] & Hc); [ contradiction | auto ].
        -- exact Hne.
        -- intros Hnodup. inversion Hnodup; auto.
    + assert (Hoff : ~ on_cycle deps s).
      { intros (t & l & _ & Hedge & _). apply edge_successors in Hedge; trivial.
        unfold successors, has_key in *. destruct (lookup s deps); [ discriminate | ].
        destruct Hedge. }
      destruct (IH reported Hrest) as (cycles & Hloop & Hheads & Hne & Hnd).
      exists cycles. split; [ exact Hloop | ]. split; [ | split ].
      * intros x. rewrite Hheads. cbn [In]. split; [ tauto | ].
        intros ([<- | Hx] & Hc); [ contradiction | auto ].
      * exact Hne.
      * intros Hnodup. inversion Hnodup; auto.
Qed.

Variable set_order : pyset -> pyset.
Hypothesis set_order_permutes : forall s, Permutation (set_order s) s.

Lemma on_cycle_node (s : string) : on_cycle deps s -> In s (nodes deps).
Proof.
  intros (t & l & _ & Hedge & _). apply edge_successors in Hedge; trivial.
  apply key_nodes. unfold successors in Hedge.
  destruct (lookup s deps) eqn:Hl; [ | destruct Hedge ].
  apply has_key_In. unfold has_key. rewrite Hl. reflexivity.
Qed.

(** [detect_circular_dependencies] on the dependencies of a registry:
    one report for each stack that lies on a cycle through another
    stack, starting at this stack. *)
Lemma detect_exported :
  exists cycles : list (list string),
    detect_circular_dependencies set_order (dependencies_section deps)
    = Ok (map strs cycles) /\
    (forall s, In s (map (hd "") cycles) <-> on_cycle deps s) /\
    (forall c, In c cycles -> c <> []) /\
    NoDup (map (hd "") cycles).
Proof.
  unfold detect_circular_dependencies. rewrite all_stacks_exported. cbn [obind].
  destruct (Permutation_map_inv VStr (nodes deps) (set_order_permutes (strs (nodes deps))))
    as (order & Horder & Hperm).
  rewrite Horder, length_map.
  destruct (probe_all (order := order) []) as (cycles & Hloop & Hheads & Hne & Hnd).
  { intros x Hx. apply (Permutation_in x (Permutation_sym Hperm)). exact Hx. }
  exists cycles. split; [ exact Hloop | ]. split; [ | split ].
  - intros s. rewrite Hheads. split; [ tauto | ]. intros Hon. split; [ | exact Hon ].
    apply (Permutation_in s Hperm). apply on_cycle_node. exact Hon.
  - exact Hne.
  - apply Hnd. apply (Permutation_NoDup Hperm). apply NoDup_nodes.
Qed.

End Detection.
Section WholeRun.

Import Manager ConfigValidator ValidatorFacts GraphFacts.

Variable set_order : pyset -> pyset.

Lemma joinable_strs (c : list string) : joinable (strs c) = Ok c.
Proof.
  induction c as [ | s c IH ]; [ reflexivity | ].
  cbn [map joinable]. rewrite IH. reflexivity.
Qed.

Lemma report_cycles (cycles : list (list string)) (valid : bool) :
  emits (for_each (map strs cycles)
           (fun cycle _ =>
              bind (lift (joinable cycle)) (fun names =>
              bind (add_error (CircularDependency names)) (fun _ => ret false)))
           valid)
        (valid && is_nil (map CircularDependency cycles))
        (map CircularDependency cycles) [].
Proof.
  eapply emits_eq.
  - apply (emits_for_each_flag strs cycles _
             (fun c => [CircularDependency c]) (fun _ => [])).
    intros c v _. eapply emits_eq.
    + eapply emits_bind; [ apply emits_lift, joinable_strs | ].
      eapply emits_bind; [ apply emits_add_error | apply emits_ret ].
    + simpl. rewrite andb_false_r. reflexivity.
    + reflexivity.
    + reflexivity.
  - rewrite flat_map_concat_map. f_equal. f_equal.
    induction cycles; simpl; [ reflexivity | f_equal; assumption ].
  - induction cycles; simpl; [ reflexivity | f_equal; assumption ].
  - apply flat_map_nil.
Qed.

Lemma validate_all_exported (m : registry) (cycles : list (list string)) :
  detect_circular_dependencies set_order (dependencies_section (dependencies m))
  = Ok (map strs cycles) ->
  emits (validate_all set_order (export_configuration m))
        (is_nil (run_errors m cycles)) (run_errors m cycles) (run_warnings m).
Proof.
  intros Hdetect. unfold validate_all, run_errors, run_warnings.
  eapply emits_eq.
  - eapply emits_bind; [ apply validate_structure_exported | ].
    cbn [negb].
    eapply emits_bind; [ apply emits_lift; reflexivity | ].
    eapply emits_bind; [ apply (validate_stack_outputs_exported (stack_outputs m)) | ].
    eapply emits_bind; [ apply emits_lift; reflexivity | ].
    eapply emits_bind; [ apply (validate_dependencies_exported (dependencies m)) | ].
    eapply emits_bind; [ apply (consistency_exported m) | ].
    eapply emits_bind; [ apply emits_lift; reflexivity | ].
    eapply emits_bind; [ apply (uniqueness_exported (stack_outputs m)) | ].
    eapply emits_bind; [ apply emits_lift; reflexivity | ].
    eapply emits_bind; [ apply emits_lift; exact Hdetect | ].
    apply report_cycles.
  - cbn [andb app]. rewrite !is_nil_app, andb_assoc. reflexivity.
  - reflexivity.
  - cbn [app]. rewrite !app_nil_r. reflexivity.
Qed.

End WholeRun.
Section CycleClaims.

Import Manager ConfigValidator ValidatorFacts GraphFacts.

Lemma starts_at_strs (s : string) (c : list string) :
  c <> [] -> (starts_at s (strs c) <-> hd "" c = s).
Proof.
  destruct c as [ | x c ]; [ congruence | ]. intros _. unfold starts_at. simpl.
  split; [ intros [= ->]; reflexivity | intros ->; reflexivity ].
Qed.

(** C1, as the code has it.  On the dependencies of a registry the
    detection returns, and it reports a cycle starting at a stack [s]
    exactly when the graph has a path from [s] back to [s] through at
    least one other stack, along edges whose target name is not empty.
    The iteration order of the set of stacks plays no part. *)
Theorem cycle_detection (m : registry) (set_order : pyset -> pyset) :
  registry_ok m ->
  (forall s, Permutation (set_order s) s) ->
  exists cycles,
    detect_circular_dependencies set_order (dependencies_section (dependencies m))
    = Ok cycles /\
    forall s, (exists c, In c cycles /\ starts_at s c) <-> on_cycle (dependencies m) s.
Proof.
  intros (_ & Hkeys & _) Hperm.
  destruct (@detect_exported (dependencies m) Hkeys set_order Hperm) as (cycles & Hrun & Hheads & Hne & _).
  exists (map strs cycles). split; [ exact Hrun | ].
  intros s. rewrite <- Hheads. split.
  - intros (c & Hc & Hs). apply in_map_iff in Hc. destruct Hc as (c' & <- & Hc').
    apply in_map_iff. exists c'. split; [ | exact Hc' ].
    apply starts_at_strs; auto.
  - intros Hs. apply in_map_iff in Hs. destruct Hs as (c & Hhd & Hc).
    exists (strs c). split; [ apply in_map, Hc | ].
    apply starts_at_strs; auto.
Qed.

End CycleClaims.

Lemma triangle_ok : Manager.registry_ok GraphFacts.triangle.
Proof.
  unfold Manager.registry_ok. simpl. repeat split.
  - constructor.
  - repeat constructor; simpl; intuition discriminate.
  - repeat constructor; simpl; discriminate.
Qed.

Lemma chain_ok : Manager.registry_ok GraphFacts.chain.
Proof.
  unfold Manager.registry_ok. simpl. repeat split.
  - constructor.
  - repeat constructor; simpl; intuition discriminate.
  - repeat constructor; simpl; discriminate.
Qed.

Lemma self_dependent_ok : Manager.registry_ok GraphFacts.self_dependent.
Proof.
  unfold Manager.registry_ok. simpl. repeat split.
  - constructor.
  - repeat constructor; simpl; intuition discriminate.
  - repeat constructor; simpl; discriminate.
Qed.

(** C1 at the registry [triangle], with sets iterated in insertion order. *)
Lemma cycle_detection_witness :
  exists cycles,
    ConfigValidator.detect_circular_dependencies (fun s => s)
      (ValidatorFacts.dependencies_section (Manager.dependencies GraphFacts.triangle))
    = Ok cycles /\
    forall s, (exists c, In c cycles /\ GraphFacts.starts_at s c)
              <-> GraphFacts.on_cycle (Manager.dependencies GraphFacts.triangle) s.
Proof.
  apply (@cycle_detection GraphFacts.triangle (fun s => s) triangle_ok
           (fun s => Permutation_refl s)).
Defined.

(** The acyclic registry of the spec, [A -> B -> C]: no cycle is reported. *)
Example chain_has_no_cycle :
  ConfigValidator.detect_circular_dependencies (fun s => s)
    (ValidatorFacts.dependencies_section (Manager.dependencies GraphFacts.chain))
  = Ok [].
Proof. reflexivity. Qed.

Lemma self_edge :
  GraphFacts.edge (Manager.dependencies GraphFacts.self_dependent) "A" "A".
Proof.
  exists (GraphFacts.needs "A"). split; [ simpl; auto | ].
  split; [ reflexivity | discriminate ].
Qed.

(** C1 as stated fails at the registry [self_dependent]: the stack [A]
    depends on itself, so the graph has a path from [A] back to [A] of
    length one, and the detection reports nothing. *)
Lemma self_dependency_not_reported :
  Manager.registry_ok GraphFacts.self_dependent /\
  GraphFacts.closed_walk (Manager.dependencies GraphFacts.self_dependent) "A" /\
  ConfigValidator.detect_circular_dependencies (fun s => s)
    (ValidatorFacts.dependencies_section (Manager.dependencies GraphFacts.self_dependent))
  = Ok [].
Proof.
  split; [ exact self_dependent_ok | ]. split; [ | reflexivity ].
  exists "A", []. split; [ exact self_edge | constructor ].
Qed.
Section ValidatorClaims.

Import Manager ConfigValidator ValidatorFacts GraphFacts.

(** C5.  On the snapshot of a registry, [validate_all] returns, and the
    flag it returns is true exactly when the run appended no error to
    [self.errors]; the warnings of the run have no say in it. *)
Theorem overall_verdict (m : registry) (set_order : pyset -> pyset) (self : validator) :
  registry_ok m ->
  (forall s, Permutation (set_order s) s) ->
  exists valid new_errors new_warnings,
    validate_all set_order (export_configuration m) self
    = Ok (valid, mkValidator (errors self ++ new_errors) (warnings self ++ new_warnings)) /\
    (valid = true <-> new_errors = []).
Proof.
  intros (_ & Hkeys & _) Hperm.
  destruct (@detect_exported (dependencies m) Hkeys set_order Hperm)
    as (cycles & Hrun & _).
  exists (is_nil (run_errors m cycles)), (run_errors m cycles), (run_warnings m).
  split; [ apply (validate_all_exported set_order m cycles Hrun) | ].
  destruct (run_errors m cycles); simpl; split; congruence.
Qed.

Lemma count_required_missing (A B x : string) (defined wanted : list string) :
  count_required x
    (map (fun y => RequiredOutputMissing A (VStr y) (VStr B)) (missing defined wanted))
  = if mem x defined then 0 else occurrences x wanted.
Proof.
  unfold count_required, occurrences, missing.
  induction wanted as [ | y l IH ]; simpl.
  - destruct (mem x defined); reflexivity.
  - destruct (mem y defined) eqn:Hy; simpl.
    + rewrite IH. destruct (String.eqb_spec x y) as [-> | Hne]; [ | reflexivity ].
      rewrite Hy. reflexivity.
    + destruct (String.eqb_spec x y) as [-> | Hne]; simpl; rewrite IH;
        [ rewrite Hy | ]; reflexivity.
Qed.

Lemma count_optional_missing (A B x : string) (defined wanted : list string) :
  count_optional x
    (map (fun y => OptionalOutputMissing A (VStr y) (VStr B)) (missing defined wanted))
  = if mem x defined then 0 else occurrences x wanted.
Proof.
  unfold count_optional, occurrences, missing.
  induction wanted as [ | y l IH ]; simpl.
  - destruct (mem x defined); reflexivity.
  - destruct (mem y defined) eqn:Hy; simpl.
    + rewrite IH. destruct (String.eqb_spec x y) as [-> | Hne]; [ | reflexivity ].
      rewrite Hy. reflexivity.
    + destruct (String.eqb_spec x y) as [-> | Hne]; simpl; rewrite IH;
        [ rewrite Hy | ]; reflexivity.
Qed.

Lemma count_required_warnings (A B x : string) (l : list string) :
  count_required x (map (fun y => OptionalOutputMissing A (VStr y) (VStr B)) l) = 0.
Proof. unfold count_required. induction l; simpl; auto. Qed.

Lemma count_optional_errors (A B x : string) (l : list string) :
  count_optional x (map (fun y => RequiredOutputMissing A (VStr y) (VStr B)) l) = 0.
Proof. unfold count_optional. induction l; simpl; auto. Qed.

(** C3, as the code has it.  On the snapshot of a registry the
    consistency check returns, and it emits, edge after edge, the errors
    [edge_errors] and the warnings [edge_warnings] of each declared
    dependency [(A -> B, R, O)].  Where [B] is no key of the registered
    outputs, these are no error and the one warning that [B] has no
    output definitions.  Otherwise, with [S] the names defined on [B],
    they are one error for each occurrence in [R] of a name outside [S],
    one warning for each occurrence in [O] of a name outside [S], and
    nothing else: nothing about a name of [S]. *)
Theorem consistency_per_edge (m : registry) (self : validator) :
  let so := stack_outputs m in
  let declared := edges (dependencies m) in
  validate_output_dependency_consistency (export_configuration m) self
  = Ok (is_nil (flat_map (edge_errors so) declared),
        mkValidator (errors self ++ flat_map (edge_errors so) declared)
                    (warnings self ++ flat_map (edge_warnings so) declared)) /\
  forall A d, In (A, d) declared ->
    match defined_on so (stack_name d) with
    | None =>
        edge_errors so (A, d) = [] /\
        edge_warnings so (A, d) = [NoOutputDefinitions (VStr (stack_name d))]
    | Some defined =>
        (forall x, count_required x (edge_errors so (A, d))
                   = if mem x defined then 0 else occurrences x (required_outputs d)) /\
        (forall x, count_optional x (edge_warnings so (A, d))
                   = if mem x defined then 0 else occurrences x (optional_list d)) /\
        List.length (edge_errors so (A, d))
        = List.length (missing defined (required_outputs d)) /\
        List.length (edge_warnings so (A, d))
        = List.length (missing defined (optional_list d))
    end.
Proof.
  intros so declared. split; [ apply (consistency_exported m) | ].
  intros A d _. unfold edge_errors, edge_warnings. cbn [fst snd].
  destruct (defined_on so (stack_name d)) as [ defined | ]; [ | split; reflexivity ].
  split; [ intros x; apply count_required_missing | ].
  split; [ intros x; apply count_optional_missing | ].
  rewrite !length_map. split; reflexivity.
Qed.

End ValidatorClaims.

Section UniquenessClaim.

Import Manager ConfigValidator ValidatorFacts GraphFacts.

Lemma count_collisions_app (e : string) (l1 l2 : list message) :
  count_collisions e (l1 ++ l2) = count_collisions e l1 + count_collisions e l2.
Proof. unfold count_collisions. rewrite filter_app, length_app. reflexivity. Qed.

Lemma count_collisions_from (e : string) (seen scan : list (string * string)) :
  e <> "" ->
  count_collisions e (collisions seen scan)
  = occurrences e (map snd scan)
    - match first_owner e seen with Some _ => 0 | None => 1 end.
Proof.
  intros He. revert seen. induction scan as [ | [s e1] scan IH ]; intros seen.
  - simpl. destruct (first_owner e seen); reflexivity.
  - cbn [collisions map snd]. rewrite count_collisions_app, IH, first_owner_app.
    unfold occurrences. cbn [filter first_owner].
    destruct (String.eqb_spec e e1) as [<- | Hne].
    + destruct (String.eqb_spec e "") as [ | _ ]; [ contradiction | ].
      destruct (first_owner e seen); unfold count_collisions; simpl;
        rewrite ?String.eqb_refl; simpl; lia.
    + assert (Hhead : count_collisions e
                        (if String.eqb e1 "" then []
                         else match first_owner e1 seen with
                              | Some owner => [DuplicateExportName (VStr e1) s owner]
                              | None => []
                              end) = 0).
      { destruct (String.eqb e1 ""); [ reflexivity | ].
        destruct (first_owner e1 seen); [ | reflexivity ].
        unfold count_collisions. simpl.
        destruct (String.eqb_spec e e1); [ contradiction | reflexivity ]. }
      rewrite Hhead. destruct (first_owner e seen); simpl; lia.
Qed.

(** C4, as the code has it.  The uniqueness check returns on the
    outputs of a registry, and it emits the collisions of its scan and no
    warning.  To a pair [(stack, e)] of the scan the collisions owe
    nothing when [e] is empty or was not seen before, and otherwise
    exactly one error, which names [e], the stack that carried [e] first
    and [stack].  So a non-empty export name carried by [n >= 1] outputs
    is reported [n - 1] times. *)
Theorem export_name_uniqueness (m : registry) (self : validator) :
  let scan := exports (stack_outputs m) in
  validate_export_name_uniqueness (outputs_section (stack_outputs m)) self
  = Ok (is_nil (collisions [] scan),
        mkValidator (errors self ++ collisions [] scan) (warnings self)) /\
  (forall seen stack e rest,
     scan = seen ++ (stack, e) :: rest ->
     collisions [] scan
     = collisions [] seen
       ++ (if String.eqb e "" then []
           else match first_owner e seen with
                | Some owner => [DuplicateExportName (VStr e) stack owner]
                | None => []
                end)
       ++ collisions (seen ++ [(stack, e)]) rest) /\
  (forall e, e <> "" ->
     count_collisions e (collisions [] scan) = pred (occurrences e (map snd scan))).
Proof.
  intros scan. split; [ | split ].
  - rewrite (uniqueness_exported (stack_outputs m) self), app_nil_r. reflexivity.
  - intros seen stack e rest ->. rewrite collisions_app. reflexivity.
  - intros e He. rewrite (count_collisions_from [] scan He). simpl. lia.
Qed.

End UniquenessClaim.

(** C4 at the spec's example: two stacks with one export name give one
    error, which names both. *)
Lemma export_name_uniqueness_witness :
  ConfigValidator.validate_export_name_uniqueness
    (ValidatorFacts.outputs_section (Manager.stack_outputs Examples.two_colliding))
    ConfigValidator.fresh
  = Ok (false,
        ConfigValidator.mkValidator
          [ConfigValidator.DuplicateExportName (VStr "proj-dev-VPC-ID") "stack-b" "stack-a"]
          []).
Proof.
  apply (@export_name_uniqueness Examples.two_colliding ConfigValidator.fresh).
Defined.

(** A third stack with the same export name gives a second error, which
    names the first stack and the third. *)
Example third_collision :
  ConfigValidator.validate_export_name_uniqueness
    (ValidatorFacts.outputs_section (Manager.stack_outputs Examples.three_colliding))
    ConfigValidator.fresh
  = Ok (false,
        ConfigValidator.mkValidator
          [ConfigValidator.DuplicateExportName (VStr "proj-dev-VPC-ID") "stack-b" "stack-a";
           ConfigValidator.DuplicateExportName (VStr "proj-dev-VPC-ID") "stack-c" "stack-a"]
          []).
Proof. reflexivity. Qed.

(** C4 as stated fails at [two_unexported]: the second output has the
    export name of the first, the empty one, and no error is emitted. *)
Lemma empty_export_names_collide_silently :
  ValidatorFacts.exports (Manager.stack_outputs Examples.two_unexported)
    = [("stack-a", ""); ("stack-b", "")] /\
  ConfigValidator.validate_export_name_uniqueness
    (ValidatorFacts.outputs_section (Manager.stack_outputs Examples.two_unexported))
    ConfigValidator.fresh
  = Ok (true, ConfigValidator.fresh).
Proof. split; reflexivity. Qed.

(** C3 at the spec's example: [A] requires [X] of [B], which defines [Y]:
    one error about [X], nothing about [Y]. *)
Lemma consistency_per_edge_witness :
  let edge := ("A", Manager.mkDependency "B" ["X"] None) in
  ConfigValidator.validate_output_dependency_consistency
    (Manager.export_configuration Examples.missing_required) ConfigValidator.fresh
  = Ok (false,
        ConfigValidator.mkValidator
          [ConfigValidator.RequiredOutputMissing "A" (VStr "X") (VStr "B")] []) /\
  In edge (ValidatorFacts.edges (Manager.dependencies Examples.missing_required)) /\
  ValidatorFacts.count_required "X"
    (ValidatorFacts.edge_errors (Manager.stack_outputs Examples.missing_required) edge) = 1 /\
  ValidatorFacts.count_required "Y"
    (ValidatorFacts.edge_errors (Manager.stack_outputs Examples.missing_required) edge) = 0.
Proof.
  intros edge.
  destruct (@consistency_per_edge Examples.missing_required ConfigValidator.fresh)
    as [Hrun Hedges].
  split; [ exact Hrun | ].
  assert (Hin : In edge (ValidatorFacts.edges
                           (Manager.dependencies Examples.missing_required)))
    by (simpl; auto).
  split; [ exact Hin | ].
  specialize (Hedges "A" (Manager.mkDependency "B" ["X"] None) Hin).
  simpl in Hedges. destruct Hedges as (Hrequired & _).
  split; [ apply (Hrequired "X") | apply (Hrequired "Y") ].
Defined.

(** C3 as stated fails at [required_twice]: [X] is one name of the
    required outputs that [B] lacks, and two errors are emitted for it. *)
Lemma repeated_name_reported_twice :
  Manager.dependencies Examples.required_twice
    = [("A", [Manager.mkDependency "B" ["X"; "X"] None])] /\
  ConfigValidator.validate_output_dependency_consistency
    (Manager.export_configuration Examples.required_twice) ConfigValidator.fresh
  = Ok (false,
        ConfigValidator.mkValidator
          [ConfigValidator.RequiredOutputMissing "A" (VStr "X") (VStr "B");
           ConfigValidator.RequiredOutputMissing "A" (VStr "X") (VStr "B")] []).
Proof. split; reflexivity. Qed.

(** A stack registered with an empty list of outputs is a key of the
    registered outputs: the required name is an error, and the warning
    about absent output definitions is not emitted. *)
Example registered_without_outputs :
  ConfigValidator.validate_output_dependency_consistency
    (Manager.export_configuration Examples.registered_empty) ConfigValidator.fresh
  = Ok (false,
        ConfigValidator.mkValidator
          [ConfigValidator.RequiredOutputMissing "A" (VStr "X") (VStr "B")] []).
Proof. reflexivity. Qed.

Lemma missing_optional_ok : Manager.registry_ok Examples.missing_optional.
Proof.
  unfold Manager.registry_ok. simpl. repeat split.
  - repeat constructor; simpl; tauto.
  - repeat constructor; simpl; tauto.
  - repeat constructor; simpl; discriminate.
Qed.

(** C5 at the spec's example of a missing optional output. *)
Lemma overall_verdict_witness :
  exists valid new_errors new_warnings,
    ConfigValidator.validate_all (fun s => s)
      (Manager.export_configuration Examples.missing_optional) ConfigValidator.fresh
    = Ok (valid,
          ConfigValidator.mkValidator
            (ConfigValidator.errors ConfigValidator.fresh ++ new_errors)
            (ConfigValidator.warnings ConfigValidator.fresh ++ new_warnings)) /\
    (valid = true <-> new_errors = []).
Proof.
  apply (@overall_verdict Examples.missing_optional (fun s => s) ConfigValidator.fresh
           missing_optional_ok (fun s => Permutation_refl s)).
Defined.

(** The run of that example: one warning, no error, a valid model. *)
Example missing_optional_is_valid :
  ConfigValidator.validate_all (fun s => s)
    (Manager.export_configuration Examples.missing_optional) ConfigValidator.fresh
  = Ok (true,
        ConfigValidator.mkValidator []
          [ConfigValidator.OptionalOutputMissing "A" (VStr "X") (VStr "B")]).
Proof. reflexivity. Qed.

(** C8 fails on the code.  The structural check accepts a dependency
    whose [optional_outputs] is [null], and the consistency check then
    iterates over it: the run raises [TypeError] and returns no result,
    whatever the iteration order of sets. *)
Theorem null_optional_outputs_raises (set_order : pyset -> pyset) :
  ConfigValidator.validate_dependencies
    (VDict [("ec2-stack",
              VList [VDict [("stack_name", VStr "vpc-stack");
                            ("required_outputs", VList [VStr "VPCId"]);
                            ("optional_outputs", VNone)]])])
    ConfigValidator.fresh
  = Ok (true, ConfigValidator.fresh) /\
  ConfigValidator.validate_output_dependency_consistency
    Examples.null_optional_outputs ConfigValidator.fresh
  = Raise TypeError /\
  ConfigValidator.validate_all set_order Examples.null_optional_outputs
    ConfigValidator.fresh
  = Raise TypeError.
Proof. repeat split. Qed.

(** A [required_outputs] that is no list is reported by the structural
    check, and the run raises all the same. *)
Example scalar_required_outputs_raises (set_order : pyset -> pyset) :
  ConfigValidator.validate_all set_order Examples.scalar_required_outputs
    ConfigValidator.fresh
  = Raise TypeError.
Proof. reflexivity. Qed.
Section DuplicateNames.

Import Manager ConfigValidator ValidatorFacts GraphFacts.

Lemma lookup_split {V} (k : string) (v : V) (d : dict V) :
  lookup k d = Some v ->
  exists pre post, d = pre ++ (k, v) :: post /\ ~ In k (keys pre).
Proof.
  induction d as [ | [k' v'] d IH ]; simpl; [ discriminate | ].
  destruct (String.eqb_spec k k') as [<- | Hne].
  - intros [= ->]. exists [], d. split; [ reflexivity | simpl; tauto ].
  - intros H. destruct (IH H) as (pre & post & -> & Hpre).
    exists ((k', v') :: pre), post. split; [ reflexivity | ].
    simpl. intros [E | Hin]; [ congruence | contradiction ].
Qed.

Lemma dict_set_middle {V} (k : string) (v v' : V) (pre post : dict V) :
  ~ In k (keys pre) ->
  dict_set k v' (pre ++ (k, v) :: post) = pre ++ (k, v') :: post.
Proof.
  induction pre as [ | [k0 v0] pre IH ]; simpl; intros H.
  - rewrite String.eqb_refl. reflexivity.
  - destruct (String.eqb_spec k k0) as [-> | Hne].
    + exfalso. apply H. auto.
    + rewrite IH; [ reflexivity | tauto ].
Qed.

Lemma lookup_app {V} (k : string) (d1 d2 : dict V) :
  lookup k (d1 ++ d2)
  = match lookup k d1 with
    | Some v => Some v
    | None => lookup k d2
    end.
Proof.
  induction d1 as [ | [k' v'] d1 IH ]; simpl; [ reflexivity | ].
  destruct (String.eqb k k'); auto.
Qed.

Lemma missing_ext (defined defined' wanted : list string) :
  (forall x, mem x defined = mem x defined') ->
  missing defined wanted = missing defined' wanted.
Proof.
  intros H. unfold missing. apply filter_ext. intros x. rewrite H. reflexivity.
Qed.

Variables (B : string) (l1 l2 : list StackOutput) (o : StackOutput).
Variables (pre post : dict (list StackOutput)).
Hypothesis B_fresh : ~ In B (keys pre).
Hypothesis same_name : In (name o) (map name (l1 ++ l2)).

Let before := pre ++ (B, l1 ++ l2) :: post.
Let after := pre ++ (B, l1 ++ o :: l2) :: post.

Lemma mem_with_duplicate (x : string) :
  mem x (map name (l1 ++ o :: l2)) = mem x (map name (l1 ++ l2)).
Proof.
  apply eq_true_iff_eq. rewrite !mem_In, !map_app, !in_app_iff. simpl.
  rewrite map_app, in_app_iff in same_name. intuition congruence.
Qed.

Lemma edge_errors_with_duplicate (e : string * StackDependency) :
  edge_errors after e = edge_errors before e.
Proof.
  unfold edge_errors, defined_on, before, after. rewrite !lookup_app. simpl.
  destruct (lookup (stack_name (snd e)) pre); [ reflexivity | ].
  destruct (String.eqb (stack_name (snd e)) B); [ | reflexivity ].
  simpl. rewrite (missing_ext _ _ _ mem_with_duplicate). reflexivity.
Qed.

Lemma edge_warnings_with_duplicate (e : string * StackDependency) :
  edge_warnings after e = edge_warnings before e.
Proof.
  unfold edge_warnings, defined_on, before, after. rewrite !lookup_app. simpl.
  destruct (lookup (stack_name (snd e)) pre); [ reflexivity | ].
  destruct (String.eqb (stack_name (snd e)) B); [ | reflexivity ].
  simpl. rewrite (missing_ext _ _ _ mem_with_duplicate). reflexivity.
Qed.

Lemma naming_warnings_with_duplicate :
  exists w1 w2,
    naming_warnings before = w1 ++ w2 /\
    naming_warnings after = w1 ++ naming_warning B o ++ w2.
Proof.
  exists (naming_warnings pre ++ flat_map (naming_warning B) l1),
         (flat_map (naming_warning B) l2 ++ naming_warnings post).
  unfold naming_warnings, before, after.
  rewrite !flat_map_app. simpl. rewrite !flat_map_app. simpl.
  rewrite <- !app_assoc. split; reflexivity.
Qed.

Lemma exports_with_duplicate :
  exists p1 p2,
    exports before = p1 ++ p2 /\
    exports after = p1 ++ (B, export_name o) :: p2.
Proof.
  exists (exports pre ++ map (fun x => (B, export_name x)) l1),
         (map (fun x => (B, export_name x)) l2 ++ exports post).
  unfold exports, before, after.
  rewrite !flat_map_app. simpl. rewrite !map_app. simpl.
  rewrite <- !app_assoc. split; reflexivity.
Qed.

End DuplicateNames.

Section FreshExport.

Import ConfigValidator ValidatorFacts.

(** What was seen matters to the collisions of a scan only through the
    first owners of the export names that the scan carries. *)
Lemma collisions_seen_ext (scan seen seen' : list (string * string)) :
  (forall e, e <> "" -> In e (map snd scan) -> first_owner e seen = first_owner e seen') ->
  collisions seen scan = collisions seen' scan.
Proof.
  revert seen seen'. induction scan as [ | [s e] scan IH ]; intros seen seen' H.
  - reflexivity.
  - cbn [collisions]. f_equal.
    + destruct (String.eqb_spec e ""); [ reflexivity | ].
      rewrite (H e); simpl; auto.
    + apply IH. intros e' He' Hin. rewrite !first_owner_app, (H e'); simpl; auto.
Qed.

Lemma collisions_insert (p1 p2 : list (string * string)) (stack e : string) :
  e = "" \/ ~ In e (map snd (p1 ++ p2)) ->
  collisions [] (p1 ++ (stack, e) :: p2) = collisions [] (p1 ++ p2).
Proof.
  intros Hfresh. rewrite !collisions_app. f_equal. cbn [collisions app].
  assert (Hhead : (if String.eqb e "" then []
                   else match first_owner e p1 with
                        | Some owner => [DuplicateExportName (VStr e) stack owner]
                        | None => []
                        end) = []).
  { destruct (String.eqb_spec e ""); [ reflexivity | ].
    destruct Hfresh as [ | Hfresh ]; [ contradiction | ].
    assert (Hnone : first_owner e p1 = None).
    { clear - Hfresh. induction p1 as [ | [s e'] p1 IH ]; [ reflexivity | ].
      simpl in *. destruct (String.eqb_spec e e') as [-> | Hne].
      - exfalso. apply Hfresh. auto.
      - apply IH. tauto. }
    rewrite Hnone. reflexivity. }
  rewrite Hhead. cbn [app].
  apply collisions_seen_ext. intros e' He' Hin. rewrite first_owner_app. simpl.
  destruct (first_owner e' p1); [ reflexivity | ].
  destruct (String.eqb_spec e' e) as [-> | Hne]; [ | reflexivity ].
  exfalso. destruct Hfresh as [ | Hfresh ]; [ contradiction | ].
  apply Hfresh. rewrite map_app, in_app_iff. auto.
Qed.

End FreshExport.

Section DuplicateNameClaim.

Import Manager ConfigValidator ValidatorFacts GraphFacts.

(** C10, as the code has it.  Let a stack of a registry receive one
    more output whose name it defines already.  The consistency check
    then does what it did before, message for message.  When moreover
    the export name of the new output is empty, or is carried by no
    output of the registry, the whole validation returns the same flag
    and the same errors as before, and the same warnings but for the
    naming-convention warning that the new output itself may earn: no
    message is about the repeated name. *)
Theorem duplicate_output_name
    (m : registry) (B : string) (l1 l2 : list StackOutput) (o : StackOutput)
    (set_order : pyset -> pyset) (self : validator) :
  registry_ok m ->
  (forall s, Permutation (set_order s) s) ->
  lookup B (stack_outputs m) = Some (l1 ++ l2) ->
  In (name o) (map name (l1 ++ l2)) ->
  let m' := register_stack_outputs B (l1 ++ o :: l2) m in
  validate_output_dependency_consistency (export_configuration m') self
  = validate_output_dependency_consistency (export_configuration m) self /\
  (export_name o = "" \/ ~ In (export_name o) (map snd (exports (stack_outputs m))) ->
   exists valid new_errors w1 w2,
     validate_all set_order (export_configuration m) self
     = Ok (valid, mkValidator (errors self ++ new_errors) (warnings self ++ w1 ++ w2)) /\
     validate_all set_order (export_configuration m') self
     = Ok (valid, mkValidator (errors self ++ new_errors)
                    (warnings self ++ w1 ++ naming_warning B o ++ w2))).
Proof.
  intros (_ & Hkeys & _) Hperm Hlookup Hname m'.
  destruct (lookup_split _ _ Hlookup) as (pre & post & Hso & Hpre).
  assert (Hso' : stack_outputs m' = pre ++ (B, l1 ++ o :: l2) :: post).
  { subst m'. simpl. rewrite Hso. apply dict_set_middle. exact Hpre. }
  assert (Hdeps : dependencies m' = dependencies m) by reflexivity.
  assert (Herrors : flat_map (edge_errors (stack_outputs m')) (edges (dependencies m'))
                    = flat_map (edge_errors (stack_outputs m)) (edges (dependencies m))).
  { rewrite Hdeps, Hso, Hso'. apply flat_map_ext. intros e.
    apply edge_errors_with_duplicate. exact Hname. }
  assert (Hwarnings : flat_map (edge_warnings (stack_outputs m')) (edges (dependencies m'))
                      = flat_map (edge_warnings (stack_outputs m)) (edges (dependencies m))).
  { rewrite Hdeps, Hso, Hso'. apply flat_map_ext. intros e.
    apply edge_warnings_with_duplicate. exact Hname. }
  split.
  - rewrite (consistency_exported m' self), (consistency_exported m self).
    rewrite Herrors, Hwarnings. reflexivity.
  - intros Hfresh.
    destruct (@detect_exported (dependencies m) Hkeys set_order Hperm)
      as (cycles & Hrun & _).
    destruct (naming_warnings_with_duplicate B l1 l2 o pre post) as (w1 & w2 & Hw & Hw').
    destruct (exports_with_duplicate B l1 l2 o pre post) as (p1 & p2 & Hp & Hp').
    exists (is_nil (run_errors m cycles)), (run_errors m cycles), w1,
           (w2 ++ flat_map (edge_warnings (stack_outputs m)) (edges (dependencies m))).
    split.
    + rewrite (validate_all_exported set_order m cycles Hrun self).
      unfold run_warnings. rewrite Hso, Hw, <- Hso, <- !app_assoc. reflexivity.
    + assert (Hrun' : detect_circular_dependencies set_order
                        (dependencies_section (dependencies m')) = Ok (map strs cycles))
        by exact Hrun.
      rewrite (validate_all_exported set_order m' cycles Hrun' self).
      assert (Hsame : run_errors m' cycles = run_errors m cycles).
      { unfold run_errors. rewrite Herrors. f_equal. f_equal.
        rewrite Hso', Hso, Hp', Hp. apply collisions_insert.
        rewrite <- Hp, <- Hso. exact Hfresh. }
      rewrite Hsame. unfold run_warnings.
      rewrite Hwarnings, Hso', Hw', <- !app_assoc. reflexivity.
Qed.

End DuplicateNameClaim.

Section PairwiseSearch.

Import Manager ValidatorFacts GraphFacts PairFacts.
Import DependencyValidator.

Lemma pair_add_targets_exported (l : list StackDependency) (acc : list string) :
  add_targets (VList (map dependency_entry l)) (strs acc)
  = Ok (strs (fold_left add_new (map stack_name l) acc)).
Proof.
  unfold add_targets. cbn [py_iter of_result obind].
  revert acc. induction l as [ | d l IH ]; intros acc; [ reflexivity | ].
  cbn [map ConfigValidator.ofor_each].
  replace (py_getitem (dependency_entry d) "stack_name")
    with (Return (VStr (stack_name d))) by (destruct d; reflexivity).
  cbn [of_result obind]. rewrite set_add_strs. cbn [of_result obind fold_left].
  apply IH.
Qed.

Lemma pair_all_stacks_exported (deps : dict (list StackDependency)) :
  all_stacks_of (dependencies_section deps) = Ok (strs (all_nodes deps)).
Proof.
  unfold all_stacks_of, all_nodes, dependencies_section.
  cbn [py_keys py_values py_items rbind of_result obind].
  assert (Hkeys : keys (map (fun '(stack, ds) => (stack, VList (map dependency_entry ds)))
                            deps) = keys deps).
  { unfold keys. rewrite map_map. apply map_ext. intros [k v]. reflexivity. }
  rewrite Hkeys. change (@nil Py.value) with (strs []).
  rewrite add_all_strs. cbn [obind]. clear Hkeys.
  generalize (fold_left add_new (keys deps) []) as acc.
  induction deps as [ | [k ds] deps IH ]; intros acc; [ reflexivity | ].
  cbn [map snd ConfigValidator.ofor_each flat_map].
  rewrite pair_add_targets_exported. cbn [obind].
  rewrite fold_left_app. apply IH.
Qed.

Lemma pair_follow_total (again : Py.value -> outcome bool) (ds : list StackDependency) :
  (forall t, In t (map stack_name ds) -> exists b, again (VStr t) = Ok b) ->
  exists b, follow_dependencies again (map dependency_entry ds) = Ok b.
Proof.
  induction ds as [ | d ds IH ]; intros Hagain.
  - exists false. reflexivity.
  - cbn [map follow_dependencies].
    replace (py_getitem (dependency_entry d) "stack_name")
      with (Return (VStr (stack_name d))) by (destruct d; reflexivity).
    cbn [of_result obind].
    destruct (Hagain (stack_name d)) as (b & ->); [ simpl; auto | ].
    cbn [obind]. destruct b; [ exists true; reflexivity | ].
    apply IH. intros t Ht. apply Hagain. simpl; auto.
Qed.

Variable deps : dict (list StackDependency).

Let D := dependencies_section deps.
Let U := all_nodes deps.

Lemma target_all_nodes (s t : string) (ds : list StackDependency) :
  lookup s deps = Some ds -> In t (map stack_name ds) -> In t U.
Proof.
  intros Hl Ht. subst U. unfold all_nodes. rewrite In_fold_add_new. right.
  apply in_flat_map. exists (s, ds). split; [ apply lookup_In, Hl | exact Ht ].
Qed.

(** With fuel for every stack not yet visited, the search returns. *)
Lemma pair_has_path_total (e : string) (fuel : nat) :
  forall (x : string) (vis : list string),
    In x U -> remaining U vis < fuel ->
    exists b, has_path fuel D (VStr x) (VStr e) (strs vis) = Ok b.
Proof.
  induction fuel as [ | fuel IH ]; intros x vis HxU Hfuel; [ lia | ].
  cbn [has_path]. change (py_eq (VStr x) (VStr e)) with (String.eqb x e).
  destruct (String.eqb x e); [ exists true; reflexivity | ].
  rewrite set_mem_strs. cbn [of_result obind].
  destruct (mem x vis) eqn:Hvis; [ exists false; reflexivity | ].
  rewrite set_add_strs. cbn [of_result obind]. unfold add_new. rewrite Hvis.
  subst D. rewrite has_key_dependencies_section. cbn [of_result obind].
  rewrite index_dependencies_section. unfold has_key.
  destruct (lookup x deps) as [ ds | ] eqn:Hds; [ | exists false; reflexivity ].
  cbn [of_result obind py_iter].
  apply pair_follow_total. intros t Ht. apply IH.
  - apply (target_all_nodes x t Hds Ht).
  - apply mem_false in Hvis. pose proof (remaining_visit U vis x HxU Hvis). lia.
Qed.

Lemma cycle_in_pairs (p : string * string) (pairs : list (string * string)) :
  cycle_in (pair_cycle p) (map pair_cycle pairs) = existsb (same_pair p) pairs.
Proof.
  unfold cycle_in. induction pairs as [ | q pairs IH ]; [ reflexivity | ].
  cbn [map existsb]. rewrite IH. f_equal.
  unfold pair_cycle, same_pair. cbn. rewrite andb_true_r. reflexivity.
Qed.

Lemma existsb_same_pair_false (p : string * string) (pairs : list (string * string)) :
  existsb (same_pair p) pairs = false -> ~ In p pairs.
Proof.
  intros H Hin. assert (Ht : existsb (same_pair p) pairs = true).
  { apply existsb_exists. exists p. split; [ exact Hin | ].
    unfold same_pair. rewrite !String.eqb_refl. reflexivity. }
  congruence.
Qed.

Lemma unordered_add (a b : string) (pairs : list (string * string)) :
  unordered pairs -> a <> b -> ~ In (a, b) pairs -> ~ In (b, a) pairs ->
  unordered (pairs ++ [(a, b)]).
Proof.
  intros (Hnd & Hrev) Hab Hnew Hnew'. split.
  - apply NoDup_app; [ exact Hnd | repeat constructor; simpl; tauto | ].
    intros p Hp [<- | []]. contradiction.
  - intros x y Hxy Hyx. rewrite in_app_iff in Hxy, Hyx. simpl in Hxy, Hyx.
    destruct Hxy as [Hin | [E | []]]; destruct Hyx as [Hin' | [E' | []]].
    + apply (Hrev x y); assumption.
    + injection E' as Ea Eb. subst. contradiction.
    + injection E as Ea Eb. subst. contradiction.
    + congruence.
Qed.

(** One pair of the nested loops: the list of reports stays unordered. *)
Lemma check_pair_exported (a b : string) (pairs : list (string * string)) :
  In a U -> In b U -> unordered pairs ->
  exists pairs',
    check_pair (S (List.length U)) D (VStr a) (VStr b) (map pair_cycle pairs)
    = Ok (map pair_cycle pairs') /\ unordered pairs'.
Proof.
  intros Ha Hb Hinv. unfold check_pair.
  change (py_eq (VStr a) (VStr b)) with (String.eqb a b).
  destruct (String.eqb_spec a b) as [ | Hab ]; cbn [negb]; [ exists pairs; auto | ].
  destruct (pair_has_path_total b (fuel := S (List.length U)) a []) as (forth & Hforth);
    [ exact Ha | pose proof (remaining_le U []); lia | ].
  cbn [map] in Hforth. rewrite Hforth. cbn [obind].
  assert (Hback : exists back,
             (if forth then has_path (S (List.length U)) D (VStr b) (VStr a) []
              else Ok false) = Ok back).
  { destruct forth; [ | exists false; reflexivity ].
    apply (pair_has_path_total a (fuel := S (List.length U)) b []);
      [ exact Hb | pose proof (remaining_le U []); lia ]. }
  destruct Hback as (back & ->). cbn [obind].
  destruct back; [ | exists pairs; auto ].
  cbv zeta.
  change [VStr a; VStr b] with (pair_cycle (a, b)).
  change (rev (pair_cycle (a, b))) with (pair_cycle (b, a)).
  rewrite !cycle_in_pairs.
  destruct (existsb (same_pair (a, b)) pairs) eqn:H1; cbn [negb andb];
    [ exists pairs; auto | ].
  destruct (existsb (same_pair (b, a)) pairs) eqn:H2; cbn [negb];
    [ exists pairs; auto | ].
  exists (pairs ++ [(a, b)]). split; [ rewrite map_app; reflexivity | ].
  apply unordered_add; auto using existsb_same_pair_false.
Qed.

Lemma inner_loop_exported (a : string) (order : list string) (pairs : list (string * string)) :
  In a U -> incl order U -> unordered pairs ->
  exists pairs',
    ConfigValidator.ofor_each (strs order)
      (fun stack_b circular_deps =>
         check_pair (S (List.length U)) D (VStr a) stack_b circular_deps)
      (map pair_cycle pairs)
    = Ok (map pair_cycle pairs') /\ unordered pairs'.
Proof.
  intros Ha. revert pairs. induction order as [ | b order IH ]; intros pairs Hincl Hinv.
  - exists pairs. auto.
  - cbn [map ConfigValidator.ofor_each].
    destruct (@check_pair_exported a b pairs Ha (Hincl b (or_introl eq_refl)) Hinv)
      as (pairs1 & -> & Hinv1).
    cbn [obind]. apply IH; [ | exact Hinv1 ].
    intros x Hx. apply Hincl. simpl; auto.
Qed.

Lemma outer_loop_exported (order order' : list string) (pairs : list (string * string)) :
  incl order U -> incl order' U -> unordered pairs ->
  exists pairs',
    ConfigValidator.ofor_each (strs order)
      (fun stack_a circular_deps =>
         ConfigValidator.ofor_each (strs order')
           (fun stack_b circular_deps =>
              check_pair (S (List.length U)) D stack_a stack_b circular_deps)
           circular_deps)
      (map pair_cycle pairs)
    = Ok (map pair_cycle pairs') /\ unordered pairs'.
Proof.
  revert pairs. induction order as [ | a order IH ]; intros pairs Hincl Hincl' Hinv.
  - exists pairs. auto.
  - cbn [map ConfigValidator.ofor_each].
    destruct (@inner_loop_exported a order' pairs (Hincl a (or_introl eq_refl)) Hincl' Hinv)
      as (pairs1 & -> & Hinv1).
    cbn [obind]. apply IH; [ | exact Hincl' | exact Hinv1 ].
    intros x Hx. apply Hincl. simpl; auto.
Qed.

Variable set_order : pyset -> pyset.
Hypothesis set_order_permutes : forall s, Permutation (set_order s) s.

(** The pairwise detection returns on the snapshot of a registry, and
    its reports are pairs, none twice and none with its reverse. *)
Lemma pair_detect_exported (so : dict (list StackOutput)) :
  exists pairs,
    detect_circular_dependencies set_order (export_configuration (mkRegistry so deps))
    = Ok (map pair_cycle pairs) /\ unordered pairs.
Proof.
  unfold detect_circular_dependencies.
  replace (py_get (export_configuration (mkRegistry so deps)) "dependencies" (VDict []))
    with (Return D) by reflexivity.
  cbn [of_result obind]. unfold D at 1. rewrite pair_all_stacks_exported. cbn [obind].
  destruct (Permutation_map_inv VStr (all_nodes deps)
              (set_order_permutes (strs (all_nodes deps))))
    as (order & Horder & Hperm).
  rewrite Horder, length_map.
  assert (Hincl : incl order U).
  { intros x Hx. apply (Permutation_in x (Permutation_sym Hperm)). exact Hx. }
  apply (@outer_loop_exported order order [] Hincl Hincl).
  split; [ constructor | intros a b [] ].
Qed.

End PairwiseSearch.
Section ReportClaims.

Import Manager ValidatorFacts GraphFacts PairFacts.

Lemma starts_of_reports (cycles : list (list string)) :
  (forall c, In c cycles -> c <> []) ->
  Forall2 starts_at (map (hd "") cycles) (map strs cycles).
Proof.
  induction cycles as [ | c cycles IH ]; intros Hne; [ constructor | ].
  cbn [map]. constructor.
  - apply starts_at_strs; [ apply Hne; simpl; auto | reflexivity ].
  - apply IH. intros c' Hc'. apply Hne. simpl; auto.
Qed.

(** C2, as the code has it.  In validate-config.py every stack that lies
    on a cycle through another stack earns one report, which starts at
    this stack, and there are no other reports: there are as many reports
    as stacks on cycles, whatever the number of distinct cycles, and the
    reports are not compared with one another.  In validate-dependencies.py
    the reports are pairs of stacks, and there no pair is reported twice,
    nor together with its reverse. *)
Theorem cycle_reports (m : registry) (set_order : pyset -> pyset) :
  registry_ok m ->
  (forall s, Permutation (set_order s) s) ->
  (exists starts cycles,
     ConfigValidator.detect_circular_dependencies set_order
       (dependencies_section (dependencies m)) = Ok cycles /\
     Forall2 starts_at starts cycles /\
     NoDup starts /\
     forall s, In s starts <-> on_cycle (dependencies m) s) /\
  (exists pairs,
     DependencyValidator.detect_circular_dependencies set_order (export_configuration m)
     = Ok (map pair_cycle pairs) /\
     NoDup pairs /\
     forall a b, In (a, b) pairs -> ~ In (b, a) pairs).
Proof.
  intros (_ & Hkeys & _) Hperm. split.
  - destruct (@detect_exported (dependencies m) Hkeys set_order Hperm)
      as (cycles & Hrun & Hheads & Hne & Hnd).
    exists (map (hd "") cycles), (map strs cycles).
    split; [ exact Hrun | ]. split; [ apply starts_of_reports, Hne | ].
    split; [ exact Hnd | exact Hheads ].
  - destruct (@pair_detect_exported (dependencies m) set_order Hperm (stack_outputs m))
      as (pairs & Hrun & Hnd & Hrev).
    exists pairs. destruct m as [so ds]. auto.
Qed.

End ReportClaims.

(** C2 at the registry [triangle]. *)
Lemma cycle_reports_witness :
  (exists starts cycles,
     ConfigValidator.detect_circular_dependencies (fun s => s)
       (ValidatorFacts.dependencies_section (Manager.dependencies GraphFacts.triangle))
     = Ok cycles /\
     Forall2 GraphFacts.starts_at starts cycles /\
     NoDup starts /\
     forall s, In s starts <-> GraphFacts.on_cycle (Manager.dependencies GraphFacts.triangle) s) /\
  (exists pairs,
     DependencyValidator.detect_circular_dependencies (fun s => s)
       (Manager.export_configuration GraphFacts.triangle)
     = Ok (map PairFacts.pair_cycle pairs) /\
     NoDup pairs /\
     forall a b, In (a, b) pairs -> ~ In (b, a) pairs).
Proof.
  apply (@cycle_reports GraphFacts.triangle (fun s => s) triangle_ok
           (fun s => Permutation_refl s)).
Defined.

(** C2 as stated fails at the registry [triangle], built as
    [A -> B -> C -> A]: the one cycle earns three reports in
    validate-config.py, rotations of one another, and three pairs in
    validate-dependencies.py. *)
Lemma triangle_reported_three_times :
  ConfigValidator.detect_circular_dependencies (fun s => s)
    (ValidatorFacts.dependencies_section (Manager.dependencies GraphFacts.triangle))
  = Ok [ [VStr "A"; VStr "B"; VStr "C"; VStr "A"];
         [VStr "B"; VStr "C"; VStr "A"; VStr "B"];
         [VStr "C"; VStr "A"; VStr "B"; VStr "C"] ] /\
  DependencyValidator.detect_circular_dependencies (fun s => s)
    (Manager.export_configuration GraphFacts.triangle)
  = Ok [ [VStr "A"; VStr "B"]; [VStr "A"; VStr "C"]; [VStr "B"; VStr "C"] ].
Proof. split; reflexivity. Qed.

(** The reports for the stacks of one cycle need not be rotations of one
    another: each is the first cycle that the search from its stack
    finds.  In [two_cycles] the cycle [A -> B -> C -> A] is reported from
    [C] only. *)
Lemma two_cycles_reports :
  ConfigValidator.detect_circular_dependencies (fun s => s)
    (ValidatorFacts.dependencies_section (Manager.dependencies MoreExamples.two_cycles))
  = Ok [ [VStr "A"; VStr "B"; VStr "A"];
         [VStr "B"; VStr "A"; VStr "B"];
         [VStr "C"; VStr "A"; VStr "B"; VStr "C"] ].
Proof. reflexivity. Qed.

Lemma satisfied_ok : Manager.registry_ok DuplicateExamples.satisfied.
Proof.
  unfold Manager.registry_ok. simpl. repeat split.
  - repeat constructor; simpl; tauto.
  - repeat constructor; simpl; tauto.
  - repeat constructor; simpl; discriminate.
Qed.

(** C10 at the registry [satisfied], to which [renamed_copy] is added. *)
Lemma duplicate_output_name_witness :
  let m := DuplicateExamples.satisfied in
  let m' :=
    Manager.register_stack_outputs "B"
      ([Examples.output "Y" "{ProjectName}-{Environment}-Y"]
       ++ DuplicateExamples.renamed_copy :: []) m in
  ConfigValidator.validate_output_dependency_consistency
    (Manager.export_configuration m') ConfigValidator.fresh
  = ConfigValidator.validate_output_dependency_consistency
      (Manager.export_configuration m) ConfigValidator.fresh /\
  exists valid new_errors w1 w2,
    ConfigValidator.validate_all (fun s => s) (Manager.export_configuration m)
      ConfigValidator.fresh
    = Ok (valid, ConfigValidator.mkValidator ([] ++ new_errors) ([] ++ w1 ++ w2)) /\
    ConfigValidator.validate_all (fun s => s) (Manager.export_configuration m')
      ConfigValidator.fresh
    = Ok (valid,
          ConfigValidator.mkValidator ([] ++ new_errors)
            ([] ++ w1 ++ ValidatorFacts.naming_warning "B" DuplicateExamples.renamed_copy
                ++ w2)).
Proof.
  intros m m'.
  destruct (@duplicate_output_name m "B"
              [Examples.output "Y" "{ProjectName}-{Environment}-Y"] []
              DuplicateExamples.renamed_copy (fun s => s) ConfigValidator.fresh
              satisfied_ok (fun s => Permutation_refl s) eq_refl (or_introl eq_refl))
    as [Hsame Hverdict].
  split; [ exact Hsame | ].
  apply Hverdict. right. simpl. intros [H | []]. discriminate H.
Defined.

(** C10 as stated fails at the registry [satisfied]: adding
    [plain_copy], an output with the name of the one that is there,
    turns a valid model into an invalid one, through the export name
    that the two outputs share. *)
Lemma duplicate_output_changes_verdict :
  Manager.name DuplicateExamples.plain_copy = "Y" /\
  Manager.stack_outputs DuplicateExamples.satisfied
    = [("B", [Examples.output "Y" "{ProjectName}-{Environment}-Y"])] /\
  ConfigValidator.validate_all (fun s => s)
    (Manager.export_configuration DuplicateExamples.satisfied) ConfigValidator.fresh
  = Ok (true, ConfigValidator.fresh) /\
  ConfigValidator.validate_all (fun s => s)
    (Manager.export_configuration
       (Manager.register_stack_outputs "B"
          [Examples.output "Y" "{ProjectName}-{Environment}-Y"; DuplicateExamples.plain_copy]
          DuplicateExamples.satisfied))
    ConfigValidator.fresh
  = Ok (false,
        ConfigValidator.mkValidator
          [ConfigValidator.DuplicateExportName (VStr "{ProjectName}-{Environment}-Y")
             "B" "B"]
          []).
Proof. repeat split. Qed.

(* ================================================================== *)
(** * The registry: what registration builds *)
(* ================================================================== *)

Section Registration.

Import Manager ManagerFacts RegistrationFacts.

Lemma keys_dict_set {V} (k : string) (v : V) (d : dict V) :
  keys (dict_set k v d) = if has_key k d then keys d else keys d ++ [k].
Proof.
  unfold has_key. induction d as [ | [k' v'] d IH ]; simpl; [ reflexivity | ].
  destruct (String.eqb k k') eqn:E.
  - apply String.eqb_eq in E. subst. reflexivity.
  - simpl. unfold keys in *. rewrite IH. destruct (lookup k d); reflexivity.
Qed.

Lemma NoDup_dict_set {V} (k : string) (v : V) (d : dict V) :
  NoDup (keys d) -> NoDup (keys (dict_set k v d)).
Proof.
  intros H. rewrite keys_dict_set. destruct (has_key k d) eqn:E; [ exact H | ].
  assert (N : ~ In k (keys d)).
  { intros I. apply has_key_In in I. congruence. }
  apply NoDup_app; [ exact H | repeat constructor; simpl; tauto | ].
  intros x I [ <- | [] ]. contradiction.
Qed.

Lemma In_dict_set {V} (k : string) (v : V) (d : dict V) (kv : string * V) :
  In kv (dict_set k v d) -> kv = (k, v) \/ In kv d.
Proof.
  induction d as [ | [k' v'] d IH ]; simpl.
  - intros [ <- | [] ]; auto.
  - destruct (String.eqb k k'); simpl; intros [ <- | H ]; auto.
    destruct (IH H); auto.
Qed.

Lemma lookup_dict_set_same {V} (k : string) (v : V) (d : dict V) :
  lookup k (dict_set k v d) = Some v.
Proof.
  induction d as [ | [k' v'] d IH ]; simpl.
  - rewrite String.eqb_refl. reflexivity.
  - destruct (String.eqb k k') eqn:E; simpl.
    + rewrite String.eqb_refl. reflexivity.
    + rewrite E. exact IH.
Qed.

Lemma lookup_dict_set_other {V} (k k' : string) (v : V) (d : dict V) :
  k' <> k -> lookup k' (dict_set k v d) = lookup k' d.
Proof.
  intros N. induction d as [ | [k0 v0] d IH ]; simpl.
  - apply String.eqb_neq in N. rewrite N. reflexivity.
  - destruct (String.eqb k k0) eqn:E; simpl.
    + apply String.eqb_eq in E. subst k0.
      apply String.eqb_neq in N. rewrite N. reflexivity.
    + rewrite IH. reflexivity.
Qed.

Lemma register_stack_outputs_ok (stack : string) (outputs : list StackOutput) (m : registry) :
  registry_ok m -> registry_ok (register_stack_outputs stack outputs m).
Proof.
  intros (H1 & H2 & H3). repeat split; simpl; auto using NoDup_dict_set.
Qed.

Lemma dependencies_register_dependency
    (stack : string) (dependency : StackDependency) (m : registry) :
  dependencies (register_dependency stack dependency m)
  = dict_set stack
      (match lookup stack (dependencies m) with Some l => l | None => [] end ++ [dependency])
      (dependencies m).
Proof.
  unfold register_dependency, has_key. simpl.
  destruct (lookup stack (dependencies m)) as [ l | ] eqn:E.
  - rewrite E. reflexivity.
  - assert (N : ~ In stack (keys (dependencies m))) by (apply lookup_None_iff; exact E).
    rewrite (dict_set_fresh stack [] (dependencies m) N).
    rewrite (lookup_last stack [] (dependencies m) N).
    rewrite (dict_set_last stack [] ([] ++ [dependency]) (dependencies m) N).
    rewrite (dict_set_fresh stack _ (dependencies m) N). reflexivity.
Qed.

Lemma register_dependency_ok (stack : string) (dependency : StackDependency) (m : registry) :
  registry_ok m -> registry_ok (register_dependency stack dependency m).
Proof.
  intros (H1 & H2 & H3). unfold registry_ok.
  rewrite dependencies_register_dependency. repeat split.
  - exact H1.
  - apply NoDup_dict_set, H2.
  - apply Forall_forall. intros kv I.
    apply In_dict_set in I. destruct I as [ -> | I ].
    + simpl. intros E. apply app_eq_nil in E. destruct E; discriminate.
    + rewrite Forall_forall in H3. auto.
Qed.

(** X1. Every registry that [register_stack_outputs] and
    [register_dependency] build from the empty manager is well formed: no
    stack is a key twice in either dictionary, and no stack is listed with
    an empty dependency list. *)
Theorem built_registry_ok (m : registry) : built m -> registry_ok m.
Proof.
  induction 1.
  - repeat split; simpl; constructor.
  - apply register_stack_outputs_ok. assumption.
  - apply register_dependency_ok. assumption.
Qed.

(** X2. What one registration call changes. [register_stack_outputs]
    replaces the output list of its stack and leaves every other stack and
    all dependencies alone; [register_dependency] appends the dependency
    to the list of its stack (the empty list when the stack was unknown)
    and leaves every other stack and all outputs alone. *)
Theorem registration_lookup
    (m : registry) (stack : string) (outputs : list StackOutput)
    (dependency : StackDependency) :
  let m1 := register_stack_outputs stack outputs m in
  let m2 := register_dependency stack dependency m in
  lookup stack (stack_outputs m1) = Some outputs /\
  (forall other, other <> stack ->
     lookup other (stack_outputs m1) = lookup other (stack_outputs m)) /\
  dependencies m1 = dependencies m /\
  lookup stack (dependencies m2)
  = Some (match lookup stack (dependencies m) with Some l => l | None => [] end
          ++ [dependency]) /\
  (forall other, other <> stack ->
     lookup other (dependencies m2) = lookup other (dependencies m)) /\
  stack_outputs m2 = stack_outputs m.
Proof.
  cbv zeta. rewrite dependencies_register_dependency. simpl.
  repeat split.
  - apply lookup_dict_set_same.
  - intros other N. apply lookup_dict_set_other, N.
  - apply lookup_dict_set_same.
  - intros other N. apply lookup_dict_set_other, N.
Qed.

End Registration.

Lemma built_registry_ok_witness :
  RegistrationFacts.built ManagerFacts.never_set /\ Manager.registry_ok ManagerFacts.never_set.
Proof.
  assert (H : RegistrationFacts.built ManagerFacts.never_set)
    by (unfold ManagerFacts.never_set; repeat constructor).
  split; [ exact H | apply (built_registry_ok H) ].
Defined.

Section Replay.

Import Manager ManagerFacts ReplayFacts.

Lemma import_outputs_replays (l : dict (list StackOutput)) (base : registry) :
  import_outputs
    (map (fun '(stack, outputs) => (stack, VList (map output_entry outputs))) l) base
  = Ok (replay_outputs l base).
Proof.
  revert base. induction l as [ | [k outs] l IH ]; intros base; simpl; [ reflexivity | ].
  rewrite read_outputs_entries. simpl. apply IH.
Qed.

Lemma import_stack_dependencies_replays
    (stack : string) (ds : list StackDependency) (base : registry) :
  import_stack_dependencies stack (map dependency_entry ds) base
  = Ok (fold_left (fun r d => register_dependency stack (restored d) r) ds base).
Proof.
  revert base. induction ds as [ | d ds IH ]; intros base; simpl; [ reflexivity | ].
  rewrite read_dependency_entry. simpl. apply IH.
Qed.

Lemma import_dependencies_replays (l : dict (list StackDependency)) (base : registry) :
  import_dependencies
    (map (fun '(stack, deps) => (stack, VList (map dependency_entry deps))) l) base
  = Ok (replay_dependencies l base).
Proof.
  revert base. induction l as [ | [k ds] l IH ]; intros base; simpl; [ reflexivity | ].
  rewrite import_stack_dependencies_replays. simpl. apply IH.
Qed.

(** X3. [import_configuration] of a snapshot does not replace the
    manager's content: it is the same as calling [register_stack_outputs]
    for every stack of the snapshot and then [register_dependency] for
    every dependency, in the order of the snapshot, on the manager as it
    was. *)
Theorem import_replays_registration (m base : registry) :
  import_configuration (export_configuration m) base
  = Ok (replay_dependencies (dependencies m) (replay_outputs (stack_outputs m) base)).
Proof.
  unfold import_configuration, export_configuration. simpl.
  rewrite import_outputs_replays. simpl.
  apply import_dependencies_replays.
Qed.

Lemma dependency_entry_restored (d : StackDependency) :
  dependency_entry (restored d) = dependency_entry d.
Proof. destruct d as [s r [ [ | x o ] | ]]; reflexivity. Qed.

Lemma restored_restored (d : StackDependency) : restored (restored d) = restored d.
Proof. destruct d as [s r [ o | ]]; reflexivity. Qed.

Lemma import_snapshot_empty (m : registry) :
  registry_ok m ->
  import_configuration (export_configuration m) empty
  = Ok (mkRegistry (stack_outputs m) (restored_all (dependencies m))).
Proof.
  intros (Hso & Hds & Hne).
  unfold import_configuration, export_configuration. simpl.
  rewrite import_outputs_exported; simpl; auto.
  rewrite import_dependencies_exported; simpl; auto.
Qed.

Lemma restored_registry_ok (m : registry) :
  registry_ok m -> registry_ok (mkRegistry (stack_outputs m) (restored_all (dependencies m))).
Proof.
  intros (Hso & Hds & Hne). repeat split; simpl; auto.
  - unfold restored_all, keys. rewrite map_map. simpl. exact Hds.
  - unfold restored_all. apply Forall_map. simpl.
    eapply Forall_impl; [ | exact Hne ]. intros [k l] H. simpl in *.
    destruct l; [ congruence | discriminate ].
Qed.

(** X4. Snapshots are stable after one round trip: for a well-formed
    registry, the registry imported from its snapshot into an empty manager
    exports the same snapshot again, and importing that gives the same
    registry. *)
Theorem snapshot_stable (m : registry) :
  registry_ok m ->
  exists m',
    import_configuration (export_configuration m) empty = Ok m' /\
    export_configuration m' = export_configuration m /\
    import_configuration (export_configuration m') empty = Ok m'.
Proof.
  intros Hok.
  exists (mkRegistry (stack_outputs m) (restored_all (dependencies m))).
  split; [ apply import_snapshot_empty, Hok | ].
  split.
  - unfold export_configuration. simpl. do 5 f_equal.
    unfold restored_all. rewrite map_map. apply map_ext. intros [k l]. simpl.
    do 2 f_equal. rewrite map_map. apply map_ext, dependency_entry_restored.
  - rewrite import_snapshot_empty by (apply restored_registry_ok, Hok). simpl.
    do 2 f_equal. unfold restored_all. rewrite map_map. apply map_ext.
    intros [k l]. simpl. f_equal. rewrite map_map. apply map_ext, restored_restored.
Qed.

Lemma replay_outputs_dependencies (so : dict (list StackOutput)) (base : registry) :
  dependencies (replay_outputs so base) = dependencies base.
Proof.
  revert base. induction so as [ | [k o] so IH ]; intros base; simpl; [ reflexivity | ].
  unfold replay_outputs in IH. rewrite IH. reflexivity.
Qed.

Lemma replay_outputs_same (so : dict (list StackOutput)) (pre : dict (list StackOutput))
    (ds : dict (list StackDependency)) :
  NoDup (keys (pre ++ so)) ->
  replay_outputs so (mkRegistry (pre ++ so) ds) = mkRegistry (pre ++ so) ds.
Proof.
  revert pre. induction so as [ | [k o] so IH ]; intros pre Hnd; [ reflexivity | ].
  change (replay_outputs ((k, o) :: so) (mkRegistry (pre ++ (k, o) :: so) ds))
    with (replay_outputs so
            (register_stack_outputs k o (mkRegistry (pre ++ (k, o) :: so) ds))).
  assert (N : ~ In k (keys pre)).
  { unfold keys in Hnd. rewrite map_app in Hnd. apply NoDup_remove_2 in Hnd.
    intros I. apply Hnd. apply in_or_app. left. exact I. }
  unfold register_stack_outputs. cbn [stack_outputs dependencies].
  rewrite (dict_set_middle k o o pre so N).
  replace (pre ++ (k, o) :: so) with ((pre ++ [(k, o)]) ++ so)
    by (rewrite <- app_assoc; reflexivity).
  apply IH. rewrite <- app_assoc. exact Hnd.
Qed.

Lemma replay_stack_known
    (stack : string) (ds cur : list StackDependency) (so : dict (list StackOutput))
    (pre post : dict (list StackDependency)) :
  ~ In stack (keys pre) ->
  fold_left (fun r d => register_dependency stack (restored d) r) ds
    (mkRegistry so (pre ++ (stack, cur) :: post))
  = mkRegistry so (pre ++ (stack, cur ++ map restored ds) :: post).
Proof.
  intros N. revert cur. induction ds as [ | d ds IH ]; intros cur; simpl.
  - rewrite app_nil_r. reflexivity.
  - assert (E : register_dependency stack (restored d)
                  (mkRegistry so (pre ++ (stack, cur) :: post))
                = mkRegistry so (pre ++ (stack, cur ++ [restored d]) :: post)).
    { unfold register_dependency, has_key. simpl.
      assert (L : lookup stack (pre ++ (stack, cur) :: post) = Some cur).
      { rewrite lookup_app.
        replace (lookup stack pre) with (@None (list StackDependency))
          by (symmetry; apply lookup_None_iff; exact N).
        simpl. rewrite String.eqb_refl. reflexivity. }
      rewrite L. rewrite L. rewrite dict_set_middle by exact N. reflexivity. }
    rewrite E. rewrite IH. rewrite <- app_assoc. reflexivity.
Qed.

Lemma replay_dependencies_known
    (l : dict (list StackDependency)) (so : dict (list StackOutput))
    (pre : dict (list StackDependency)) (f : list StackDependency -> list StackDependency) :
  NoDup (keys pre ++ keys l) ->
  replay_dependencies l (mkRegistry so (pre ++ map (fun kv => (fst kv, f (snd kv))) l))
  = mkRegistry so
      (pre ++ map (fun kv => (fst kv, f (snd kv) ++ map restored (snd kv))) l).
Proof.
  revert pre. induction l as [ | [k ds] l IH ]; intros pre Hnd; [ reflexivity | ].
  assert (N : ~ In k (keys pre)).
  { simpl in Hnd. apply NoDup_remove_2 in Hnd.
    intros I. apply Hnd. apply in_or_app. left. exact I. }
  unfold replay_dependencies. cbn [fold_left map fst snd].
  rewrite (replay_stack_known k ds (f ds) so pre _ N).
  replace (pre ++ (k, f ds ++ map restored ds) :: map (fun kv => (fst kv, f (snd kv))) l)
      with ((pre ++ [(k, f ds ++ map restored ds)]) ++ map (fun kv => (fst kv, f (snd kv))) l)
      by (rewrite <- app_assoc; reflexivity).
  unfold replay_dependencies in IH. rewrite IH.
  - rewrite <- app_assoc. reflexivity.
  - unfold keys. rewrite map_app. simpl. rewrite <- app_assoc. exact Hnd.
Qed.

(** X5. Importing the snapshot of a well-formed registry a second time,
    into the manager that already holds it, keeps the outputs and lists
    every dependency twice. *)
Theorem second_import_duplicates (m m' : registry) :
  registry_ok m ->
  import_configuration (export_configuration m) empty = Ok m' ->
  import_configuration (export_configuration m) m'
  = Ok (mkRegistry (stack_outputs m) (twice (dependencies m))).
Proof.
  intros Hok Himp.
  rewrite import_snapshot_empty in Himp by exact Hok.
  injection Himp as <-.
  destruct Hok as (Hso & Hds & Hne).
  unfold import_configuration, export_configuration. simpl.
  rewrite import_outputs_replays. simpl. rewrite import_dependencies_replays. f_equal.
  rewrite (replay_outputs_same (stack_outputs m) [] _ Hso).
  simpl. unfold restored_all.
  apply (replay_dependencies_known (dependencies m) (stack_outputs m) []
           (map restored)).
  exact Hds.
Qed.

End Replay.

Lemma snapshot_stable_witness :
  exists m',
    Manager.import_configuration (Manager.export_configuration ManagerFacts.never_set)
      Manager.empty = Ok m' /\
    Manager.export_configuration m' = Manager.export_configuration ManagerFacts.never_set /\
    Manager.import_configuration (Manager.export_configuration m') Manager.empty = Ok m'.
Proof. apply (snapshot_stable never_set_ok). Defined.

Lemma second_import_duplicates_witness :
  Manager.import_configuration (Manager.export_configuration ManagerFacts.never_set)
    (Manager.mkRegistry
       (Manager.stack_outputs ManagerFacts.never_set)
       [("ec2-stack", [Manager.mkDependency "vpc-stack" ["VPCId"] (Some [])])])
  = Ok (Manager.mkRegistry
          (Manager.stack_outputs ManagerFacts.never_set)
          [("ec2-stack", [Manager.mkDependency "vpc-stack" ["VPCId"] (Some []);
                          Manager.mkDependency "vpc-stack" ["VPCId"] (Some [])])]).
Proof.
  apply (@second_import_duplicates ManagerFacts.never_set
           (Manager.mkRegistry
              (Manager.stack_outputs ManagerFacts.never_set)
              [("ec2-stack", [Manager.mkDependency "vpc-stack" ["VPCId"] (Some [])])])
           never_set_ok).
  reflexivity.
Defined.

(* ================================================================== *)
(** * The registry: import parameters and the dependency graph *)
(* ================================================================== *)

Section ImportParameters.

Import Manager ValidatorFacts GraphFacts ParameterFacts.

Variables project_name environment : string.

Let entry := import_parameter project_name environment.

Let inner (dependency : StackDependency) (import_params : dict Py.value)
    (names : list string) : dict Py.value :=
  fold_left
    (fun import_params output_name =>
       dict_set ("Import" ++ output_name)%string (entry output_name dependency) import_params)
    names import_params.

Let outer (deps : list StackDependency) (import_params : dict Py.value) : dict Py.value :=
  fold_left (fun import_params dependency =>
               inner dependency import_params (required_outputs dependency))
    deps import_params.

Lemma import_key_injective (x y : string) :
  ("Import" ++ x)%string = ("Import" ++ y)%string -> x = y.
Proof. simpl. intros H. congruence. Qed.

Lemma inner_lookup (d : StackDependency) (x : string) (names : list string)
    (acc : dict Py.value) :
  lookup ("Import" ++ x)%string (inner d acc names)
  = if mem x names then Some (entry x d) else lookup ("Import" ++ x)%string acc.
Proof.
  unfold inner. revert acc. induction names as [ | y names IH ]; intros acc.
  - reflexivity.
  - cbn [fold_left]. rewrite IH. unfold mem. cbn [existsb].
    fold (mem x names). destruct (mem x names).
    + rewrite orb_true_r. reflexivity.
    + rewrite orb_false_r. destruct (String.eqb x y) eqn:E.
      * apply String.eqb_eq in E. subst y. apply lookup_dict_set_same.
      * apply lookup_dict_set_other. intros H. apply import_key_injective in H.
        subst y. rewrite String.eqb_refl in E. discriminate.
Qed.

Lemma find_app {A} (f : A -> bool) (l1 l2 : list A) :
  find f (l1 ++ l2) = match find f l1 with Some a => Some a | None => find f l2 end.
Proof. induction l1 as [ | a l1 IH ]; simpl; [ reflexivity | ]. destruct (f a); auto. Qed.

Lemma outer_lookup (x : string) (deps : list StackDependency) (acc : dict Py.value) :
  lookup ("Import" ++ x)%string (outer deps acc)
  = match last_requiring x deps with
    | Some d => Some (entry x d)
    | None => lookup ("Import" ++ x)%string acc
    end.
Proof.
  unfold outer, last_requiring. revert acc.
  induction deps as [ | d deps IH ]; intros acc; [ reflexivity | ].
  cbn [fold_left rev]. rewrite IH, find_app. cbn [find].
  destruct (find (fun d0 => mem x (required_outputs d0)) (rev deps)); [ reflexivity | ].
  fold (inner d acc (required_outputs d)). rewrite inner_lookup.
  destruct (mem x (required_outputs d)); reflexivity.
Qed.

Lemma inner_keys (d : StackDependency) (names : list string) (acc : dict Py.value) :
  NoDup (keys acc) ->
  NoDup (keys (inner d acc names)) /\
  forall k, In k (keys (inner d acc names)) ->
            In k (keys acc) \/ exists x, k = ("Import" ++ x)%string /\ In x names.
Proof.
  unfold inner. revert acc. induction names as [ | y names IH ]; intros acc Hnd.
  - split; [ exact Hnd | auto ].
  - cbn [fold_left].
    destruct (IH (dict_set ("Import" ++ y)%string (entry y d) acc)
                 (NoDup_dict_set _ _ acc Hnd)) as [H1 H2].
    split; [ exact H1 | ].
    intros k I. destruct (H2 k I) as [ J | [x [-> Hx]] ].
    + rewrite keys_dict_set in J. destruct (has_key _ acc); auto.
      apply in_app_iff in J. destruct J as [ J | [ <- | [] ] ]; auto.
      right. exists y. simpl. auto.
    + right. exists x. simpl. auto.
Qed.

Lemma outer_keys (deps : list StackDependency) (acc : dict Py.value) :
  NoDup (keys acc) ->
  NoDup (keys (outer deps acc)) /\
  forall k, In k (keys (outer deps acc)) ->
            In k (keys acc) \/
            exists x d, k = ("Import" ++ x)%string /\ In d deps /\ In x (required_outputs d).
Proof.
  unfold outer. revert acc. induction deps as [ | d deps IH ]; intros acc Hnd.
  - split; [ exact Hnd | auto ].
  - cbn [fold_left]. fold (inner d acc (required_outputs d)).
    destruct (inner_keys d (required_outputs d) acc Hnd) as [G1 G2].
    destruct (IH _ G1) as [H1 H2].
    split; [ exact H1 | ].
    intros k I. destruct (H2 k I) as [ J | (x & d' & -> & Hd & Hx) ].
    + destruct (G2 k J) as [ J' | (x & -> & Hx) ]; auto.
      right. exists x, d. simpl. auto.
    + right. exists x, d'. simpl. auto.
Qed.

Lemma last_requiring_Some (x : string) (deps : list StackDependency) :
  (exists d, In d deps /\ In x (required_outputs d)) ->
  exists d, last_requiring x deps = Some d.
Proof.
  intros (d & Hd & Hx). unfold last_requiring.
  destruct (find (fun d0 => mem x (required_outputs d0)) (rev deps)) eqn:E; eauto.
  exfalso. apply in_rev in Hd. apply (find_none _ _ E) in Hd. simpl in Hd.
  apply mem_In in Hx. congruence.
Qed.

(** X6. [generate_import_parameters] declares one parameter per required
    output name of the stack's dependencies, under the key
    ["Import" ++ name]; a name required through several dependencies keeps
    the entry of the last one; a stack without dependencies gets none. *)
Theorem import_parameters_by_name (m : registry) (stack : string) :
  let import_params := generate_import_parameters stack project_name environment m in
  let deps := dependencies_of m stack in
  NoDup (keys import_params) /\
  (forall k, In k (keys import_params) <->
             exists x d, k = ("Import" ++ x)%string /\ In d deps /\ In x (required_outputs d)) /\
  (forall x, lookup ("Import" ++ x)%string import_params
             = option_map (import_parameter project_name environment x)
                 (last_requiring x deps)) /\
  (lookup stack (dependencies m) = None -> import_params = []).
Proof.
  cbv zeta. unfold generate_import_parameters, dependencies_of.
  destruct (lookup stack (dependencies m)) as [ deps | ].
  - fold entry.
    change (fold_left _ deps []) with (outer deps []).
    destruct (outer_keys deps [] (NoDup_nil _)) as [H1 H2].
    assert (L : forall x, lookup ("Import" ++ x)%string (outer deps [])
                          = option_map (entry x) (last_requiring x deps)).
    { intros x. rewrite outer_lookup. destruct (last_requiring x deps); reflexivity. }
    split; [ exact H1 | ]. split; [ | split; [ exact L | discriminate ] ].
    intros k. split.
    + intros I. destruct (H2 k I) as [ [] | H ]. exact H.
    + intros (x & d & -> & Hd & Hx).
      destruct (last_requiring_Some x deps) as [d' E]; [ eauto | ].
      specialize (L x). rewrite E in L. simpl in L.
      apply lookup_In in L. apply (in_map fst) in L. exact L.
  - split; [ constructor | ]. split; [ | split; [ | reflexivity ] ].
    + intros k. split; [ intros [] | intros (x & d & _ & [] & _) ].
    + intros x. reflexivity.
Qed.

End ImportParameters.

Section DependencyGraph.

Import Manager ValidatorFacts GraphFacts PairFacts.

Variable stack_order : list string -> list string.
Hypothesis stack_order_permutes : forall l, Permutation (stack_order l) l.

Lemma add_targets_fold (ds : dict (list StackDependency)) (acc : list string) :
  fold_left
    (fun all_stacks kv =>
       fold_left (fun all_stacks dep => add_stack all_stacks (stack_name dep))
         (snd kv) all_stacks)
    ds acc
  = fold_left add_new (flat_map (fun kv => map stack_name (snd kv)) ds) acc.
Proof.
  revert acc. induction ds as [ | [k l] ds IH ]; intros acc; [ reflexivity | ].
  cbn [fold_left flat_map snd]. rewrite fold_left_app, IH. f_equal.
  clear IH. revert acc. induction l as [ | d l IHl ]; intros acc; [ reflexivity | ].
  cbn [fold_left map]. apply IHl.
Qed.

Lemma graph_node_ids (m : registry) :
  map node_id (graph_nodes (generate_dependency_graph stack_order m))
  = stack_order (all_nodes (dependencies m)).
Proof.
  unfold generate_dependency_graph. cbn [graph_nodes].
  rewrite map_map. cbn [node_id]. rewrite map_id.
  rewrite add_targets_fold. reflexivity.
Qed.

Lemma In_all_nodes (deps : dict (list StackDependency)) (x : string) :
  In x (all_nodes deps) <->
  In x (keys deps) \/ exists s d, In (s, d) (edges deps) /\ stack_name d = x.
Proof.
  unfold all_nodes. rewrite In_fold_add_new, In_fold_add_new. simpl.
  assert (E : In x (flat_map (fun kv => map stack_name (snd kv)) deps) <->
              exists s d, In (s, d) (edges deps) /\ stack_name d = x).
  { unfold edges. rewrite in_flat_map. split.
    - intros ([k l] & Hkl & Hx). simpl in Hx. apply in_map_iff in Hx.
      destruct Hx as (d & Hd & Hin). exists k, d. split; [ | exact Hd ].
      apply in_flat_map. exists (k, l). split; [ exact Hkl | ].
      simpl. apply in_map. exact Hin.
    - intros (s & d & Hin & Hd). apply in_flat_map in Hin.
      destruct Hin as ([k l] & Hkl & Hp). simpl in Hp. apply in_map_iff in Hp.
      destruct Hp as (d' & Hp & Hd'). inversion Hp; subst.
      exists (s, l). split; [ exact Hkl | ]. simpl. apply in_map. exact Hd'. }
  tauto.
Qed.

Lemma edges_keys (deps : dict (list StackDependency)) (s : string) (d : StackDependency) :
  In (s, d) (edges deps) -> In s (keys deps).
Proof.
  unfold edges. intros H. apply in_flat_map in H. destruct H as ([k l] & Hkl & Hp).
  simpl in Hp. apply in_map_iff in Hp. destruct Hp as (d' & Hp & _). inversion Hp; subst.
  apply (in_map fst) in Hkl. exact Hkl.
Qed.

(** X7. The dependency graph of [generate_dependency_graph], for any
    iteration order of the set of stack names: no node id appears twice;
    the node ids are the stacks that declare dependencies and the targets
    of dependencies; there is one edge per declared dependency, from the
    target to the dependent stack, labelled with the joined required
    outputs; every edge joins two nodes of the graph; every node has its
    id as label and the type ['stack']. *)
Theorem dependency_graph_well_formed (m : registry) :
  let g := generate_dependency_graph stack_order m in
  let ids := map node_id (graph_nodes g) in
  NoDup ids /\
  (forall x, In x ids <->
             In x (keys (dependencies m)) \/
             exists s d, In (s, d) (edges (dependencies m)) /\ stack_name d = x) /\
  graph_edges g
  = map (fun sd => mkEdge (stack_name (snd sd)) (fst sd)
                     ("exports: " ++ join ", " (required_outputs (snd sd)))%string)
        (edges (dependencies m)) /\
  (forall e, In e (graph_edges g) -> In (edge_from e) ids /\ In (edge_to e) ids) /\
  (forall n, In n (graph_nodes g) -> node_label n = node_id n /\ node_type n = "stack").
Proof.
  cbv zeta. rewrite graph_node_ids.
  assert (E : graph_edges (generate_dependency_graph stack_order m)
              = map (fun sd => mkEdge (stack_name (snd sd)) (fst sd)
                                 ("exports: " ++ join ", " (required_outputs (snd sd)))%string)
                    (edges (dependencies m))).
  { unfold generate_dependency_graph, edges. cbn [graph_edges].
    induction (dependencies m) as [ | [k l] ds IH ]; [ reflexivity | ].
    cbn [flat_map fst snd]. rewrite map_app, map_map, IH. reflexivity. }
  assert (P : forall x, In x (stack_order (all_nodes (dependencies m)))
                        <-> In x (all_nodes (dependencies m))).
  { intros x. split; apply Permutation_in;
      [ | apply Permutation_sym ]; apply stack_order_permutes. }
  split; [ | split; [ | split; [ exact E | split ] ] ].
  - apply (Permutation_NoDup (Permutation_sym (stack_order_permutes _))).
    unfold all_nodes. apply NoDup_fold_add_new, NoDup_fold_add_new. constructor.
  - intros x. rewrite P. apply In_all_nodes.
  - intros e He. rewrite E in He. apply in_map_iff in He.
    destruct He as ([s d] & <- & Hsd). cbn [edge_from edge_to fst snd].
    rewrite !P, !In_all_nodes. split.
    + right. exists s, d. auto.
    + left. apply (edges_keys _ _ _ Hsd).
  - intros n Hn. unfold generate_dependency_graph in Hn. cbn [graph_nodes] in Hn.
    apply in_map_iff in Hn. destruct Hn as (x & <- & _). split; reflexivity.
Qed.

End DependencyGraph.

Section GraphWitness.

Import Manager GraphFacts.

Lemma dependency_graph_well_formed_witness :
  let g := generate_dependency_graph (fun l => l) triangle in
  let ids := map node_id (graph_nodes g) in
  NoDup ids /\
  (forall x, In x ids <->
             In x (keys (dependencies triangle)) \/
             exists s d, In (s, d) (ValidatorFacts.edges (dependencies triangle))
                         /\ stack_name d = x) /\
  graph_edges g
  = map (fun sd => mkEdge (stack_name (snd sd)) (fst sd)
                     ("exports: " ++ join ", " (required_outputs (snd sd)))%string)
        (ValidatorFacts.edges (dependencies triangle)) /\
  (forall e, In e (graph_edges g) -> In (edge_from e) ids /\ In (edge_to e) ids) /\
  (forall n, In n (graph_nodes g) -> node_label n = node_id n /\ node_type n = "stack").
Proof.
  apply (@dependency_graph_well_formed (fun l => l) (fun l => Permutation_refl l) triangle).
Defined.

End GraphWitness.

(* ================================================================== *)
(** * The configuration validator on any configuration *)
(* ================================================================== *)

Section Flags.

Import ConfigValidator ValidatorFacts RunFacts.

Unset Implicit Arguments.

Lemma extends_refl (self : validator) : extends self self [] [].
Proof. destruct self. unfold extends. simpl. rewrite !app_nil_r. reflexivity. Qed.

Lemma extends_trans (s1 s2 s3 : validator) (e1 w1 e2 w2 : list message) :
  extends s1 s2 e1 w1 -> extends s2 s3 e2 w2 -> extends s1 s3 (e1 ++ e2) (w1 ++ w2).
Proof. unfold extends. intros -> ->. simpl. rewrite !app_assoc. reflexivity. Qed.

Lemma bind_Ok {A B} (m : M A) (k : A -> M B) (self : validator) (r : B * validator) :
  bind m k self = Ok r -> exists a s1, m self = Ok (a, s1) /\ k a s1 = Ok r.
Proof.
  unfold bind. destruct (m self) as [ [a s1] | | ]; try discriminate. eauto.
Qed.

Lemma lift_Ok {A} (o : outcome A) (self : validator) (a : A) (self' : validator) :
  lift o self = Ok (a, self') -> o = Ok a /\ self' = self.
Proof. unfold lift. destruct o; try discriminate. intros H. inversion H. auto. Qed.

Lemma tracks_ret {A} (flag : A -> bool) (a : A) : tracks flag (ret a) (flag a).
Proof.
  intros self a' self' H. inversion H; subst. exists [], []. split.
  - apply extends_refl.
  - rewrite andb_true_r. reflexivity.
Qed.

Lemma tracks_error {A} (flag : A -> bool) (msg : message) (a : A) (v : bool) :
  flag a = false -> tracks flag (bind (add_error msg) (fun _ => ret a)) v.
Proof.
  intros F self a' self' H. inversion H; subst. exists [msg], []. split.
  - unfold extends. rewrite app_nil_r. reflexivity.
  - rewrite andb_false_r. exact F.
Qed.

Lemma tracks_bind {A B} (fa : A -> bool) (fb : B -> bool) (m : M A) (k : A -> M B) (v : bool) :
  tracks fa m v -> (forall a, tracks fb (k a) (fa a)) -> tracks fb (bind m k) v.
Proof.
  intros Hm Hk self b self' H.
  apply bind_Ok in H. destruct H as (a & s1 & H1 & H2).
  destruct (Hm _ _ _ H1) as (e1 & w1 & X1 & F1).
  destruct (Hk a _ _ _ H2) as (e2 & w2 & X2 & F2).
  exists (e1 ++ e2), (w1 ++ w2). split.
  - eapply extends_trans; eassumption.
  - rewrite F2, F1, is_nil_app, andb_assoc. reflexivity.
Qed.

Lemma tracks_silent {A B} (fb : B -> bool) (m : M A) (k : A -> M B) (v : bool) :
  silent m -> (forall a, tracks fb (k a) v) -> tracks fb (bind m k) v.
Proof.
  intros Hm Hk self b self' H.
  apply bind_Ok in H. destruct H as (a & s1 & H1 & H2).
  destruct (Hm _ _ _ H1) as (w1 & X1).
  destruct (Hk a _ _ _ H2) as (e2 & w2 & X2 & F2).
  exists e2, (w1 ++ w2). split.
  - apply (extends_trans _ _ _ _ _ _ _ X1 X2).
  - exact F2.
Qed.

Lemma silent_lift {A} (o : outcome A) : silent (lift o).
Proof.
  intros self a self' H. apply lift_Ok in H. destruct H as [_ ->].
  exists []. apply extends_refl.
Qed.

Lemma silent_ret {A} (a : A) : silent (ret a).
Proof. intros self a' self' H. inversion H; subst. exists []. apply extends_refl. Qed.

Lemma silent_warning (msg : message) : silent (add_warning msg).
Proof.
  intros self a self' H. inversion H; subst. exists [msg].
  unfold extends. rewrite app_nil_r. reflexivity.
Qed.

Lemma silent_bind {A B} (m : M A) (k : A -> M B) :
  silent m -> (forall a, silent (k a)) -> silent (bind m k).
Proof.
  intros Hm Hk self b self' H.
  apply bind_Ok in H. destruct H as (a & s1 & H1 & H2).
  destruct (Hm _ _ _ H1) as (w1 & X1). destruct (Hk a _ _ _ H2) as (w2 & X2).
  exists (w1 ++ w2). apply (extends_trans _ _ _ _ _ _ _ X1 X2).
Qed.

Lemma tracks_for_each {A S} (flag : S -> bool) (l : list A) (body : A -> S -> M S) :
  (forall a s, tracks flag (body a s) (flag s)) ->
  forall s, tracks flag (for_each l body s) (flag s).
Proof.
  intros Hb. induction l as [ | a l IH ]; intros s; simpl.
  - apply tracks_ret.
  - eapply tracks_bind; [ apply Hb | exact IH ].
Qed.

Ltac lifted := apply tracks_silent; [ apply silent_lift | intro ].

Lemma tracks_validate_structure (config : Py.value) :
  tracks id (validate_structure config) true.
Proof.
  unfold validate_structure.
  induction ["stack_outputs"; "dependencies"] as [ | section rest IH ]; simpl.
  - apply (tracks_ret id true).
  - lifted. destruct a; simpl; [ exact IH | ].
    apply (tracks_error id). reflexivity.
Qed.

Lemma tracks_fields (fields : list string) (mk : string -> message) (x : Py.value) (valid : bool) :
  tracks id
    (for_each fields
       (fun field valid =>
          bind (lift (py_in (VStr field) x)) (fun present =>
          if negb present
          then bind (add_error (mk field)) (fun _ => ret false)
          else ret valid))
       valid)
    valid.
Proof.
  apply (tracks_for_each id). intros field v. lifted.
  destruct a; simpl; [ apply (tracks_ret id v) | apply (tracks_error id); reflexivity ].
Qed.

Lemma tracks_validate_output (stack_name : string) (entry : nat * Py.value) (valid : bool) :
  tracks id (validate_output stack_name entry valid) valid.
Proof.
  destruct entry as [i output]. unfold validate_output.
  destruct (negb (is_dict output)).
  - apply (tracks_error id). reflexivity.
  - eapply (tracks_bind id id); [ apply tracks_fields | ].
    intros v. lifted. apply tracks_silent; [ | intros _; apply (tracks_ret id v) ].
    destruct (truthy a); [ | apply silent_ret ].
    apply silent_bind; [ apply silent_lift | ].
    intros [ | ]; [ | apply silent_ret ].
    apply silent_bind; [ apply silent_lift | intros; apply silent_warning ].
Qed.

Lemma tracks_validate_stack_outputs (stack_outputs : Py.value) :
  tracks id (validate_stack_outputs stack_outputs) true.
Proof.
  unfold validate_stack_outputs. lifted.
  apply (tracks_for_each id). intros [stack_name outputs] v.
  destruct outputs; try (apply (tracks_error id); reflexivity).
  apply (tracks_for_each id). intros entry v'. apply tracks_validate_output.
Qed.

Lemma tracks_validate_dependency (stack_name : string) (entry : nat * Py.value) (valid : bool) :
  tracks id (validate_dependency stack_name entry valid) valid.
Proof.
  destruct entry as [i dep]. unfold validate_dependency.
  destruct (negb (is_dict dep)).
  - apply (tracks_error id). reflexivity.
  - eapply (tracks_bind id id); [ apply tracks_fields | ].
    intros v. lifted.
    apply tracks_silent.
    { destruct a; [ | apply silent_ret ].
      apply silent_bind; [ apply silent_lift | intros; apply silent_ret ]. }
    intros bad_required.
    eapply (tracks_bind id id _ _ v).
    { destruct bad_required;
        [ apply (tracks_error id); reflexivity | apply (tracks_ret id v) ]. }
    intros v'. lifted.
    apply tracks_silent.
    { destruct a0; [ | apply silent_ret ].
      apply silent_bind; [ apply silent_lift | intros; apply silent_ret ]. }
    intros bad_optional.
    destruct bad_optional;
      [ apply (tracks_error id); reflexivity | apply (tracks_ret id v') ].
Qed.

Lemma tracks_validate_dependencies (dependencies : Py.value) :
  tracks id (validate_dependencies dependencies) true.
Proof.
  unfold validate_dependencies. lifted.
  apply (tracks_for_each id). intros [stack_name deps] v.
  destruct deps; try (apply (tracks_error id); reflexivity).
  apply (tracks_for_each id). intros entry v'. apply tracks_validate_dependency.
Qed.

Lemma tracks_check_dependency (stack_outputs : Py.value) (stack_name : string)
    (dep : Py.value) (valid : bool) :
  tracks id (check_dependency stack_outputs stack_name dep valid) valid.
Proof.
  unfold check_dependency. do 4 lifted.
  destruct (negb a2).
  - apply tracks_silent; [ apply silent_warning | intros _; apply (tracks_ret id valid) ].
  - do 4 lifted.
    eapply (tracks_bind id id _ _ valid).
    { apply (tracks_for_each id). intros required_output v. lifted.
      destruct (negb a7);
        [ apply (tracks_error id); reflexivity | apply (tracks_ret id v) ]. }
    intros v. lifted.
    apply (tracks_for_each id). intros optional_output v'. lifted.
    destruct (negb a8); [ | apply (tracks_ret id v') ].
    apply tracks_silent; [ apply silent_warning | intros _; apply (tracks_ret id v') ].
Qed.

Lemma tracks_consistency (config : Py.value) :
  tracks id (validate_output_dependency_consistency config) true.
Proof.
  unfold validate_output_dependency_consistency. do 3 lifted.
  apply (tracks_for_each id). intros [stack_name deps] v. lifted.
  apply (tracks_for_each id). intros dep v'. apply tracks_check_dependency.
Qed.

Lemma tracks_check_export (stack_name : string) (output : Py.value)
    (st : bool * list (Py.value * string)) :
  tracks fst (check_export stack_name output st) (fst st).
Proof.
  destruct st as [valid export_names]. unfold check_export. lifted.
  destruct (truthy a); [ | apply (tracks_ret fst (valid, export_names)) ].
  destruct (hashable a).
  - destruct (owner_of a export_names).
    + apply (tracks_error fst). reflexivity.
    + apply (tracks_ret fst (valid, export_names ++ [(a, stack_name)])).
  - intros self r self' H. discriminate.
Qed.

Lemma tracks_uniqueness (stack_outputs : Py.value) :
  tracks id (validate_export_name_uniqueness stack_outputs) true.
Proof.
  unfold validate_export_name_uniqueness. lifted.
  eapply (tracks_bind fst id _ _ true).
  - apply (@tracks_for_each _ (bool * list (Py.value * string)) fst).
    intros [stack_name outputs] st. lifted.
    apply (tracks_for_each fst). intros output st'. apply tracks_check_export.
  - intros st. apply (tracks_ret id (fst st)).
Qed.

(** X9. Each of the five checks of validate-config.py, on any argument:
    when it returns, it has only appended to the validator's two lists, and
    it returns [True] exactly when it appended no error. *)
Theorem checks_flag_sound (config stack_outputs dependencies : Py.value) :
  tracks id (validate_structure config) true /\
  tracks id (validate_stack_outputs stack_outputs) true /\
  tracks id (validate_dependencies dependencies) true /\
  tracks id (validate_output_dependency_consistency config) true /\
  tracks id (validate_export_name_uniqueness stack_outputs) true.
Proof.
  repeat split.
  - apply tracks_validate_structure.
  - apply tracks_validate_stack_outputs.
  - apply tracks_validate_dependencies.
  - apply tracks_consistency.
  - apply tracks_uniqueness.
Qed.

Variable set_order : pyset -> pyset.

Lemma tracks_validate_all (config : Py.value) :
  tracks id (validate_all set_order config) true.
Proof.
  unfold validate_all.
  eapply (tracks_bind id id); [ apply tracks_validate_structure | ].
  intros structured. destruct structured; simpl; [ | apply (tracks_ret id false) ].
  lifted.
  intros self b self' H.
  apply bind_Ok in H. destruct H as (v1 & s1 & H1 & H).
  apply bind_Ok in H. destruct H as (ds & s1' & L1 & H).
  apply lift_Ok in L1. destruct L1 as [_ ->].
  apply bind_Ok in H. destruct H as (v2 & s2 & H2 & H).
  apply bind_Ok in H. destruct H as (v3 & s3 & H3 & H).
  apply bind_Ok in H. destruct H as (so & s3' & L3 & H).
  apply lift_Ok in L3. destruct L3 as [_ ->].
  apply bind_Ok in H. destruct H as (v4 & s4 & H4 & H).
  apply bind_Ok in H. destruct H as (ds' & s4' & L4 & H).
  apply lift_Ok in L4. destruct L4 as [_ ->].
  apply bind_Ok in H. destruct H as (cycles & s4' & L5 & H).
  apply lift_Ok in L5. destruct L5 as [_ ->].
  destruct (tracks_validate_stack_outputs _ _ _ _ H1) as (e1 & w1 & X1 & F1).
  destruct (tracks_validate_dependencies _ _ _ _ H2) as (e2 & w2 & X2 & F2).
  destruct (tracks_consistency _ _ _ _ H3) as (e3 & w3 & X3 & F3).
  destruct (tracks_uniqueness _ _ _ _ H4) as (e4 & w4 & X4 & F4).
  assert (T : tracks id
                (for_each cycles
                   (fun cycle _ =>
                      bind (lift (joinable cycle)) (fun names =>
                      bind (add_error (CircularDependency names)) (fun _ => ret false)))
                   (v1 && v2 && v3 && v4))
                (v1 && v2 && v3 && v4)).
  { apply (tracks_for_each id). intros cycle v. lifted.
    apply (tracks_error id). reflexivity. }
  destruct (T _ _ _ H) as (e5 & w5 & X5 & F5).
  exists (e1 ++ e2 ++ e3 ++ e4 ++ e5), (w1 ++ w2 ++ w3 ++ w4 ++ w5). split.
  - eapply extends_trans; [ exact X1 | ]. eapply extends_trans; [ exact X2 | ].
    eapply extends_trans; [ exact X3 | ]. eapply extends_trans; [ exact X4 | exact X5 ].
  - unfold id in *. rewrite F5, F1, F2, F3, F4, !is_nil_app. simpl.
    rewrite !andb_assoc. reflexivity.
Qed.

(** X8. For every configuration object, whatever its shape: when
    [validate_all] returns, it has only appended to the validator's two
    lists, and its flag is [True] exactly when it appended no error. *)
Theorem validate_all_flag_sound
    (config : Py.value) (self self' : validator) (valid : bool) :
  validate_all set_order config self = Ok (valid, self') ->
  exists new_errors new_warnings,
    self' = mkValidator (errors self ++ new_errors) (warnings self ++ new_warnings) /\
    (valid = true <-> new_errors = []).
Proof.
  intros H. destruct (tracks_validate_all _ _ _ _ H) as (es & ws & X & F).
  exists es, ws. split; [ exact X | ].
  unfold id in F. rewrite F. destruct es; simpl; split; congruence.
Qed.

End Flags.

Section Returning.

Import ConfigValidator ValidatorFacts RunFacts.

Unset Implicit Arguments.

Lemma returns_ret {A} (a : A) : returns (ret a).
Proof. intros self. exists a, self. reflexivity. Qed.

Lemma returns_bind {A B} (m : M A) (k : A -> M B) :
  returns m -> (forall a, returns (k a)) -> returns (bind m k).
Proof.
  intros Hm Hk self. destruct (Hm self) as (a & s1 & H1).
  destruct (Hk a s1) as (b & s2 & H2). exists b, s2.
  unfold bind. rewrite H1. exact H2.
Qed.

Lemma returns_lift {A} (o : outcome A) (a : A) : o = Ok a -> returns (lift o).
Proof. intros -> self. exists a, self. reflexivity. Qed.

Lemma returns_lift_bind {A B} (o : outcome A) (a : A) (k : A -> M B) :
  o = Ok a -> returns (k a) -> returns (bind (lift o) k).
Proof.
  intros -> Hk self. destruct (Hk self) as (b & s2 & H2). exists b, s2. exact H2.
Qed.

Lemma returns_error {A} (msg : message) (a : A) :
  returns (bind (add_error msg) (fun _ => ret a)).
Proof. intros self. eexists _, _. reflexivity. Qed.

Lemma returns_for_each {A S} (l : list A) (body : A -> S -> M S) :
  (forall a s, returns (body a s)) -> forall s, returns (for_each l body s).
Proof.
  intros Hb. induction l as [ | a l IH ]; intros s; simpl.
  - apply returns_ret.
  - apply returns_bind; [ apply Hb | exact IH ].
Qed.

Lemma returns_fields (fields : list string) (mk : string -> message)
    (d : dict Py.value) (valid : bool) :
  returns
    (for_each fields
       (fun field valid =>
          bind (lift (py_in (VStr field) (VDict d))) (fun present =>
          if negb present
          then bind (add_error (mk field)) (fun _ => ret false)
          else ret valid))
       valid).
Proof.
  apply returns_for_each. intros field v.
  eapply returns_lift_bind; [ reflexivity | ].
  destruct (negb _); [ apply returns_error | apply returns_ret ].
Qed.

Lemma returns_validate_dependency (stack_name : string) (entry : nat * Py.value)
    (valid : bool) :
  returns (validate_dependency stack_name entry valid).
Proof.
  destruct entry as [i dep]. unfold validate_dependency.
  destruct dep as [ | b | n | s | l | d ]; try apply returns_error.
  cbn [is_dict negb].
  apply returns_bind; [ apply returns_fields | intros v ].
  eapply returns_lift_bind; [ reflexivity | ]. cbn [hashable].
  apply returns_bind.
  { unfold has_key, py_getitem.
    destruct (lookup "required_outputs" d); [ | apply returns_ret ].
    eapply returns_lift_bind; [ reflexivity | apply returns_ret ]. }
  intros bad_required.
  apply returns_bind.
  { destruct bad_required; [ apply returns_error | apply returns_ret ]. }
  intros v'.
  eapply returns_lift_bind; [ reflexivity | ]. cbn [hashable].
  apply returns_bind.
  { unfold has_key, py_getitem.
    destruct (lookup "optional_outputs" d); [ | apply returns_ret ].
    eapply returns_lift_bind; [ reflexivity | apply returns_ret ]. }
  intros bad_optional.
  destruct bad_optional; [ apply returns_error | apply returns_ret ].
Qed.

(** X10. [validate_dependencies] of validate-config.py returns on every
    dictionary, whatever the shape of its values, having only appended to
    the two lists, and with [True] exactly when it appended no error. *)
Theorem validate_dependencies_returns (dependencies : dict Py.value) (self : validator) :
  exists valid new_errors new_warnings,
    validate_dependencies (VDict dependencies) self
    = Ok (valid, mkValidator (errors self ++ new_errors) (warnings self ++ new_warnings)) /\
    (valid = true <-> new_errors = []).
Proof.
  assert (R : returns (validate_dependencies (VDict dependencies))).
  { unfold validate_dependencies.
    eapply returns_lift_bind; [ reflexivity | ].
    apply returns_for_each. intros [stack_name deps] v.
    destruct deps; try apply returns_error.
    apply returns_for_each. intros entry v'. apply returns_validate_dependency. }
  destruct (R self) as (valid & self' & H).
  destruct (tracks_validate_dependencies _ _ _ _ H) as (es & ws & X & F).
  exists valid, es, ws. rewrite H, X. split; [ reflexivity | ].
  unfold id in F. rewrite F. destruct es; simpl; split; congruence.
Qed.

Lemma for_each_raises {A S} (bad : A -> bool) (e : exn) (body : A -> S -> M S) :
  (forall a s self, bad a = false -> exists r, body a s self = Ok r) ->
  (forall a s self, bad a = true -> body a s self = Raise e) ->
  forall l s self,
    if existsb bad l
    then for_each l body s self = Raise e
    else exists r, for_each l body s self = Ok r.
Proof.
  intros Hgood Hbad. induction l as [ | a l IH ]; intros s self; simpl.
  - eexists. reflexivity.
  - unfold bind. destruct (bad a) eqn:E; simpl.
    + rewrite (Hbad a s self E). reflexivity.
    + destruct (Hgood a s self E) as ([s' self'] & ->). apply IH.
Qed.

Lemma existsb_enumerate {A} (f : A -> bool) (l : list A) :
  existsb (fun entry => f (snd entry)) (enumerate l) = existsb f l.
Proof.
  unfold enumerate. generalize 0.
  induction l as [ | a l IH ]; intros n; simpl; [ reflexivity | ].
  rewrite IH. reflexivity.
Qed.

Lemma returns_Ok {A} (m : M A) (self : validator) :
  returns m -> exists r, m self = Ok r.
Proof. intros R. destruct (R self) as (a & s & H). eauto. Qed.

Lemma returns_naming (stack_name : string) (d : dict Py.value) (export_name : Py.value) :
  match export_name with VInt _ | VBool _ => truthy export_name = false | _ => True end ->
  returns
    (if truthy export_name
     then
       bind (lift (breaks_convention export_name)) (fun broken =>
       if (broken : bool)
       then
         bind (lift (py_get (VDict d) "name" (VStr "unknown"))) (fun output_name =>
         add_warning (NamingConvention stack_name output_name export_name))
       else ret tt)
     else ret tt).
Proof.
  intros H.
  assert (W : forall output_name,
            returns (add_warning (NamingConvention stack_name output_name export_name))).
  { intros output_name self. eexists _, _. reflexivity. }
  assert (K : forall broken : bool,
            returns (if broken
                     then bind (lift (py_get (VDict d) "name" (VStr "unknown")))
                            (fun output_name =>
                               add_warning (NamingConvention stack_name output_name export_name))
                     else ret tt)).
  { intros [ | ]; [ | apply returns_ret ].
    eapply returns_lift_bind; [ reflexivity | apply W ]. }
  destruct export_name as [ | b | n | s | l | o ]; try apply returns_ret.
  - rewrite H. apply returns_ret.
  - rewrite H. apply returns_ret.
  - destruct (truthy (VStr s)); [ | apply returns_ret ].
    unfold breaks_convention. cbn [py_in of_result obind].
    destruct (substring_of "{ProjectName}" s);
      (eapply returns_lift_bind; [ reflexivity | apply K ]).
  - destruct (truthy (VList l)); [ | apply returns_ret ].
    unfold breaks_convention. cbn [py_in of_result obind].
    destruct (existsb (py_eq (VStr "{ProjectName}")) l);
      (eapply returns_lift_bind; [ reflexivity | apply K ]).
  - destruct (truthy (VDict o)); [ | apply returns_ret ].
    unfold breaks_convention. cbn [py_in hashable of_result obind].
    destruct (has_key "{ProjectName}" o);
      (eapply returns_lift_bind; [ reflexivity | apply K ]).
Qed.

Lemma validate_output_returns (stack_name : string) (i : nat) (d : dict Py.value)
    (valid : bool) :
  scalar_export_name (VDict d) = false ->
  returns (validate_output stack_name (i, VDict d) valid).
Proof.
  intros Hs. unfold validate_output. cbn [is_dict negb].
  apply returns_bind; [ apply returns_fields | intros v ].
  eapply returns_lift_bind; [ reflexivity | ].
  apply returns_bind; [ | intros; apply returns_ret ].
  apply (returns_naming stack_name d).
  cbn [scalar_export_name] in Hs.
  destruct (lookup "export_name" d) as [ [ | b | n | s | l | o ] | ]; try exact I.
  - exact Hs.
  - cbn [truthy]. exact Hs.
Qed.

Lemma validate_output_raises (stack_name : string) (i : nat) (d : dict Py.value)
    (valid : bool) (self : validator) :
  scalar_export_name (VDict d) = true ->
  validate_output stack_name (i, VDict d) valid self = Raise TypeError.
Proof.
  intros Hs. unfold validate_output. cbn [is_dict negb].
  unfold bind at 1.
  destruct (returns_fields ["name"; "description"; "value"; "export_name"]
              (OutputMissingField stack_name i) d valid self) as (v & s1 & ->).
  cbn [scalar_export_name] in Hs. unfold py_get.
  destruct (lookup "export_name" d) as [ [ | b | n | s | l | o ] | ]; try discriminate.
  - subst b. reflexivity.
  - unfold bind. cbn [lift of_result truthy]. rewrite Hs. reflexivity.
Qed.

Lemma validate_output_cases (stack_name : string) (entry : nat * Py.value) (valid : bool)
    (self : validator) :
  if scalar_export_name (snd entry)
  then validate_output stack_name entry valid self = Raise TypeError
  else exists r, validate_output stack_name entry valid self = Ok r.
Proof.
  destruct entry as [i output]. cbn [snd].
  destruct (scalar_export_name output) eqn:E.
  - destruct output; try discriminate. apply validate_output_raises, E.
  - apply returns_Ok. destruct output; try apply returns_error.
    apply validate_output_returns, E.
Qed.

Lemma validate_stack_outputs_cases (stack_outputs : dict Py.value) (self : validator) :
  if has_scalar_export_name stack_outputs
  then validate_stack_outputs (VDict stack_outputs) self = Raise TypeError
  else exists r, validate_stack_outputs (VDict stack_outputs) self = Ok r.
Proof.
  unfold validate_stack_outputs, has_scalar_export_name.
  cbn [py_items lift of_result bind].
  apply (for_each_raises
           (fun kv : string * Py.value =>
              match snd kv with
              | VList l => existsb scalar_export_name l
              | _ => false
              end) TypeError).
  - intros [stack_name outputs] v s E. cbn [snd] in E.
    destruct outputs; try (apply returns_Ok, returns_error).
    rewrite <- existsb_enumerate in E.
    pose proof (for_each_raises (fun entry => scalar_export_name (snd entry)) TypeError
                  (validate_output stack_name)) as L.
    assert (L1 : forall a s0 self0, scalar_export_name (snd a) = false ->
                   exists r, validate_output stack_name a s0 self0 = Ok r).
    { intros a s0 self0 Ea. pose proof (validate_output_cases stack_name a s0 self0) as C.
      rewrite Ea in C. exact C. }
    assert (L2 : forall a s0 self0, scalar_export_name (snd a) = true ->
                   validate_output stack_name a s0 self0 = Raise TypeError).
    { intros a s0 self0 Ea. pose proof (validate_output_cases stack_name a s0 self0) as C.
      rewrite Ea in C. exact C. }
    specialize (L L1 L2 (enumerate l) v s). rewrite E in L. exact L.
  - intros [stack_name outputs] v s E. cbn [snd] in E.
    destruct outputs; try discriminate.
    rewrite <- existsb_enumerate in E.
    pose proof (for_each_raises (fun entry => scalar_export_name (snd entry)) TypeError
                  (validate_output stack_name)) as L.
    assert (L1 : forall a s0 self0, scalar_export_name (snd a) = false ->
                   exists r, validate_output stack_name a s0 self0 = Ok r).
    { intros a s0 self0 Ea. pose proof (validate_output_cases stack_name a s0 self0) as C.
      rewrite Ea in C. exact C. }
    assert (L2 : forall a s0 self0, scalar_export_name (snd a) = true ->
                   validate_output stack_name a s0 self0 = Raise TypeError).
    { intros a s0 self0 Ea. pose proof (validate_output_cases stack_name a s0 self0) as C.
      rewrite Ea in C. exact C. }
    specialize (L L1 L2 (enumerate l) v s). rewrite E in L. exact L.
Qed.

Variable set_order : pyset -> pyset.

(** X11. Among JSON values without fractions, [validate_stack_outputs]
    raises [TypeError] exactly on the dictionaries in which some output
    object has an [export_name] that is a non-zero number or [True] (the
    test ['{ProjectName}' in export_name] needs a container), and returns
    on all others; [validate_all] raises with it, since it catches
    nothing. *)
Theorem scalar_export_name_raises
    (config stack_outputs : dict Py.value) (self : validator) :
  (if has_scalar_export_name stack_outputs
   then validate_stack_outputs (VDict stack_outputs) self = Raise TypeError
   else exists valid self',
          validate_stack_outputs (VDict stack_outputs) self = Ok (valid, self')) /\
  (lookup "stack_outputs" config = Some (VDict stack_outputs) ->
   has_key "dependencies" config = true ->
   has_scalar_export_name stack_outputs = true ->
   validate_all set_order (VDict config) self = Raise TypeError).
Proof.
  pose proof (validate_stack_outputs_cases stack_outputs self) as C.
  split.
  - destruct (has_scalar_export_name stack_outputs); [ exact C | ].
    destruct C as ([valid self'] & H). eauto.
  - intros Hso Hd Hs. rewrite Hs in C.
    unfold validate_all, validate_structure. cbn [validate_structure_sections].
    unfold bind at 1. unfold bind at 1. cbn [py_in hashable lift of_result].
    unfold has_key at 1. rewrite Hso. cbn [negb].
    unfold bind at 1. rewrite Hd. cbn [lift of_result negb ret].
    unfold bind at 1. unfold py_get. rewrite Hso. cbn [lift of_result].
    unfold bind at 1. rewrite C. reflexivity.
Qed.

(** X12. A configuration object that lacks one of the two sections
    stops [validate_all] at once: the result is [False], and the only
    message added is the error about the first missing section. *)
Theorem missing_section_stops
    (config : dict Py.value) (section : string) (self : validator) :
  first_missing_section config = Some section ->
  validate_all set_order (VDict config) self
  = Ok (false, mkValidator (errors self ++ [MissingSection section]) (warnings self)).
Proof.
  unfold first_missing_section. intros H.
  unfold validate_all, validate_structure. cbn [validate_structure_sections].
  unfold bind at 1. unfold bind at 1. cbn [py_in hashable lift of_result].
  destruct (has_key "stack_outputs" config); cbn [negb] in *.
  - unfold bind at 1. cbn [lift of_result].
    destruct (has_key "dependencies" config); cbn [negb] in *; [ discriminate | ].
    inversion H; subst. reflexivity.
  - inversion H; subst. reflexivity.
Qed.

End Returning.

Section RunWitnesses.

Import ConfigValidator MoreExamples.

Lemma validate_all_flag_sound_witness :
  validate_all (fun s => s) lacking_required (mkValidator [] [])
  = Ok (false, mkValidator [DependencyMissingField "app" 0 "required_outputs"]
                 [NoOutputDefinitions (VStr "net")]) /\
  exists new_errors new_warnings,
    mkValidator [DependencyMissingField "app" 0 "required_outputs"]
      [NoOutputDefinitions (VStr "net")]
    = mkValidator ([] ++ new_errors) ([] ++ new_warnings) /\
    (false = true <-> new_errors = []).
Proof.
  split; [ reflexivity | ].
  apply (@validate_all_flag_sound (fun s => s) lacking_required (mkValidator [] [])
           (mkValidator [DependencyMissingField "app" 0 "required_outputs"]
              [NoOutputDefinitions (VStr "net")]) false).
  reflexivity.
Defined.

Lemma scalar_export_name_raises_witness :
  validate_all (fun s => s)
    (VDict [("stack_outputs", VDict numbered_export); ("dependencies", VDict [])])
    (mkValidator [] [])
  = Raise TypeError.
Proof.
  apply (proj2 (@scalar_export_name_raises (fun s => s)
                  [("stack_outputs", VDict numbered_export); ("dependencies", VDict [])]
                  numbered_export (mkValidator [] []))); reflexivity.
Defined.

Lemma missing_section_stops_witness :
  RunFacts.first_missing_section [("stack_outputs", VDict [])] = Some "dependencies" /\
  validate_all (fun s => s) (VDict [("stack_outputs", VDict [])]) (mkValidator [] [])
  = Ok (false, mkValidator [MissingSection "dependencies"] []).
Proof.
  split; [ reflexivity | ].
  apply (@missing_section_stops (fun s => s) [("stack_outputs", VDict [])] "dependencies"
           (mkValidator [] [])).
  reflexivity.
Defined.

End RunWitnesses.

(* ================================================================== *)
(** * The verdict of the configuration validator on a registry *)
(* ================================================================== *)

Section Verdict.

Import Manager ConfigValidator ValidatorFacts GraphFacts VerdictFacts.

Lemma first_owner_None (e : string) (seen : list (string * string)) :
  first_owner e seen = None <-> ~ In e (map snd seen).
Proof.
  induction seen as [ | [stack e'] seen IH ]; simpl; [ tauto | ].
  destruct (String.eqb e e') eqn:E.
  - apply String.eqb_eq in E. subst. split; [ discriminate | tauto ].
  - apply String.eqb_neq in E. rewrite IH. split; [ intros H [ H' | H' ]; auto | tauto ].
Qed.

Lemma collisions_nil (scan seen : list (string * string)) :
  collisions seen scan = [] <->
  (forall e, In e (map snd scan) -> e <> "" -> ~ In e (map snd seen)) /\
  NoDup (filter (fun e => negb (String.eqb e "")) (map snd scan)).
Proof.
  revert seen. induction scan as [ | [stack e] scan IH ]; intros seen.
  - simpl. split; [ intros _; split; [ tauto | constructor ] | reflexivity ].
  - cbn [collisions map snd filter].
    assert (A : forall e', In e' (map snd (seen ++ [(stack, e)])) <->
                           In e' (map snd seen) \/ e' = e).
    { intros e'. rewrite map_app, in_app_iff. simpl. intuition congruence. }
    split.
    + intros H. apply app_eq_nil in H. destruct H as [H1 H2].
      apply IH in H2. destruct H2 as [H2 H3].
      destruct (String.eqb e "") eqn:E; cbn [negb].
      * apply String.eqb_eq in E. subst e. split; [ | exact H3 ].
        intros e' [ <- | I ] N; [ congruence | ].
        intros J. apply (H2 e' I N). apply A. auto.
      * apply String.eqb_neq in E. split.
        -- intros e' [ <- | I ] N.
           ++ apply first_owner_None.
              destruct (first_owner e seen); [ discriminate | reflexivity ].
           ++ intros J. apply (H2 e' I N). apply A. auto.
        -- constructor; [ | exact H3 ].
           intros I. apply filter_In in I. destruct I as [I N].
           apply (H2 e I E). apply A. auto.
    + intros [H1 H2].
      assert (T : collisions (seen ++ [(stack, e)]) scan = []).
      { apply IH. split.
        - intros e' I N J. apply A in J. destruct J as [ J | -> ].
          + apply (H1 e'); simpl; auto.
          + apply String.eqb_neq in N. rewrite N in H2. cbn [negb] in H2.
            inversion H2 as [ | ? ? H3 _ ]; subst. apply H3.
            apply filter_In. split; [ exact I | ]. rewrite N. reflexivity.
        - destruct (String.eqb e ""); cbn [negb] in H2; [ exact H2 | ].
          inversion H2; assumption. }
      rewrite T, app_nil_r.
      destruct (String.eqb e "") eqn:E; [ reflexivity | ].
      apply String.eqb_neq in E.
      assert (F : first_owner e seen = None).
      { apply first_owner_None. apply H1; simpl; auto. }
      rewrite F. reflexivity.
Qed.

(** X13. On the outputs of any registry [validate_export_name_uniqueness]
    returns, adds no warning, and answers [True] exactly when no two
    outputs carry the same non-empty export name. *)
Theorem uniqueness_iff_distinct (so : dict (list StackOutput)) (self : validator) :
  exists valid new_errors,
    validate_export_name_uniqueness (outputs_section so) self
    = Ok (valid, mkValidator (errors self ++ new_errors) (warnings self)) /\
    (valid = true <-> NoDup (exported_names so)).
Proof.
  exists (is_nil (collisions [] (exports so))), (collisions [] (exports so)).
  split.
  - rewrite (uniqueness_exported so self). rewrite app_nil_r. reflexivity.
  - unfold exported_names.
    pose proof (collisions_nil (exports so) []) as C.
    destruct (collisions [] (exports so)); simpl.
    + split; [ intros _; apply C; reflexivity | reflexivity ].
    + split; [ discriminate | ]. intros H.
      assert (X : m :: l = []) by (apply C; split; [ intros ? _ _ [] | exact H ]).
      discriminate.
Qed.

Lemma flat_map_eq_nil {A B} (f : A -> list B) (l : list A) :
  flat_map f l = [] <-> forall a, In a l -> f a = [].
Proof.
  induction l as [ | a l IH ]; simpl.
  - split; [ intros _ ? [] | reflexivity ].
  - split.
    + intros H. apply app_eq_nil in H. destruct H as [H1 H2].
      intros a' [ <- | I ]; [ exact H1 | ]. apply IH; assumption.
    + intros H. rewrite (H a) by auto.
      apply IH. intros a' I. apply H. auto.
Qed.

Lemma missing_nil (defined wanted : list string) :
  missing defined wanted = [] <-> forall x, In x wanted -> In x defined.
Proof.
  unfold missing. induction wanted as [ | x wanted IH ]; simpl.
  - split; [ intros _ ? [] | reflexivity ].
  - destruct (mem x defined) eqn:E; cbn [negb].
    + apply mem_In in E. rewrite IH. split.
      * intros H y [ <- | I ]; auto.
      * intros H y I. apply H. auto.
    + apply mem_false in E. split; [ discriminate | ].
      intros H. exfalso. apply E, H. auto.
Qed.

Lemma edge_errors_nil (m : registry) :
  flat_map (edge_errors (stack_outputs m)) (edges (dependencies m)) = []
  <-> requirements_met m.
Proof.
  rewrite flat_map_eq_nil. unfold requirements_met. split.
  - intros H A d outs x I L R. specialize (H (A, d) I).
    unfold edge_errors, defined_on in H. cbn [fst snd] in H. rewrite L in H.
    cbn [option_map] in H. apply map_eq_nil in H.
    apply (proj1 (missing_nil _ _) H x R).
  - intros H [A d] I. unfold edge_errors, defined_on. cbn [fst snd].
    destruct (lookup (stack_name d) (stack_outputs m)) as [ outs | ] eqn:L;
      cbn [option_map]; [ | reflexivity ].
    replace (missing (map name outs) (required_outputs d)) with (@nil string);
      [ reflexivity | ].
    symmetry. apply missing_nil. intros x R. apply (H A d outs x I L R).
Qed.

Variable set_order : pyset -> pyset.
Hypothesis set_order_permutes : forall s, Permutation (set_order s) s.

(** X14. The verdict of [validate_all] on the snapshot of a well-formed
    registry, for any iteration order of sets: it is [True] exactly when
    every required output of every dependency on a stack with registered
    outputs is defined there, no non-empty export name is carried by two
    outputs, and no stack lies on a dependency cycle through another
    stack. *)
Theorem valid_iff_clean (m : registry) (self : validator) :
  registry_ok m ->
  exists valid self',
    validate_all set_order (export_configuration m) self = Ok (valid, self') /\
    (valid = true <->
     requirements_met m /\
     NoDup (exported_names (stack_outputs m)) /\
     acyclic (dependencies m)).
Proof.
  intros (_ & Hkeys & _).
  destruct (@detect_exported (dependencies m) Hkeys set_order set_order_permutes)
    as (cycles & Hdetect & Hheads & Hne & _).
  pose proof (@validate_all_exported set_order m cycles Hdetect self) as Hrun.
  eexists _, _. split; [ exact Hrun | ].
  unfold run_errors. rewrite !is_nil_app, !andb_true_iff.
  assert (N : forall (A : Type) (l : list A), is_nil l = true <-> l = []).
  { intros A [ | a l ]; simpl; split; congruence. }
  rewrite !N, edge_errors_nil.
  unfold exported_names.
  pose proof (collisions_nil (exports (stack_outputs m)) []) as C.
  assert (Cy : map CircularDependency cycles = [] <-> acyclic (dependencies m)).
  { unfold acyclic. split.
    - intros H s Hs. apply map_eq_nil in H. subst cycles.
      apply Hheads in Hs. destruct Hs.
    - intros H. destruct cycles as [ | c cycles ]; [ reflexivity | ].
      exfalso. apply (H (hd "" c)). apply Hheads. simpl. auto. }
  rewrite Cy, C. simpl. intuition.
Qed.

End Verdict.

Section VerdictWitness.

Import Manager ConfigValidator VerdictFacts DuplicateExamples.

Lemma valid_iff_clean_witness :
  exists valid self',
    validate_all (fun s => s) (export_configuration satisfied) (mkValidator [] [])
    = Ok (valid, self') /\
    (valid = true <->
     requirements_met satisfied /\
     NoDup (exported_names (stack_outputs satisfied)) /\
     acyclic (dependencies satisfied)).
Proof.
  apply (@valid_iff_clean (fun s => s) (fun s => Permutation_refl s) satisfied
           (mkValidator [] []) satisfied_ok).
Defined.

End VerdictWitness.

(* ================================================================== *)
(** * The cycles that the configuration validator reports *)
(* ================================================================== *)

Section SimpleCycles.

Import Manager ConfigValidator ValidatorFacts GraphFacts VerdictFacts.

Lemma follow_dependencies_sound
    (again : Py.value -> list (list Py.value) -> outcome (bool * list (list Py.value)))
    (ds : list StackDependency)
    (G : string -> list (list Py.value) -> list (list Py.value) -> Prop) :
  (forall t circ b c', In t (targets ds) -> again (VStr t) circ = Ok (b, c') ->
     (b = false -> c' = circ) /\ (b = true -> G t circ c')) ->
  forall circ b c',
    follow_dependencies again (map dependency_entry ds) circ = Ok (b, c') ->
    (b = false -> c' = circ) /\
    (b = true -> exists t, In t (targets ds) /\ G t circ c').
Proof.
  induction ds as [ | d ds IH ]; intros Hagain circ b c'.
  - simpl. intros H. inversion H; subst. split; [ reflexivity | discriminate ].
  - cbn [map follow_dependencies].
    replace (py_get (dependency_entry d) "stack_name" VNone)
      with (Return (VStr (stack_name d))) by (destruct d; reflexivity).
    cbn [of_result obind].
    change (truthy (VStr (stack_name d))) with (negb (String.eqb (stack_name d) "")).
    unfold targets in *. cbn [map filter] in *.
    destruct (String.eqb (stack_name d) "") eqn:Hempty; cbn [negb] in *.
    + apply IH. exact Hagain.
    + destruct (again (VStr (stack_name d)) circ) as [ [b1 c1] | | ] eqn:Hrun;
        cbn [obind fst snd]; try discriminate.
      destruct (Hagain _ _ _ _ (or_introl eq_refl) Hrun) as [Hf Ht].
      destruct b1.
      * intros H. inversion H; subst. split; [ discriminate | ].
        intros _. exists (stack_name d). split; [ simpl; auto | auto ].
      * rewrite (Hf eq_refl). intros H.
        destruct (IH (fun t c b0 c0 Hin => Hagain t c b0 c0 (or_intror Hin)) _ _ _ H)
          as [Hf' Ht'].
        split; [ exact Hf' | ].
        intros Hb. destruct (Ht' Hb) as (t & Hin & Hg). exists t. simpl. auto.
Qed.

Variable deps : dict (list StackDependency).
Hypothesis keys_unique : NoDup (keys deps).

Let D := dependencies_section deps.

Lemma has_path_sound (e : string) (fuel : nat) :
  forall (x : string) (vis path : list string) (circ : list (list Py.value))
         (b : bool) (c' : list (list Py.value)),
    has_path fuel D (VStr x) (VStr e) (strs vis) (strs path) circ = Ok (b, c') ->
    (b = false -> c' = circ) /\
    (b = true ->
       exists l, walk deps x l e /\ NoDup l /\ (forall v, In v l -> ~ In v vis) /\
                 (l = [] -> 1 < List.length path) /\
                 c' = circ ++ [strs (path ++ l ++ [e])]).
Proof.
  induction fuel as [ | fuel IH ]; intros x vis path circ b c'; [ discriminate | ].
  unfold D. rewrite has_path_unfold. fold D.
  destruct (String.eqb x e && Nat.ltb 1 (List.length path)) eqn:Hback.
  { apply andb_true_iff in Hback. destruct Hback as (Hxe & Hlen).
    apply String.eqb_eq in Hxe. apply Nat.ltb_lt in Hlen. subst x.
    intros H. inversion H; subst. split; [ discriminate | ].
    intros _. exists []. split; [ constructor | ]. split; [ constructor | ].
    split; [ intros v [] | ]. split; [ intros _; exact Hlen | reflexivity ]. }
  destruct (mem x vis) eqn:Hvis.
  { intros H. inversion H; subst. split; [ reflexivity | discriminate ]. }
  apply mem_false in Hvis.
  destruct (lookup x deps) as [ ds | ] eqn:Hds.
  2:{ intros H. inversion H; subst. split; [ reflexivity | discriminate ]. }
  intros H.
  destruct (@follow_dependencies_sound
              (fun t c => has_path fuel D t (VStr e) (strs (vis ++ [x]))
                            (strs (path ++ [x])) c)
              ds
              (fun t c c0 =>
                 exists l, walk deps t l e /\ NoDup l /\
                           (forall v, In v l -> ~ In v (vis ++ [x])) /\
                           c0 = c ++ [strs ((path ++ [x]) ++ l ++ [e])]))
    with (circ := circ) (b := b) (c' := c') as [Hf Ht]; [ | exact H | ].
  { intros t c b0 c0 Hin Hrun.
    destruct (IH t (vis ++ [x]) (path ++ [x]) c b0 c0 Hrun) as [Hf0 Ht0].
    split; [ exact Hf0 | ].
    intros Hb. destruct (Ht0 Hb) as (l & Hw & Hnd & Havoid & _ & Hc). eauto. }
  split; [ exact Hf | ].
  intros Hb. destruct (Ht Hb) as (t & Hin & l & Hw & Hnd & Havoid & Hc).
  exists (x :: l). split; [ | split; [ | split; [ | split ] ] ].
  - econstructor; [ | exact Hw ].
    apply (@edge_successors deps keys_unique). unfold successors. rewrite Hds. exact Hin.
  - constructor; [ | exact Hnd ].
    intros I. apply (Havoid x I). apply in_or_app. right. simpl. auto.
  - intros v [ <- | Hv ]; [ exact Hvis | ].
    intros I. apply (Havoid v Hv). apply in_or_app. auto.
  - discriminate.
  - rewrite Hc, <- !app_assoc. reflexivity.
Qed.

Lemma has_path_top_sound (e : string) (fuel : nat) (circ : list (list Py.value))
    (b : bool) (c' : list (list Py.value)) :
  has_path fuel D (VStr e) (VStr e) [] [] circ = Ok (b, c') ->
  (b = false -> c' = circ) /\
  (b = true -> exists c, simple_cycle deps c /\ c' = circ ++ [strs c]).
Proof.
  destruct fuel as [ | fuel ]; [ discriminate | ].
  change (@nil Py.value) with (strs []) at 1 2.
  unfold D. rewrite (has_path_unfold deps e fuel e [] [] circ). fold D.
  rewrite String.eqb_refl. cbn [andb List.length Nat.ltb Nat.leb mem existsb].
  destruct (lookup e deps) as [ ds | ] eqn:Hds.
  2:{ intros H. inversion H; subst. split; [ reflexivity | discriminate ]. }
  intros H.
  destruct (@follow_dependencies_sound
              (fun t c => has_path fuel D t (VStr e) (strs ([] ++ [e]))
                            (strs ([] ++ [e])) c)
              ds
              (fun t c c0 =>
                 exists l, walk deps t l e /\ NoDup l /\
                           (forall v, In v l -> ~ In v [e]) /\ l <> [] /\
                           c0 = c ++ [strs (e :: l ++ [e])]))
    with (circ := circ) (b := b) (c' := c') as [Hf Ht]; [ | exact H | ].
  { intros t c b0 c0 Hin Hrun.
    destruct (@has_path_sound e fuel t [e] [e] c b0 c0 Hrun) as [Hf0 Ht0].
    split; [ exact Hf0 | ].
    intros Hb. destruct (Ht0 Hb) as (l & Hw & Hnd & Havoid & Hl & Hc).
    exists l. repeat split; auto.
    intros ->. specialize (Hl eq_refl). simpl in Hl. lia. }
  split; [ exact Hf | ].
  intros Hb. destruct (Ht Hb) as (t & Hin & l & Hw & Hnd & Havoid & Hne & Hc).
  exists (e :: l ++ [e]). split; [ | exact Hc ].
  exists e, l. split; [ reflexivity | ]. split; [ exact Hne | ]. split.
  - constructor; [ | exact Hnd ]. intros I. apply (Havoid e I). simpl. auto.
  - econstructor; [ | exact Hw ].
    apply (@edge_successors deps keys_unique). unfold successors. rewrite Hds. exact Hin.
Qed.

Lemma probe_sound (fuel : nat) (order : list string) :
  forall (reported : list (list string)) (out : list (list Py.value)),
    ofor_each (strs order)
      (fun stack circular_deps =>
         obind (py_in stack D) (fun known =>
         if (known : bool)
         then obind (has_path fuel D stack stack [] [] circular_deps)
                    (fun r => Ok (snd r))
         else Ok circular_deps))
      (map strs reported)
    = Ok out ->
    exists cycles, out = map strs (reported ++ cycles) /\ Forall (simple_cycle deps) cycles.
Proof.
  induction order as [ | s order IH ]; intros reported out.
  - simpl. intros H. inversion H; subst. exists []. rewrite app_nil_r. auto.
  - cbn [map ofor_each]. unfold D at 1.
    rewrite has_key_dependencies_section. cbn [of_result obind].
    destruct (has_key s deps).
    + destruct (has_path fuel D (VStr s) (VStr s) [] [] (map strs reported))
        as [ [b c'] | | ] eqn:Hrun; cbn [obind snd]; try discriminate.
      destruct (@has_path_top_sound s fuel _ b c' Hrun) as [Hf Ht].
      destruct b.
      * destruct (Ht eq_refl) as (c & Hc & ->).
        change (map strs reported ++ [strs c]) with (map strs reported ++ map strs [c]).
        rewrite <- map_app. intros H.
        destruct (IH _ out H) as (cycles & -> & Hall).
        exists (c :: cycles). rewrite <- app_assoc. split; [ reflexivity | ].
        constructor; assumption.
      * rewrite (Hf eq_refl). apply IH.
    + apply IH.
Qed.

Lemma strs_injective (a b : list string) : strs a = strs b -> a = b.
Proof.
  revert b. induction a as [ | x a IH ]; intros [ | y b ]; simpl; try discriminate; auto.
  intros H. inversion H. f_equal. auto.
Qed.

Lemma map_strs_injective (a b : list (list string)) : map strs a = map strs b -> a = b.
Proof.
  revert b. induction a as [ | x a IH ]; intros [ | y b ]; simpl; try discriminate; auto.
  intros H. inversion H. f_equal; [ apply strs_injective | ]; auto.
Qed.

Variable set_order : pyset -> pyset.
Hypothesis set_order_permutes : forall s, Permutation (set_order s) s.

Lemma detect_simple :
  exists cycles : list (list string),
    detect_circular_dependencies set_order D = Ok (map strs cycles) /\
    Forall (simple_cycle deps) cycles.
Proof.
  destruct (@detect_exported deps keys_unique set_order set_order_permutes)
    as (cycles & Hdetect & _).
  exists cycles. split; [ exact Hdetect | ].
  unfold detect_circular_dependencies in Hdetect.
  rewrite all_stacks_exported in Hdetect. cbn [obind] in Hdetect.
  destruct (Permutation_map_inv VStr (nodes deps) (set_order_permutes (strs (nodes deps))))
    as (order & Horder & _).
  rewrite Horder in Hdetect.
  destruct (@probe_sound _ order [] _ Hdetect) as (cycles' & E & Hall).
  apply map_strs_injective in E. subst. exact Hall.
Qed.

End SimpleCycles.

Section SimpleCycleReports.

Import Manager ConfigValidator ValidatorFacts GraphFacts VerdictFacts.

(** X15. Every cycle that [detect_circular_dependencies] of
    validate-config.py reports is a simple cycle of the dependency graph:
    it starts and ends at the same stack, follows declared dependencies,
    passes through at least one other stack and visits no stack twice on
    its way. *)
Theorem reported_cycles_are_simple (m : registry) (set_order : pyset -> pyset) :
  registry_ok m ->
  (forall s, Permutation (set_order s) s) ->
  exists cycles : list (list string),
    detect_circular_dependencies set_order (dependencies_section (dependencies m))
    = Ok (map strs cycles) /\
    forall c, In c cycles -> simple_cycle (dependencies m) c.
Proof.
  intros (_ & Hkeys & _) Hperm.
  destruct (@detect_simple (dependencies m) Hkeys set_order Hperm) as (cycles & H & Hall).
  exists cycles. split; [ exact H | ]. apply Forall_forall. exact Hall.
Qed.

End SimpleCycleReports.

Section SimpleCycleWitness.

Import Manager ConfigValidator ValidatorFacts GraphFacts VerdictFacts.

Lemma reported_cycles_are_simple_witness :
  exists cycles : list (list string),
    detect_circular_dependencies (fun s => s) (dependencies_section (dependencies triangle))
    = Ok (map strs cycles) /\
    forall c, In c cycles -> simple_cycle (dependencies triangle) c.
Proof.
  apply (@reported_cycles_are_simple triangle (fun s => s) triangle_ok
           (fun s => Permutation_refl s)).
Defined.

End SimpleCycleWitness.

(* ================================================================== *)
(** * The pairwise check and mutual reachability *)
(* ================================================================== *)

Section Reachability.

Import Manager ValidatorFacts GraphFacts PairFacts ReachFacts.
Import DependencyValidator.

Variable deps : dict (list StackDependency).

Lemma route_suffix (t y e : string) (a b : list string) :
  route deps t (a ++ y :: b) e -> route deps y (y :: b) e.
Proof.
  revert t. induction a as [ | z a IH ]; intros t H; simpl in H.
  - inversion H; subst. econstructor; eassumption.
  - inversion H; subst. eapply IH. eassumption.
Qed.

Lemma route_simple (x e : string) (l : list string) :
  route deps x l e -> exists l', route deps x l' e /\ NoDup l'.
Proof.
  induction 1 as [ x | x t e l Hlink Hroute (l' & Hl' & Hnd) ].
  - exists []. split; constructor.
  - destruct (in_dec string_dec x l') as [Hin | Hnin].
    + destruct (in_split _ _ Hin) as (a & b & ->).
      exists (x :: b). split; [ eapply route_suffix; eassumption | ].
      apply NoDup_app_remove_l in Hnd. exact Hnd.
    + exists (x :: l'). split; [ econstructor; eassumption | constructor; assumption ].
Qed.

Lemma reaches_step (x t e : string) : link deps x t -> reaches deps t e -> reaches deps x e.
Proof. intros Hl (l & Hr). exists (x :: l). econstructor; eassumption. Qed.

Lemma reaches_source (x e : string) : reaches deps x e -> x <> e -> In x (all_nodes deps).
Proof.
  intros (l & Hr) Hne. inversion Hr; subst; [ congruence | ].
  match goal with H : link _ _ _ |- _ => destruct H as (d & Hd & _) end.
  apply In_all_nodes. left. apply (edges_keys _ _ _ Hd).
Qed.

Lemma mutual_sym (a b : string) : mutual deps a b -> mutual deps b a.
Proof. intros (H1 & H2 & H3). repeat split; auto. Qed.

Lemma pair_follow_spec (again : Py.value -> outcome bool) (ds : list StackDependency)
    (G C : string -> Prop) :
  (forall t, In t (map stack_name ds) ->
     exists b, again (VStr t) = Ok b /\ (b = true -> G t) /\ (C t -> b = true)) ->
  exists b,
    follow_dependencies again (map dependency_entry ds) = Ok b /\
    (b = true -> exists t, In t (map stack_name ds) /\ G t) /\
    ((exists t, In t (map stack_name ds) /\ C t) -> b = true).
Proof.
  induction ds as [ | d ds IH ]; intros Hagain.
  - exists false. split; [ reflexivity | ]. split; [ discriminate | intros (t & [] & _) ].
  - cbn [map follow_dependencies].
    replace (py_getitem (dependency_entry d) "stack_name")
      with (Return (VStr (stack_name d))) by (destruct d; reflexivity).
    cbn [of_result obind].
    destruct (Hagain (stack_name d)) as (b & -> & Hg & Hc); [ simpl; auto | ].
    cbn [obind]. destruct b.
    + exists true. split; [ reflexivity | ]. split; [ | reflexivity ].
      intros _. exists (stack_name d). simpl. auto.
    + destruct IH as (b & Hrun & Hg' & Hc').
      { intros t Ht. apply Hagain. simpl; auto. }
      exists b. split; [ exact Hrun | ]. split.
      * intros Hb. destruct (Hg' Hb) as (t & Ht & HG). exists t. simpl. auto.
      * intros (t & [ <- | Ht ] & HC).
        -- specialize (Hc HC). discriminate.
        -- apply Hc'. eauto.
Qed.

Hypothesis keys_unique : NoDup (keys deps).

Let D := dependencies_section deps.
Let U := all_nodes deps.

Lemma link_lookup (x t : string) :
  link deps x t <-> exists ds, lookup x deps = Some ds /\ In t (map stack_name ds).
Proof.
  unfold link. split.
  - intros (d & Hd & <-). apply (@In_edges deps keys_unique) in Hd.
    destruct Hd as (ds & Hl & Hin). exists ds. split; [ exact Hl | apply in_map, Hin ].
  - intros (ds & Hl & Hin). apply in_map_iff in Hin. destruct Hin as (d & <- & Hd).
    exists d. split; [ | reflexivity ]. apply (@In_edges deps keys_unique). eauto.
Qed.

Lemma pair_has_path_spec (e : string) (fuel : nat) :
  forall (x : string) (vis : list string),
    In x U -> remaining U vis < fuel ->
    exists b,
      has_path fuel D (VStr x) (VStr e) (strs vis) = Ok b /\
      (b = true -> reaches deps x e) /\
      (forall l, route deps x l e -> NoDup l -> (forall v, In v l -> ~ In v vis) ->
                 b = true).
Proof.
  induction fuel as [ | fuel IH ]; intros x vis HxU Hfuel; [ lia | ].
  cbn [has_path]. change (py_eq (VStr x) (VStr e)) with (String.eqb x e).
  destruct (String.eqb_spec x e) as [ -> | Hne ].
  { exists true. split; [ reflexivity | ]. split; [ | reflexivity ].
    intros _. exists []. constructor. }
  assert (Hstart : forall l, route deps x l e -> exists t l', l = x :: l' /\
                                link deps x t /\ route deps t l' e).
  { intros l Hr. inversion Hr; subst; [ congruence | eauto ]. }
  rewrite set_mem_strs. cbn [of_result obind].
  destruct (mem x vis) eqn:Hvis.
  { exists false. split; [ reflexivity | ]. split; [ discriminate | ].
    intros l Hr _ Havoid. destruct (Hstart l Hr) as (t & l' & -> & _).
    apply mem_In in Hvis. exfalso. apply (Havoid x); simpl; auto. }
  rewrite set_add_strs. cbn [of_result obind]. unfold add_new. rewrite Hvis.
  apply mem_false in Hvis.
  unfold D at 1 2. rewrite has_key_dependencies_section. cbn [of_result obind].
  rewrite index_dependencies_section. unfold has_key.
  destruct (lookup x deps) as [ ds | ] eqn:Hds.
  2:{ exists false. split; [ reflexivity | ]. split; [ discriminate | ].
      intros l Hr _ _. destruct (Hstart l Hr) as (t & l' & -> & Hl & _).
      apply link_lookup in Hl. destruct Hl as (ds & Hl & _). congruence. }
  cbn [of_result obind py_iter].
  destruct (pair_follow_spec
              (fun target => has_path fuel D target (VStr e) (strs (vis ++ [x])))
              ds
              (fun t => reaches deps t e)
              (fun t => exists l, route deps t l e /\ NoDup l /\
                                  (forall v, In v l -> ~ In v (vis ++ [x]))))
    as (b & Hrun & Hg & Hc).
  { intros t Ht.
    destruct (IH t (vis ++ [x])) as (b & Hrun & Hg & Hc).
    - apply (target_all_nodes deps x t Hds Ht).
    - pose proof (remaining_visit U vis x HxU Hvis). lia.
    - exists b. split; [ exact Hrun | ]. split; [ exact Hg | ].
      intros (l & Hr & Hnd & Havoid). apply (Hc l Hr Hnd Havoid). }
  exists b. split; [ exact Hrun | ]. split.
  - intros Hb. destruct (Hg Hb) as (t & Ht & Hreach).
    apply (@reaches_step x t e); [ | exact Hreach ].
    apply link_lookup. eauto.
  - intros l Hr Hnd Havoid. destruct (Hstart l Hr) as (t & l' & -> & Hl & Hr').
    apply Hc. exists t. split.
    + apply link_lookup in Hl. destruct Hl as (ds' & Hl & Hin). congruence.
    + exists l'. split; [ exact Hr' | ]. inversion Hnd; subst. split; [ assumption | ].
      intros v Hv I. apply in_app_iff in I. destruct I as [ I | [ <- | [] ] ].
      * apply (Havoid v); simpl; auto.
      * contradiction.
Qed.

Lemma pair_has_path_top (a b : string) :
  In a U ->
  exists r, has_path (S (List.length U)) D (VStr a) (VStr b) [] = Ok r /\
            (r = true <-> reaches deps a b).
Proof.
  intros Ha.
  destruct (@pair_has_path_spec b (S (List.length U)) a []) as (r & Hrun & Hg & Hc);
    [ exact Ha | pose proof (remaining_le U []); lia | ].
  exists r. split; [ exact Hrun | ]. split; [ exact Hg | ].
  intros (l & Hr). destruct (@route_simple a b l Hr) as (l' & Hr' & Hnd).
  apply (Hc l' Hr' Hnd). intros v _ [].
Qed.

Lemma existsb_same_pair_true (p : string * string) (pairs : list (string * string)) :
  existsb (same_pair p) pairs = true -> In p pairs.
Proof.
  intros H. apply existsb_exists in H. destruct H as ([x y] & Hin & Hs).
  unfold same_pair in Hs. apply andb_true_iff in Hs. destruct Hs as [H1 H2].
  apply String.eqb_eq in H1, H2. destruct p as [u v]. simpl in *. subst. exact Hin.
Qed.

Lemma check_pair_spec (a b : string) (pairs : list (string * string)) :
  In a U -> In b U ->
  exists extra,
    check_pair (S (List.length U)) D (VStr a) (VStr b) (map pair_cycle pairs)
    = Ok (map pair_cycle (pairs ++ extra)) /\
    (forall p, In p extra -> mutual deps (fst p) (snd p)) /\
    (mutual deps a b -> In (a, b) (pairs ++ extra) \/ In (b, a) (pairs ++ extra)).
Proof.
  intros Ha Hb. unfold check_pair.
  change (py_eq (VStr a) (VStr b)) with (String.eqb a b).
  assert (Hsame : forall P : Prop, (mutual deps a b -> P) ->
            exists extra : list (string * string),
              @Ok (list (list Py.value)) (map pair_cycle pairs)
              = Ok (map pair_cycle (pairs ++ extra)) /\
              (forall p, In p extra -> mutual deps (fst p) (snd p)) /\
              (mutual deps a b -> P)).
  { intros P HP. exists []. rewrite app_nil_r. split; [ reflexivity | ].
    split; [ intros p [] | exact HP ]. }
  destruct (String.eqb_spec a b) as [ Hab | Hab ]; cbn [negb].
  { destruct (Hsame False) as (extra & H1 & H2 & H3).
    - intros (N & _). contradiction.
    - exists extra. split; [ exact H1 | ]. split; [ exact H2 | ].
      intros M. destruct (H3 M). }
  destruct (@pair_has_path_top a b Ha) as (forth & Hforth & Hf).
  rewrite Hforth. cbn [obind].
  destruct forth.
  2:{ cbn [obind].
      destruct (Hsame False) as (extra & H1 & H2 & H3).
      - intros (_ & R & _). apply Hf in R. discriminate.
      - exists extra. split; [ exact H1 | ]. split; [ exact H2 | ].
        intros M. destruct (H3 M). }
  destruct (@pair_has_path_top b a Hb) as (back & Hback & Hbk).
  rewrite Hback. cbn [obind].
  destruct back.
  2:{ destruct (Hsame False) as (extra & H1 & H2 & H3).
      - intros (_ & _ & R). apply Hbk in R. discriminate.
      - exists extra. split; [ exact H1 | ]. split; [ exact H2 | ].
        intros M. destruct (H3 M). }
  assert (M : mutual deps a b).
  { split; [ exact Hab | ]. split; [ apply Hf | apply Hbk ]; reflexivity. }
  cbv zeta.
  change [VStr a; VStr b] with (pair_cycle (a, b)).
  change (rev (pair_cycle (a, b))) with (pair_cycle (b, a)).
  rewrite !cycle_in_pairs.
  destruct (existsb (same_pair (a, b)) pairs) eqn:H1; cbn [negb andb].
  { exists []. rewrite app_nil_r. split; [ reflexivity | ]. split; [ intros p [] | ].
    intros _. left. apply existsb_same_pair_true, H1. }
  destruct (existsb (same_pair (b, a)) pairs) eqn:H2; cbn [negb].
  { exists []. rewrite app_nil_r. split; [ reflexivity | ]. split; [ intros p [] | ].
    intros _. right. apply existsb_same_pair_true, H2. }
  exists [(a, b)]. split; [ rewrite map_app; reflexivity | ]. split.
  - intros p [ <- | [] ]. exact M.
  - intros _. left. apply in_or_app. right. simpl. auto.
Qed.

Lemma inner_loop_spec (a : string) (order : list string) :
  In a U -> incl order U ->
  forall pairs,
  exists extra,
    ConfigValidator.ofor_each (strs order)
      (fun stack_b circular_deps =>
         check_pair (S (List.length U)) D (VStr a) stack_b circular_deps)
      (map pair_cycle pairs)
    = Ok (map pair_cycle (pairs ++ extra)) /\
    (forall p, In p extra -> mutual deps (fst p) (snd p)) /\
    (forall b, In b order -> mutual deps a b ->
               In (a, b) (pairs ++ extra) \/ In (b, a) (pairs ++ extra)).
Proof.
  intros Ha. induction order as [ | b order IH ]; intros Hincl pairs.
  - exists []. rewrite app_nil_r. split; [ reflexivity | ].
    split; [ intros p [] | intros b [] ].
  - cbn [map ConfigValidator.ofor_each].
    destruct (@check_pair_spec a b pairs Ha (Hincl b (or_introl eq_refl)))
      as (e1 & -> & S1 & C1).
    cbn [obind].
    destruct (IH (fun x Hx => Hincl x (or_intror Hx)) (pairs ++ e1)) as (e2 & -> & S2 & C2).
    exists (e1 ++ e2). rewrite app_assoc. split; [ reflexivity | ]. split.
    + intros p Hp. apply in_app_iff in Hp. destruct Hp; auto.
    + intros b' [ <- | Hb' ] M.
      * destruct (C1 M) as [ I | I ]; [ left | right ]; apply in_or_app; auto.
      * apply C2; assumption.
Qed.

Lemma outer_loop_spec (order order' : list string) :
  incl order U -> incl order' U ->
  forall pairs,
  exists extra,
    ConfigValidator.ofor_each (strs order)
      (fun stack_a circular_deps =>
         ConfigValidator.ofor_each (strs order')
           (fun stack_b circular_deps =>
              check_pair (S (List.length U)) D stack_a stack_b circular_deps)
           circular_deps)
      (map pair_cycle pairs)
    = Ok (map pair_cycle (pairs ++ extra)) /\
    (forall p, In p extra -> mutual deps (fst p) (snd p)) /\
    (forall a b, In a order -> In b order' -> mutual deps a b ->
                 In (a, b) (pairs ++ extra) \/ In (b, a) (pairs ++ extra)).
Proof.
  induction order as [ | a order IH ]; intros Hincl Hincl' pairs.
  - exists []. rewrite app_nil_r. split; [ reflexivity | ].
    split; [ intros p [] | intros a b [] ].
  - cbn [map ConfigValidator.ofor_each].
    destruct (@inner_loop_spec a order' (Hincl a (or_introl eq_refl)) Hincl' pairs)
      as (e1 & -> & S1 & C1).
    cbn [obind].
    destruct (IH (fun x Hx => Hincl x (or_intror Hx)) Hincl' (pairs ++ e1))
      as (e2 & -> & S2 & C2).
    exists (e1 ++ e2). rewrite app_assoc. split; [ reflexivity | ]. split.
    + intros p Hp. apply in_app_iff in Hp. destruct Hp; auto.
    + intros a' b [ <- | Ha' ] Hb M.
      * destruct (C1 b Hb M) as [ I | I ]; [ left | right ]; apply in_or_app; auto.
      * apply C2; assumption.
Qed.

Variable set_order : pyset -> pyset.
Hypothesis set_order_permutes : forall s, Permutation (set_order s) s.

Lemma pair_detect_spec (so : dict (list StackOutput)) :
  exists pairs,
    detect_circular_dependencies set_order (export_configuration (mkRegistry so deps))
    = Ok (map pair_cycle pairs) /\
    forall a b, In (a, b) pairs \/ In (b, a) pairs <-> mutual deps a b.
Proof.
  unfold detect_circular_dependencies.
  replace (py_get (export_configuration (mkRegistry so deps)) "dependencies" (VDict []))
    with (Return D) by reflexivity.
  cbn [of_result obind]. unfold D at 1. rewrite pair_all_stacks_exported. cbn [obind].
  destruct (Permutation_map_inv VStr (all_nodes deps)
              (set_order_permutes (strs (all_nodes deps))))
    as (order & Horder & Hperm).
  rewrite Horder, length_map.
  assert (Hincl : incl order U).
  { intros x Hx. apply (Permutation_in x (Permutation_sym Hperm)). exact Hx. }
  destruct (@outer_loop_spec order order Hincl Hincl []) as (pairs & Hrun & Hs & Hc).
  exists pairs. split; [ exact Hrun | ].
  intros a b. split.
  - intros [ I | I ]; [ apply (Hs _ I) | apply mutual_sym, (Hs _ I) ].
  - intros M. apply (Hc a b); [ | | exact M ].
    + apply (Permutation_in a Hperm). destruct M as (N & R & _).
      apply (@reaches_source a b R N).
    + apply (Permutation_in b Hperm). destruct M as (N & _ & R).
      apply (@reaches_source b a R). congruence.
Qed.

End Reachability.

Section MutualReachability.

Import Manager ValidatorFacts GraphFacts PairFacts ReachFacts.

(** X16. [detect_circular_dependencies] of validate-dependencies.py
    returns on the snapshot of any well-formed registry, and a pair of
    stacks is reported, in one order or the other, exactly when the two
    stacks are different and each reaches the other along declared
    dependencies. *)
Theorem pairs_are_mutual_reachability (m : registry) (set_order : pyset -> pyset) :
  registry_ok m ->
  (forall s, Permutation (set_order s) s) ->
  exists pairs,
    DependencyValidator.detect_circular_dependencies set_order (export_configuration m)
    = Ok (map pair_cycle pairs) /\
    forall a b, In (a, b) pairs \/ In (b, a) pairs <-> mutual (dependencies m) a b.
Proof.
  intros (_ & Hkeys & _) Hperm. destruct m as [so deps].
  apply (@pair_detect_spec deps Hkeys set_order Hperm so).
Qed.

End MutualReachability.

Section MutualWitness.

Import Manager ValidatorFacts GraphFacts PairFacts ReachFacts.

Lemma pairs_are_mutual_reachability_witness :
  exists pairs,
    DependencyValidator.detect_circular_dependencies (fun s => s)
      (export_configuration triangle)
    = Ok (map pair_cycle pairs) /\
    forall a b, In (a, b) pairs \/ In (b, a) pairs <-> mutual (dependencies triangle) a b.
Proof.
  apply (@pairs_are_mutual_reachability triangle (fun s => s) triangle_ok
           (fun s => Permutation_refl s)).
Defined.

End MutualWitness.

(* ================================================================== *)
(** * Naming: the two validators compared *)
(* ================================================================== *)

Section Naming.

Import ConfigValidator ValidatorFacts RunFacts NamingFacts.
Import DependencyValidator.

Lemma ofor_each_app {A S} (l1 l2 : list A) (body : A -> S -> outcome S) (s : S) :
  ofor_each (l1 ++ l2) body s = obind (ofor_each l1 body s) (ofor_each l2 body).
Proof.
  revert s. induction l1 as [ | a l1 IH ]; intros s; simpl; [ reflexivity | ].
  destruct (body a s); simpl; auto.
Qed.

(** The loop over the required fields, once it has returned [True]. *)
Lemma fields_present (fields : list string) (mk : string -> message) (d : dict Py.value)
    (valid : bool) (self self' : validator) :
  for_each fields
    (fun field valid =>
       bind (lift (py_in (VStr field) (VDict d))) (fun present =>
       if negb present
       then bind (add_error (mk field)) (fun _ => ret false)
       else ret valid))
    valid self
  = Ok (true, self') ->
  valid = true /\ self' = self /\ forall f, In f fields -> has_key f d = true.
Proof.
  revert valid self. induction fields as [ | f fields IH ]; intros valid self.
  - simpl. intros H. inversion H; subst. split; [ reflexivity | ].
    split; [ reflexivity | intros f [] ].
  - cbn [for_each]. unfold bind at 1. unfold bind at 1.
    cbn [py_in hashable lift of_result].
    destruct (has_key f d) eqn:E; cbn [negb].
    + unfold ret at 1. intros H. destruct (IH _ _ H) as (H1 & H2 & H3).
      split; [ exact H1 | ]. split; [ exact H2 | ].
      intros f' [ <- | I ]; auto.
    + unfold bind at 1. unfold add_error at 1. unfold ret at 1. intros H.
      destruct (IH _ _ H) as (H1 & _). discriminate.
Qed.

Lemma validate_output_agrees (stack_name : string) (i : nat) (output : Py.value)
    (valid : bool) (self self' : validator) (issues : list issue) :
  validate_output stack_name (i, output) valid self = Ok (true, self') ->
  valid = true /\
  exists new,
    check_naming stack_name output issues = Ok (issues ++ new) /\
    errors self' = errors self /\
    warnings self' = warnings self ++ map as_warning new.
Proof.
  unfold validate_output, check_naming.
  destruct output as [ | b | n | s | l | d ]; try discriminate.
  cbn [is_dict negb]. intros H.
  apply bind_Ok in H. destruct H as (v & s1 & Hf & H).
  apply bind_Ok in H. destruct H as (export_name & s1' & L & H).
  apply lift_Ok in L. destruct L as [L ->].
  apply bind_Ok in H. destruct H as ([] & s2 & Hw & H).
  inversion H; subst. clear H.
  destruct (fields_present _ _ _ _ _ _ Hf) as (-> & -> & Hp).
  split; [ reflexivity | ].
  rewrite L. cbn [obind].
  destruct (truthy export_name); cbn [negb].
  2:{ inversion Hw; subst. exists []. rewrite !app_nil_r. auto. }
  apply bind_Ok in Hw. destruct Hw as (broken & s3 & L2 & Hw).
  apply lift_Ok in L2. destruct L2 as [-> ->]. cbn [obind].
  destruct broken.
  2:{ inversion Hw; subst. exists []. rewrite !app_nil_r. auto. }
  apply bind_Ok in Hw. destruct Hw as (output_name & s4 & L3 & Hw).
  apply lift_Ok in L3. destruct L3 as [L3 ->].
  inversion Hw; subst. clear Hw.
  assert (N : has_key "name" d = true) by (apply Hp; simpl; auto).
  unfold has_key in N. unfold py_get in L3. unfold py_getitem.
  destruct (lookup "name" d) as [ w | ]; [ | discriminate ].
  inversion L3; subst. cbn [of_result obind].
  exists [NamingIssue stack_name output_name export_name]. auto.
Qed.

Lemma outputs_agree (stack_name : string) (l : list Py.value) :
  forall (n : nat) (valid : bool) (self self' : validator) (issues : list issue),
    for_each (combine (seq n (List.length l)) l) (validate_output stack_name) valid self
    = Ok (true, self') ->
    valid = true /\
    exists new,
      ofor_each l (check_naming stack_name) issues = Ok (issues ++ new) /\
      errors self' = errors self /\
      warnings self' = warnings self ++ map as_warning new.
Proof.
  induction l as [ | output l IH ]; intros n valid self self' issues.
  - simpl. intros H. inversion H; subst. split; [ reflexivity | ].
    exists []. rewrite !app_nil_r. auto.
  - cbn [List.length seq combine for_each ofor_each]. intros H.
    apply bind_Ok in H. destruct H as (v & s1 & H1 & H2).
    assert (V : v = true).
    { destruct (tracks_for_each id _ (validate_output stack_name)
                  (fun a s => tracks_validate_output stack_name a s) v _ _ _ H2)
        as (es & ws & _ & F).
      unfold id in F. destruct v; [ reflexivity | discriminate ]. }
    subst v.
    destruct (@validate_output_agrees stack_name n output valid self s1 issues H1)
      as (-> & new1 & R1 & E1 & W1).
    split; [ reflexivity | ].
    destruct (IH (S n) true s1 self' (issues ++ new1) H2) as (_ & new2 & R2 & E2 & W2).
    exists (new1 ++ new2). rewrite R1. cbn [obind]. rewrite R2.
    rewrite app_assoc. split; [ reflexivity | ].
    split; [ congruence | ]. rewrite W2, W1, map_app, app_assoc. reflexivity.
Qed.

Lemma stacks_agree (items : list (string * Py.value)) :
  forall (valid : bool) (self self' : validator) (issues : list issue),
    for_each items
      (fun '(stack_name, outputs) valid =>
         match outputs with
         | VList l => for_each (enumerate l) (validate_output stack_name) valid
         | _ => bind (add_error (OutputsNotList stack_name)) (fun _ => ret false)
         end)
      valid self
    = Ok (true, self') ->
    exists new,
      ofor_each items
        (fun '(stack_name, outputs) issues =>
           obind (py_iter outputs) (fun l => ofor_each l (check_naming stack_name) issues))
        issues
      = Ok (issues ++ new) /\
      warnings self' = warnings self ++ map as_warning new.
Proof.
  induction items as [ | [stack_name outputs] items IH ]; intros valid self self' issues.
  - simpl. intros H. inversion H; subst. exists []. rewrite !app_nil_r. auto.
  - cbn [for_each ofor_each]. intros H.
    apply bind_Ok in H. destruct H as (v & s1 & H1 & H2).
    assert (V : v = true).
    { assert (T : tracks id
                    (for_each items
                       (fun '(stack_name, outputs) valid =>
                          match outputs with
                          | VList l => for_each (enumerate l) (validate_output stack_name) valid
                          | _ => bind (add_error (OutputsNotList stack_name))
                                   (fun _ => ret false)
                          end) v) v).
      { apply (tracks_for_each id). intros [sn outs] v0.
        destruct outs; try (apply (tracks_error id); reflexivity).
        apply (tracks_for_each id). intros entry v'. apply tracks_validate_output. }
      destruct (T _ _ _ H2) as (es & ws & _ & F).
      unfold id in F. destruct v; [ reflexivity | discriminate ]. }
    subst v.
    destruct outputs as [ | b | n | s | l | d ]; try discriminate.
    destruct (@outputs_agree stack_name l 0 valid self s1 issues H1)
      as (_ & new1 & R1 & _ & W1).
    cbn [py_iter of_result obind]. rewrite R1. cbn [obind].
    destruct (IH true s1 self' (issues ++ new1) H2) as (new2 & R2 & W2).
    exists (new1 ++ new2). rewrite R2, app_assoc. split; [ reflexivity | ].
    rewrite W2, W1, map_app, app_assoc. reflexivity.
Qed.

(** X17. The two validators agree on naming: when
    [validate_stack_outputs] of validate-config.py accepts the
    ['stack_outputs'] section of a configuration, then
    [validate_export_naming_consistency] of validate-dependencies.py
    returns on that configuration, and its issues are, one for one and in
    the same order, the naming warnings that validate-config.py added. *)
Theorem naming_issues_agree
    (config : dict Py.value) (stack_outputs : Py.value) (self self' : validator) :
  lookup "stack_outputs" config = Some stack_outputs ->
  validate_stack_outputs stack_outputs self = Ok (true, self') ->
  exists issues,
    validate_export_naming_consistency (VDict config) = Ok issues /\
    warnings self' = warnings self ++ map as_warning issues.
Proof.
  intros Hso H.
  unfold validate_export_naming_consistency, py_get. rewrite Hso. cbn [of_result obind].
  unfold validate_stack_outputs in H.
  apply bind_Ok in H. destruct H as (items & s1 & L & H).
  apply lift_Ok in L. destruct L as [L ->].
  destruct (py_items stack_outputs) as [ items' | ]; try discriminate.
  inversion L; subst. cbn [of_result obind].
  destruct (@stacks_agree _ true self self' [] H) as (new & R & W).
  exists new. split; [ exact R | exact W ].
Qed.

Lemma check_naming_nameless (stack_name : string) (d : dict Py.value) (e : string)
    (issues : list issue) :
  lookup "name" d = None ->
  lookup "export_name" d = Some (VStr e) ->
  e <> "" ->
  follows_convention e = false ->
  check_naming stack_name (VDict d) issues = Raise KeyError.
Proof.
  intros Hn He Hne Hc. unfold check_naming, py_get, py_getitem. rewrite He, Hn.
  cbn [of_result obind truthy]. apply String.eqb_neq in Hne. rewrite Hne. cbn [negb].
  rewrite breaks_convention_str, Hc. reflexivity.
Qed.

(** X18. An output without ['name'] whose export name breaks the naming
    convention: [validate_export_naming_consistency] of
    validate-dependencies.py raises [KeyError] when it reaches it (the
    message reads [output['name']]), where [validate_output] of
    validate-config.py returns with the error about the missing field and
    a warning that names the output ['unknown']. *)
Theorem nameless_output_raises
    (config pre post : dict Py.value) (stack_name : string) (l1 l2 : list Py.value)
    (d : dict Py.value) (e : string) (issues : list issue) :
  lookup "stack_outputs" config
  = Some (VDict (pre ++ (stack_name, VList (l1 ++ VDict d :: l2)) :: post)) ->
  validate_export_naming_consistency
    (VDict [("stack_outputs", VDict (pre ++ [(stack_name, VList l1)]))])
  = Ok issues ->
  lookup "name" d = None ->
  lookup "export_name" d = Some (VStr e) ->
  e <> "" ->
  follows_convention e = false ->
  validate_export_naming_consistency (VDict config) = Raise KeyError /\
  forall valid self,
  exists es,
    validate_output stack_name (List.length l1, VDict d) valid self
    = Ok (false,
          mkValidator
            (errors self ++ OutputMissingField stack_name (List.length l1) "name" :: es)
            (warnings self ++ [NamingConvention stack_name (VStr "unknown") (VStr e)])).
Proof.
  intros Hso Hpre Hn He Hne Hc. split.
  - unfold validate_export_naming_consistency, py_get in *. rewrite Hso.
    cbn [lookup String.eqb Ascii.eqb Bool.eqb of_result obind py_items] in *.
    rewrite ofor_each_app in Hpre. rewrite ofor_each_app.
    destruct (ofor_each pre _ []) as [ i1 | | ]; cbn [obind] in *; try discriminate.
    cbn [ofor_each py_iter of_result obind] in *.
    rewrite ofor_each_app.
    destruct (ofor_each l1 (check_naming stack_name) i1) as [ i2 | | ];
      cbn [obind] in *; try discriminate.
    cbn [ofor_each]. rewrite (@check_naming_nameless stack_name d e i2 Hn He Hne Hc).
    reflexivity.
  - intros valid self. unfold validate_output. cbn [is_dict negb for_each].
    unfold py_get. cbn [py_in hashable]. unfold has_key. rewrite Hn, He.
    destruct self as [es ws].
    apply String.eqb_neq in Hne.
    destruct (lookup "description" d), (lookup "value" d);
      cbn [bind lift of_result negb add_error ret errors warnings truthy];
      rewrite Hne; cbn [negb]; rewrite breaks_convention_str, Hc;
      cbn [bind lift of_result negb add_error add_warning ret errors warnings];
      rewrite <- ?app_assoc; eexists; reflexivity.
Qed.

End Naming.

Section NamingWitnesses.

Import ConfigValidator ValidatorFacts NamingFacts MoreExamples.
Import DependencyValidator.

Lemma naming_issues_agree_witness :
  validate_stack_outputs
    (outputs_section (Manager.stack_outputs Examples.two_colliding)) (mkValidator [] [])
  = Ok (true,
        mkValidator []
          [NamingConvention "stack-a" (VStr "VpcId") (VStr "proj-dev-VPC-ID");
           NamingConvention "stack-b" (VStr "VpcId") (VStr "proj-dev-VPC-ID")]) /\
  exists issues,
    validate_export_naming_consistency (VDict plain_exports) = Ok issues /\
    [NamingConvention "stack-a" (VStr "VpcId") (VStr "proj-dev-VPC-ID");
     NamingConvention "stack-b" (VStr "VpcId") (VStr "proj-dev-VPC-ID")]
    = [] ++ map as_warning issues.
Proof.
  split; [ reflexivity | ].
  apply (@naming_issues_agree plain_exports
           (outputs_section (Manager.stack_outputs Examples.two_colliding))
           (mkValidator [] [])
           (mkValidator []
              [NamingConvention "stack-a" (VStr "VpcId") (VStr "proj-dev-VPC-ID");
               NamingConvention "stack-b" (VStr "VpcId") (VStr "proj-dev-VPC-ID")]));
    reflexivity.
Defined.

Lemma nameless_output_raises_witness :
  validate_export_naming_consistency
    (VDict [("stack_outputs", VDict [("net", VList [VDict nameless])])])
  = Raise KeyError /\
  forall valid self,
  exists es,
    validate_output "net" (0, VDict nameless) valid self
    = Ok (false,
          mkValidator (errors self ++ OutputMissingField "net" 0 "name" :: es)
            (warnings self ++ [NamingConvention "net" (VStr "unknown") (VStr "plain")])).
Proof.
  apply (@nameless_output_raises
           [("stack_outputs", VDict [("net", VList [VDict nameless])])]
           [] [] "net" [] [] nameless "plain" []);
    [ reflexivity | reflexivity | reflexivity | reflexivity | discriminate | reflexivity ].
Defined.

End NamingWitnesses.

(* ================================================================== *)
(** * The orchestrator: exit code and skipped parameters *)
(* ================================================================== *)

Section ExitCode.

Import CloudFormationValidator Orchestrator OrchestratorFacts ExitFacts.

Variable load_parameters : string -> result Py.value.
Variable load_template : string -> result Py.value.
Variable validate_template :
  string -> Py.value -> result (bool * list ValidationIssue).
Variable validate_json_config_schema : Py.value -> string -> result (list string).
Variable validate_config_consistency : Py.value -> result (list string).
Variable validate_parameters :
  Py.value -> Py.value -> result (list ParameterValidator.ParameterValidationResult).
Variable validate_cloudformation_template : string -> result (bool * list string).
Variable str_of : exn -> string.
Variable now : string.

Lemma isolated_valid (attempt : result pass_result) (r : pass_result) :
  isolated attempt r -> (is_valid r = true <-> succeeded attempt).
Proof.
  unfold isolated, succeeded. destruct attempt as [ r' | e ].
  - intros ->. split; [ eauto | intros (r & E & V); inversion E; subst; exact V ].
  - intros (_ & V & _). rewrite V. split; [ discriminate | intros (r' & E & _); discriminate ].
Qed.

(** X19. The exit code that [main] of the orchestrator computes from
    the summary of a run: it is 0 or 1; it is 1 exactly when the overall
    status is [FAIL]; and it is 0 exactly when the syntax pass and the
    Well-Architected pass returned a valid result and, if a parameter file
    was given, the parameter pass did too. *)
Theorem exit_code_by_passes (tp : string) (pp cp : option string) :
  let sm :=
    run_comprehensive_validation load_parameters load_template validate_template
      validate_json_config_schema validate_config_consistency validate_parameters
      validate_cloudformation_template str_of now tp pp cp in
  (exit_code sm = 0 \/ exit_code sm = 1) /\
  (exit_code sm = 1 <-> overall_status sm = FAIL) /\
  (exit_code sm = 0 <->
   succeeded (syntax_try load_parameters validate_template tp pp) /\
   (given pp = true ->
    succeeded (parameter_try load_parameters load_template validate_json_config_schema
                 validate_config_consistency validate_parameters tp pp cp)) /\
   succeeded (well_architected_try validate_cloudformation_template tp)).
Proof.
  cbv zeta.
  assert (S1 : is_valid (_run_syntax_validation load_parameters validate_template str_of tp pp)
               = true
               <-> succeeded (syntax_try load_parameters validate_template tp pp)).
  { apply isolated_valid. unfold _run_syntax_validation, isolated.
    destruct (syntax_try _ _ tp pp); simpl; auto. }
  assert (S2 : is_valid (_run_parameter_validation load_parameters load_template
                           validate_json_config_schema validate_config_consistency
                           validate_parameters str_of tp pp cp) = true
               <-> (given pp = true ->
                    succeeded (parameter_try load_parameters load_template
                                 validate_json_config_schema validate_config_consistency
                                 validate_parameters tp pp cp))).
  { unfold _run_parameter_validation. destruct (given pp); cbn [negb].
    - rewrite (@isolated_valid (parameter_try load_parameters load_template
                                  validate_json_config_schema validate_config_consistency
                                  validate_parameters tp pp cp)).
      + tauto.
      + unfold isolated. destruct (parameter_try _ _ _ _ _ tp pp cp); simpl; auto.
    - simpl. split; [ discriminate | reflexivity ]. }
  assert (S3 : is_valid (_run_well_architected_validation validate_cloudformation_template
                           str_of tp) = true
               <-> succeeded (well_architected_try validate_cloudformation_template tp)).
  { apply isolated_valid. unfold _run_well_architected_validation, isolated.
    destruct (well_architected_try _ tp); simpl; auto. }
  rewrite <- S1, <- S2, <- S3.
  unfold exit_code, run_comprehensive_validation, _create_validation_summary.
  cbn [overall_status].
  destruct (is_valid (_run_syntax_validation _ _ _ tp pp));
    destruct (is_valid (_run_parameter_validation _ _ _ _ _ _ tp pp cp));
    destruct (is_valid (_run_well_architected_validation _ _ tp));
    cbn [andb];
    try destruct (_ || _);
    (split; [ auto | split; split; intros H; try discriminate; try reflexivity;
                     try (destruct H as (? & ? & ?); discriminate); auto ]).
Qed.

End ExitCode.

Section SkippedParameters.

Import CloudFormationValidator Orchestrator OrchestratorFacts.

(** X20. Without a parameter file (none, or the empty path) the
    orchestrator never calls the parameter loader, the template loader,
    the two configuration checks or the parameter validator, and never
    looks at the configuration path: the summary is the same whatever they
    are. The parameter pass is then [SKIPPED] with no result, and the
    syntax pass validates the template with [None] as parameter values. *)
Theorem skipped_parameters_never_read
    (load_parameters load_parameters' : string -> result Py.value)
    (load_template load_template' : string -> result Py.value)
    (validate_template : string -> Py.value -> result (bool * list ValidationIssue))
    (validate_json_config_schema validate_json_config_schema' :
       Py.value -> string -> result (list string))
    (validate_config_consistency validate_config_consistency' :
       Py.value -> result (list string))
    (validate_parameters validate_parameters' :
       Py.value -> Py.value -> result (list ParameterValidator.ParameterValidationResult))
    (validate_cloudformation_template : string -> result (bool * list string))
    (str_of : exn -> string) (now : string)
    (tp : string) (pp cp cp' : option string) :
  given pp = false ->
  let sm :=
    run_comprehensive_validation load_parameters load_template validate_template
      validate_json_config_schema validate_config_consistency validate_parameters
      validate_cloudformation_template str_of now tp pp cp in
  sm = run_comprehensive_validation load_parameters' load_template' validate_template
         validate_json_config_schema' validate_config_consistency' validate_parameters'
         validate_cloudformation_template str_of now tp pp cp' /\
  parameter_validation sm = mkPass SKIPPED true (Results [] []) 0 0 None /\
  syntax_try load_parameters validate_template tp pp
  = rbind (validate_template tp VNone) (fun '(is_valid, issues) =>
      Return (mkPass (if (is_valid : bool) then PASS else FAIL) is_valid (Issues issues)
                (count_severity "error" issues) (count_severity "warning" issues)
                (Some (count_severity "info" issues)))).
Proof.
  intros G. cbv zeta.
  unfold run_comprehensive_validation, _run_parameter_validation, _run_syntax_validation,
    syntax_try.
  rewrite G. cbn [negb rbind]. repeat split.
Qed.

End SkippedParameters.

Section SkippedWitness.

Import Orchestrator.

Lemma skipped_parameters_never_read_witness :
  run_comprehensive_validation
    (fun _ => Throw KeyError) (fun _ => Throw KeyError) (fun _ _ => Return (true, []))
    (fun _ _ => Throw KeyError) (fun _ => Throw KeyError) (fun _ _ => Throw KeyError)
    (fun _ => Return (true, [])) (fun _ => "") "2024-01-01T00:00:00" "template.yaml"
    None (Some "config.json")
  = run_comprehensive_validation
      (fun _ => Return VNone) (fun _ => Return VNone) (fun _ _ => Return (true, []))
      (fun _ _ => Return []) (fun _ => Return []) (fun _ _ => Return [])
      (fun _ => Return (true, [])) (fun _ => "") "2024-01-01T00:00:00" "template.yaml"
      None None.
Proof.
  apply (proj1 (@skipped_parameters_never_read
                  (fun _ => Throw KeyError) (fun _ => Return VNone)
                  (fun _ => Throw KeyError) (fun _ => Return VNone)
                  (fun _ _ => Return (true, []))
                  (fun _ _ => Throw KeyError) (fun _ _ => Return [])
                  (fun _ => Throw KeyError) (fun _ => Return [])
                  (fun _ _ => Throw KeyError) (fun _ _ => Return [])
                  (fun _ => Return (true, [])) (fun _ => "") "2024-01-01T00:00:00"
                  "template.yaml" None (Some "config.json") None eq_refl)).
Defined.

End SkippedWitness.

(* ================================================================== *)
(** * The compliance pass *)
(* ================================================================== *)

Section Compliance.

Import WellArchitectedValidator ComplianceFacts.

Variable compliance_data : Py.value.
Variable py_str : Py.value -> string.
Variable str_of : exn -> string.
Variable read_template : string -> result Py.value.

(** What the loops keep true of [is_valid] and [messages]. *)
Let kept (st : bool * list string) : Prop :=
  forallb counted_once (snd st) = true /\
  fst st = negb (existsb invalidating (snd st)).

Lemma kept_append (is_valid : bool) (messages : list string) (m : string) (is_valid' : bool) :
  kept (is_valid, messages) ->
  counted_once m = true ->
  is_valid' = is_valid && negb (invalidating m) ->
  kept (is_valid', messages ++ [m]).
Proof.
  unfold kept. cbn [fst snd]. intros [H1 H2] Hm ->.
  rewrite forallb_app, existsb_app, H1, H2. cbn [forallb existsb]. rewrite Hm.
  split; [ reflexivity | ].
  rewrite orb_false_r, negb_orb. reflexivity.
Qed.

Lemma rfor_each_keeps {A S} (P : S -> Prop) (body : A -> S -> result S) (l : list A) :
  (forall a s r, body a s = Return r -> P s -> P r) ->
  forall s r, rfor_each l body s = Return r -> P s -> P r.
Proof.
  intros Hb. induction l as [ | a l IH ]; intros s r; simpl.
  - intros H. inversion H; subst. auto.
  - destruct (body a s) as [ s1 | e ] eqn:E; simpl; [ | discriminate ].
    intros H Hs. apply (IH _ _ H). apply (Hb _ _ _ E Hs).
Qed.

Lemma prefix_append (p x : string) : String.prefix p (p ++ x) = true.
Proof.
  induction p as [ | c p IH ]; simpl; [ destruct x; reflexivity | ].
  destruct (Ascii.ascii_dec c c); [ exact IH | congruence ].
Qed.

Lemma practice_message (x : string) :
  invalidating ("Warning: Unknown best practice '" ++ x) = true.
Proof. unfold invalidating. rewrite prefix_append. apply orb_true_r. Qed.

Lemma check_practice_keeps (pillar_name : string) (valid_practices practice : Py.value)
    (st r : bool * list string) :
  check_practice py_str pillar_name valid_practices practice st = Return r ->
  kept st -> kept r.
Proof.
  destruct st as [is_valid messages]. unfold check_practice.
  destruct (py_in practice valid_practices) as [ known | e ]; cbn [rbind]; [ | discriminate ].
  destruct known; cbn [negb].
  - destruct (py_index valid_practices practice) as [ text | e ]; cbn [rbind];
      [ | discriminate ].
    intros H K. injection H as <-.
    eapply kept_append; [ exact K | reflexivity | ].
    rewrite andb_true_r. reflexivity.
  - intros H K. injection H as <-.
    eapply kept_append; [ exact K | reflexivity | ].
    symmetry. apply andb_false_intro2. apply negb_false_iff.
    exact (practice_message (py_str practice ++ "' in pillar '" ++ pillar_name ++ "'")).
Qed.

Lemma check_pillar_keeps (pillars : Py.value) (entry : string * Py.value)
    (st r : bool * list string) :
  check_pillar py_str pillars entry st = Return r -> kept st -> kept r.
Proof.
  destruct entry as [pillar_name practices]. destruct st as [is_valid messages].
  unfold check_pillar.
  destruct (py_in (VStr pillar_name) pillars) as [ known | e ]; cbn [rbind]; [ | discriminate ].
  destruct known; cbn [negb].
  - destruct (py_index pillars (VStr pillar_name)) as [ pillar_data | e ]; cbn [rbind];
      [ | discriminate ].
    destruct (py_get pillar_data "bestPractices" (VDict [])) as [ valid_practices | e ];
      cbn [rbind]; [ | discriminate ].
    destruct (py_iter practices) as [ l | e ]; cbn [rbind]; [ | discriminate ].
    apply rfor_each_keeps. intros a s r'. apply check_practice_keeps.
  - intros H K. injection H as <-.
    eapply kept_append; [ exact K | reflexivity | ].
    rewrite andb_true_r. reflexivity.
Qed.

Lemma metadata_keeps (metadata : Py.value) (r : bool * list string) :
  validate_template_metadata compliance_data py_str metadata = Return r -> kept r.
Proof.
  unfold validate_template_metadata.
  destruct (py_in (VStr "wellArchitectedCompliance") metadata) as [ present | e ];
    cbn [rbind]; [ | discriminate ].
  destruct present; cbn [negb].
  - destruct (py_getitem metadata "wellArchitectedCompliance") as [ compliance | e ];
      cbn [rbind]; [ | discriminate ].
    destruct (py_get compliance_data "wellArchitectedFramework" (VDict [])) as [ framework | e ];
      cbn [rbind]; [ | discriminate ].
    destruct (py_get framework "pillars" (VDict [])) as [ pillars | e ];
      cbn [rbind]; [ | discriminate ].
    destruct (py_items compliance) as [ items | e ]; cbn [rbind]; [ | discriminate ].
    intros H.
    apply (@rfor_each_keeps _ _ kept (check_pillar py_str pillars) items
             (fun a s r' => @check_pillar_keeps pillars a s r') _ _ H).
    split; reflexivity.
  - intros H. inversion H; subst. split; reflexivity.
Qed.

Lemma prefix_of_prefix (p q m : string) :
  String.prefix (p ++ q) m = true -> String.prefix p m = true.
Proof.
  revert m. induction p as [ | c p IH ]; intros m H.
  - destruct m; reflexivity.
  - destruct m as [ | c' m ]; simpl in *; [ discriminate | ].
    destruct (Ascii.ascii_dec c c'); [ apply IH, H | discriminate ].
Qed.

Lemma validate_template_kept (template_path : string) :
  kept (validate_cloudformation_template compliance_data py_str str_of read_template
          template_path).
Proof.
  unfold validate_cloudformation_template.
  destruct (template_try compliance_data py_str read_template template_path)
    as [ r | e ] eqn:E.
  - unfold template_try in E.
    destruct (read_template template_path) as [ template | e ]; cbn [rbind] in E;
      [ | discriminate ].
    destruct (py_in (VStr "Metadata") template) as [ present | e ]; cbn [rbind] in E;
      [ | discriminate ].
    destruct present; cbn [negb] in E.
    + destruct (py_getitem template "Metadata") as [ metadata | e ]; cbn [rbind] in E;
        [ | discriminate ].
      apply (@metadata_keeps metadata r E).
    + inversion E; subst. split; reflexivity.
  - split; [ reflexivity | ].
    cbn [fst snd existsb]. unfold invalidating. rewrite prefix_append. reflexivity.
Qed.

(** X21. The verdict of [validate_cloudformation_template] can be read
    off its messages: it is [False] exactly when one of them is the read
    error, one of the two warnings about missing metadata, or a warning
    about an unknown best practice (a warning about an unknown pillar
    leaves it [True]); and every message starts with exactly one of
    ['Error'], ['Warning'] and the tick. *)
Theorem verdict_by_messages (template_path : string) :
  let r :=
    validate_cloudformation_template compliance_data py_str str_of read_template
      template_path in
  forallb counted_once (snd r) = true /\
  fst r = negb (existsb invalidating (snd r)).
Proof.
  cbv zeta. destruct (validate_template_kept template_path) as [Hc Hv].
  split; [ exact Hc | exact Hv ].
Qed.

Lemma invalidating_flagged (m : string) :
  invalidating m = true -> String.prefix "Error" m || String.prefix "Warning" m = true.
Proof.
  unfold invalidating. intros H.
  apply orb_true_iff in H. destruct H as [ H | H ].
  apply orb_true_iff in H. destruct H as [ H | H ].
  apply orb_true_iff in H. destruct H as [ H | H ].
  - rewrite (prefix_of_prefix "Error" " reading template: " m H). reflexivity.
  - apply String.eqb_eq in H. subst m. reflexivity.
  - apply String.eqb_eq in H. subst m. reflexivity.
  - rewrite (prefix_of_prefix "Warning" ": Unknown best practice '" m H).
    apply orb_true_r.
Qed.

Lemma counted_once_partition (ms : list string) :
  forallb counted_once ms = true ->
  List.length (filter (String.prefix "Error") ms)
  + List.length (filter (String.prefix "Warning") ms)
  + List.length (filter (String.prefix "✓") ms)
  = List.length ms.
Proof.
  induction ms as [ | m ms IH ]; [ reflexivity | ].
  cbn [forallb filter]. intros H. apply andb_true_iff in H. destruct H as [Hm H].
  specialize (IH H). unfold counted_once in Hm.
  destruct (String.prefix "Error" m), (String.prefix "Warning" m), (String.prefix "✓" m);
    try discriminate; cbn [List.length]; lia.
Qed.

Lemma flagged_counted (ms : list string) :
  existsb invalidating ms = true ->
  1 <= List.length (filter (String.prefix "Error") ms)
       + List.length (filter (String.prefix "Warning") ms).
Proof.
  induction ms as [ | m ms IH ]; [ discriminate | ].
  cbn [existsb filter]. intros H. apply orb_true_iff in H. destruct H as [ H | H ].
  - apply invalidating_flagged in H.
    destruct (String.prefix "Error" m), (String.prefix "Warning" m);
      try discriminate; cbn [List.length]; lia.
  - specialize (IH H).
    destruct (String.prefix "Error" m), (String.prefix "Warning" m);
      cbn [List.length]; lia.
Qed.

(** X22. The Well-Architected pass of the orchestrator, run with the
    validator of well-architected-validator.py: its diagnostics are the
    validator's messages, its three counts add up to
    the number of messages, its status is [PASS] or [FAIL] as the validator
    says, and a [FAIL] always comes with at least one counted error or
    warning. *)
Theorem well_architected_pass_counts (str_of' : exn -> string) (template_path : string) :
  let validate :=
    validate_cloudformation_template compliance_data py_str str_of read_template in
  let r :=
    Orchestrator._run_well_architected_validation
      (fun path => Return (validate path)) str_of' template_path in
  Orchestrator.found r = Orchestrator.Messages (snd (validate template_path)) /\
  Orchestrator.status r
  = (if fst (validate template_path) then Orchestrator.PASS else Orchestrator.FAIL) /\
  Orchestrator.error_count r + Orchestrator.warning_count r + Orchestrator.get_info_count r
  = List.length (snd (validate template_path)) /\
  (Orchestrator.status r = Orchestrator.FAIL ->
   1 <= Orchestrator.error_count r + Orchestrator.warning_count r).
Proof.
  cbv zeta.
  destruct (validate_template_kept template_path) as [Hc Hv].
  unfold Orchestrator._run_well_architected_validation, Orchestrator.well_architected_try.
  cbn [rbind].
  destruct (validate_cloudformation_template compliance_data py_str str_of read_template
              template_path) as [ok ms].
  cbn [fst snd] in *.
  cbn [Orchestrator.found Orchestrator.status Orchestrator.error_count
       Orchestrator.warning_count Orchestrator.get_info_count Orchestrator.info_count].
  unfold Orchestrator.count_prefix.
  split; [ reflexivity | ]. split; [ destruct ok; reflexivity | ].
  split; [ apply counted_once_partition, Hc | ].
  intros F. apply flagged_counted.
  destruct ok; [ discriminate | ].
  destruct (existsb invalidating ms); [ reflexivity | discriminate ].
Qed.

End Compliance.

Section UnloadedCompliance.

Import WellArchitectedValidator ComplianceFacts.

Variable py_str : Py.value -> string.
Variable str_of : exn -> string.
Variable read_template : string -> result Py.value.

Lemma unknown_pillars (items : list (string * Py.value)) (is_valid : bool)
    (messages : list string) :
  rfor_each items (check_pillar py_str (VDict [])) (is_valid, messages)
  = Return (is_valid, messages ++ map unknown_pillar (keys items)).
Proof.
  revert messages. induction items as [ | [pillar_name practices] items IH ];
    intros messages.
  - simpl. rewrite app_nil_r. reflexivity.
  - cbn [rfor_each check_pillar py_in hashable has_key lookup rbind negb keys map fst].
    unfold keys in IH. rewrite IH. rewrite <- app_assoc. reflexivity.
Qed.

(** X23. When the compliance data has no ['wellArchitectedFramework']
    entry (the file could not be loaded), a template whose metadata
    carries compliance information is accepted: the result is [True], with
    one warning per pillar of the template and nothing else, whatever
    practices the template lists. *)
Theorem unloaded_compliance_data_passes
    (compliance_data template metadata compliance : dict Py.value) (template_path : string) :
  lookup "wellArchitectedFramework" compliance_data = None ->
  read_template template_path = Return (VDict template) ->
  lookup "Metadata" template = Some (VDict metadata) ->
  lookup "wellArchitectedCompliance" metadata = Some (VDict compliance) ->
  validate_cloudformation_template (VDict compliance_data) py_str str_of read_template
    template_path
  = (true, map unknown_pillar (keys compliance)).
Proof.
  intros Hf Hr Hm Hc.
  unfold validate_cloudformation_template, template_try, validate_template_metadata.
  rewrite Hr. cbn [rbind py_in hashable py_getitem].
  unfold has_key at 1. rewrite Hm. cbn [negb rbind py_in hashable py_getitem].
  unfold has_key at 1. rewrite Hc. cbn [negb rbind py_get].
  rewrite Hf. cbn [rbind lookup py_items].
  cbn [py_get lookup rbind]. rewrite unknown_pillars. reflexivity.
Qed.

End UnloadedCompliance.

Section ComplianceWitness.

Import WellArchitectedValidator MoreExamples.

Lemma unloaded_compliance_data_passes_witness :
  validate_cloudformation_template (VDict []) (fun _ => "") (fun _ => "")
    (fun _ => Return (VDict annotated_template)) "template.yaml"
  = (true, ["Warning: Unknown pillar 'security'"]).
Proof.
  apply (@unloaded_compliance_data_passes (fun _ => "") (fun _ => "")
           (fun _ => Return (VDict annotated_template))
           [] annotated_template
           [("wellArchitectedCompliance", VDict [("security", VList [VStr "SEC01"])])]
           [("security", VList [VStr "SEC01"])] "template.yaml");
    reflexivity.
Defined.

End ComplianceWitness.

(* ================================================================== *)
(** * The entry point of validate-config.py *)
(* ================================================================== *)

Section Main.

Import ConfigValidator ValidatorFacts RunFacts.

Variable set_order : pyset -> pyset.

(** X24. The exit code that [main] of validate-config.py computes once
    the configuration has been loaded: it is 0 or 1, and it is 0 exactly
    when the configuration is not empty and validation appended no error;
    an empty configuration gives 1 without any validation message. *)
Theorem main_exit_code (config : Py.value) (self self' : validator) (code : nat) :
  main set_order config self = Ok (code, self') ->
  exists new_errors new_warnings,
    self' = mkValidator (errors self ++ new_errors) (warnings self ++ new_warnings) /\
    (code = 0 \/ code = 1) /\
    (code = 0 <-> truthy config = true /\ new_errors = []) /\
    (truthy config = false -> new_errors = [] /\ new_warnings = []).
Proof.
  unfold main. destruct (truthy config); cbn [negb].
  - intros H. apply bind_Ok in H. destruct H as (valid & s1 & H1 & H2).
    inversion H2; subst. clear H2.
    destruct (@tracks_validate_all set_order config self valid self' H1)
      as (es & ws & X & F).
    exists es, ws. split; [ exact X | ].
    unfold id in F. rewrite F. cbn [andb].
    destruct es; cbn [is_nil].
    + split; [ auto | ]. split; [ | discriminate ]. split; auto.
    + split; [ auto | ]. split; [ | discriminate ].
      split; [ discriminate | intros [_ E]; discriminate ].
  - intros H. inversion H; subst. exists [], [].
    split; [ apply extends_refl | ]. split; [ auto | ].
    split; [ | auto ]. split; [ discriminate | intros [E _]; discriminate ].
Qed.

End Main.

Section MainWitness.

Import ConfigValidator MoreExamples.

Lemma main_exit_code_witness :
  main (fun s => s) lacking_required (mkValidator [] [])
  = Ok (1, mkValidator [DependencyMissingField "app" 0 "required_outputs"]
             [NoOutputDefinitions (VStr "net")]) /\
  exists new_errors new_warnings,
    mkValidator [DependencyMissingField "app" 0 "required_outputs"]
      [NoOutputDefinitions (VStr "net")]
    = mkValidator ([] ++ new_errors) ([] ++ new_warnings) /\
    (1 = 0 \/ 1 = 1) /\
    (1 = 0 <-> truthy lacking_required = true /\ new_errors = []) /\
    (truthy lacking_required = false -> new_errors = [] /\ new_warnings = []).
Proof.
  split; [ reflexivity | ].
  apply (@main_exit_code (fun s => s) lacking_required (mkValidator [] [])
           (mkValidator [DependencyMissingField "app" 0 "required_outputs"]
              [NoOutputDefinitions (VStr "net")]) 1).
  reflexivity.
Defined.

End MainWitness.

(* ================================================================== *)
(** * The parameter validator *)
(* ================================================================== *)

Section ParameterResults.

Import ParameterValidator ResultFacts.

Variable validate_parameter_type :
  string -> Py.value -> Py.value -> result ParameterValidationResult.
Variable validate_parameter_constraints :
  string -> Py.value -> Py.value -> result (list string).
Variable validate_aws_resource_ids : string -> Py.value -> string -> result (list string).

Let check :=
  check_parameter validate_parameter_type validate_parameter_constraints
    validate_aws_resource_ids.

Lemma check_parameter_adds (template_params : Py.value) (entry : string * Py.value)
    (acc res : list ParameterValidationResult) :
  check template_params entry acc = Ok res ->
  exists r, res = acc ++ [r] /\ consistent r /\
            (py_in (VStr (fst entry)) template_params = Return false ->
             r = undefined_parameter (fst entry) (snd entry)).
Proof.
  unfold check, check_parameter. destruct entry as [param_name param_value]. cbn [fst snd].
  destruct (py_in (VStr param_name) template_params) as [ known | e ];
    cbn [of_result obind]; [ | discriminate ].
  destruct known; cbn [negb].
  2:{ intros H. inversion H; subst. eexists. split; [ reflexivity | ].
      split; [ intros _; reflexivity | reflexivity ]. }
  destruct (py_index template_params (VStr param_name)) as [ param_config | e ];
    cbn [of_result obind]; [ | discriminate ].
  destruct (validate_parameter_type param_name param_value param_config) as [ result | e ];
    cbn [of_result obind]; [ | discriminate ].
  destruct (validate_parameter_constraints param_name param_value param_config)
    as [ constraint_errors | e ]; cbn [of_result obind]; [ | discriminate ].
  destruct (py_get param_config "Type" (VStr "String")) as [ param_type | e ];
    cbn [of_result obind]; [ | discriminate ].
  match goal with
  | |- obind ?m _ = _ -> _ => destruct m as [ errors2 | e | ]
  end; cbn [obind]; try discriminate.
  intros H. inversion H; subst. eexists. split; [ reflexivity | ]. split.
  - unfold consistent. cbn [errors is_valid]. destruct errors2; [ congruence | reflexivity ].
  - discriminate.
Qed.

Lemma provided_loop (template_params : Py.value) (given : dict Py.value) :
  forall acc res,
    ConfigValidator.ofor_each given (check template_params) acc = Ok res ->
    exists checked,
      res = acc ++ checked /\
      List.length checked = List.length given /\
      Forall consistent checked /\
      (forall i name value,
         nth_error given i = Some (name, value) ->
         py_in (VStr name) template_params = Return false ->
         nth_error checked i = Some (undefined_parameter name value)).
Proof.
  induction given as [ | entry given IH ]; intros acc res.
  - simpl. intros H. inversion H; subst. exists []. rewrite app_nil_r.
    split; [ reflexivity | ]. split; [ reflexivity | ]. split; [ constructor | ].
    intros [ | i ]; discriminate.
  - cbn [ConfigValidator.ofor_each].
    destruct (check template_params entry acc) as [ acc1 | | ] eqn:E; cbn [obind];
      try discriminate.
    destruct (@check_parameter_adds template_params entry acc acc1 E) as (r & -> & Hc & Hu).
    intros H. destruct (IH (acc ++ [r]) res H) as (checked & -> & Hlen & Hall & Hnth).
    exists (r :: checked). rewrite <- app_assoc. split; [ reflexivity | ].
    split; [ simpl; congruence | ]. split; [ constructor; assumption | ].
    intros [ | i ] name value; cbn [nth_error].
    + intros Hi Hin. inversion Hi; subst. rewrite (Hu Hin). reflexivity.
    + apply Hnth.
Qed.

Lemma required_loop (parameters declared : dict Py.value) :
  Forall (fun kv => is_dict (snd kv) = true) declared ->
  forall acc res,
    ConfigValidator.ofor_each declared (check_required (VDict parameters)) acc = Ok res ->
    res = acc ++ map (fun kv => missing_parameter (fst kv) (declared_type (snd kv)))
                     (required_missing declared parameters).
Proof.
  induction 1 as [ | [param_name param_config] declared Hd Hall IH ]; intros acc res.
  - simpl. intros H. inversion H; subst. rewrite app_nil_r. reflexivity.
  - cbn [ConfigValidator.ofor_each check_required]. cbn [snd] in Hd.
    destruct param_config as [ | b | n | s | l | c ]; try discriminate.
    assert (R : required_missing ((param_name, VDict c) :: declared) parameters
                = if negb (has_key "Default" c) && negb (has_key param_name parameters)
                  then (param_name, VDict c) :: required_missing declared parameters
                  else required_missing declared parameters) by reflexivity.
    rewrite R. clear R.
    cbn [py_in hashable of_result obind py_get].
    destruct (has_key "Default" c); cbn [negb andb obind].
    + apply IH.
    + destruct (has_key param_name parameters); cbn [negb obind].
      * apply IH.
      * cbn [map fst snd].
        change (declared_type (VDict c))
          with (match lookup "Type" c with Some (VStr t) => t | _ => "String" end).
        destruct (lookup "Type" c) as [ [ | b | n | s | l | c' ] | ];
          cbn [Manager.as_str obind]; try discriminate;
          intros H; rewrite (IH _ res H);
          rewrite <- app_assoc; reflexivity.
Qed.

(** X25. [validate_parameters], when it returns on a template whose
    declarations are objects: the results are one per provided parameter,
    in the order given, followed by one failure per declared parameter
    that has no default and no value, in the order of the template; a
    provided parameter that the template does not declare gets the
    undefined-parameter failure; and no result with errors says that it is
    valid. *)
Theorem validate_parameters_results
    (template parameters declared : dict Py.value)
    (results : list ParameterValidationResult) :
  py_get (VDict template) "Parameters" (VDict []) = Return (VDict declared) ->
  Forall (fun kv => is_dict (snd kv) = true) declared ->
  validate_parameters validate_parameter_type validate_parameter_constraints
    validate_aws_resource_ids (VDict template) (VDict parameters)
  = Ok results ->
  exists checked,
    results
    = checked ++ map (fun kv => missing_parameter (fst kv) (declared_type (snd kv)))
                     (required_missing declared parameters) /\
    List.length checked = List.length parameters /\
    Forall consistent results /\
    (forall i name value,
       nth_error parameters i = Some (name, value) ->
       has_key name declared = false ->
       nth_error checked i = Some (undefined_parameter name value)).
Proof.
  intros Hp Hd. unfold validate_parameters. rewrite Hp.
  cbn [of_result obind py_items].
  fold check.
  destruct (ConfigValidator.ofor_each parameters (check (VDict declared)) [])
    as [ res1 | | ] eqn:E1; cbn [obind]; try discriminate.
  destruct (@provided_loop (VDict declared) parameters [] res1 E1)
    as (checked & -> & Hlen & Hall & Hnth).
  cbn [app]. intros H. apply (@required_loop parameters declared Hd) in H. subst results.
  exists checked. split; [ reflexivity | ]. split; [ exact Hlen | ]. split.
  - apply Forall_app. split; [ exact Hall | ].
    apply Forall_map. apply Forall_forall. intros kv _. intros _. reflexivity.
  - intros i name value Hi Hk. apply (Hnth i name value Hi).
    cbn [py_in hashable]. rewrite Hk. reflexivity.
Qed.

End ParameterResults.

Section ParameterWitness.

Import ParameterValidator ResultFacts MoreExamples.

Lemma validate_parameters_results_witness :
  validate_parameters (fun _ _ _ => Throw KeyError) (fun _ _ _ => Throw KeyError)
    (fun _ _ _ => Throw KeyError) (VDict one_parameter) (VDict [("Other", VStr "x")])
  = Ok [undefined_parameter "Other" (VStr "x"); missing_parameter "Env" "String"] /\
  exists checked,
    [undefined_parameter "Other" (VStr "x"); missing_parameter "Env" "String"]
    = checked ++ map (fun kv => missing_parameter (fst kv) (declared_type (snd kv)))
                     (required_missing [("Env", VDict [("Type", VStr "String")])]
                        [("Other", VStr "x")]) /\
    List.length checked = List.length [("Other", VStr "x")] /\
    Forall consistent
      [undefined_parameter "Other" (VStr "x"); missing_parameter "Env" "String"] /\
    (forall i name value,
       nth_error [("Other", VStr "x")] i = Some (name, value) ->
       has_key name [("Env", VDict [("Type", VStr "String")])] = false ->
       nth_error checked i = Some (undefined_parameter name value)).
Proof.
  split; [ reflexivity | ].
  apply (@validate_parameters_results (fun _ _ _ => Throw KeyError)
           (fun _ _ _ => Throw KeyError) (fun _ _ _ => Throw KeyError)
           one_parameter [("Other", VStr "x")] [("Env", VDict [("Type", VStr "String")])]
           [undefined_parameter "Other" (VStr "x"); missing_parameter "Env" "String"]).
  - reflexivity.
  - repeat constructor.
  - reflexivity.
Defined.

End ParameterWitness.

(* ================================================================== *)
(** * Stack results against CloudFormation *)
(* ================================================================== *)

Section StackResults.

Import Manager ValidatorFacts GraphFacts PairFacts ReachFacts.
Import StackValidator StackFacts.

Variable describe_stacks : Py.value -> described.

Lemma ofor_each_keeps {A S} (P : S -> Prop) (body : A -> S -> outcome S) (l : list A) :
  (forall a s r, body a s = Ok r -> P s -> P r) ->
  forall s r, ConfigValidator.ofor_each l body s = Ok r -> P s -> P r.
Proof.
  intros Hb. induction l as [ | a l IH ]; intros s r; simpl.
  - intros H. inversion H; subst. auto.
  - destruct (body a s) as [ s1 | e | ] eqn:E; simpl; try discriminate.
    intros H Hs. apply (IH _ _ H). apply (Hb _ _ _ E Hs).
Qed.

(** What the loops of [validate_stack_dependencies] keep true. *)
Let kept (name : Py.value) (r : ValidationResult) : Prop :=
  stack_name r = name /\ sound r /\ circular_dependencies r = [].

Lemma kept_invalid (name : Py.value) (r : ValidationResult) (x : finding) :
  kept name r ->
  kept name (mkResult (stack_name r) false (errors r ++ [x]) (warnings r)
               (missing_exports r) (circular_dependencies r)).
Proof.
  intros (H1 & H2 & H3). split; [ exact H1 | ]. split; [ | exact H3 ].
  unfold sound. cbn [is_valid errors missing_exports]. split; [ discriminate | ].
  intros [E _]. apply app_eq_nil in E. destruct E; discriminate.
Qed.

Lemma check_response_keeps (name dep_stack_name required_outputs optional_outputs
    response : Py.value) (r r' : ValidationResult) :
  check_response dep_stack_name required_outputs optional_outputs response r = Ok r' ->
  kept name r -> kept name r'.
Proof.
  unfold check_response.
  destruct (py_getitem response "Stacks") as [ stacks | e ]; cbn [of_result obind];
    [ | discriminate ].
  destruct (py_index stacks (VInt 0)) as [ stack | e ]; cbn [of_result obind];
    [ | discriminate ].
  destruct (py_getitem stack "StackStatus") as [ stack_status | e ];
    cbn [of_result obind]; [ | discriminate ].
  destruct (negb _).
  { intros H K. injection H as <-. apply kept_invalid, K. }
  destruct (py_get stack "Outputs" (VList [])) as [ stack_outputs | e ];
    cbn [of_result obind]; [ | discriminate ].
  destruct (py_iter stack_outputs) as [ l | e ]; cbn [of_result obind]; [ | discriminate ].
  destruct (exported_keys l) as [ available_exports | e | ]; cbn [obind];
    try discriminate.
  destruct (py_iter required_outputs) as [ required | e ]; cbn [of_result obind];
    [ | discriminate ].
  match goal with
  | |- obind ?m _ = _ -> _ => destruct m as [ r1 | e | ] eqn:E1
  end; cbn [obind]; try discriminate.
  destruct (py_iter optional_outputs) as [ optional | e ]; cbn [of_result obind];
    [ | discriminate ].
  intros E2 K.
  assert (K1 : kept name r1).
  { revert E1 K. apply (@ofor_each_keeps _ _ (kept name)). intros required_output s s'.
    destruct (set_mem required_output available_exports) as [ found | e ];
      cbn [of_result obind]; [ | discriminate ].
    destruct found; cbn [negb]; intros H (H1 & H2 & H3); injection H as <-.
    - split; [ exact H1 | ]. split; [ exact H2 | exact H3 ].
    - split; [ exact H1 | ]. split; [ | exact H3 ].
      unfold sound. cbn [is_valid errors missing_exports]. split; [ discriminate | ].
      intros [_ E]. apply app_eq_nil in E. destruct E; discriminate. }
  revert E2 K1. apply (@ofor_each_keeps _ _ (kept name)). intros optional_output s s'.
  destruct (set_mem optional_output available_exports) as [ found | e ];
    cbn [of_result obind]; [ | discriminate ].
  destruct found; cbn [negb]; intros H (H1 & H2 & H3); injection H as <-.
  - split; [ exact H1 | ]. split; [ exact H2 | exact H3 ].
  - split; [ exact H1 | ]. split; [ exact H2 | exact H3 ].
Qed.

Lemma check_stack_dependency_keeps (name dep : Py.value) (r r' : ValidationResult) :
  check_stack_dependency describe_stacks dep r = Ok r' -> kept name r -> kept name r'.
Proof.
  unfold check_stack_dependency.
  destruct (py_getitem dep "stack_name") as [ dep_stack_name | e ]; cbn [of_result obind];
    [ | discriminate ].
  destruct (py_getitem dep "required_outputs") as [ required_outputs | e ];
    cbn [of_result obind]; [ | discriminate ].
  destruct (py_get dep "optional_outputs" (VList [])) as [ optional_outputs | e ];
    cbn [of_result obind]; [ | discriminate ].
  destruct (describe_stacks dep_stack_name) as [ response | e_response text | e ].
  - apply check_response_keeps.
  - unfold on_client_error.
    destruct (py_getitem e_response "Error") as [ error | e ]; cbn [of_result obind];
      [ | discriminate ].
    destruct (py_getitem error "Code") as [ code | e ]; cbn [of_result obind];
      [ | discriminate ].
    intros H K. injection H as <-. apply kept_invalid, K.
  - discriminate.
Qed.

Lemma validate_stack_dependencies_keeps (name config : Py.value) (r : ValidationResult) :
  validate_stack_dependencies describe_stacks name config = Ok r -> kept name r.
Proof.
  unfold validate_stack_dependencies. cbv zeta.
  assert (K0 : kept name (mkResult name true [] [] [] [])).
  { split; [ reflexivity | ]. split; [ | reflexivity ]. split; auto. }
  destruct (py_getitem config "dependencies") as [ all_dependencies | e ];
    cbn [of_result obind]; [ | discriminate ].
  destruct (py_in name all_dependencies) as [ known | e ]; cbn [of_result obind];
    [ | discriminate ].
  destruct known; cbn [negb].
  2:{ intros H. injection H as <-. exact K0. }
  destruct (py_index all_dependencies name) as [ dependencies | e ];
    cbn [of_result obind]; [ | discriminate ].
  destruct (py_iter dependencies) as [ l | e ]; cbn [of_result obind]; [ | discriminate ].
  intros H. change (kept name r). revert H K0.
  apply (@ofor_each_keeps _ _ (kept name)).
  intros dep s s'. apply check_stack_dependency_keeps.
Qed.

(** X26. A result of [validate_stack_dependencies] carries the stack
    name it was asked about, lists no circular dependency, and says
    [is_valid] exactly when it lists no error and no missing export,
    whatever the CloudFormation client answers. *)
Theorem stack_result_sound (name config : Py.value) (r : ValidationResult) :
  validate_stack_dependencies describe_stacks name config = Ok r ->
  stack_name r = name /\ sound r /\ circular_dependencies r = [].
Proof.
  intros H. destruct (validate_stack_dependencies_keeps name config r H) as (N & S & C).
  split; [ exact N | ]. split; [ exact S | exact C ].
Qed.

Variable set_order : pyset -> pyset.

Lemma note_cycles_spec (circular_deps : list (list Py.value)) :
  forall r r',
    note_cycles circular_deps r = Ok r' ->
    stack_name r' = stack_name r /\
    warnings r' = warnings r /\
    (sound r -> sound r') /\
    (is_valid r = false -> is_valid r' = false) /\
    (forall c, In c circular_deps -> existsb (py_eq (stack_name r)) c = true ->
               is_valid r' = false).
Proof.
  unfold note_cycles. induction circular_deps as [ | cycle cds IH ]; intros r r'.
  - simpl. intros H. injection H as <-.
    split; [ reflexivity | ]. split; [ reflexivity | ]. split; [ auto | ].
    split; [ auto | intros c [] ].
  - cbn [ConfigValidator.ofor_each].
    destruct (existsb (py_eq (stack_name r)) cycle) eqn:E.
    + destruct (ConfigValidator.joinable cycle) as [ names | e | ]; cbn [obind];
        try discriminate.
      intros H. destruct (IH _ r' H) as (H1 & H2 & H3 & H4 & H5).
      cbn [stack_name warnings is_valid] in *.
      split; [ exact H1 | ]. split; [ exact H2 | ]. split; [ | split ].
      * intros _. apply H3. unfold sound. cbn [is_valid errors missing_exports].
        split; [ discriminate | ]. intros [X _]. apply app_eq_nil in X.
        destruct X; discriminate.
      * intros _. apply H4. reflexivity.
      * intros c _ _. apply H4. reflexivity.
    + cbn [obind]. intros H. destruct (IH _ r' H) as (H1 & H2 & H3 & H4 & H5).
      split; [ exact H1 | ]. split; [ exact H2 | ]. split; [ exact H3 | ].
      split; [ exact H4 | ].
      intros c [ <- | Hc ] Hx; [ congruence | apply (H5 c Hc Hx) ].
Qed.

Lemma results_loop (config : Py.value) (circular_deps : list (list Py.value))
    (order : list Py.value) :
  forall acc res,
    ConfigValidator.ofor_each order
      (fun stack_name results =>
         obind (validate_stack_dependencies describe_stacks stack_name config)
           (fun result =>
         obind (note_cycles circular_deps result) (fun result =>
         Ok (results ++ [result]))))
      acc
    = Ok res ->
    exists new,
      res = acc ++ new /\
      map stack_name new = order /\
      Forall sound new /\
      Forall (fun r => (exists c, In c circular_deps /\
                                  existsb (py_eq (stack_name r)) c = true) ->
                       is_valid r = false) new.
Proof.
  induction order as [ | x order IH ]; intros acc res.
  - simpl. intros H. inversion H; subst. exists []. rewrite app_nil_r.
    repeat split; constructor.
  - cbn [ConfigValidator.ofor_each].
    destruct (validate_stack_dependencies describe_stacks x config) as [ r0 | e | ] eqn:E0;
      cbn [obind]; try discriminate.
    destruct (note_cycles circular_deps r0) as [ r1 | e | ] eqn:E1; cbn [obind];
      try discriminate.
    destruct (@validate_stack_dependencies_keeps x config r0 E0) as (N0 & S0 & _).
    destruct (@note_cycles_spec circular_deps r0 r1 E1) as (N1 & _ & S1 & _ & C1).
    intros H. destruct (IH (acc ++ [r1]) res H) as (new & -> & Hn & Hs & Hc).
    exists (r1 :: new). rewrite <- app_assoc. split; [ reflexivity | ].
    split; [ simpl; congruence | ]. split; [ constructor; auto | ].
    constructor; [ | exact Hc ].
    intros (c & Hin & Hx). apply (C1 c Hin). rewrite <- N1. exact Hx.
Qed.

(** X27. [validate_all_stacks], when it returns: there is one result per
    stack that declares dependencies or is the target of one, in the
    iteration order of that set; every result says [is_valid] exactly when
    it has no error and no missing export; every result's warnings end
    with the naming issues of the whole configuration; and the exit code
    that [main] computes from the results is 0 exactly when no result
    lists an error or a missing export. *)
Theorem all_stacks_results (config : Py.value) (results : list ValidationResult) :
  validate_all_stacks describe_stacks set_order config = Ok results ->
  Forall sound results /\
  (exit_code results = 0 <->
   Forall (fun r => errors r = [] /\ missing_exports r = []) results) /\
  exists dependencies all_stacks naming_issues,
    py_get config "dependencies" (VDict []) = Return dependencies /\
    DependencyValidator.all_stacks_of dependencies = Ok all_stacks /\
    DependencyValidator.validate_export_naming_consistency config = Ok naming_issues /\
    map stack_name results = set_order all_stacks /\
    Forall (fun r => exists own, warnings r = own ++ map Naming naming_issues) results.
Proof.
  unfold validate_all_stacks.
  destruct (DependencyValidator.detect_circular_dependencies set_order config)
    as [ circular_deps | e | ]; cbn [obind]; try discriminate.
  destruct (DependencyValidator.validate_export_naming_consistency config)
    as [ naming_issues | e | ] eqn:En; cbn [obind]; try discriminate.
  destruct (py_get config "dependencies" (VDict [])) as [ dependencies | e ] eqn:Ed;
    cbn [of_result obind]; [ | discriminate ].
  destruct (DependencyValidator.all_stacks_of dependencies) as [ all_stacks | e | ] eqn:Ea;
    cbn [obind]; try discriminate.
  match goal with
  | |- obind ?m _ = _ -> _ => destruct m as [ res | e | ] eqn:E
  end; cbn [obind]; try discriminate.
  destruct (@results_loop config circular_deps (set_order all_stacks) [] res E)
    as (new & -> & Hn & Hs & _).
  cbn [app]. intros H. inversion H; subst. clear H.
  assert (S : Forall sound
                (map (fun result =>
                        mkResult (stack_name result) (is_valid result) (errors result)
                          (warnings result ++ map Naming naming_issues)
                          (missing_exports result) (circular_dependencies result)) new)).
  { apply Forall_map. eapply Forall_impl; [ | exact Hs ]. intros r Hr. exact Hr. }
  split; [ exact S | ]. split.
  - unfold exit_code. clear Hn Hs E. induction S as [ | r rs Hr Hrs IH ]; cbn [existsb].
    + split; [ constructor | reflexivity ].
    + destruct (is_valid r) eqn:V; cbn [negb orb].
      * rewrite IH. split.
        -- intros F. constructor; [ apply Hr; exact V | exact F ].
        -- intros F. inversion F; assumption.
      * split; [ discriminate | ]. intros F. inversion F as [ | ? ? F1 _ ]; subst.
        apply Hr in F1. congruence.
  - exists dependencies, all_stacks, naming_issues.
    split; [ reflexivity | ]. split; [ exact Ea | ]. split; [ reflexivity | ]. split.
    + rewrite map_map. cbn [stack_name]. exact Hn.
    + apply Forall_map. apply Forall_forall. intros r _. cbn [warnings]. eauto.
Qed.

End StackResults.

Section CyclesInvalidate.

Import Manager ValidatorFacts GraphFacts PairFacts ReachFacts.
Import StackValidator StackFacts.

Variable describe_stacks : Py.value -> described.

(** X28. Two different stacks that reach each other along declared
    dependencies are never found valid: on the snapshot of a well-formed
    registry, whenever [validate_all_stacks] returns, with whatever
    answers of the CloudFormation client it returns, its result for such
    a stack says not [is_valid], and the exit code is 1.  (It need not
    return: see [malformed_answer_raises].) *)
Theorem cycles_invalidate_stacks
    (m : registry) (set_order : pyset -> pyset) (results : list ValidationResult) :
  registry_ok m ->
  (forall s, Permutation (set_order s) s) ->
  validate_all_stacks describe_stacks set_order (export_configuration m) = Ok results ->
  forall a b,
    mutual (dependencies m) a b ->
    (exists r, In r results /\ stack_name r = VStr a /\ is_valid r = false) /\
    exit_code results = 1.
Proof.
  intros (_ & Hkeys & _) Hperm H a b M. destruct m as [so deps]. cbn [dependencies] in *.
  destruct (@pair_detect_spec deps Hkeys set_order Hperm so) as (pairs & Hdet & Hmut).
  unfold validate_all_stacks in H. rewrite Hdet in H. cbn [obind] in H.
  destruct (DependencyValidator.validate_export_naming_consistency
              (export_configuration (mkRegistry so deps)))
    as [ naming_issues | e | ]; cbn [obind] in H; try discriminate.
  replace (py_get (export_configuration (mkRegistry so deps)) "dependencies" (VDict []))
    with (Return (dependencies_section deps)) in H by reflexivity.
  cbn [of_result obind] in H. rewrite pair_all_stacks_exported in H. cbn [obind] in H.
  destruct (Permutation_map_inv VStr (all_nodes deps) (Hperm (strs (all_nodes deps))))
    as (order & Horder & Hp).
  rewrite Horder in H.
  match type of H with
  | obind ?l _ = _ => destruct l as [ res | e | ] eqn:E
  end; cbn [obind] in H; try discriminate.
  destruct (@results_loop describe_stacks (export_configuration (mkRegistry so deps))
              (map pair_cycle pairs) (strs order) [] res E)
    as (new & -> & Hn & _ & Hc).
  injection H as <-. cbn [app].
  assert (Ha : In a order).
  { apply (Permutation_in a Hp). destruct M as (N & R & _).
    apply (@reaches_source deps a b R N). }
  assert (Hr : exists r, In r new /\ stack_name r = VStr a).
  { assert (I : In (VStr a) (map stack_name new)) by (rewrite Hn; apply in_map, Ha).
    apply in_map_iff in I. destruct I as (r & Hs & Hin). eauto. }
  destruct Hr as (r & Hin & Hs).
  assert (V : is_valid r = false).
  { rewrite Forall_forall in Hc. apply (Hc r Hin). rewrite Hs.
    apply Hmut in M. destruct M as [ I | I ].
    - exists (pair_cycle (a, b)). split; [ apply in_map, I | ].
      unfold pair_cycle. cbn. rewrite String.eqb_refl. reflexivity.
    - exists (pair_cycle (b, a)). split; [ apply in_map, I | ].
      unfold pair_cycle. cbn. rewrite String.eqb_refl. apply orb_true_r. }
  set (f := fun result =>
              mkResult (stack_name result) (is_valid result) (errors result)
                (warnings result ++ map Naming naming_issues)
                (missing_exports result) (circular_dependencies result)).
  assert (If : In (f r) (map f new)) by (apply in_map, Hin).
  split.
  - exists (f r). split; [ exact If | ]. split; [ exact Hs | exact V ].
  - unfold exit_code.
    replace (existsb (fun r0 => negb (is_valid r0)) (map f new)) with true; [ reflexivity | ].
    symmetry. apply existsb_exists. exists (f r). split; [ exact If | ].
    cbn [f is_valid]. rewrite V. reflexivity.
Qed.

End CyclesInvalidate.

Section StackWitnesses.

Import Manager GraphFacts ReachFacts StackValidator StackFacts MoreExamples.

Lemma stack_result_sound_witness :
  validate_stack_dependencies no_stack (VStr "A") (export_configuration triangle)
  = Ok (mkResult (VStr "A") false [StackAbsent (VStr "B")] [] [] []) /\
  sound (mkResult (VStr "A") false [StackAbsent (VStr "B")] [] [] []).
Proof.
  split; [ reflexivity | ].
  apply (@stack_result_sound no_stack (VStr "A") (export_configuration triangle)
           (mkResult (VStr "A") false [StackAbsent (VStr "B")] [] [] []) eq_refl).
Defined.

Lemma all_stacks_results_witness :
  validate_all_stacks no_stack (fun s => s) (export_configuration triangle)
  = Ok triangle_results /\
  Forall sound triangle_results /\
  (exit_code triangle_results = 0 <->
   Forall (fun r => errors r = [] /\ missing_exports r = []) triangle_results).
Proof.
  split; [ reflexivity | ].
  destruct (@all_stacks_results no_stack (fun s => s) (export_configuration triangle)
              triangle_results eq_refl) as (H1 & H2 & _).
  split; [ exact H1 | exact H2 ].
Defined.

Lemma cycles_invalidate_stacks_witness :
  mutual (dependencies triangle) "A" "B" /\
  (exists r, In r triangle_results /\ stack_name r = VStr "A" /\ is_valid r = false) /\
  exit_code triangle_results = 1.
Proof.
  assert (M : mutual (dependencies triangle) "A" "B").
  { split; [ discriminate | ]. split.
    - exists ["A"]. apply route_step with (t := "B"); [ | apply route_here ].
      exists (needs "B"). split; [ simpl; auto | reflexivity ].
    - exists ["B"; "C"]. apply route_step with (t := "C").
      + exists (needs "C"). split; [ simpl; auto | reflexivity ].
      + apply route_step with (t := "A"); [ | apply route_here ].
        exists (needs "A"). split; [ simpl; auto | reflexivity ]. }
  split; [ exact M | ].
  apply (@cycles_invalidate_stacks no_stack triangle (fun s => s) triangle_results
           triangle_ok (fun s => Permutation_refl s) eq_refl "A" "B" M).
Defined.

(** An answer that is not an object makes [validate_all_stacks] raise:
    [response['Stacks']] raises [TypeError], and the [try] block catches
    [ClientError] only. *)
Lemma malformed_answer_raises :
  validate_all_stacks MoreExamples.no_object (fun s => s) (export_configuration triangle)
  = Raise TypeError.
Proof. reflexivity. Qed.

End StackWitnesses.

(* ================================================================== *)
(** * The two checks against CloudFormation compared *)
(* ================================================================== *)

Section Strictness.

Unset Implicit Arguments.

Import Manager ValidatorFacts.

Variable describe_stacks : Py.value -> StackValidator.described.

Let has (x : string) (s : pyset) : bool := existsb (py_eq (VStr x)) s.

Lemma py_eq_str (x : string) (k : Py.value) : py_eq (VStr x) k = true -> k = VStr x.
Proof.
  destruct k; simpl; try discriminate. intros H. apply String.eqb_eq in H. congruence.
Qed.

Lemma has_set_add (x : string) (k : Py.value) (s s' : pyset) :
  set_add k s = Return s' ->
  has x s' = has x s || py_eq (VStr x) k.
Proof.
  unfold set_add, set_mem, has. destruct (hashable k); cbn [rbind]; [ | discriminate ].
  destruct (existsb (py_eq k) s) eqn:E; intros H; injection H as <-.
  - destruct (py_eq (VStr x) k) eqn:P; [ | rewrite orb_false_r; reflexivity ].
    apply py_eq_str in P. subst k. rewrite E. reflexivity.
  - rewrite existsb_app. cbn [existsb]. rewrite orb_false_r. reflexivity.
Qed.

Lemma exported_subset (l : list Py.value) :
  forall E0 A0 E A,
    ConfigValidator.ofor_each l
      (fun output available_exports =>
         obind (py_in (VStr "ExportName") output) (fun exported =>
         if (exported : bool)
         then
           obind (py_getitem output "ExportName") (fun _ =>
           obind (py_getitem output "OutputKey") (fun key =>
           set_add key available_exports))
         else Ok available_exports))
      E0 = Ok E ->
    ConfigValidator.ofor_each l
      (fun output available_outputs =>
         obind (py_getitem output "OutputKey") (fun key =>
         set_add key available_outputs))
      A0 = Ok A ->
    (forall x, has x E0 = true -> has x A0 = true) ->
    forall x, has x E = true -> has x A = true.
Proof.
  induction l as [ | output l IH ]; intros E0 A0 E A.
  - simpl. intros H1 H2. injection H1 as <-. injection H2 as <-. auto.
  - cbn [ConfigValidator.ofor_each].
    destruct (py_in (VStr "ExportName") output) as [ exported | e ];
      cbn [of_result obind]; [ | discriminate ].
    destruct (py_getitem output "OutputKey") as [ key | e ] eqn:K;
      cbn [of_result obind].
    2:{ intros _ H. discriminate. }
    destruct (set_add key A0) as [ A1 | e ] eqn:SA; cbn [of_result obind];
      [ | intros _ H; discriminate ].
    destruct exported.
    + destruct (py_getitem output "ExportName") as [ v | e ]; cbn [of_result obind];
        [ | discriminate ].
      destruct (set_add key E0) as [ E1 | e ] eqn:SE; cbn [of_result obind];
        [ | discriminate ].
      intros H1 H2 Hsub. apply (IH _ _ _ _ H1 H2).
      intros x. rewrite (has_set_add x _ _ _ SE), (has_set_add x _ _ _ SA).
      intros H. apply orb_true_iff in H. apply orb_true_iff.
      destruct H; auto.
    + cbn [obind]. intros H1 H2 Hsub. apply (IH _ _ _ _ H1 H2).
      intros x Hx. rewrite (has_set_add x _ _ _ SA). apply orb_true_iff. auto.
Qed.

(** The required loop of validate-dependencies.py, once it has left the
    result valid. *)
Lemma required_all_found (dep_stack_name : Py.value) (E : pyset) (required : list string) :
  forall r r',
    ConfigValidator.ofor_each (map VStr required)
      (fun required_output result =>
         obind (set_mem required_output E) (fun found =>
         if negb found
         then
           Ok (StackValidator.mkResult (StackValidator.stack_name result) false
                 (StackValidator.errors result) (StackValidator.warnings result)
                 (StackValidator.missing_exports result
                  ++ [StackValidator.MissingRequired required_output dep_stack_name])
                 (StackValidator.circular_dependencies result))
         else Ok result))
      r = Ok r' ->
    StackValidator.is_valid r' = true ->
    StackValidator.is_valid r = true /\ forall x, In x required -> has x E = true.
Proof.
  induction required as [ | y required IH ]; intros r r'.
  - simpl. intros H V. injection H as <-. split; [ exact V | intros x [] ].
  - cbn [map ConfigValidator.ofor_each set_mem hashable of_result obind].
    destruct (existsb (py_eq (VStr y)) E) eqn:F; cbn [negb].
    + intros H V. destruct (IH _ _ H V) as [V0 Hall]. split; [ exact V0 | ].
      intros x [ <- | Hx ]; [ exact F | auto ].
    + intros H V. destruct (IH _ _ H V) as [V0 _]. discriminate.
Qed.

Lemma optional_keeps_verdict (dep_stack_name : Py.value) (E : pyset) (optional : list Py.value) :
  forall r r',
    ConfigValidator.ofor_each optional
      (fun optional_output result =>
         obind (set_mem optional_output E) (fun found =>
         if negb found
         then
           Ok (StackValidator.mkResult (StackValidator.stack_name result)
                 (StackValidator.is_valid result)
                 (StackValidator.errors result)
                 (StackValidator.warnings result
                  ++ [StackValidator.MissingOptional optional_output dep_stack_name])
                 (StackValidator.missing_exports result)
                 (StackValidator.circular_dependencies result))
         else Ok result))
      r = Ok r' ->
    StackValidator.is_valid r' = StackValidator.is_valid r.
Proof.
  induction optional as [ | y optional IH ]; intros r r'.
  - simpl. intros H. injection H as <-. reflexivity.
  - cbn [ConfigValidator.ofor_each].
    destruct (set_mem y E) as [ found | e ]; cbn [of_result obind]; [ | discriminate ].
    destruct found; cbn [negb]; intros H; rewrite (IH _ _ H); reflexivity.
Qed.

(** The loops of cross-stack-manager.py. *)
Lemma manager_required (name : string) (A : pyset) (required : list string)
    (r : CrossStackManager.validation_result) :
  (forall x, In x required -> has x A = true) ->
  ConfigValidator.ofor_each required
    (fun required_output result =>
       obind (set_mem (VStr required_output) A) (fun found =>
       if negb found
       then
         Ok (CrossStackManager.mkValidation false (CrossStackManager.errors result)
               (CrossStackManager.warnings result)
               (CrossStackManager.missing_outputs result
                ++ [CrossStackManager.MissingRequired required_output name]))
       else Ok result))
    r = Ok r.
Proof.
  induction required as [ | y required IH ]; intros Hall; [ reflexivity | ].
  cbn [ConfigValidator.ofor_each set_mem hashable of_result obind].
  fold (has y A). rewrite (Hall y) by (simpl; auto). cbn [negb obind].
  apply IH. intros x Hx. apply Hall. simpl. auto.
Qed.

Lemma manager_optional (name : string) (A : pyset) (optional : list string) :
  forall r r',
    ConfigValidator.ofor_each optional
      (fun optional_output result =>
         obind (set_mem (VStr optional_output) A) (fun found =>
         if negb found
         then
           Ok (CrossStackManager.mkValidation (CrossStackManager.valid result)
                 (CrossStackManager.errors result)
                 (CrossStackManager.warnings result
                  ++ [CrossStackManager.MissingOptional optional_output name])
                 (CrossStackManager.missing_outputs result))
         else Ok result))
      r = Ok r' ->
    CrossStackManager.valid r' = CrossStackManager.valid r.
Proof.
  induction optional as [ | y optional IH ]; intros r r'.
  - simpl. intros H. injection H as <-. reflexivity.
  - cbn [ConfigValidator.ofor_each set_mem hashable of_result obind].
    destruct (existsb (py_eq (VStr y)) A); cbn [negb]; intros H; rewrite (IH _ _ H);
      reflexivity.
Qed.

Lemma dependency_step (dep : StackDependency)
    (rv rv' : StackValidator.ValidationResult)
    (rm rm' : CrossStackManager.validation_result) :
  StackValidator.check_stack_dependency describe_stacks (dependency_entry dep) rv = Ok rv' ->
  match describe_stacks (VStr (stack_name dep)) with
  | StackValidator.Response response =>
      CrossStackManager.check_response dep response rm
  | StackValidator.ClientError e_response text =>
      CrossStackManager.on_client_error dep e_response text rm
  | StackValidator.Failure e => Raise e
  end = Ok rm' ->
  (StackValidator.is_valid rv = true -> CrossStackManager.valid rm = true) ->
  StackValidator.is_valid rv' = true -> CrossStackManager.valid rm' = true.
Proof.
  unfold StackValidator.check_stack_dependency.
  replace (py_getitem (dependency_entry dep) "stack_name")
    with (Return (VStr (stack_name dep))) by (destruct dep; reflexivity).
  replace (py_getitem (dependency_entry dep) "required_outputs")
    with (Return (str_list (required_outputs dep))) by (destruct dep; reflexivity).
  replace (py_get (dependency_entry dep) "optional_outputs" (VList []))
    with (Return (py_or (opt_list (optional_outputs dep)) (VList [])))
    by (destruct dep; reflexivity).
  cbn [of_result obind].
  destruct (describe_stacks (VStr (stack_name dep))) as [ response | e_response text | e ].
  - unfold StackValidator.check_response, CrossStackManager.check_response.
    destruct (py_getitem response "Stacks") as [ stacks | e ]; cbn [of_result obind];
      [ | discriminate ].
    destruct (py_index stacks (VInt 0)) as [ stack | e ]; cbn [of_result obind];
      [ | discriminate ].
    destruct (py_getitem stack "StackStatus") as [ stack_status | e ];
      cbn [of_result obind]; [ | discriminate ].
    destruct (negb (existsb (py_eq stack_status)
                      [VStr "CREATE_COMPLETE"; VStr "UPDATE_COMPLETE"])).
    { intros H _ _ V. injection H as <-. discriminate. }
    destruct (py_get stack "Outputs" (VList [])) as [ stack_outputs | e ];
      cbn [of_result obind]; [ | discriminate ].
    destruct (py_iter stack_outputs) as [ l | e ]; cbn [of_result obind];
      [ | discriminate ].
    destruct (StackValidator.exported_keys l) as [ E | e | ] eqn:HE; cbn [obind];
      try discriminate.
    destruct (CrossStackManager.output_keys l) as [ A | e | ] eqn:HA; cbn [obind];
      try (intros _ H; discriminate).
    unfold str_list. cbn [py_iter of_result obind].
    match goal with
    | |- obind ?m _ = _ -> _ => destruct m as [ r1 | e | ] eqn:E1
    end; cbn [obind]; try discriminate.
    rewrite iter_optional. cbn [of_result obind].
    intros E2 Hm I V.
    rewrite (optional_keeps_verdict _ _ _ _ _ E2) in V.
    destruct (required_all_found _ _ _ _ _ E1 V) as [V0 Hall].
    assert (Hsub : forall x, In x (required_outputs dep) -> has x A = true).
    { intros x Hx. apply (exported_subset l [] [] E A HE HA); [ discriminate | ].
      apply Hall, Hx. }
    rewrite (manager_required (stack_name dep) A (required_outputs dep) rm Hsub) in Hm.
    cbn [obind] in Hm.
    destruct (optional_outputs dep) as [ [ | o optional ] | ].
    + injection Hm as <-. apply I, V0.
    + rewrite (manager_optional _ _ _ _ _ Hm). apply I, V0.
    + injection Hm as <-. apply I, V0.
  - unfold StackValidator.on_client_error.
    destruct (py_getitem e_response "Error") as [ error | e ]; cbn [of_result obind];
      [ | discriminate ].
    destruct (py_getitem error "Code") as [ code | e ]; cbn [of_result obind];
      [ | discriminate ].
    intros H _ _ V. injection H as <-. discriminate.
  - discriminate.
Qed.

Lemma dependencies_loop (ds : list StackDependency) :
  forall rv rv' rm rm',
    ConfigValidator.ofor_each (map dependency_entry ds)
      (StackValidator.check_stack_dependency describe_stacks) rv = Ok rv' ->
    ConfigValidator.ofor_each ds
      (fun dependency result =>
         match describe_stacks (VStr (stack_name dependency)) with
         | StackValidator.Response response =>
             CrossStackManager.check_response dependency response result
         | StackValidator.ClientError e_response text =>
             CrossStackManager.on_client_error dependency e_response text result
         | StackValidator.Failure e => Raise e
         end) rm = Ok rm' ->
    (StackValidator.is_valid rv = true -> CrossStackManager.valid rm = true) ->
    StackValidator.is_valid rv' = true -> CrossStackManager.valid rm' = true.
Proof.
  induction ds as [ | dep ds IH ]; intros rv rv' rm rm'.
  - simpl. intros H1 H2. injection H1 as <-. injection H2 as <-. auto.
  - cbn [map ConfigValidator.ofor_each].
    destruct (StackValidator.check_stack_dependency describe_stacks (dependency_entry dep) rv)
      as [ rv1 | e | ] eqn:Ev; cbn [obind]; try discriminate.
    match goal with
    | |- _ -> obind ?m _ = _ -> _ => destruct m as [ rm1 | e | ] eqn:Em
    end; cbn [obind]; try (intros _ H; discriminate).
    intros H1 H2 I. apply (IH _ _ _ _ H1 H2).
    apply (dependency_step dep _ _ _ _ Ev Em I).
Qed.

(** X29. Where both checks return, the stand-alone one is at least as
    strict as the manager's own: for the same client, when
    [validate_stack_dependencies] of validate-dependencies.py returns a
    valid result on the snapshot of a registry and
    [CrossStackManager.validate_dependencies] returns on that registry,
    the manager's result is valid too (the first needs every required
    output to be exported, the second only to exist).  The manager need
    not return where the stand-alone check does: see
    [keyless_output_diverges]. *)
Theorem standalone_check_is_stricter
    (m : registry) (stack : string)
    (r : StackValidator.ValidationResult) (r' : CrossStackManager.validation_result) :
  StackValidator.validate_stack_dependencies describe_stacks (VStr stack)
    (export_configuration m) = Ok r ->
  CrossStackManager.validate_dependencies describe_stacks stack m = Ok r' ->
  StackValidator.is_valid r = true -> CrossStackManager.valid r' = true.
Proof.
  unfold StackValidator.validate_stack_dependencies,
    CrossStackManager.validate_dependencies. cbv zeta.
  replace (py_getitem (export_configuration m) "dependencies")
    with (Return (dependencies_section (dependencies m))) by reflexivity.
  cbn [of_result obind].
  rewrite has_key_dependencies_section, index_dependencies_section.
  unfold has_key. cbn [of_result obind].
  destruct (lookup stack (dependencies m)) as [ ds | ]; cbn [negb of_result obind py_iter].
  - intros H1 H2. apply (dependencies_loop ds _ _ _ _ H1 H2). reflexivity.
  - intros H1 H2. injection H2 as <-. reflexivity.
Qed.

End Strictness.

Section StrictnessWitness.

Import Manager ManagerFacts MoreExamples.

Lemma standalone_check_is_stricter_witness :
  StackValidator.validate_stack_dependencies deployed (VStr "ec2-stack")
    (export_configuration never_set)
  = Ok (StackValidator.mkResult (VStr "ec2-stack") true [] [] [] []) /\
  CrossStackManager.validate_dependencies deployed "ec2-stack" never_set
  = Ok (CrossStackManager.mkValidation true [] [] []) /\
  CrossStackManager.valid (CrossStackManager.mkValidation true [] [] []) = true.
Proof.
  split; [ reflexivity | ]. split; [ reflexivity | ].
  apply (@standalone_check_is_stricter deployed never_set "ec2-stack"
           (StackValidator.mkResult (VStr "ec2-stack") true [] [] [] [])
           (CrossStackManager.mkValidation true [] [] [])); reflexivity.
Defined.

(** On an output without [OutputKey] that is not exported, the
    stand-alone check passes over it and returns, and the manager raises
    [KeyError] at [output['OutputKey']]. *)
Lemma keyless_output_diverges :
  StackValidator.validate_stack_dependencies keyless (VStr "ec2-stack")
    (export_configuration never_set)
  = Ok (StackValidator.mkResult (VStr "ec2-stack") true [] [] [] []) /\
  CrossStackManager.validate_dependencies keyless "ec2-stack" never_set = Raise KeyError.
Proof. split; reflexivity. Qed.

End StrictnessWitness.
